(* ===== verification/_CoqProject ===== *)
-Q . S2P
Prelude.v
DList.v
HeapIface.v
PageTable.v
MemMng.v
Buddy.v
Acl.v
Task.v
Sched.v
Wait.v
Div.v
MemFn.v
StrFn.v
Timer.v
Words.v
Printf.v
PrintfSpec.v
Encode.v
Share.v
Driver.v
Request.v
Response.v
DriverSes.v
Ipi.v
Sync.v
Mutex.v
Semaphore.v
SwSem.v
Service.v
SvcSpec.v
Dispatch.v
Echo.v
ApiSpec.v
EchoSpec.v
Fat.v
FatRead.v
FatWrite.v
FatDir.v
FatNames.v
FatLfn.v
FatTrunc.v
Elf.v
ElfSpec.v
Sleep.v
SleepSpec.v
