(* ===== verification/Prelude.v ===== *)
(** * The secure kernel of OpenVirtualization, verified

    OpenVirtualization splits an ARM TrustZone processor between two worlds: a
    rich operating system (the normal world, Linux) and a small secure kernel
    that runs trusted services as tasks.  Its sources are under
    [tzone_sdk/otzone/src] (the secure kernel), [tzone_sdk/otz_driver] (the
    driver of the normal world) and [tzone_sdk/include] (what both share).  A
    client program asks the driver for a session with a service and sends it
    commands; the driver encodes the parameters into shared memory and executes
    an [smc] instruction; the dispatcher of the secure kernel wakes the task of
    the service, which decodes the parameters.

    This development translates the C code of the kernel's core, function by
    function, into executable Rocq definitions and proves theorems about them.

    ** Conventions

    Integers are [Z] with the wrap-around of the C types written out ([u32],
    [s32], ... below).  A function that reads or writes C state takes and
    returns that state.  [res] is the outcome of C code: [Ret] a normal
    return, [Panic] a [DIE_NOW], [Fault] a step C gives no meaning to (a wild
    or freed pointer, an index out of range).  A theorem that states [... = Ret
    ...] therefore also states that the code is free of such steps.  Pointers
    are integers and 0 is [NULL]; objects reached through pointers are kept in
    finite maps, so aliasing is that of the program.  Loops are structural
    recursions on a bound where C has one and on fuel otherwise; running out of
    fuel is a [Fault], so that the theorems show the fuel is enough: the length
    of the list for list walks, 4096 sections for the page table, the number
    of orders and nodes for the buddy allocator, the width of the words for
    the divisions, the number of events for the timer interrupt.

    ** The parts

    - [Prelude] (this file): outcomes, machine integers, list searches, bit
      fields.
    - [DList]: [lib/include/sw_list.h], circular doubly linked lists in a heap
      of links; [dlist] is the well-formedness invariant and
      [sw_list_refinement] shows that sequences of the list operations behave
      as on functional lists.  All later components keep their lists in it.
    - [HeapIface]: the interface of the private heaps as a type class with
      laws, and a reference heap.
    - [PageTable]: [arch/arm/armv7/page_table.c], descriptors of the
      first-level table and the sharing of sections of the normal world with a
      count of users ([ns_sharing_refinement]); mapping and unmapping of
      secure memory.
    - [MemMng]: [core/mem_mng.c], the bitmaps of physical and virtual pages:
      allocations are exclusive ([phy_pages_exclusive]).
    - [Buddy]: [lib/sw_buddy.c] and [lib/sw_heap.c], the buddy allocator and
      the heaps of tasks; [heap_run_safe] shows that live blocks never overlap
      over any run; it provides the instance of [HeapIface].
    - [Acl]: [lib/sw_user_mgmt.c], access of tasks to services; the three
      levels of lists implement a set of triples ([acl_refinement]).
    - [Task], [Sched]: [core/task.c], [core/global.c], [core/scheduler.c] and
      [arch/arm/armv7/cpu_task.c]; [Task] has the state and the operations,
      [Sched] an abstract machine of virtual processors that the kernel is
      shown to refine ([kernel_refines_virtual_cpus], [ready_task_runs]).
    - [Wait]: [lib/sw_wait.c], wait queues over the scheduler.
    - [Timer]: [core/sw_timer.c] and the conversions of
      [arch/arm/armv7/cpu_api.c], the clock and the queue of timer events.
    - [Div], [MemFn], [StrFn]: [lib/sw_div.c], [lib/sw_mem_functions.c] and
      [lib/sw_string_functions.c], compared with division, with simultaneous
      assignment of bytes and with operations on strings.
    - [Words]: words in byte memory and what the components share about ranges
      of bytes.
    - [Printf], [PrintfSpec]: [lib/sw_debug.c], formatted output;
      [vsprintf_renders] gives the text of every format that is put together
      from characters and conversions.
    - [Encode], [Driver], [DriverSes], [Request], [Response]: parameters on their way
      between the worlds.  [Encode] has the decoding
      and encoding of [core/secure_api.c], [Driver] the normal-world driver
      [otz_driver/otz_client_main.c] with its contexts, lists and encode
      buffers.  [Request] and [Response] show that
      what a client encodes is what the service decodes and the other way round
      ([request_roundtrip], [response_roundtrip]); [DriverSes] treats the
      sessions of the driver.
    - [Share]: what the code that maps memory of the normal world relies on, as
      a type class: mappings can be undone, and undoing them all restores the
      table.  [PageTable]'s functions implement it; sessions and commands use
      it.
    - [Ipi]: calls between tasks ([core/secure_api.c] and
      [arch/arm/armv7/cpu_ipi.c]): parameters and references to memory of the
      caller ([secure_references_roundtrip]).
    - [Sync], [Mutex], [Semaphore], [SwSem]:
      [arch/arm/armv7/sw_semaphores_asm.S] as
      programs of a small ARM machine with exclusive loads and stores, one step
      of one processor at a time; [mutual_exclusion], [no_lost_wakeup] and
      [semaphore_counts] are proved over all interleavings.  [SwSem] has the C
      functions of [lib/sw_semaphores.c] on top of them.
    - [Service], [SvcSpec]: opening and closing of sessions in
      [core/secure_api.c], the configurations of the services in [apps/],
      interrupt handlers and notifications.  [SvcSpec] states what the
      operations do on every path ([open_session_correct],
      [close_session_correct], [session_roundtrip]).
    - [Dispatch], [ApiSpec]: [apps/dispatcher_task.c] and
      [apps/task_control.c], the dispatcher's round and the execution of a
      command; [process_otzapi_mappings] shows that a command leaves no
      mapping behind.
    - [Echo], [EchoSpec]: [apps/echo_task.c], the service that returns its
      request ([echo_returns_request]) and its bounds.
    - [Fat], [FatDir]: [fs/fat32.c].  [Fat] has the table, open files, reading,
      writing and seeking; [FatDir] names, directories, opening, renaming,
      truncation and removal.  [FatRead] and [FatWrite] compare a file with the
      concatenation of its clusters ([file_read_contents],
      [write_seek_read]); [FatNames] and [FatLfn] show that names that were
      written are found ([create_then_find], [long_name_roundtrip]);
      [FatTrunc] when truncation terminates.
    - [Elf], [ElfSpec]: [arch/arm/armv7/elf_loader.c], relocation and loading of
      the object files of services; [loaded_calls_reach_kernel] shows where
      the loaded calls branch to.
    - [Sleep], [SleepSpec]: [lib/sw_timer_functions.c]: [Sleep] instantiates the
      heap of [Timer] with a kernel of [Sched], so that the event of a sleeping
      task runs its handler on the scheduler ([sleep_wakes]).

    The components interact through states that contain each other: the
    state [gst] of [Service] contains a kernel [kst] of [Task], memory and what
    the page table shares; [Dispatch] and [Echo] run on it.  The heap is an
    interface ([PrivateHeap] with its laws), which [Buddy] implements.  What a
    service does with a command, and in [Service] the loader, are parameters
    where the code calls through a pointer or across components.

    ** What the theorems show

    Refinements of abstract specifications (lists, access sets, virtual
    processors, section sharing, wait queues, relocations), invariants kept by
    every operation or step (heaps, page bitmaps, timer queue, semaphores),
    round trips (parameters, sessions, files, names), liveness of the scheduler,
    of wake-ups and of sleeping tasks, functional correctness on every branch,
    and the behaviour at the edges.  Several theorems state what the code
    does where that is not what it means to do (their names say so:
    [double_schedule_corrupts], [memncpy_overruns],
    [later_session_unreachable], [forward_branch_refused], ...); they hold of
    the code as written.

    ** Bounds and fuel

    Besides the fuel named above: strings get one step more than memory has
    bytes; reading and writing a file two rounds per byte, as a round either
    copies or changes the cluster; the walks over the file table and over
    cluster chains take a bound as an argument, and the theorems ask for one
    that is as long as the chain; the relocation loop one round per entry.  A
    variable that the code reads before it is set is an argument named [junk_].

    ** Not modelled

    - [read_dir] and [list_dir] of [fs/fat32.c] index a copy of an entry in
      units of whole entries, so that what they read is the heap behind it; the
      disk and the buffered streams ([fs/diskio.c], [lib/sw_filelib.c]) are
      device registers and glue.
    - Assembly and coprocessor access other than the semaphores: boot,
      exceptions, the monitor, world switches, the MMU's registers.  The context
      switch is modelled by what it saves and loads; interrupts are modelled
      where the code handles them and, in C code, never arrive in the middle of
      an operation.
    - Device drivers and the stubs for the compiler's C library: registers of
      devices.  What is printed ends as a list of bytes for the serial line.
    - The TEE libraries ([lib/otz_tee_crypto_api.c] and its siblings) that wrap OpenSSL and GMP, which
      the repository does not contain, and the services and tests on top of
      them.
    - The unreachable second half of [elf_load], which would load executables.
    - The client programs and the library of ioctl calls of the normal world,
      the boot package, and the image data of the keyboard. *)
From stdpp Require Import prelude gmap.

#[export] Set Default Goal Selector "!".
#[local] Open Scope Z_scope.

(** Map accesses at a computed key do not reduce under [simpl]. *)
#[global] Arguments gmap_lookup : simpl never.
#[global] Arguments gmap_partial_alter : simpl never.

(** ** Outcomes of C code *)

(** [Ret] is a normal return; [Panic] is a [DIE_NOW]; [Fault] is a step the C
    program has no defined result for (a wild or poisoned pointer, an access
    outside an object, a loop over a list that never meets its head). *)
Inductive res (A : Type) : Type :=
  | Ret (a : A)
  | Panic
  | Fault.
Arguments Ret {A} _.
Arguments Panic {A}.
Arguments Fault {A}.

#[export] Instance res_ret : MRet res := fun A a => Ret a.
#[export] Instance res_bind : MBind res := fun A B f m =>
  match m with Ret a => f a | Panic => Panic | Fault => Fault end.

Lemma res_bind_assoc {A B C} (m : res A) (f : A -> res B) (g : B -> res C) :
  ((m ≫= f) ≫= g) = (m ≫= fun a => f a ≫= g).
Proof. by destruct m. Qed.

Lemma res_bind_Ret {A B} (m : res A) (f : A -> res B) b :
  m ≫= f = Ret b -> exists a, m = Ret a /\ f a = Ret b.
Proof. destruct m; simpl; intros H; try discriminate. eauto. Qed.

(** A read that may be out of range. *)
Definition of_opt {A} (o : option A) : res A :=
  match o with Some a => Ret a | None => Fault end.

Lemma of_opt_Ret {A} (o : option A) a : of_opt o = Ret a <-> o = Some a.
Proof. destruct o; simpl; split; congruence. Qed.

Definition is_Ret {A} (m : res A) : Prop := exists a, m = Ret a.

(** Splits every successful bind among the hypotheses. *)
Ltac inv_ret :=
  repeat match goal with
  | H : res_bind _ _ _ _ = Ret _ |- _ => apply res_bind_Ret in H; destruct H as (? & ? & ?)
  | H : _ ≫= _ = Ret _ |- _ => apply res_bind_Ret in H; destruct H as (? & ? & ?)
  | H : of_opt _ = Ret _ |- _ => apply of_opt_Ret in H
  | H : Ret _ = Ret _ |- _ => injection H; clear H; intros; subst
  | H : mret _ = Ret _ |- _ => injection H; clear H; intros; subst
  | H : Panic = Ret _ |- _ => discriminate H
  | H : Fault = Ret _ |- _ => discriminate H
  end.

(** Closes conjunctions of closed comparisons and equations by evaluation. *)
Ltac by_compute := solve [vm_compute; repeat split; congruence].

(** ** Machine integers *)

(** Unsigned and two's-complement wrap-around at a width. *)
Definition uw (w x : Z) : Z := x mod 2 ^ w.
Definition sw (w x : Z) : Z := (x + 2 ^ (w - 1)) mod 2 ^ w - 2 ^ (w - 1).

Definition u8 : Z -> Z := uw 8.
Definition u16 : Z -> Z := uw 16.
Definition u32 : Z -> Z := uw 32.
Definition u64 : Z -> Z := uw 64.
Definition s8 : Z -> Z := sw 8.
Definition s32 : Z -> Z := sw 32.
Definition s64 : Z -> Z := sw 64.

(** Return codes of [sw_types.h]. *)
Definition OTZ_OK : Z := 0.
Definition OTZ_EFAIL : Z := -1.
Definition OTZ_ENOMEM : Z := -2.
Definition OTZ_ILLEGAL_ARGUMENT : Z := -3.

Definition in_u32 (x : Z) : Prop := 0 <= x < 2 ^ 32.
Definition in_s32 (x : Z) : Prop := - 2 ^ 31 <= x < 2 ^ 31.
Definition in_u64 (x : Z) : Prop := 0 <= x < 2 ^ 64.

(** ** Lists *)

Lemma filter_id {A} (P : A -> Prop) `{!forall x, Decision (P x)} (l : list A) :
  (forall x, x ∈ l -> P x) -> filter P l = l.
Proof.
  induction l as [|x l IH]; intros Hl; [done|].
  rewrite filter_cons_True by set_solver. f_equal. apply IH. set_solver.
Qed.

Lemma filter_remove {A} `{EqDecision A} (l1 l2 : list A) x :
  NoDup (l1 ++ x :: l2) -> filter (fun y => y <> x) (l1 ++ x :: l2) = l1 ++ l2.
Proof.
  intros N. rewrite filter_app, filter_cons_False by (by intros []).
  apply NoDup_app in N as (_ & N1 & N2). apply NoDup_cons in N2 as [N2 _].
  f_equal; apply filter_id; set_solver.
Qed.

(** The first element satisfying [p], updated in place: the element after the
    update and the list.  This is a [list_for_each] that breaks at a match. *)
Fixpoint find_upd {A} (p : A -> bool) (f : A -> A) (l : list A) : option (A * list A) :=
  match l with
  | [] => None
  | x :: l' =>
      if p x then Some (f x, f x :: l')
      else r ← find_upd p f l'; Some (fst r, x :: snd r)
  end.

(** The first element satisfying [p] and the list without it. *)
Fixpoint find_del {A} (p : A -> bool) (l : list A) : option (A * list A) :=
  match l with
  | [] => None
  | x :: l' =>
      if p x then Some (x, l')
      else r ← find_del p l'; Some (fst r, x :: snd r)
  end.

(** The first element satisfying [p]. *)
Fixpoint find_fst {A} (p : A -> bool) (l : list A) : option A :=
  match l with
  | [] => None
  | x :: l' => if p x then Some x else find_fst p l'
  end.

Lemma find_fst_Some {A} (p : A -> bool) l x :
  find_fst p l = Some x -> x ∈ l /\ p x = true.
Proof.
  induction l as [|y l IH]; simpl; [done|]. destruct (p y) eqn:E.
  - intros [= ->]. split; [set_solver|done].
  - intros Hf. destruct (IH Hf). split; [set_solver|done].
Qed.

Lemma find_fst_split {A} (p : A -> bool) l x :
  find_fst p l = Some x ->
  exists l1 l2, l = l1 ++ x :: l2 /\ p x = true /\ (forall z, z ∈ l1 -> p z = false).
Proof.
  induction l as [|y l IH]; simpl; [done|]. destruct (p y) eqn:E.
  - intros [= ->]. exists [], l. split; [done|]. split; [done|]. by intros z Hz%elem_of_nil.
  - intros (l1 & l2 & -> & Hx & Hl)%IH. exists (y :: l1), l2. split; [done|]. split; [done|]. set_solver.
Qed.

Lemma find_fst_None {A} (p : A -> bool) l :
  find_fst p l = None <-> (forall x, x ∈ l -> p x = false).
Proof.
  induction l as [|y l IH]; simpl; [set_solver|]. destruct (p y) eqn:E.
  - split; [done|]. intros Hp. rewrite Hp in E; [done|set_solver].
  - rewrite IH. set_solver.
Qed.

Lemma find_upd_fst {A} (p : A -> bool) f l :
  fst <$> find_upd p f l = f <$> find_fst p l.
Proof.
  induction l as [|x l IH]; simpl; [done|]. destruct (p x); [done|].
  rewrite <-IH. by destruct (find_upd p f l).
Qed.

Lemma find_del_fst {A} (p : A -> bool) l : fst <$> find_del p l = find_fst p l.
Proof.
  induction l as [|x l IH]; simpl; [done|]. destruct (p x); [done|].
  rewrite <-IH. by destruct (find_del p l).
Qed.

Lemma find_upd_split {A} (p : A -> bool) f l y l' :
  find_upd p f l = Some (y, l') ->
  exists l1 x l2, l = l1 ++ x :: l2 /\ l' = l1 ++ f x :: l2 /\ y = f x /\ p x = true /\
    (forall z, z ∈ l1 -> p z = false).
Proof.
  revert y l'. induction l as [|x l IH]; intros y l'; simpl; [done|].
  destruct (p x) eqn:E.
  - intros [= <- <-]. exists [], x, l. split_and!; try done. set_solver.
  - intros Hb. apply bind_Some in Hb as ([y0 l0] & Hf & [= <- <-]).
    destruct (IH _ _ Hf) as (l1 & x0 & l2 & -> & -> & -> & Hp & Hl).
    exists (x :: l1), x0, l2. split_and!; try done. set_solver.
Qed.

Lemma find_del_split {A} (p : A -> bool) l x l' :
  find_del p l = Some (x, l') ->
  exists l1 l2, l = l1 ++ x :: l2 /\ l' = l1 ++ l2 /\ p x = true /\
    (forall z, z ∈ l1 -> p z = false).
Proof.
  revert x l'. induction l as [|a l IH]; intros x l'; simpl; [done|].
  destruct (p a) eqn:E.
  - intros [= <- <-]. exists [], l. split_and!; try done. set_solver.
  - intros Hb. apply bind_Some in Hb as ([y0 l0] & Hf & [= <- <-]).
    destruct (IH _ _ Hf) as (l1 & l2 & -> & -> & Hp & Hl).
    exists (a :: l1), l2. split_and!; try done. set_solver.
Qed.

(** ** Bits *)

Lemma testbit_high w f n : 0 <= f < 2 ^ w -> w <= n -> Z.testbit f n = false.
Proof.
  intros Hf Hn. destruct (decide (f = 0)) as [->|Hf0]; [apply Z.testbit_0_l|].
  apply Z.bits_above_log2; [lia|].
  assert (Z.log2 f < w); [|lia]. apply Z.log2_lt_pow2; lia.
Qed.

(** Reading a field of [w] bits at position [j]. *)
Definition field (d j w : Z) : Z := Z.land (Z.shiftr d j) (Z.ones w).

Lemma field_eq d j w f :
  0 <= j -> 0 <= w -> 0 <= f < 2 ^ w ->
  (forall i, 0 <= i < w -> Z.testbit d (i + j) = Z.testbit f i) ->
  field d j w = f.
Proof.
  intros Hj Hw Hf Hb. apply Z.bits_inj'. intros n Hn. unfold field.
  rewrite Z.land_spec, Z.shiftr_spec, Z.testbit_ones_nonneg by lia.
  destruct (Z.ltb_spec n w); [rewrite Hb by lia; apply andb_true_r|].
  rewrite (testbit_high w f n) by lia. apply andb_false_r.
Qed.

Lemma u32_id x : in_u32 x -> u32 x = x.
Proof. intros Hx. apply Z.mod_small. exact Hx. Qed.

Lemma u32_range x : in_u32 (u32 x).
Proof. apply Z.mod_pos_bound. lia. Qed.

Lemma s32_id x : in_s32 x -> s32 x = x.
Proof.
  unfold in_s32, s32, sw. intros Hx. change (32 - 1) with 31.
  rewrite Z.mod_small; lia.
Qed.

Lemma s32_range x : in_s32 (s32 x).
Proof.
  unfold in_s32, s32, sw. change (32 - 1) with 31.
  pose proof (Z.mod_pos_bound (x + 2 ^ 31) (2 ^ 32)). lia.
Qed.

Lemma u32_mod x : u32 (u32 x) = u32 x.
Proof. apply u32_id, u32_range. Qed.

(** ** [find_fst] after an update or a deletion *)

Lemma find_fst_app {A} (p : A -> bool) l1 l2 :
  find_fst p (l1 ++ l2) = match find_fst p l1 with Some x => Some x | None => find_fst p l2 end.
Proof. induction l1 as [|x l1 IH]; simpl; [done|]. by destruct (p x). Qed.

Lemma find_fst_upd_same {A} (p : A -> bool) f l y l' :
  (forall x, p x = true -> p (f x) = true) ->
  find_upd p f l = Some (y, l') -> find_fst p l' = Some y.
Proof.
  intros Hp Hf. destruct (find_upd_split _ _ _ _ _ Hf) as (l1 & x & l2 & -> & -> & -> & Hx & Hn).
  rewrite find_fst_app, (proj2 (find_fst_None p l1)) by done. simpl. by rewrite Hp.
Qed.

Lemma find_fst_upd_other {A} (p q : A -> bool) f l y l' :
  (forall x, p x = true -> q x = false /\ q (f x) = false) ->
  find_upd p f l = Some (y, l') -> find_fst q l' = find_fst q l.
Proof.
  intros Hq Hf. destruct (find_upd_split _ _ _ _ _ Hf) as (l1 & x & l2 & -> & -> & -> & Hx & Hn).
  rewrite !find_fst_app. simpl. by destruct (Hq x Hx) as [-> ->].
Qed.

Lemma find_fst_del_other {A} (p q : A -> bool) l y l' :
  (forall x, p x = true -> q x = false) ->
  find_del p l = Some (y, l') -> find_fst q l' = find_fst q l.
Proof.
  intros Hq Hf. destruct (find_del_split _ _ _ _ Hf) as (l1 & l2 & -> & -> & Hx & Hn).
  rewrite !find_fst_app. simpl. by rewrite Hq.
Qed.

Lemma find_upd_map {A B} (p : A -> bool) f (g : A -> B) l y l' :
  (forall x, g (f x) = g x) -> find_upd p f l = Some (y, l') -> g <$> l' = g <$> l.
Proof.
  intros Hg Hf. destruct (find_upd_split _ _ _ _ _ Hf) as (l1 & x & l2 & -> & -> & -> & Hx & Hn).
  by rewrite !fmap_app, !fmap_cons, Hg.
Qed.
