(* ===== verification/DList.v ===== *)
(** [tzone_sdk/include/sw_list.h]: intrusive circular doubly-linked lists.

    The model keeps the pointer structure: a heap maps every list node to its
    [next] and [prev] fields, deleted nodes hold the poison values, and the
    operations are the header's assignments in their order.  [dlist h hd l]
    says that [hd] heads a well-formed list whose nodes are [l]; the lemmas
    below show that each operation implements the Rocq list operation it
    stands for and leaves every other list alone. *)
From stdpp Require Import prelude gmap.
From S2P Require Import Prelude.

(** A [struct list *] held in a field. *)
Inductive ptr (K : Type) : Type :=
  | PNode (k : K)
  | LIST_POISON_NEXT
  | LIST_POISON_PREV.
Arguments PNode {K} _.
Arguments LIST_POISON_NEXT {K}.
Arguments LIST_POISON_PREV {K}.

#[export] Instance ptr_eq_dec {K} `{EqDecision K} : EqDecision (ptr K).
Proof. solve_decision. Defined.

Section dlist.
Context {K : Type} `{Countable K}.

(** The memory the lists live in: the [next] and the [prev] field of every
    [struct list] that has been written. *)
Record lheap : Type := LHeap { nx : gmap K (ptr K); pv : gmap K (ptr K) }.

Definition set_next (k : K) (p : ptr K) (h : lheap) : lheap :=
  LHeap (<[k:=p]> (nx h)) (pv h).
Definition set_prev (k : K) (p : ptr K) (h : lheap) : lheap :=
  LHeap (nx h) (<[k:=p]> (pv h)).

(** Dereferencing: a poisoned or never-written pointer faults. *)
Definition deref (o : option (ptr K)) : res K :=
  match o with Some (PNode k) => Ret k | _ => Fault end.
Definition get_next (h : lheap) (k : K) : res K := deref (nx h !! k).
Definition get_prev (h : lheap) (k : K) : res K := deref (pv h !! k).

Definition empty_lheap : lheap := LHeap ∅ ∅.

Definition INIT_LIST_HEAD (k : K) (h : lheap) : lheap :=
  set_prev k (PNode k) (set_next k (PNode k) h).

Definition __list_add (prev next new : K) (h : lheap) : lheap :=
  set_prev next (PNode new)
    (set_next prev (PNode new)
      (set_next new (PNode next)
        (set_prev new (PNode prev) h))).

Definition list_add (head new : K) (h : lheap) : res lheap :=
  next ← get_next h head;
  mret (__list_add head next new h).

Definition list_add_tail (tnode new : K) (h : lheap) : res lheap :=
  prev ← get_prev h tnode;
  mret (__list_add prev tnode new h).

Definition __list_del (node prev next : K) (h : lheap) : res lheap :=
  n ← of_opt (nx h !! node);
  let h1 := set_next prev n h in
  p ← of_opt (pv h1 !! node);
  let h2 := set_prev next p h1 in
  mret (set_prev node LIST_POISON_PREV (set_next node LIST_POISON_NEXT h2)).

Definition list_del (node : K) (h : lheap) : res lheap :=
  prev ← get_prev h node;
  next ← get_next h node;
  __list_del node prev next h.

Definition list_pop_tail (head : K) (h : lheap) : res (K * lheap) :=
  dnode ← get_prev h head;
  h' ← list_del dnode h;
  mret (dnode, h').

Definition list_pop (head : K) (h : lheap) : res (K * lheap) :=
  dnode ← get_next h head;
  h' ← list_del dnode h;
  mret (dnode, h').

Definition list_empty (head : K) (h : lheap) : res bool :=
  n ← of_opt (nx h !! head);
  mret (bool_decide (n = PNode head)).

(** [list_for_each(curr, head)]: the nodes the loop visits, in order.  The
    fuel is the number of nodes in memory; a walk longer than that repeats a
    node and never meets [head]. *)
Fixpoint list_walk (fuel : nat) (h : lheap) (head curr : K) : res (list K) :=
  if decide (curr = head) then mret [] else
  match fuel with
  | O => Fault
  | S f =>
      next ← get_next h curr;
      rest ← list_walk f h head next;
      mret (curr :: rest)
  end.

Definition list_for_each (head : K) (h : lheap) : res (list K) :=
  first ← get_next h head;
  list_walk (size (nx h)) h head first.

(** [list_for_each] with a [break] at the first node whose body says so. *)
Fixpoint list_search_from (fuel : nat) (body : K -> res bool) (h : lheap) (head curr : K) : res (option K) :=
  if decide (curr = head) then mret None else
  match fuel with
  | O => Fault
  | S f =>
      b ← body curr;
      if (b : bool) then mret (Some curr)
      else next ← get_next h curr; list_search_from f body h head next
  end.

Definition list_search (body : K -> res bool) (head : K) (h : lheap) : res (option K) :=
  first ← get_next h head;
  list_search_from (size (nx h)) body h head first.

(** ** The abstraction *)

Definition edge (h : lheap) (a b : K) : Prop :=
  nx h !! a = Some (PNode b) /\ pv h !! b = Some (PNode a).

Fixpoint path (h : lheap) (c : list K) : Prop :=
  match c with
  | a :: ((b :: _) as t) => edge h a b /\ path h t
  | _ => True
  end.

Definition dlist (h : lheap) (hd : K) (l : list K) : Prop :=
  NoDup (hd :: l) /\ path h (hd :: l ++ [hd]).

(** What an operation that may only touch the nodes [l] leaves alone. *)
Definition same_off (l : list K) (h h' : lheap) : Prop :=
  forall k, k ∉ l -> nx h' !! k = nx h !! k /\ pv h' !! k = pv h !! k.

Lemma same_off_trans l h1 h2 h3 :
  same_off l h1 h2 -> same_off l h2 h3 -> same_off l h1 h3.
Proof.
  intros A B k Hk. destruct (A k Hk), (B k Hk). split; congruence.
Qed.

Lemma same_off_weaken l l' h h' :
  (forall k, k ∈ l -> k ∈ l') -> same_off l h h' -> same_off l' h h'.
Proof. intros Hin A k Hk. apply A. naive_solver. Qed.

Lemma same_off_sym l h h' : same_off l h h' -> same_off l h' h.
Proof. intros A k Hk. destruct (A k Hk). split; congruence. Qed.

Lemma path_app h c1 x c2 :
  path h (c1 ++ x :: c2) <-> path h (c1 ++ [x]) /\ path h (x :: c2).
Proof.
  induction c1 as [|a c1 IH]; [simpl; tauto|].
  destruct c1 as [|b c1]; [simpl in *; tauto|].
  simpl in *. tauto.
Qed.

Lemma path_frame h h' c :
  (forall k, k ∈ removelast c -> nx h' !! k = nx h !! k) ->
  (forall k, k ∈ tail c -> pv h' !! k = pv h !! k) ->
  path h c -> path h' c.
Proof.
  induction c as [|a c IH]; [done|]. destruct c as [|b c]; [done|].
  intros Hn Hp [[E1 E2] Hc]. split.
  - split.
    + rewrite Hn; [done|]. simpl. set_solver.
    + rewrite Hp; [done|]. simpl. set_solver.
  - apply IH; [| |done].
    + intros k Hk. apply Hn. simpl in *. set_solver.
    + intros k Hk. apply Hp. simpl in *. set_solver.
Qed.

Lemma dlist_frame h h' hd l :
  (forall k, k ∈ hd :: l -> nx h' !! k = nx h !! k /\ pv h' !! k = pv h !! k) ->
  dlist h hd l -> dlist h' hd l.
Proof.
  intros Hk [Hnd Hp]. split; [done|]. revert Hp. apply path_frame.
  - rewrite app_comm_cons, removelast_last. intros k Hin. by apply Hk.
  - simpl. intros k Hin. apply Hk. set_solver.
Qed.

Lemma dlist_same_off h h' hd l m :
  same_off m h h' -> (forall k, k ∈ hd :: l -> k ∉ m) -> dlist h hd l -> dlist h' hd l.
Proof. intros Hs Hd. apply dlist_frame. intros k Hk. by apply Hs, Hd. Qed.

Lemma dlist_init h k : dlist (INIT_LIST_HEAD k h) k [].
Proof.
  split; [apply NoDup_singleton|].
  simpl. unfold edge, INIT_LIST_HEAD. simpl. by rewrite !lookup_insert_eq.
Qed.

Lemma init_same_off h k : same_off [k] h (INIT_LIST_HEAD k h).
Proof.
  intros j Hj. assert (k <> j) by set_solver.
  unfold INIT_LIST_HEAD. simpl. by rewrite !lookup_insert_ne.
Qed.
(** The node before position [length l1] of [hd :: l1 ++ l2 ++ [hd]], and
    the node at it. *)
Definition before (hd : K) (l1 : list K) : K := default hd (last l1).
Definition after (hd : K) (l2 : list K) : K := default hd (head l2).

Lemma before_split hd l1 : exists c, hd :: l1 = c ++ [before hd l1].
Proof.
  unfold before. destruct l1 as [|x l1 _] using rev_ind; [by exists []|].
  exists (hd :: l1). by rewrite last_snoc.
Qed.

Lemma after_split hd l2 : exists c, l2 ++ [hd] = after hd l2 :: c.
Proof. unfold after. destruct l2 as [|x l2]; simpl; eauto. Qed.

Lemma path_cut h hd l1 l2 :
  path h (hd :: (l1 ++ l2) ++ [hd]) <->
  path h (hd :: l1) /\ edge h (before hd l1) (after hd l2) /\ path h (l2 ++ [hd]).
Proof.
  destruct (before_split hd l1) as [c1 E1], (after_split hd l2) as [c2 E2].
  rewrite <-app_assoc, E2, app_comm_cons, E1, <-app_assoc. simpl.
  rewrite path_app. simpl. tauto.
Qed.

Lemma edge_list_add prev next new h :
  new <> prev -> new <> next ->
  edge (__list_add prev next new h) prev new /\ edge (__list_add prev next new h) new next.
Proof.
  intros A B. unfold edge, __list_add. simpl.
  rewrite lookup_insert_eq, (lookup_insert_ne _ next new) by done.
  rewrite !lookup_insert_eq, (lookup_insert_ne _ prev new) by done.
  by rewrite !lookup_insert_eq.
Qed.

Lemma list_add_between_same_off prev next new h :
  same_off [prev; next; new] h (__list_add prev next new h).
Proof.
  intros k Hk. unfold __list_add. simpl.
  rewrite !lookup_insert_ne by set_solver. done.
Qed.

Lemma before_elem hd l1 : before hd l1 ∈ hd :: l1.
Proof.
  destruct (before_split hd l1) as [c E]. rewrite E. set_solver.
Qed.

Lemma after_elem hd l2 : after hd l2 ∈ hd :: l2.
Proof. unfold after. destruct l2; set_solver. Qed.

Lemma NoDup_split hd l1 l2 :
  NoDup (hd :: l1 ++ l2) ->
  before hd l1 ∉ removelast (hd :: l1) /\ before hd l1 ∉ l2 /\
  after hd l2 ∉ l1 /\ after hd l2 ∉ tail (l2 ++ [hd]).
Proof.
  intros Hnd. destruct (before_split hd l1) as [c1 E1], (after_split hd l2) as [c2 E2].
  assert (Hp : NoDup (l1 ++ l2 ++ [hd])).
  { rewrite app_assoc. apply NoDup_app. apply NoDup_cons in Hnd as [Hn1 Hn2].
    split_and!; [done| |apply NoDup_singleton]. set_solver. }
  rewrite E2 in Hp |- *. rewrite app_comm_cons, E1 in Hnd. rewrite E1.
  rewrite removelast_last. simpl.
  apply NoDup_app in Hp as (Hp1 & Hp2 & Hp3). apply NoDup_cons in Hp3 as [Hp4 _].
  apply NoDup_app in Hnd as (Hd1 & Hd2 & _). apply NoDup_app in Hd1 as (Hd3 & Hd4 & _).
  set_solver.
Qed.

Lemma dlist_insert h hd l1 l2 new :
  dlist h hd (l1 ++ l2) -> new ∉ hd :: l1 ++ l2 ->
  dlist (__list_add (before hd l1) (after hd l2) new h) hd (l1 ++ new :: l2).
Proof.
  intros [Hnd Hp] Hnew. split.
  { rewrite app_comm_cons, <-Permutation_middle. by apply NoDup_cons. }
  pose proof (before_elem hd l1) as Hb. pose proof (after_elem hd l2) as Ha.
  destruct (NoDup_split _ _ _ Hnd) as (N1 & N2 & N3 & N4).
  destruct (edge_list_add (before hd l1) (after hd l2) new h) as [D1 D2]; [set_solver..|].
  apply path_cut in Hp as (P1 & _ & P2). apply path_cut.
  set (h' := __list_add _ _ _ _) in *. split_and!; [|done|].
  - revert P1. apply path_frame; intros k Hk; simpl.
    + rewrite !lookup_insert_ne; [done|..]; [|set_solver].
      intros <-. apply Hnew. destruct (before_split hd l1) as [c E].
      rewrite app_comm_cons, E. rewrite E, removelast_last in Hk. set_solver.
    + simpl in Hk. rewrite !lookup_insert_ne by set_solver. done.
  - change ((new :: l2) ++ [hd]) with (new :: l2 ++ [hd]).
    destruct (after_split hd l2) as [c2 E2]. rewrite E2 in P2 |- *.
    split; [done|]. revert P2. rewrite <-E2. apply path_frame; intros k Hk; simpl.
    + rewrite removelast_last in Hk. rewrite !lookup_insert_ne by set_solver. done.
    + assert (k ∈ l2 ++ [hd]) by (rewrite E2 in Hk |- *; set_solver).
      rewrite !lookup_insert_ne by set_solver. done.
Qed.
(** *** Reading a well-formed list *)

Lemma dlist_edge h hd l1 l2 :
  dlist h hd (l1 ++ l2) -> edge h (before hd l1) (after hd l2).
Proof. intros [_ Hp]. by apply path_cut in Hp as (_ & E & _). Qed.

Lemma get_next_edge h a b : edge h a b -> get_next h a = Ret b.
Proof. intros [E _]. unfold get_next. by rewrite E. Qed.

Lemma get_prev_edge h a b : edge h a b -> get_prev h b = Ret a.
Proof. intros [_ E]. unfold get_prev. by rewrite E. Qed.

Lemma get_next_head h hd l : dlist h hd l -> get_next h hd = Ret (after hd l).
Proof. intros D. by apply get_next_edge, (dlist_edge h hd [] l). Qed.

Lemma get_prev_head h hd l : dlist h hd l -> get_prev h hd = Ret (before hd l).
Proof.
  intros D. apply get_prev_edge. apply (dlist_edge h hd l []). by rewrite app_nil_r.
Qed.

Lemma before_snoc hd l x : before hd (l ++ [x]) = x.
Proof. unfold before. by rewrite last_snoc. Qed.

Lemma dlist_nodup h hd l : dlist h hd l -> NoDup (hd :: l).
Proof. by intros [? _]. Qed.

Lemma list_empty_spec h hd l :
  dlist h hd l -> list_empty hd h = Ret (bool_decide (l = [])).
Proof.
  intros D. unfold list_empty. pose proof (dlist_edge h hd [] l D) as [E _].
  change (before hd []) with hd in E. rewrite E. simpl. f_equal. apply bool_decide_ext.
  unfold after. destruct l as [|x l]; simpl; [done|].
  pose proof (dlist_nodup _ _ _ D) as N. apply NoDup_cons in N as [N _]. split.
  - intros [= ->]. set_solver.
  - done.
Qed.

Lemma list_walk_spec h hd l1 l2 fuel :
  dlist h hd (l1 ++ l2) -> (length l2 <= fuel)%nat ->
  list_walk fuel h hd (after hd l2) = Ret l2.
Proof.
  revert l1 fuel. induction l2 as [|x l2 IH]; intros l1 fuel D Hf.
  - destruct fuel; simpl; by rewrite decide_True.
  - destruct fuel as [|fuel]; simpl in Hf; [lia|]. cbn [after default head].
    unfold after. simpl. rewrite decide_False.
    + replace (l1 ++ x :: l2) with ((l1 ++ [x]) ++ l2) in D by (by rewrite <-app_assoc).
      pose proof (dlist_edge _ _ _ _ D) as E. rewrite before_snoc in E.
      rewrite (get_next_edge _ _ _ E). simpl.
      rewrite (IH (l1 ++ [x])); [done|done|lia].
    + apply dlist_nodup, NoDup_cons in D as [N _]. set_solver.
Qed.

Lemma dlist_dom h hd l k : dlist h hd l -> k ∈ hd :: l -> k ∈ dom (nx h).
Proof.
  intros D Hk. apply list_elem_of_split in Hk as (c1 & c2 & E).
  assert (exists b, edge h k b) as [b [Hb _]]; [|by apply elem_of_dom_2 in Hb].
  destruct c1 as [|a c1]; simplify_eq/=.
  - eexists. apply (dlist_edge h k [] c2). done.
  - replace (c1 ++ k :: c2) with ((c1 ++ [k]) ++ c2) in D by (by rewrite <-app_assoc).
    pose proof (dlist_edge _ _ _ _ D) as E. rewrite before_snoc in E. eauto.
Qed.

Lemma dlist_length h hd l : dlist h hd l -> (length l <= size (nx h))%nat.
Proof.
  intros D. pose proof (dlist_nodup _ _ _ D) as N.
  assert (length (hd :: l) <= size (nx h))%nat; [|simpl in *; lia].
  rewrite <-size_dom, <-(size_list_to_set (C:=gset K) _ N).
  apply subseteq_size. intros k Hk. apply elem_of_list_to_set in Hk.
  by eapply dlist_dom.
Qed.

(** The traversal terminates and visits exactly the nodes of the list. *)
Lemma list_for_each_spec h hd l : dlist h hd l -> list_for_each hd h = Ret l.
Proof.
  intros D. unfold list_for_each. rewrite (get_next_head _ _ _ D). simpl.
  apply (list_walk_spec h hd []); [done|]. by eapply dlist_length.
Qed.

Lemma list_search_from_spec body p h hd l1 l2 fuel :
  dlist h hd (l1 ++ l2) -> (length l2 <= fuel)%nat ->
  (forall k, k ∈ l2 -> body k = Ret (p k)) ->
  list_search_from fuel body h hd (after hd l2) = Ret (find_fst p l2).
Proof.
  revert l1 fuel. induction l2 as [|x l2 IH]; intros l1 fuel D Hf Hb.
  - destruct fuel; simpl; by rewrite decide_True.
  - destruct fuel as [|fuel]; simpl in Hf; [lia|]. unfold after. simpl. rewrite decide_False.
    + rewrite (Hb x) by set_solver. simpl. destruct (p x); [done|].
      replace (l1 ++ x :: l2) with ((l1 ++ [x]) ++ l2) in D by (by rewrite <-app_assoc).
      pose proof (dlist_edge _ _ _ _ D) as E. rewrite before_snoc in E.
      rewrite (get_next_edge _ _ _ E). simpl.
      apply (IH (l1 ++ [x])); [done|lia|]. intros k Hk. apply Hb. set_solver.
    + apply dlist_nodup, NoDup_cons in D as [N _]. set_solver.
Qed.

(** On a well-formed list whose nodes the body can inspect, the loop stops at
    the first match. *)
Lemma list_search_spec body p h hd l :
  dlist h hd l -> (forall k, k ∈ l -> body k = Ret (p k)) ->
  list_search body hd h = Ret (find_fst p l).
Proof.
  intros D Hb. unfold list_search. rewrite (get_next_head _ _ _ D). simpl.
  apply (list_search_from_spec body p h hd []); [done| |done]. by eapply dlist_length.
Qed.

(** *** Insertion *)

Lemma list_add_after h hd l1 x l2 new :
  dlist h hd (l1 ++ x :: l2) -> new ∉ hd :: l1 ++ x :: l2 ->
  exists h', list_add x new h = Ret h' /\ dlist h' hd (l1 ++ x :: new :: l2) /\
    same_off (hd :: new :: l1 ++ x :: l2) h h'.
Proof.
  intros D Hn. replace (l1 ++ x :: l2) with ((l1 ++ [x]) ++ l2) in * by (by rewrite <-app_assoc).
  pose proof (dlist_edge _ _ _ _ D) as E. rewrite before_snoc in E.
  unfold list_add. rewrite (get_next_edge _ _ _ E). simpl. eexists. split_and!; [done| |].
  - pose proof (dlist_insert _ _ _ _ _ D Hn) as I. rewrite before_snoc in I.
    by rewrite <-app_assoc in I.
  - eapply same_off_weaken; [|apply list_add_between_same_off].
    pose proof (after_elem hd l2). set_solver.
Qed.

Lemma list_add_before h hd l1 x l2 new :
  dlist h hd (l1 ++ x :: l2) -> new ∉ hd :: l1 ++ x :: l2 ->
  exists h', list_add_tail x new h = Ret h' /\ dlist h' hd (l1 ++ new :: x :: l2) /\
    same_off (hd :: new :: l1 ++ x :: l2) h h'.
Proof.
  intros D Hn. pose proof (dlist_edge _ _ _ _ D) as E. unfold list_add_tail.
  unfold after in E. simpl in E. rewrite (get_prev_edge _ _ _ E). simpl.
  eexists. split_and!; [done| |].
  - apply (dlist_insert _ _ _ _ _ D Hn).
  - eapply same_off_weaken; [|apply list_add_between_same_off].
    pose proof (before_elem hd l1). set_solver.
Qed.

Lemma list_add_head h hd l new :
  dlist h hd l -> new ∉ hd :: l ->
  exists h', list_add hd new h = Ret h' /\ dlist h' hd (new :: l) /\
    same_off (hd :: new :: l) h h'.
Proof.
  intros D Hn. unfold list_add. rewrite (get_next_head _ _ _ D). simpl.
  eexists. split_and!; [done| |].
  - apply (dlist_insert _ _ [] _ _ D Hn).
  - eapply same_off_weaken; [|apply list_add_between_same_off].
    pose proof (after_elem hd l). set_solver.
Qed.

Lemma list_add_tail_head h hd l new :
  dlist h hd l -> new ∉ hd :: l ->
  exists h', list_add_tail hd new h = Ret h' /\ dlist h' hd (l ++ [new]) /\
    same_off (hd :: new :: l) h h'.
Proof.
  intros D Hn. unfold list_add_tail. rewrite (get_prev_head _ _ _ D). simpl.
  eexists. split_and!; [done| |].
  - pose proof (dlist_insert h hd l [] new) as I. rewrite !app_nil_r in I. by apply I.
  - eapply same_off_weaken; [|apply list_add_between_same_off].
    pose proof (before_elem hd l). set_solver.
Qed.

(** *** Deletion *)

Lemma dlist_remove h hd l1 x l2 :
  dlist h hd (l1 ++ x :: l2) ->
  exists h', list_del x h = Ret h' /\ dlist h' hd (l1 ++ l2) /\
    nx h' !! x = Some LIST_POISON_NEXT /\ pv h' !! x = Some LIST_POISON_PREV /\
    same_off (hd :: l1 ++ x :: l2) h h'.
Proof.
  intros D. pose proof (dlist_edge _ _ _ _ D) as E1.
  assert (D2 : dlist h hd ((l1 ++ [x]) ++ l2)) by (by rewrite <-app_assoc).
  pose proof (dlist_edge _ _ _ _ D2) as E2. rewrite before_snoc in E2.
  unfold after in E1. simpl in E1.
  unfold list_del. rewrite (get_prev_edge _ _ _ E1), (get_next_edge _ _ _ E2). simpl.
  pose proof (before_elem hd l1) as Hb. pose proof (after_elem hd l2) as Ha.
  destruct D as [Hnd Hp]. rewrite app_comm_cons in Hnd.
  assert (Hx : x ∉ hd :: l1 ++ l2).
  { rewrite <-Permutation_middle in Hnd. apply NoDup_cons in Hnd as [? _]. set_solver. }
  assert (Hnd2 : NoDup (hd :: l1 ++ l2)).
  { rewrite <-Permutation_middle in Hnd. by apply NoDup_cons in Hnd as [_ ?]. }
  destruct (NoDup_split _ _ _ Hnd2) as (N1 & N2 & N3 & N4).
  destruct E1 as [E1n E1p], E2 as [E2n E2p]. unfold __list_del. rewrite E2n. simpl.
  rewrite E1p. simpl. eexists. split_and!; [done| | | |].
  - split; [done|]. apply path_cut. destruct D2 as [_ P].
    apply path_cut in P as (P1 & _ & P2). split_and!.
    + change (hd :: l1 ++ [x]) with ((hd :: l1) ++ [x]) in P1.
      assert (P1' : path h (hd :: l1)).
      { destruct (before_split hd l1) as [c E]. rewrite E in P1 |- *.
        rewrite <-app_assoc in P1. simpl in P1. by apply path_app in P1 as [? _]. }
      revert P1'. apply path_frame; intros k Hk; simpl.
      * assert (k ∈ hd :: l1).
        { destruct (before_split hd l1) as [c E]. rewrite E in Hk |- *.
          rewrite removelast_last in Hk. set_solver. }
        rewrite !lookup_insert_ne; set_solver.
      * simpl in Hk. rewrite !lookup_insert_ne; set_solver.
    + split; simpl; (rewrite lookup_insert_ne by set_solver); by rewrite lookup_insert_eq.
    + destruct (after_split hd l2) as [c2 E]. revert P2. apply path_frame; intros k Hk; simpl.
      * rewrite removelast_last in Hk. rewrite !lookup_insert_ne; set_solver.
      * assert (k ∈ l2 ++ [hd]) by (rewrite E in Hk |- *; set_solver).
        rewrite !lookup_insert_ne; set_solver.
  - simpl. by rewrite lookup_insert_eq.
  - simpl. by rewrite lookup_insert_eq.
  - intros k Hk. simpl. rewrite !lookup_insert_ne; set_solver.
Qed.

Lemma list_pop_spec h hd x l :
  dlist h hd (x :: l) ->
  exists h', list_pop hd h = Ret (x, h') /\ dlist h' hd l /\
    same_off (hd :: x :: l) h h'.
Proof.
  intros D. unfold list_pop. rewrite (get_next_head _ _ _ D). simpl.
  destruct (dlist_remove h hd [] x l D) as (h' & E & D' & _ & _ & S).
  unfold after. simpl. rewrite E. simpl. eauto.
Qed.

Lemma list_pop_tail_spec h hd x l :
  dlist h hd (l ++ [x]) ->
  exists h', list_pop_tail hd h = Ret (x, h') /\ dlist h' hd l /\
    same_off (hd :: l ++ [x]) h h'.
Proof.
  intros D. unfold list_pop_tail. rewrite (get_prev_head _ _ _ D). simpl.
  destruct (dlist_remove h hd l x [] D) as (h' & E & D' & _ & _ & S).
  rewrite before_snoc, E. simpl. rewrite app_nil_r in D'. eauto.
Qed.
(** *** Adding a node that is already in the list *)

(** What a traversal follows: the [next] fields alone. *)
Fixpoint fwd (h : lheap) (c : list K) : Prop :=
  match c with
  | a :: ((b :: _) as t) => nx h !! a = Some (PNode b) /\ fwd h t
  | _ => True
  end.

Lemma path_fwd h c : path h c -> fwd h c.
Proof.
  induction c as [|a c IH]; [done|]. destruct c as [|b c]; [done|].
  intros [[E _] P]. split; [done|]. by apply IH.
Qed.

Lemma fwd_frame h h' c :
  (forall k, k ∈ removelast c -> nx h' !! k = nx h !! k) -> fwd h c -> fwd h' c.
Proof.
  induction c as [|a c IH]; [done|]. destruct c as [|b c]; [done|].
  intros Hn [E Hc]. split.
  - rewrite Hn; [done|]. cbn. set_solver.
  - apply IH; [|done]. intros k Hk. apply Hn. cbn in *. set_solver.
Qed.

Lemma fwd_app h c1 x c2 : fwd h (c1 ++ x :: c2) <-> fwd h (c1 ++ [x]) /\ fwd h (x :: c2).
Proof.
  induction c1 as [|a c1 IH]; [simpl; tauto|]. destruct c1 as [|b c1]; simpl in *; tauto.
Qed.

Lemma list_walk_fwd h hd l z fuel :
  fwd h (l ++ [z]) -> hd ∉ l -> (length l <= fuel)%nat ->
  list_walk fuel h hd (after z l) = (rest ← list_walk (fuel - length l) h hd z; mret (l ++ rest)).
Proof.
  revert fuel. induction l as [|x l IH]; intros fuel F Hh Hf.
  - rewrite Nat.sub_0_r. unfold after. simpl. by destruct (list_walk fuel h hd z).
  - destruct fuel as [|fuel]; simpl in Hf; [lia|]. unfold after at 1. simpl.
    rewrite decide_False by set_solver.
    assert (E : nx h !! x = Some (PNode (after z l)) /\ fwd h (l ++ [z])).
    { destruct (after_split z l) as [c Ec]. cbn [app fwd] in F. rewrite Ec in F |- *. exact F. }
    unfold get_next. rewrite (proj1 E). simpl. rewrite IH by (set_solver || lia || apply E).
    by destruct (list_walk (fuel - length l) h hd z).
Qed.

Lemma list_walk_loop h hd x fuel : x <> hd -> nx h !! x = Some (PNode x) -> list_walk fuel h hd x = Fault.
Proof.
  intros Hx E. induction fuel as [|fuel IH]; simpl; rewrite decide_False by done; [done|].
  unfold get_next. rewrite E. simpl. by rewrite IH.
Qed.

(** Appending an element again cuts off everything behind it; appending the
    last element again closes it onto itself, and no traversal ends. *)
Lemma list_add_tail_again h hd l1 x l2 :
  dlist h hd (l1 ++ x :: l2) ->
  exists h', list_add_tail hd x h = Ret h' /\
    list_for_each hd h' = match l2 with [] => Fault | _ => Ret (l1 ++ [x]) end.
Proof.
  intros D. pose proof (dlist_nodup _ _ _ D) as Hnd. pose proof (proj2 D) as P.
  apply path_fwd in P. rewrite <-app_assoc in P.
  change (fwd h ((hd :: l1) ++ x :: l2 ++ [hd])) in P.
  apply fwd_app in P as [P1 _].
  unfold list_add_tail. rewrite (get_prev_head _ _ _ D). cbn. eexists. split; [done|].
  set (y := before hd (l1 ++ x :: l2)). set (h' := __list_add y hd x h).
  pose proof (dlist_length _ _ _ D) as Hlen. rewrite length_app in Hlen. cbn in Hlen.
  assert (Hx : x <> hd /\ x ∉ l1 /\ hd ∉ l1 /\ NoDup l1).
  { apply NoDup_cons in Hnd as [? N]. apply NoDup_app in N as (? & Hn & _). set_solver. }
  destruct Hx as (Hxh & Hx1 & Hh1 & _).
  assert (Hsz : (size (nx h) <= size (nx h'))%nat).
  { assert (Hi : forall (m : gmap K (ptr K)) i v, (size m <= size (<[i:=v]> m))%nat).
    { intros m i v. rewrite map_size_insert. destruct (m !! i); simpl; lia. }
    unfold h', __list_add. cbn. repeat (etrans; [|apply Hi]). done. }
  assert (Hlen1 : (length l1 < size (nx h'))%nat) by lia.
  assert (Hoff : forall k, k <> x -> k <> y -> nx h' !! k = nx h !! k).
  { intros k ? ?. unfold h', __list_add. cbn. by rewrite !lookup_insert_ne. }
  assert (Ey : nx h' !! y = Some (PNode x)) by (unfold h', __list_add; cbn; apply lookup_insert_eq).
  assert (F1 : y ∉ hd :: l1 -> fwd h' (hd :: l1 ++ [x])).
  { intros Hy. eapply fwd_frame; [|exact P1]. intros k. rewrite app_comm_cons, removelast_last.
    intros Hk. apply Hoff; intros ->; set_solver. }
  assert (Hfirst : fwd h' (hd :: l1 ++ [x]) ->
    list_for_each hd h' = (rest ← list_walk (size (nx h') - length l1) h' hd x; mret (l1 ++ rest))).
  { intros F. unfold list_for_each, get_next. destruct (after_split x l1) as [c Ec].
    assert (Hn : nx h' !! hd = Some (PNode (after x l1)) /\ fwd h' (l1 ++ [x])).
    { cbn [app fwd] in F. rewrite Ec in F |- *. exact F. }
    rewrite (proj1 Hn). cbn. apply list_walk_fwd; [apply Hn|done|]. by apply Nat.lt_le_incl. }
  destruct l2 as [|z l2].
  - assert (Eyx : y = x) by apply before_snoc. rewrite Hfirst.
    + rewrite list_walk_loop; [done|done|]. by rewrite <-Eyx at 1.
    + apply F1. rewrite Eyx. set_solver.
  - assert (Hy : y ∈ z :: l2).
    { unfold y, before. rewrite last_app_cons, last_cons_cons.
      destruct (last (z :: l2)) as [w|] eqn:Ew; [|by apply last_None in Ew].
      apply last_Some in Ew as [c ->]. cbn. set_solver. }
    apply NoDup_cons in Hnd as [Nh N]. apply NoDup_app in N as (_ & Hdis & N).
    apply NoDup_cons in N as [Nx _]. rewrite Hfirst.
    + destruct (size (nx h') - length l1)%nat as [|f] eqn:Ef; [lia|]. cbn [list_walk].
      rewrite decide_False by done. unfold get_next.
      assert (E : nx h' !! x = Some (PNode hd)).
      { unfold h', __list_add. cbn. rewrite lookup_insert_ne; [apply lookup_insert_eq|].
        intros Eyx. by rewrite Eyx in Hy. }
      rewrite E. cbn. destruct f; cbn; by rewrite decide_True.
    + apply F1. rewrite not_elem_of_cons. split.
      * intros Eyh. apply Nh. rewrite <-Eyh, elem_of_app, elem_of_cons. auto.
      * intros Hy1. apply (Hdis y Hy1). rewrite elem_of_cons. auto.
Qed.

(** ** Refinement of sequences of list operations *)

Inductive list_op : Type :=
  | OpAdd (new : K)
  | OpAddTail (new : K)
  | OpDel (node : K)
  | OpPop
  | OpPopTail.

(** The header's operations on the list headed by [hd]. *)
Definition run_op (hd : K) (op : list_op) (h : lheap) : res lheap :=
  match op with
  | OpAdd n => list_add hd n h
  | OpAddTail n => list_add_tail hd n h
  | OpDel x => list_del x h
  | OpPop => r ← list_pop hd h; mret (snd r)
  | OpPopTail => r ← list_pop_tail hd h; mret (snd r)
  end.

(** The contract: the operation on the sequence of nodes, where it is
    allowed (a new node is not in the list yet, a deleted one is). *)
Definition abs_op (hd : K) (op : list_op) (l : list K) : option (list K) :=
  match op with
  | OpAdd n => if decide (n ∈ hd :: l) then None else Some (n :: l)
  | OpAddTail n => if decide (n ∈ hd :: l) then None else Some (l ++ [n])
  | OpDel x => if decide (x ∈ l) then Some (filter (fun y => y <> x) l) else None
  | OpPop => match l with [] => None | _ :: l' => Some l' end
  | OpPopTail => match l with [] => None | _ => Some (removelast l) end
  end.

(** The nodes an operation may touch beside the list's own. *)
Definition op_new (op : list_op) : list K :=
  match op with OpAdd n | OpAddTail n => [n] | _ => [] end.

Fixpoint run_ops (hd : K) (ops : list list_op) (h : lheap) : res lheap :=
  match ops with
  | [] => mret h
  | op :: ops' => h1 ← run_op hd op h; run_ops hd ops' h1
  end.

Fixpoint abs_ops (hd : K) (ops : list list_op) (l : list K) : option (list K) :=
  match ops with
  | [] => Some l
  | op :: ops' => l1 ← abs_op hd op l; abs_ops hd ops' l1
  end.

Lemma run_op_spec hd op h l l' :
  dlist h hd l -> abs_op hd op l = Some l' ->
  exists h', run_op hd op h = Ret h' /\ dlist h' hd l' /\
    same_off (hd :: op_new op ++ l) h h' /\ (forall k, k ∈ l' -> k ∈ op_new op ++ l).
Proof.
  intros D A. destruct op as [n|n|x| |]; simpl in *; repeat case_decide; simplify_eq.
  - destruct (list_add_head h hd l n) as (h' & E & D' & S); [done..|].
    exists h'. split_and!; [done..|set_solver].
  - destruct (list_add_tail_head h hd l n) as (h' & E & D' & S); [done..|].
    exists h'. split_and!; [done..|set_solver].
  - apply list_elem_of_split in H0 as (l1 & l2 & ->).
    destruct (dlist_remove h hd l1 x l2 D) as (h' & E & D' & _ & _ & S).
    exists h'. pose proof (dlist_nodup _ _ _ D) as N. apply NoDup_cons in N as [_ N].
    rewrite (filter_remove _ _ _ N). split_and!; [done..|set_solver].
  - destruct l as [|x l]; simplify_eq.
    destruct (list_pop_spec h hd x l' D) as (h' & E & D' & S).
    exists h'. rewrite E. split_and!; [done..|set_solver].
  - destruct l as [|x l _] using rev_ind; [done|].
    destruct (list_pop_tail_spec h hd x l D) as (h' & E & D' & S).
    exists h'. rewrite E. assert (l' = l) as ->.
    { rewrite removelast_last in A. destruct (l ++ [x]) eqn:El; [by destruct l|congruence]. }
    split_and!; [done..|set_solver].
Qed.

(** C15: [sw_list.h] implements lists.  Any sequence of insertions, deletions
    and pops the contract allows on a well-formed list runs without faulting,
    leaves the list that the same sequence of operations on Rocq lists
    computes, every traversal of it visits exactly that list, and no other
    well-formed list in memory is disturbed. *)
Theorem sw_list_refinement hd ops h l l' hd2 l2 :
  dlist h hd l -> abs_ops hd ops l = Some l' ->
  dlist h hd2 l2 -> (forall k, k ∈ hd2 :: l2 -> k ∉ hd :: l ++ (ops ≫= op_new)) ->
  exists h', run_ops hd ops h = Ret h' /\ dlist h' hd l' /\
    list_for_each hd h' = Ret l' /\ dlist h' hd2 l2.
Proof.
  revert h l. induction ops as [|op ops IH]; intros h l D A D2 Hdis; simpl in *.
  - simplify_eq. exists h. split_and!; [done..| |done]. by apply list_for_each_spec.
  - apply bind_Some in A as (l1 & A1 & A2).
    destruct (run_op_spec hd op h l l1 D A1) as (h1 & E & D1 & S & Hin). rewrite E. simpl.
    apply (IH h1 l1); [done..| |].
    + eapply dlist_same_off; [exact S| |done]. intros k Hk. specialize (Hdis k Hk). set_solver.
    + intros k Hk. specialize (Hdis k Hk). set_solver.
Qed.
End dlist.
Arguments lheap K {_ _} : assert.

(** Two lists of numbered nodes, headed by 0 and by 10; the first one is edited. *)
Lemma sw_list_refinement_witness :
  exists h', run_ops 0%nat [OpAdd 1; OpAddTail 2; OpAdd 3; OpDel 1; OpPopTail]%nat
               (INIT_LIST_HEAD 10%nat (INIT_LIST_HEAD 0%nat empty_lheap)) = Ret h' /\
    dlist h' 0%nat [3]%nat /\ list_for_each 0%nat h' = Ret [3]%nat /\ dlist h' 10%nat [].
Proof.
  apply (sw_list_refinement 0%nat [OpAdd 1; OpAddTail 2; OpAdd 3; OpDel 1; OpPopTail]%nat
           _ [] [3]%nat 10%nat []).
  - eapply dlist_frame; [|apply (dlist_init empty_lheap)].
    intros k Hk. assert (k = 0%nat) as -> by set_solver. done.
  - reflexivity.
  - apply dlist_init.
  - intros k Hk. assert (k = 10%nat) as -> by set_solver. vm_compute. set_solver.
Defined.
