(* ===== verification/HeapIface.v ===== *)
(** What the kernel's private heaps ([lib/sw_buddy.c]) promise to the
    components that allocate from them.  [Buddy] provides an instance; the
    clients ([PageTable], [Acl], [Task], [Timer]) are proved against the class. *)
From stdpp Require Import prelude gmap.
From S2P Require Import Prelude.
#[local] Open Scope Z_scope.

Definition COMMON_HEAP_ID : Z := 0.

(** The operations: a heap is named by the task id that owns it, a returned
    address of 0 is [NULL]. *)
Class PrivateHeap (H : Type) : Type := {
  heap_malloc : Z -> Z -> H -> res (Z * H);
  heap_free : Z -> Z -> H -> res H;
  heap_alloc_private : Z -> H -> Z * H;
  heap_free_private : Z -> H -> Z * H;
}.

(** The laws: a well-formed heap stays well formed, an allocation of at most
    one block returns [NULL] or an address that is live nowhere, and only that
    address becomes live; freeing retires only the address it is given. *)
Class PrivateHeapLaws (H : Type) `{PrivateHeap H} : Type := {
  heap_wf : H -> Prop;
  heap_live : H -> gset Z;
  heap_max : Z;
  heap_malloc_ok : forall hid size h,
    heap_wf h -> 0 <= size <= heap_max ->
    exists p h', heap_malloc hid size h = Ret (p, h') /\ heap_wf h' /\
      ((p = 0 /\ heap_live h' = heap_live h) \/
       (p <> 0 /\ p ∉ heap_live h /\ heap_live h' = {[p]} ∪ heap_live h));
  heap_free_ok : forall hid p h,
    heap_wf h ->
    exists h', heap_free hid p h = Ret h' /\ heap_wf h' /\
      heap_live h ∖ {[p]} ⊆ heap_live h' /\ heap_live h' ⊆ heap_live h;
  heap_alloc_private_ok : forall hid h,
    heap_wf h -> heap_wf (snd (heap_alloc_private hid h)) /\
      heap_live (snd (heap_alloc_private hid h)) = heap_live h;
  heap_free_private_ok : forall hid h,
    heap_wf h -> heap_wf (snd (heap_free_private hid h)) /\
      heap_live (snd (heap_free_private hid h)) = heap_live h;
}.

(** ** A reference heap

    The simplest implementation of the interface: addresses are handed out in
    increasing order and never reused, and at most [bump_end] of them.  Clients
    instantiate their witnesses with it. *)
Record bump_heap : Type := BumpHeap { bump_next : Z; bump_end : Z; bump_live : gset Z }.

Definition bump_malloc (hid size : Z) (h : bump_heap) : res (Z * bump_heap) :=
  if bump_end h <=? bump_next h then mret (0, h)
  else mret (bump_next h,
             BumpHeap (bump_next h + Z.max 4 size) (bump_end h) ({[bump_next h]} ∪ bump_live h)).

Definition bump_free (hid p : Z) (h : bump_heap) : res bump_heap :=
  mret (BumpHeap (bump_next h) (bump_end h) (bump_live h ∖ {[p]})).

#[export] Instance bump_PrivateHeap : PrivateHeap bump_heap := {
  heap_malloc := bump_malloc;
  heap_free := bump_free;
  heap_alloc_private := fun _ h => (0, h);
  heap_free_private := fun _ h => (0, h);
}.

#[export] Program Instance bump_PrivateHeapLaws : PrivateHeapLaws bump_heap := {
  heap_wf h := 0 < bump_next h /\ forall p, p ∈ bump_live h -> p < bump_next h;
  heap_live := bump_live;
  heap_max := 4096;
}.
Next Obligation.
  intros hid size h [Hp Hl] Hs. unfold heap_malloc, bump_PrivateHeap, bump_malloc.
  case_match.
  - exists 0, h. split; [done|]. auto.
  - eexists _, _. split; [done|]. simpl. split; [|right].
    + split; [lia|]. intros p [->%elem_of_singleton|Hin]%elem_of_union; [lia|].
      apply Hl in Hin. lia.
    + split; [lia|]. split; [|done]. intros Hin%Hl. lia.
Qed.
Next Obligation.
  intros hid p h [Hp Hl]. eexists. split; [done|]. simpl. split; [|set_solver].
  split; [done|]. intros q Hq. apply Hl. set_solver.
Qed.
Next Obligation. done. Qed.
Next Obligation. done. Qed.
