(* ===== verification/PageTable.v ===== *)
(** [arch/arm/armv7/page_table.c]: the secure world's first-level page table
    and the reference counts of the normal-world sections mapped into it. *)
From stdpp Require Import prelude gmap.
From S2P Require Import Prelude HeapIface.
#[local] Open Scope Z_scope.

Definition SECTION_SIZE : Z := Z.shiftl 1 20.
Definition SECTION_BASE_MASK : Z := 0xfff00000.
Definition SECURE_ACCESS_DOMAIN : Z := 0.

Definition L1_TYPE_MASK : Z := 0x3.
Definition L1_TYPE_FAULT : Z := 0x0.
Definition L1_TYPE_SECTION : Z := 0x2.
Definition L1_SECTION_B_SHIFT : Z := 2.
Definition L1_SECTION_C_SHIFT : Z := 3.
Definition L1_SECTION_XN_SHIFT : Z := 4.
Definition L1_DOMAIN_SHIFT : Z := 5.
Definition L1_SECTION_AP_SHIFT : Z := 10.
Definition L1_SECTION_TEX_SHIFT : Z := 12.
Definition L1_SECTION_AP2_SHIFT : Z := 15.
Definition L1_SECTION_S_SHIFT : Z := 16.
Definition L1_SECTION_NG_SHIFT : Z := 17.
Definition L1_SECTION_NS_SHIFT : Z := 19.
Definition L1_SECTION_NS_IDX_MASK : Z := Z.shiftl 1 19.
Definition L1_SECTION_AP_MASK : Z := 0x3.
Definition L1_EXECUTE_NEVER : Z := 1.
Definition L1_EXECUTE_ALLOW : Z := 0.

(** [enum mem_access_ctrl], the values the file uses. *)
Definition PRIV_RW_USR_NO : Z := 1.
Definition PRIV_RW_USR_RW : Z := 3.

Definition ptf_to_ap (x : Z) : Z := Z.land x 0x7.
Definition ptf_to_xn (x : Z) : Z := Z.shiftr (Z.land (Z.lnot x) 0x8) 3.

(** [struct cpu_section]; every field but [va] and [pa] is a bit-field. *)
Record cpu_section : Type := CpuSection {
  va : Z; pa : Z;
  ns : Z; ng : Z; s : Z; tex : Z; ap : Z; dom : Z; xn : Z; c : Z; b : Z;
}.

Record devmap : Type := DevMap { dv_va : Z; dv_pa : Z; dv_size : Z }.

(** [struct sw_page_ref], with the address it was allocated at. *)
Record sw_page_ref : Type := PageRef { pr_ptr : Z; pr_l1_pte : Z; pr_ref_cnt : Z }.

Definition sizeof_sw_page_ref : Z := 16.

(** The first-level descriptor [map_section_entry] and [map_ns_section_entry]
    assemble, assignment by assignment. *)
Definition section_desc (e : cpu_section) : Z :=
  let pte := Z.lor (Z.land (pa e) SECTION_BASE_MASK) L1_TYPE_SECTION in
  let pte := Z.lor pte (Z.shiftl (dom e) L1_DOMAIN_SHIFT) in
  let pte := Z.lor pte (Z.shiftl (b e) L1_SECTION_B_SHIFT) in
  let pte := Z.lor pte (Z.shiftl (c e) L1_SECTION_C_SHIFT) in
  let pte := Z.lor pte (Z.shiftl (tex e) L1_SECTION_TEX_SHIFT) in
  let pte := Z.lor pte (Z.shiftl (xn e) L1_SECTION_XN_SHIFT) in
  let pte := Z.lor pte (Z.shiftl (Z.land (ap e) L1_SECTION_AP_MASK) L1_SECTION_AP_SHIFT) in
  let pte := Z.lor pte (Z.shiftl (Z.land (Z.shiftr (ap e) 2) 0x1) L1_SECTION_AP2_SHIFT) in
  let pte := Z.lor pte (Z.shiftl (s e) L1_SECTION_S_SHIFT) in
  let pte := Z.lor pte (Z.shiftl (ng e) L1_SECTION_NG_SHIFT) in
  Z.lor pte (Z.shiftl (ns e) L1_SECTION_NS_SHIFT).

#[global] Arguments section_desc : simpl never.

(** The first-level table: an entry the map does not hold is still zero. *)
Abbreviation l1_table := (gmap Z Z).
Definition l1_get (pgd : l1_table) (i : Z) : Z := default 0 (pgd !! i).
Definition l1_index (v : Z) : Z := Z.shiftr (u32 v) 20.

#[global] Arguments l1_get : simpl never.
#[global] Arguments l1_index : simpl never.

Definition map_section_entry (pgd : l1_table) (e : cpu_section) : Z * l1_table :=
  let i := l1_index (va e) in
  let t := Z.land (l1_get pgd i) L1_TYPE_MASK in
  if t =? L1_TYPE_FAULT then (0, <[i := section_desc e]> pgd)
  else if t =? L1_TYPE_SECTION then (0, pgd)
  else (-1, pgd).

Definition unmap_section_entry (pgd : l1_table) (v : Z) : Z * l1_table :=
  let i := l1_index v in
  let t := Z.land (l1_get pgd i) L1_TYPE_MASK in
  if t =? L1_TYPE_FAULT then (0, pgd)
  else if t =? L1_TYPE_SECTION then (0, <[i := 0]> pgd)
  else (0, pgd).

(** ** The descriptor *)

Definition section_ok (e : cpu_section) : Prop :=
  in_u32 (pa e) /\ 0 <= ns e < 2 /\ 0 <= ng e < 2 /\ 0 <= s e < 2 /\ 0 <= tex e < 8 /\
  0 <= ap e < 8 /\ 0 <= dom e < 16 /\ 0 <= xn e < 2 /\ 0 <= c e < 2 /\ 0 <= b e < 2.

Lemma section_desc_bit e n :
  0 <= n ->
  Z.testbit (section_desc e) n =
    Z.testbit (pa e) n && Z.testbit SECTION_BASE_MASK n || Z.testbit 2 n
    || Z.testbit (dom e) (n - 5) || Z.testbit (b e) (n - 2) || Z.testbit (c e) (n - 3)
    || Z.testbit (tex e) (n - 12) || Z.testbit (xn e) (n - 4)
    || (Z.testbit (ap e) (n - 10) && Z.testbit 3 (n - 10))
    || (Z.testbit (Z.shiftr (ap e) 2) (n - 15) && Z.testbit 1 (n - 15))
    || Z.testbit (s e) (n - 16) || Z.testbit (ng e) (n - 17) || Z.testbit (ns e) (n - 19).
Proof.
  intros Hn. unfold section_desc. cbv zeta.
  rewrite !Z.lor_spec, !Z.shiftl_spec, !Z.land_spec by lia. reflexivity.
Qed.

(** Evaluates the bits of a descriptor at a known position. *)
Ltac bit_norm :=
  repeat match goal with
  | |- context [Z.testbit ?f ?n] =>
      let n' := eval vm_compute in n in
      progress change (Z.testbit f n) with (Z.testbit f n')
  end.
Ltac bit_const :=
  repeat match goal with
  | |- context [Z.testbit (Zpos ?c) ?n] =>
      let v := eval vm_compute in (Z.testbit (Zpos c) n) in
      change (Z.testbit (Zpos c) n) with v
  | |- context [Z.testbit SECTION_BASE_MASK ?n] =>
      let v := eval vm_compute in (Z.testbit SECTION_BASE_MASK n) in
      change (Z.testbit SECTION_BASE_MASK n) with v
  end.
Ltac bit_kill :=
  repeat match goal with
  | |- context [Z.testbit ?f (Zneg ?n)] => rewrite (Z.testbit_neg_r f (Zneg n)) by lia
  | |- context [Z.testbit ?f (Zpos ?n)] =>
      first [ rewrite (testbit_high 1 f (Zpos n)) by (simpl; lia)
            | rewrite (testbit_high 3 f (Zpos n)) by (simpl; lia)
            | rewrite (testbit_high 4 f (Zpos n)) by (simpl; lia) ]
  end.
Ltac desc_bit :=
  rewrite section_desc_bit by lia; bit_norm; bit_const; bit_kill;
  rewrite ?andb_false_r, ?andb_true_r, ?orb_false_r, ?orb_false_l; try done.

Lemma section_desc_high e n : section_ok e -> 32 <= n -> Z.testbit (section_desc e) n = false.
Proof.
  intros (Hpa & Hns & Hng & Hs & Htex & Hap & Hdom & Hxn & Hc & Hb) Hn.
  rewrite section_desc_bit by lia. unfold in_u32 in *.
  rewrite (testbit_high 32 (pa e)), (testbit_high 2 2), (testbit_high 4 (dom e)),
    (testbit_high 1 (b e)), (testbit_high 1 (c e)), (testbit_high 3 (tex e)),
    (testbit_high 1 (xn e)), (testbit_high 3 (ap e)), (testbit_high 1 (s e)),
    (testbit_high 1 (ng e)), (testbit_high 1 (ns e)) by (simpl; lia).
  rewrite (testbit_high 1 1 (n - 15)) by (simpl; lia). by rewrite andb_false_r.
Qed.

Lemma section_desc_range e : section_ok e -> in_u32 (section_desc e).
Proof.
  intros Hok. assert (E : section_desc e = section_desc e mod 2 ^ 32).
  { apply Z.bits_inj'. intros n Hn. rewrite Z.testbit_mod_pow2 by lia.
    destruct (Z.ltb_spec n 32); [done|]. by rewrite section_desc_high. }
  rewrite E. apply Z.mod_pos_bound. lia.
Qed.

(** How the hardware reads a section descriptor back. *)
Definition section_of_desc (v d : Z) : cpu_section :=
  {| va := v; pa := Z.land d SECTION_BASE_MASK; ns := field d 19 1; ng := field d 17 1;
     s := field d 16 1; tex := field d 12 3; ap := field d 10 2 + 4 * field d 15 1;
     dom := field d 5 4; xn := field d 4 1; c := field d 3 1; b := field d 2 1 |}.

Lemma section_desc_type e : section_ok e -> Z.land (section_desc e) L1_TYPE_MASK = L1_TYPE_SECTION.
Proof.
  intros (Hpa & Hns & Hng & Hs & Htex & Hap & Hdom & Hxn & Hc & Hb).
  change (field (section_desc e) 0 2 = 2).
  apply field_eq; [lia..|]. intros i Hi.
  assert (i = 0 \/ i = 1) as [-> | ->] by lia; desc_bit.
Qed.

Ltac bit_cases i :=
  match goal with
  | H : 0 <= i < 1 |- _ => assert (i = 0) as -> by lia
  | H : 0 <= i < 2 |- _ => assert (i = 0 \/ i = 1) as [-> | ->] by lia
  | H : 0 <= i < 3 |- _ => assert (i = 0 \/ i = 1 \/ i = 2) as [-> | [-> | ->]] by lia
  | H : 0 <= i < 4 |- _ =>
      assert (i = 0 \/ i = 1 \/ i = 2 \/ i = 3) as [-> | [-> | [-> | ->]]] by lia
  end.
Ltac desc_field :=
  apply field_eq; [lia|lia|simpl; lia|];
  let i := fresh "i" in let Hi := fresh "Hi" in intros i Hi; bit_cases i; desc_bit.

Lemma section_desc_ap e : section_ok e ->
  field (section_desc e) 10 2 + 4 * field (section_desc e) 15 1 = ap e.
Proof.
  intros (Hpa & Hns & Hng & Hs & Htex & Hap & Hdom & Hxn & Hc & Hb).
  assert (field (section_desc e) 10 2 = Z.land (ap e) 3) as ->.
  { assert (0 <= Z.land (ap e) 3 < 4).
    { change 3 with (Z.ones 2). rewrite Z.land_ones by lia. apply Z.mod_pos_bound. lia. }
    apply field_eq; [lia..|]. intros i Hi. bit_cases i; desc_bit; rewrite Z.land_spec; bit_const;
      by rewrite andb_true_r. }
  assert (field (section_desc e) 15 1 = Z.shiftr (ap e) 2) as ->.
  { assert (0 <= Z.shiftr (ap e) 2 < 2).
    { rewrite Z.shiftr_div_pow2 by lia. change (2 ^ 2) with 4.
      split; [apply Z.div_pos; lia|apply Z.div_lt_upper_bound; lia]. }
    apply field_eq; [lia..|]. intros i Hi. bit_cases i. desc_bit. }
  change 3 with (Z.ones 2). rewrite Z.land_ones, Z.shiftr_div_pow2 by lia.
  pose proof (Z.div_mod (ap e) (2 ^ 2)). lia.
Qed.

Lemma section_desc_base e : section_ok e ->
  Z.land (section_desc e) SECTION_BASE_MASK = Z.land (pa e) SECTION_BASE_MASK.
Proof.
  intros Hok. pose proof Hok as (Hpa & Hns & Hng & Hs & Htex & Hap & Hdom & Hxn & Hc & Hb).
  apply Z.bits_inj'. intros n Hn. rewrite !Z.land_spec.
  destruct (Z.ltb_spec n 20) as [Hl|Hl].
  - assert (Z.testbit SECTION_BASE_MASK n = false) as ->; [|by rewrite !andb_false_r].
    change SECTION_BASE_MASK with (Z.shiftl 0xfff 20). by rewrite Z.shiftl_spec_low by lia.
  - destruct (Z.ltb_spec n 32) as [Hh|Hh].
    + rewrite section_desc_bit by lia. unfold in_u32 in *.
      rewrite (testbit_high 2 2), (testbit_high 4 (dom e)), (testbit_high 1 (b e)),
        (testbit_high 1 (c e)), (testbit_high 3 (tex e)), (testbit_high 1 (xn e)),
        (testbit_high 3 (ap e)), (testbit_high 1 (s e)), (testbit_high 1 (ng e)),
        (testbit_high 1 (ns e)) by (simpl; lia).
      rewrite (testbit_high 1 1 (n - 15)) by (simpl; lia).
      rewrite ?andb_false_r, ?orb_false_r. simpl. by destruct (Z.testbit (pa e) n), (Z.testbit _ n).
    + rewrite section_desc_high by done. rewrite (testbit_high 32 (pa e)); [done|exact Hpa|lia].
Qed.

Lemma section_desc_ns e : section_ok e -> field (section_desc e) 19 1 = ns e.
Proof.
  intros (Hpa & Hns & Hng & Hs & Htex & Hap & Hdom & Hxn & Hc & Hb). desc_field.
Qed.

Lemma section_desc_decode e :
  section_ok e -> Z.land (pa e) SECTION_BASE_MASK = pa e ->
  section_of_desc (va e) (section_desc e) = e.
Proof.
  intros Hok Hal. unfold section_of_desc.
  rewrite (section_desc_ap _ Hok), (section_desc_base _ Hok), Hal.
  destruct Hok as (Hpa & Hns & Hng & Hs & Htex & Hap & Hdom & Hxn & Hc & Hb).
  assert (field (section_desc e) 19 1 = ns e) as -> by desc_field.
  assert (field (section_desc e) 17 1 = ng e) as -> by desc_field.
  assert (field (section_desc e) 16 1 = s e) as -> by desc_field.
  assert (field (section_desc e) 12 3 = tex e) as -> by desc_field.
  assert (field (section_desc e) 5 4 = dom e) as -> by desc_field.
  assert (field (section_desc e) 4 1 = xn e) as -> by desc_field.
  assert (field (section_desc e) 3 1 = c e) as -> by desc_field.
  assert (field (section_desc e) 2 1 = b e) as -> by desc_field.
  by destruct e.
Qed.

Section page_table.
(** [CONFIG_SW_MULTICORE], and the address of [secure_page_table]. *)
Context (multicore : bool) (secure_page_table : Z).
Context {H : Type} `{PrivateHeap H}.

Definition s_attr : Z := if multicore then 1 else 0.
Definition pte_addr (i : Z) : Z := secure_page_table + 4 * i.

Record pt_state : Type := PtState {
  pt : l1_table;
  page_ref_list : list sw_page_ref;
  pt_heap : H;
}.

(** The loop test of both functions, and their [ref_cnt++] / [ref_cnt--]. *)
Definition ref_is (l1_pte : Z) (r : sw_page_ref) : bool := pr_l1_pte r =? l1_pte.
Definition ref_add_cnt (d : Z) (r : sw_page_ref) : sw_page_ref :=
  PageRef (pr_ptr r) (pr_l1_pte r) (u32 (pr_ref_cnt r + d)).

Definition page_ref_add (l1_pte : Z) (st : pt_state) : res (Z * pt_state) :=
  match find_upd (ref_is l1_pte) (ref_add_cnt 1) (page_ref_list st) with
  | Some (_, refs) => mret (OTZ_OK, PtState (pt st) refs (pt_heap st))
  | None =>
      '(p, h) ← heap_malloc COMMON_HEAP_ID sizeof_sw_page_ref (pt_heap st);
      if p =? 0 then mret (OTZ_EFAIL, PtState (pt st) (page_ref_list st) h)
      else mret (OTZ_OK, PtState (pt st) (page_ref_list st ++ [PageRef p l1_pte 1]) h)
  end.

Definition page_ref_release (l1_pte : Z) (st : pt_state) : res (Z * pt_state) :=
  match find_upd (ref_is l1_pte) (ref_add_cnt (-1)) (page_ref_list st) with
  | None => mret (OTZ_EFAIL, st)
  | Some (r, refs) =>
      let ref_cnt := s32 (pr_ref_cnt r) in
      if pr_ref_cnt r =? 0 then
        match find_del (ref_is l1_pte) refs with
        | Some (_, refs') =>
            h ← heap_free COMMON_HEAP_ID (pr_ptr r) (pt_heap st);
            mret (ref_cnt, PtState (pt st) refs' h)
        | None => Fault
        end
      else mret (ref_cnt, PtState (pt st) refs (pt_heap st))
  end.

Definition set_pt (t : l1_table) (st : pt_state) : pt_state :=
  PtState t (page_ref_list st) (pt_heap st).

Definition map_ns_section_entry (e : cpu_section) (st : pt_state) : res (Z * pt_state) :=
  let i := l1_index (va e) in
  let w := l1_get (pt st) i in
  let t := Z.land w L1_TYPE_MASK in
  if t =? L1_TYPE_FAULT then
    '(_, st') ← page_ref_add (pte_addr i) (set_pt (<[i := section_desc e]> (pt st)) st);
    mret (0, st')
  else if t =? L1_TYPE_SECTION then
    let pgd := if Z.land w L1_SECTION_NS_IDX_MASK =? 0
               then <[i := Z.lor w (Z.shiftl 1 L1_SECTION_NS_SHIFT)]> (pt st)
               else pt st in
    '(_, st') ← page_ref_add (pte_addr i) (set_pt pgd st);
    mret (0, st')
  else mret (-1, st).

Definition unmap_ns_section_entry (v : Z) (st : pt_state) : res (Z * pt_state) :=
  let i := l1_index v in
  let t := Z.land (l1_get (pt st) i) L1_TYPE_MASK in
  if t =? L1_TYPE_FAULT then mret (0, st)
  else if t =? L1_TYPE_SECTION then
    '(n, st') ← page_ref_release (pte_addr i) st;
    if n =? 0 then
      if Z.land (l1_get (pt st') i) L1_SECTION_NS_IDX_MASK =? 0 then mret (0, st')
      else mret (0, set_pt (<[i := 0]> (pt st')) st')
    else mret (0, st')
  else mret (0, st).
(** Attributes of normal memory, write-back write-allocate, and of devices. *)
Definition normal_section (v p apv xnv nsv ngv sv : Z) : cpu_section :=
  {| va := v; pa := p; dom := SECURE_ACCESS_DOMAIN; ap := apv; xn := xnv;
     tex := 0x1; c := 0x1; b := 0x1; ns := nsv; ng := ngv; s := sv |}.

Definition device_section (v p apv : Z) : cpu_section :=
  {| va := v; pa := p; dom := SECURE_ACCESS_DOMAIN; ap := apv; xn := L1_EXECUTE_NEVER;
     tex := 0x0; c := 0x0; b := 0x1; ns := 0; ng := 0; s := s_attr |}.

Definition map_to_secure (phy_addr va_addr : Z) (pgd : l1_table) : Z * l1_table :=
  map_section_entry pgd
    (normal_section va_addr phy_addr PRIV_RW_USR_RW L1_EXECUTE_ALLOW 0 1 s_attr).

(** [__map_to_ns]: the result and the value left in [*va_addr]. *)
Definition __map_to_ns (phy_addr : Z) (st : pt_state) : res (Z * option Z * pt_state) :=
  let desc := normal_section phy_addr phy_addr PRIV_RW_USR_RW L1_EXECUTE_ALLOW 1 0 s_attr in
  '(ret_val, st') ← map_ns_section_entry desc st;
  if ret_val =? 0 then mret (0, Some (va desc), st') else mret (-1, None, st').

(** The system call of [CONFIG_KSPACE_PROTECTION] ends in the same function. *)
Definition map_to_ns : Z -> pt_state -> res (Z * option Z * pt_state) := __map_to_ns.

Definition __unmap_from_ns (va_addr : Z) (st : pt_state) : res (Z * pt_state) :=
  unmap_ns_section_entry va_addr st.
Definition unmap_from_ns : Z -> pt_state -> res (Z * pt_state) := __unmap_from_ns.

Definition unmap_from_secure (va_addr : Z) (pgd : l1_table) : Z * l1_table :=
  unmap_section_entry pgd va_addr.

(** [x & (SECTION_SIZE - 1)] of the alignment checks. *)
Definition section_offset (x : Z) : Z := Z.land x (SECTION_SIZE - 1).

(** The [while(size)] loop of the mapping functions, over a table [T] and
    one step of the loop body.  [4096] sections cover the address space. *)
Fixpoint section_loop {T} (fuel : nat) (step : Z -> Z -> T -> res T)
    (v p size : Z) (t : T) : res T :=
  if size =? 0 then mret t else
  match fuel with
  | O => Fault
  | S f =>
      t' ← step v p t;
      section_loop f step (u32 (v + SECTION_SIZE)) (u32 (p + SECTION_SIZE))
        (u32 (size - SECTION_SIZE)) t'
  end.

Definition section_fuel : nat := 4096.

Definition map_sections (desc : Z -> Z -> cpu_section) (v p size : Z) (pgd : l1_table)
    : res (Z * l1_table) :=
  if negb (section_offset size =? 0) then mret (-1, pgd)
  else if negb (section_offset v =? 0) then mret (-1, pgd)
  else if negb (section_offset p =? 0) then mret (-1, pgd)
  else
    t ← section_loop section_fuel
          (fun v p t => mret (snd (map_section_entry t (desc v p)))) v p size pgd;
    mret (0, t).

Definition map_device (v p size : Z) (pgd : l1_table) : res (Z * l1_table) :=
  map_sections (fun v p => device_section v p PRIV_RW_USR_NO) v p size pgd.

Definition map_user_access_device (v p size : Z) (pgd : l1_table) : res (Z * l1_table) :=
  map_sections (fun v p => device_section v p PRIV_RW_USR_RW) v p size pgd.

Definition map_secure_memory (v p size ptf : Z) (pgd : l1_table) : res (Z * l1_table) :=
  map_sections (fun v p => normal_section v p (ptf_to_ap ptf) (ptf_to_xn ptf) 0 0 s_attr)
    v p size pgd.

(** The tables of devices end at the first entry whose [dv_va] is zero; a
    table without one is read past its end. *)
Fixpoint map_device_table (dt : list devmap) (pgd : l1_table) : res l1_table :=
  match dt with
  | [] => Fault
  | d :: dt' =>
      if dv_va d =? 0 then mret pgd
      else r ← map_device (dv_va d) (dv_pa d) (dv_size d) pgd;
           map_device_table dt' (snd r)
  end.

Fixpoint map_user_access_device_table (dt : list devmap) (pgd : l1_table) : res l1_table :=
  match dt with
  | [] => Fault
  | d :: dt' =>
      if dv_va d =? 0 then mret pgd
      else r ← map_user_access_device (dv_va d) (dv_pa d) (dv_size d) pgd;
           map_user_access_device_table dt' (snd r)
  end.

Definition unmap_secure_memory (v size : Z) (pgd : l1_table) : res (Z * l1_table) :=
  if negb (section_offset size =? 0) then mret (-1, pgd)
  else if negb (section_offset v =? 0) then mret (-1, pgd)
  else
    t ← section_loop section_fuel
          (fun v _ t => mret (snd (unmap_section_entry t v))) v 0 size pgd;
    mret (0, t).

Definition map_nsmemsect_normal (v p size : Z) (st : pt_state) : res (Z * pt_state) :=
  if negb (section_offset size =? 0) then mret (-1, st)
  else if negb (section_offset v =? 0) then mret (-1, st)
  else if negb (section_offset p =? 0) then mret (-1, st)
  else
    t ← section_loop section_fuel
          (fun v p t =>
             r ← map_ns_section_entry
                   (normal_section v p PRIV_RW_USR_NO L1_EXECUTE_NEVER 1 1 0) t;
             mret (snd r)) v p size st;
    mret (0, t).

Definition unmap_nsmemsect_normal (v size : Z) (st : pt_state) : res (Z * pt_state) :=
  if negb (section_offset size =? 0) then mret (-1, st)
  else if negb (section_offset v =? 0) then mret (-1, st)
  else
    t ← section_loop section_fuel
          (fun v _ t => r ← unmap_ns_section_entry v t; mret (snd r)) v 0 size st;
    mret (0, t).
#[local] Arguments map_ns_section_entry : simpl never.
#[local] Arguments unmap_ns_section_entry : simpl never.
#[local] Arguments map_to_ns : simpl never.
#[local] Arguments __map_to_ns : simpl never.
#[local] Arguments unmap_from_ns : simpl never.
#[local] Arguments page_ref_add : simpl never.
#[local] Arguments page_ref_release : simpl never.

(** ** Ranges of sections *)

Lemma SECTION_SIZE_eq : SECTION_SIZE = 2 ^ 20.
Proof. reflexivity. Qed.

Lemma section_offset_mod x : section_offset x = x mod 2 ^ 20.
Proof.
  unfold section_offset. change (SECTION_SIZE - 1) with (Z.ones 20).
  by rewrite Z.land_ones.
Qed.

Lemma l1_index_section i : 0 <= i < 4096 -> l1_index (2 ^ 20 * i) = i.
Proof.
  intros Hi. unfold l1_index. rewrite u32_id by (unfold in_u32; lia).
  rewrite Z.shiftr_div_pow2 by lia. rewrite Z.mul_comm. by apply Z.div_mul.
Qed.

Lemma l1_get_insert (t : l1_table) i j w :
  l1_get (<[i := w]> t) j = if decide (i = j) then w else l1_get t j.
Proof.
  unfold l1_get. case_decide; subst; [by rewrite lookup_insert_eq|].
  by rewrite lookup_insert_ne.
Qed.

Lemma l1_get_map t e j :
  l1_get (snd (map_section_entry t e)) j =
    if decide (l1_index (va e) = j) then
      if Z.land (l1_get t j) L1_TYPE_MASK =? L1_TYPE_FAULT then section_desc e else l1_get t j
    else l1_get t j.
Proof.
  unfold map_section_entry. set (w := Z.land (l1_get t (l1_index (va e))) L1_TYPE_MASK).
  destruct (decide (l1_index (va e) = j)) as [<-|Hne].
  - fold w. destruct (w =? L1_TYPE_FAULT); cbn [snd]; [by rewrite l1_get_insert, decide_True|].
    by destruct (w =? L1_TYPE_SECTION).
  - destruct (w =? L1_TYPE_FAULT); cbn [snd]; [by rewrite l1_get_insert, decide_False|].
    by destruct (w =? L1_TYPE_SECTION).
Qed.

Lemma l1_get_unmap t v j :
  l1_get (snd (unmap_section_entry t v)) j =
    if decide (l1_index v = j) then
      if Z.land (l1_get t j) L1_TYPE_MASK =? L1_TYPE_SECTION then 0 else l1_get t j
    else l1_get t j.
Proof.
  unfold unmap_section_entry. set (w := Z.land (l1_get t (l1_index v)) L1_TYPE_MASK).
  destruct (decide (l1_index v = j)) as [<-|Hne].
  - fold w. unfold L1_TYPE_FAULT, L1_TYPE_SECTION.
    destruct (Z.eqb_spec w 0) as [->|_]; [done|].
    destruct (Z.eqb_spec w 2); cbn [snd]; [|done].
    by rewrite l1_get_insert, decide_True.
  - destruct (w =? L1_TYPE_FAULT); [done|].
    destruct (w =? L1_TYPE_SECTION); cbn [snd]; [|done].
    by rewrite l1_get_insert, decide_False.
Qed.

Lemma u32_step x i k :
  (0 < k -> x = 2 ^ 20 * i)%Z -> 0 <= i -> i + k <= 4096 ->
  0 < k - 1 -> u32 (x + SECTION_SIZE) = 2 ^ 20 * (i + 1).
Proof.
  intros Hx Hi Hk H1. rewrite Hx, SECTION_SIZE_eq by lia.
  rewrite u32_id; [lia|]. unfold in_u32. lia.
Qed.

Lemma section_loop_S {T} fuel (step : Z -> Z -> T -> res T) v p k t :
  0 <= k < 4096 ->
  section_loop (S fuel) step v p (2 ^ 20 * (k + 1)) t =
    (t' ← step v p t;
     section_loop fuel step (u32 (v + SECTION_SIZE)) (u32 (p + SECTION_SIZE)) (2 ^ 20 * k) t').
Proof.
  intros Hk. simpl. destruct (Z.eqb_spec (2 ^ 20 * (k + 1)) 0); [lia|].
  replace (u32 (2 ^ 20 * (k + 1) - SECTION_SIZE)) with (2 ^ 20 * k); [done|].
  rewrite SECTION_SIZE_eq, u32_id; [lia|]. unfold in_u32. lia.
Qed.

(** One iteration applies [f i] to entry [i] and leaves the others. *)
Lemma section_loop_spec (f : Z -> Z -> Z -> Z) (step : Z -> Z -> l1_table -> l1_table) :
  (forall i q t, 0 <= i < 4096 -> 0 <= q < 4096 -> forall j,
      l1_get (step (2 ^ 20 * i) (2 ^ 20 * q) t) j =
        if decide (i = j) then f i q (l1_get t j) else l1_get t j) ->
  forall (k fuel : nat) (i q v p : Z) (t : l1_table),
    (k <= fuel)%nat -> 0 <= i -> i + Z.of_nat k <= 4096 -> 0 <= q -> q + Z.of_nat k <= 4096 ->
    (0 < Z.of_nat k -> v = 2 ^ 20 * i) -> (0 < Z.of_nat k -> p = 2 ^ 20 * q) ->
    exists t', section_loop fuel (fun v p t => Ret (step v p t)) v p (2 ^ 20 * Z.of_nat k) t = Ret t' /\
      forall j, l1_get t' j =
        if decide (i <= j < i + Z.of_nat k) then f j (q + (j - i)) (l1_get t j) else l1_get t j.
Proof.
  intros Hstep. induction k as [|k IH]; intros fuel i q v p t Hf Hi Hik Hq Hqk Hv Hp.
  { exists t. split; [by destruct fuel|]. intros j. rewrite decide_False by lia. done. }
  destruct fuel as [|fuel]; [lia|].
  replace (Z.of_nat (S k)) with (Z.of_nat k + 1) in * by lia.
  rewrite section_loop_S by lia. simpl. rewrite (Hv ltac:(lia)), (Hp ltac:(lia)).
  destruct (IH fuel (i + 1) (q + 1) (u32 (2 ^ 20 * i + SECTION_SIZE))
              (u32 (2 ^ 20 * q + SECTION_SIZE)) (step (2 ^ 20 * i) (2 ^ 20 * q) t))
    as (t' & E & Ht'); [lia..| | |].
  { intros Hpos. by apply (u32_step _ _ (Z.of_nat k + 1)); lia. }
  { intros Hpos. by apply (u32_step _ _ (Z.of_nat k + 1)); lia. }
  exists t'. split; [exact E|]. intros j. rewrite Ht', Hstep by lia.
  repeat case_decide; subst; try lia; try done.
  - f_equal. lia.
  - replace (q + (j - j)) with q by lia. done.
Qed.

Definition free_entry (w : Z) : bool := Z.land w L1_TYPE_MASK =? L1_TYPE_FAULT.

Definition aligned_range (v size : Z) : Prop :=
  0 <= v /\ 0 <= size /\ v + size <= 2 ^ 32 /\ v mod 2 ^ 20 = 0 /\ size mod 2 ^ 20 = 0.

Lemma aligned_range_split v size :
  aligned_range v size ->
  exists i k : nat, v = 2 ^ 20 * Z.of_nat i /\ size = 2 ^ 20 * Z.of_nat k /\ (i + k <= 4096)%nat.
Proof.
  intros (Hv & Hs & Hvs & Hva & Hsa).
  exists (Z.to_nat (v / 2 ^ 20)), (Z.to_nat (size / 2 ^ 20)).
  pose proof (Z.div_pos v (2 ^ 20)). pose proof (Z.div_pos size (2 ^ 20)).
  pose proof (Z.div_mod v (2 ^ 20)). pose proof (Z.div_mod size (2 ^ 20)).
  rewrite !Z2Nat.id by lia. split_and!; lia.
Qed.

Definition in_range (v size j : Z) : Prop := v <= 2 ^ 20 * j < v + size.
#[global] Instance in_range_dec v size j : Decision (in_range v size j).
Proof. unfold in_range. apply _. Defined.

Lemma map_sections_spec (desc : Z -> Z -> cpu_section) v p size pgd :
  (forall v p, va (desc v p) = v) -> aligned_range v size -> aligned_range p size ->
  exists t, map_sections desc v p size pgd = Ret (0, t) /\
    forall j, l1_get t j =
      if decide (in_range v size j) then
        if free_entry (l1_get pgd j)
        then section_desc (desc (2 ^ 20 * j) (p + (2 ^ 20 * j - v)))
        else l1_get pgd j
      else l1_get pgd j.
Proof.
  intros Hva Hv Hp. unfold map_sections. rewrite !section_offset_mod.
  pose proof Hv as (_ & _ & _ & -> & ->). pose proof Hp as (_ & _ & _ & -> & _).
  rewrite !Z.eqb_refl. cbn [negb].
  destruct (aligned_range_split _ _ Hv) as (i & k & -> & -> & Hik).
  destruct (aligned_range_split _ _ Hp) as (q & k' & -> & Hk' & Hqk).
  assert (k' = k) as -> by lia.
  destruct (section_loop_spec
    (fun j q w => if free_entry w then section_desc (desc (2 ^ 20 * j) (2 ^ 20 * q)) else w)
    (fun v p t => snd (map_section_entry t (desc v p)))) with
    (k := k) (fuel := section_fuel) (i := Z.of_nat i) (q := Z.of_nat q)
    (v := 2 ^ 20 * Z.of_nat i) (p := 2 ^ 20 * Z.of_nat q) (t := pgd) as (t & E & Ht).
  { intros i0 q0 t Hi0 Hq0 j. rewrite l1_get_map, Hva, l1_index_section by lia.
    case_decide; [|done]. by subst. }
  1: { unfold section_fuel. lia. }
  1-6: lia.
  unfold res_bind, mret, res_ret in *. rewrite E. exists t. split; [done|]. intros j. rewrite Ht.
  assert (in_range (2 ^ 20 * Z.of_nat i) (2 ^ 20 * Z.of_nat k) j <-> Z.of_nat i <= j < Z.of_nat i + Z.of_nat k) as Hiff
    by (unfold in_range; lia).
  destruct (decide (Z.of_nat i <= j < _)), (decide (in_range _ _ _)); try tauto.
  by replace (2 ^ 20 * Z.of_nat q + (2 ^ 20 * j - 2 ^ 20 * Z.of_nat i))
    with (2 ^ 20 * (Z.of_nat q + (j - Z.of_nat i))) by lia.
Qed.

Lemma unmap_secure_memory_spec v size pgd :
  aligned_range v size ->
  exists t, unmap_secure_memory v size pgd = Ret (0, t) /\
    forall j, l1_get t j =
      if decide (in_range v size j) then
        if Z.land (l1_get pgd j) L1_TYPE_MASK =? L1_TYPE_SECTION then 0 else l1_get pgd j
      else l1_get pgd j.
Proof.
  intros Hv. unfold unmap_secure_memory. rewrite !section_offset_mod.
  pose proof Hv as (_ & _ & _ & -> & ->). rewrite !Z.eqb_refl. cbn [negb].
  destruct (aligned_range_split _ _ Hv) as (i & k & -> & -> & Hik).
  destruct (section_loop_spec
    (fun j q w => if Z.land w L1_TYPE_MASK =? L1_TYPE_SECTION then 0 else w)
    (fun v p t => snd (unmap_section_entry t v))) with
    (k := k) (fuel := section_fuel) (i := Z.of_nat i) (q := 0)
    (v := 2 ^ 20 * Z.of_nat i) (p := 0) (t := pgd) as (t & E & Ht).
  { intros i0 q0 t Hi0 Hq0 j. rewrite l1_get_unmap, l1_index_section by lia.
    case_decide; [|done]. by subst. }
  1: { unfold section_fuel. lia. }
  1-6: lia.
  unfold res_bind, mret, res_ret in *. rewrite E. exists t. split; [done|]. intros j. rewrite Ht.
  assert (in_range (2 ^ 20 * Z.of_nat i) (2 ^ 20 * Z.of_nat k) j <->
          Z.of_nat i <= j < Z.of_nat i + Z.of_nat k) as Hiff by (unfold in_range; lia).
  destruct (decide (Z.of_nat i <= j < _)), (decide (in_range _ _ _)); tauto.
Qed.

Lemma map_sections_unaligned desc v p size pgd :
  v mod 2 ^ 20 <> 0 \/ p mod 2 ^ 20 <> 0 \/ size mod 2 ^ 20 <> 0 ->
  map_sections desc v p size pgd = Ret (-1, pgd).
Proof.
  intros Ha. unfold map_sections. rewrite !section_offset_mod.
  destruct (Z.eqb_spec (size mod 2 ^ 20) 0), (Z.eqb_spec (v mod 2 ^ 20) 0),
    (Z.eqb_spec (p mod 2 ^ 20) 0); cbn [negb]; try reflexivity. lia.
Qed.

Lemma ptf_ok ptf : 0 <= ptf_to_ap ptf < 8 /\ 0 <= ptf_to_xn ptf < 2.
Proof.
  unfold ptf_to_ap, ptf_to_xn. split.
  - change 0x7 with (Z.ones 3). rewrite Z.land_ones by lia. apply Z.mod_pos_bound. lia.
  - assert (0 <= Z.land (Z.lnot ptf) 8 < 16).
    { split; [apply Z.land_nonneg; lia|]. change 16 with (2 ^ 4).
      assert (Z.land (Z.lnot ptf) 8 = Z.land (Z.lnot ptf) 8 mod 2 ^ 4) as ->;
        [|apply Z.mod_pos_bound; lia].
      rewrite <-Z.land_ones, <-Z.land_assoc by lia. done. }
    rewrite Z.shiftr_div_pow2 by lia. change (2 ^ 3) with 8.
    split; [apply Z.div_pos; lia|apply Z.div_lt_upper_bound; lia].
Qed.

Lemma normal_section_ok v p ptf :
  in_u32 p -> section_ok (normal_section v p (ptf_to_ap ptf) (ptf_to_xn ptf) 0 0 s_attr).
Proof.
  intros Hp. pose proof (ptf_ok ptf). unfold section_ok, normal_section, s_attr. simpl.
  destruct multicore; unfold SECURE_ACCESS_DOMAIN; split_and!; try done; lia.
Qed.

(** C33: [map_secure_memory] and [unmap_secure_memory].  A request that is not
    section aligned is refused with the table unchanged.  On an aligned range
    inside the address space both loops terminate; the first gives every
    unmapped section of the range a descriptor the hardware reads back as the
    requested section (offset kept, attributes from the flags, secure), and
    changes no section that is already mapped and nothing outside the range;
    the second then restores a table in which the range was empty. *)
Theorem secure_memory_map_unmap v p size ptf pgd :
  (v mod 2 ^ 20 <> 0 \/ p mod 2 ^ 20 <> 0 \/ size mod 2 ^ 20 <> 0 ->
     map_secure_memory v p size ptf pgd = Ret (-1, pgd)) /\
  (aligned_range v size -> aligned_range p size ->
   exists t, map_secure_memory v p size ptf pgd = Ret (0, t) /\
     (forall j, ~ in_range v size j \/ free_entry (l1_get pgd j) = false ->
        l1_get t j = l1_get pgd j) /\
     (forall j, in_range v size j -> free_entry (l1_get pgd j) = true ->
        Z.land (l1_get t j) L1_TYPE_MASK = L1_TYPE_SECTION /\
        section_of_desc (2 ^ 20 * j) (l1_get t j) =
          normal_section (2 ^ 20 * j) (p + (2 ^ 20 * j - v))
            (ptf_to_ap ptf) (ptf_to_xn ptf) 0 0 s_attr) /\
     exists t', unmap_secure_memory v size t = Ret (0, t') /\
       ((forall j, in_range v size j -> l1_get pgd j = 0) ->
        forall j, l1_get t' j = l1_get pgd j)).
Proof.
  split; [apply map_sections_unaligned|]. intros Hv Hp.
  destruct (map_sections_spec
    (fun v p => normal_section v p (ptf_to_ap ptf) (ptf_to_xn ptf) 0 0 s_attr)
    v p size pgd) as (t & E & Ht); [done..|].
  assert (Hok : forall j, in_range v size j -> section_ok
    (normal_section (2 ^ 20 * j) (p + (2 ^ 20 * j - v)) (ptf_to_ap ptf) (ptf_to_xn ptf) 0 0 s_attr)).
  { intros j Hj. apply normal_section_ok.
    destruct Hv as (? & ? & ? & _), Hp as (? & ? & ? & _).
    unfold in_u32, in_range in *. lia. }
  exists t. split_and!; [exact E| | |].
  - intros j Hj. rewrite Ht. case_decide; [|done]. destruct Hj as [Hj| ->]; tauto.
  - intros j Hj Hf. rewrite Ht, decide_True, Hf by done. split.
    + apply section_desc_type. auto.
    + apply (section_desc_decode _ (Hok j Hj)). simpl.
      destruct Hv as (? & ? & ? & Hva & _), Hp as (? & ? & ? & Hpa & _).
      unfold in_range in Hj. rewrite Z.mod_divide in Hva, Hpa by lia.
      destruct Hva as [a ->], Hpa as [q ->].
      assert (0 <= q + (j - a) < 4096) by lia.
      replace (q * 2 ^ 20 + (2 ^ 20 * j - a * 2 ^ 20)) with (Z.shiftl (q + (j - a)) 20)
        by (rewrite Z.shiftl_mul_pow2 by lia; lia).
      change SECTION_BASE_MASK with (Z.shiftl (Z.ones 12) 20).
      rewrite <-Z.shiftl_land, Z.land_ones, Z.mod_small by lia. done.
  - destruct (unmap_secure_memory_spec v size t Hv) as (t' & E' & Ht').
    exists t'. split; [exact E'|]. intros Hz j. rewrite Ht', Ht.
    case_decide as Hj; [|done]. rewrite (Hz j Hj). cbn [free_entry].
    change (free_entry 0) with true. cbv iota.
    rewrite (section_desc_type _ (Hok j Hj)). done.
Qed.
(** ** Sharing normal-world sections *)

Context `{!PrivateHeapLaws H}.

Definition ns_section (a : Z) : cpu_section :=
  normal_section a a PRIV_RW_USR_RW L1_EXECUTE_ALLOW 1 0 s_attr.

Definition ref_key (i : Z) : sw_page_ref -> bool := ref_is (pte_addr i).

(** [m] counts, per section, the mappings that have not been undone; [base]
    is the table before any of them. *)
Record share_inv (base : l1_table) (m : gmap Z Z) (st : pt_state) : Prop := {
  share_heap : heap_wf (pt_heap st);
  share_nodup : NoDup (pr_l1_pte <$> page_ref_list st);
  share_keys : forall r, r ∈ page_ref_list st -> exists i, ref_key i r = true;
  share_count : forall i, pr_ref_cnt <$> find_fst (ref_key i) (page_ref_list st) = m !! i;
  share_bound : forall i n, m !! i = Some n -> 0 < n < 2 ^ 31;
  share_base : forall i, m !! i = None -> l1_get (pt st) i = l1_get base i;
  share_zero : forall i n, m !! i = Some n -> 0 <= i < 4096 /\ l1_get base i = 0;
  share_entry : forall i n, m !! i = Some n ->
    l1_get (pt st) i = section_desc (ns_section (2 ^ 20 * i));
}.

Lemma ns_section_ok a : in_u32 a -> section_ok (ns_section a).
Proof.
  intros Ha. unfold section_ok, ns_section, normal_section, s_attr, SECURE_ACCESS_DOMAIN,
    PRIV_RW_USR_RW, L1_EXECUTE_ALLOW. simpl. destruct multicore; split_and!; try done; lia.
Qed.

Lemma ns_section_ns a : in_u32 a -> field (section_desc (ns_section a)) 19 1 = 1.
Proof.
  intros Ha. apply (section_desc_ns (ns_section a)), ns_section_ok, Ha.
Qed.

Lemma ns_bit_field w : field w 19 1 = 1 -> Z.land w L1_SECTION_NS_IDX_MASK =? 0 = false.
Proof.
  intros Hf. apply Z.eqb_neq. intros E.
  assert (T : Z.testbit (Z.land w L1_SECTION_NS_IDX_MASK) 19 = Z.testbit 0 19) by (by rewrite E).
  rewrite Z.land_spec, Z.testbit_0_l in T. change (Z.testbit L1_SECTION_NS_IDX_MASK 19) with true in T.
  rewrite andb_true_r in T.
  assert (T' : Z.testbit (field w 19 1) 0 = true) by (by rewrite Hf).
  unfold field in T'. rewrite Z.land_spec, Z.shiftr_spec in T' by lia.
  change (0 + 19) with 19 in T'. rewrite T in T'. discriminate.
Qed.

Lemma ref_key_inj i j r : ref_key i r = true -> ref_key j r = true -> i = j.
Proof. unfold ref_key, ref_is, pte_addr. rewrite !Z.eqb_eq. lia. Qed.

Lemma ref_key_other i j r : i <> j -> ref_key i r = true -> ref_key j r = false.
Proof.
  intros Hne Hi. destruct (ref_key j r) eqn:E; [|done]. by pose proof (ref_key_inj _ _ _ Hi E).
Qed.

Lemma ref_key_cnt i d r : ref_key i r = true -> ref_key i (ref_add_cnt d r) = true.
Proof. done. Qed.

Lemma keys_fmap (refs refs' : list sw_page_ref) :
  pr_l1_pte <$> refs' = pr_l1_pte <$> refs ->
  (forall r, r ∈ refs -> exists j, ref_key j r = true) ->
  forall r, r ∈ refs' -> exists j, ref_key j r = true.
Proof.
  intros K Hkeys r Hr. apply (list_elem_of_fmap_2 pr_l1_pte) in Hr. rewrite K in Hr.
  apply list_elem_of_fmap in Hr as (r' & Er & Hr'). destruct (Hkeys r' Hr') as [j Hj].
  exists j. unfold ref_key, ref_is in *. by rewrite Er.
Qed.

Definition heap_room (st : pt_state) : bool :=
  match heap_malloc COMMON_HEAP_ID sizeof_sw_page_ref (pt_heap st) with
  | Ret (p, _) => negb (p =? 0)
  | _ => true
  end.

(** [page_ref_add] and [page_ref_release] against the counts alone. *)
Lemma page_ref_add_spec st (m : gmap Z Z) i :
  heap_wf (pt_heap st) -> sizeof_sw_page_ref <= heap_max (H := H) -> heap_room st = true ->
  NoDup (pr_l1_pte <$> page_ref_list st) ->
  (forall r, r ∈ page_ref_list st -> exists j, ref_key j r = true) ->
  (forall j, pr_ref_cnt <$> find_fst (ref_key j) (page_ref_list st) = m !! j) ->
  default 0 (m !! i) + 1 < 2 ^ 31 -> 0 <= default 0 (m !! i) ->
  exists st', page_ref_add (pte_addr i) st = Ret (OTZ_OK, st') /\ pt st' = pt st /\
    heap_wf (pt_heap st') /\ NoDup (pr_l1_pte <$> page_ref_list st') /\
    (forall r, r ∈ page_ref_list st' -> exists j, ref_key j r = true) /\
    (forall j, pr_ref_cnt <$> find_fst (ref_key j) (page_ref_list st') =
      <[i := default 0 (m !! i) + 1]> m !! j).
Proof.
  intros Hwf Hmax Hroom Hnd Hkeys Hcnt Hb Hb0. unfold page_ref_add.
  change (ref_is (pte_addr i)) with (ref_key i).
  pose proof (find_upd_fst (ref_key i) (ref_add_cnt 1) (page_ref_list st)) as F.
  pose proof (Hcnt i) as Hi.
  destruct (find_upd _ _ _) as [[y refs]|] eqn:E.
  - pose proof (find_upd_map _ (ref_add_cnt 1) pr_l1_pte _ _ _ (fun _ => eq_refl) E) as K.
    eexists. split; [done|]. simpl. split_and!; [done|done|by rewrite K| |].
    + by apply (keys_fmap (page_ref_list st)).
    + intros j. destruct (decide (i = j)) as [<-|Hne].
      * rewrite lookup_insert_eq, (find_fst_upd_same (ref_key i) _ _ _ _ (ref_key_cnt i 1) E).
        destruct (find_fst _ _) as [r|]; simplify_eq/=. rewrite <-Hi in *. simpl in *.
        f_equal. apply u32_id. unfold in_u32. lia.
      * rewrite lookup_insert_ne by done. rewrite <-Hcnt. f_equal.
        eapply (find_fst_upd_other (ref_key i) (ref_key j)); [|exact E].
        intros x Hx. by split; apply (ref_key_other i).
  - assert (Hf : find_fst (ref_key i) (page_ref_list st) = None) by (by destruct (find_fst _ _)).
    rewrite Hf in Hi. simpl in Hi.
    destruct (heap_malloc_ok COMMON_HEAP_ID sizeof_sw_page_ref (pt_heap st)) as (p & h & Em & Hwf' & _);
      [done|unfold sizeof_sw_page_ref in *; lia|].
    unfold heap_room in Hroom. rewrite Em in *. simpl.
    apply negb_true_iff in Hroom as ->.
    eexists. split; [done|]. simpl. split_and!; [done|done| | |].
    + rewrite fmap_app. apply NoDup_app. split_and!; [done| |apply NoDup_singleton].
      intros x Hx ->%list_elem_of_singleton. apply list_elem_of_fmap in Hx as (r & Er & Hr).
      pose proof (proj1 (find_fst_None (ref_key i) _) Hf r Hr) as N.
      unfold ref_key, ref_is in N. simpl in Er. lia.
    + intros r [Hr|Hr%list_elem_of_singleton]%elem_of_app; [auto|]. exists i. subst.
      apply Z.eqb_refl.
    + intros j. rewrite find_fst_app. simpl. destruct (decide (i = j)) as [<-|Hne].
      * rewrite <-Hi, lookup_insert_eq, Hf. unfold ref_key, ref_is. simpl. by rewrite Z.eqb_refl.
      * rewrite lookup_insert_ne, <-Hcnt by done.
        assert (ref_key j (PageRef p (pte_addr i) 1) = false) as ->.
        { apply (ref_key_other i); [done|]. apply Z.eqb_refl. }
        by case_match.
Qed.
Definition count_down (i n : Z) (m : gmap Z Z) : gmap Z Z :=
  if decide (n = 1) then delete i m else <[i := n - 1]> m.

Lemma page_ref_release_spec st (m : gmap Z Z) i n :
  heap_wf (pt_heap st) ->
  NoDup (pr_l1_pte <$> page_ref_list st) ->
  (forall r, r ∈ page_ref_list st -> exists j, ref_key j r = true) ->
  (forall j, pr_ref_cnt <$> find_fst (ref_key j) (page_ref_list st) = m !! j) ->
  m !! i = Some n -> 0 < n < 2 ^ 31 ->
  exists st', page_ref_release (pte_addr i) st = Ret (n - 1, st') /\ pt st' = pt st /\
    heap_wf (pt_heap st') /\ NoDup (pr_l1_pte <$> page_ref_list st') /\
    (forall r, r ∈ page_ref_list st' -> exists j, ref_key j r = true) /\
    (forall j, pr_ref_cnt <$> find_fst (ref_key j) (page_ref_list st') = count_down i n m !! j).
Proof.
  intros Hwf Hnd Hkeys Hcnt Hm Hn. unfold page_ref_release.
  change (ref_is (pte_addr i)) with (ref_key i).
  pose proof (find_upd_fst (ref_key i) (ref_add_cnt (-1)) (page_ref_list st)) as F.
  pose proof (Hcnt i) as Hi. rewrite Hm in Hi.
  destruct (find_fst (ref_key i) (page_ref_list st)) as [r|] eqn:Ef; simplify_eq/=.
  destruct (find_upd _ _ _) as [[y refs]|] eqn:E; simplify_eq/=.
  pose proof (find_upd_map _ (ref_add_cnt (-1)) pr_l1_pte _ _ _ (fun _ => eq_refl) E) as K.
  assert (Hother : forall j, i <> j -> find_fst (ref_key j) refs =
            find_fst (ref_key j) (page_ref_list st)).
  { intros j Hne. eapply (find_fst_upd_other (ref_key i)); [|exact E].
    intros x Hx. by split; apply (ref_key_other i). }
  rewrite (u32_id (pr_ref_cnt r + -1)), s32_id by (unfold in_u32, in_s32; lia).
  replace (pr_ref_cnt r + -1) with (pr_ref_cnt r - 1) by lia. unfold count_down.
  destruct (Z.eqb_spec (pr_ref_cnt r - 1) 0) as [H1|H1].
  - pose proof (find_del_fst (ref_key i) refs) as G.
    rewrite (find_fst_upd_same _ _ _ _ _ (ref_key_cnt i (-1)) E) in G.
    destruct (find_del _ _) as [[z refs']|] eqn:Ed; simplify_eq/=.
    destruct (heap_free_ok COMMON_HEAP_ID (pr_ptr r) (pt_heap st) Hwf) as (h & Eh & Hwf' & _).
    rewrite Eh. simpl. eexists. split; [done|]. simpl. rewrite decide_True by lia.
    destruct (find_del_split _ _ _ _ Ed) as (l1 & l2 & -> & -> & Hz & _).
    rewrite fmap_app, fmap_cons in K. rewrite <-K in Hnd.
    assert (Hnd' : NoDup (pr_l1_pte <$> l1 ++ l2) /\ pte_addr i ∉ pr_l1_pte <$> l1 ++ l2).
    { rewrite fmap_app. rewrite <-Permutation_middle in Hnd. apply NoDup_cons in Hnd as [N1 N2].
      split; [done|]. unfold ref_key, ref_is in Hz. simpl in *. by apply Z.eqb_eq in Hz as <-. }
    destruct Hnd' as [Hnd1 Hnd2]. split_and!; try done.
    + intros r' Hr'.
      apply (keys_fmap (page_ref_list st) (l1 ++ ref_add_cnt (-1) r :: l2)); [|done|set_solver].
      by rewrite fmap_app, fmap_cons.
    + intros j. destruct (decide (i = j)) as [<-|Hne].
      * rewrite lookup_delete_eq, (proj2 (find_fst_None _ _)); [done|].
        intros x Hx. apply Z.eqb_neq. intros Hk. apply Hnd2. rewrite <-Hk.
        by apply list_elem_of_fmap_2.
      * rewrite lookup_delete_ne, <-Hcnt, <-Hother by done. f_equal.
        eapply find_fst_del_other; [|exact Ed]. intros x Hx. by apply (ref_key_other i).
  - rewrite decide_False by lia. eexists. split; [done|]. simpl.
    split_and!; [done|done|by rewrite K|by apply (keys_fmap (page_ref_list st))|].
    intros j. destruct (decide (i = j)) as [<-|Hne].
    + rewrite lookup_insert_eq, (find_fst_upd_same _ _ _ _ _ (ref_key_cnt i (-1)) E). simpl.
      f_equal. rewrite u32_id; [lia|unfold in_u32; lia].
    + by rewrite lookup_insert_ne, <-Hcnt, Hother by done.
Qed.

Lemma l1_index_range a : 0 <= l1_index a < 4096.
Proof.
  unfold l1_index. rewrite Z.shiftr_div_pow2 by lia. pose proof (u32_range a) as Ha.
  unfold in_u32 in Ha. split; [apply Z.div_pos; lia|apply Z.div_lt_upper_bound; lia].
Qed.

Lemma section_base_mask a : in_u32 a -> Z.land a SECTION_BASE_MASK = 2 ^ 20 * l1_index a.
Proof.
  intros Ha. unfold l1_index. rewrite u32_id by done.
  rewrite Z.mul_comm. rewrite <-Z.shiftl_mul_pow2 by lia.
  apply Z.bits_inj'. intros n Hn.
  rewrite Z.land_spec, Z.shiftl_spec by lia.
  change SECTION_BASE_MASK with (Z.shiftl (Z.ones 12) 20).
  rewrite Z.shiftl_spec by lia. unfold in_u32 in Ha.
  destruct (Z.ltb_spec n 20) as [Hl|Hl].
  - rewrite !(Z.testbit_neg_r _ (n - 20)) by lia. by rewrite andb_false_r.
  - rewrite Z.shiftr_spec, Z.sub_add, Z.testbit_ones_nonneg by lia.
    destruct (Z.ltb_spec (n - 20) 12); [apply andb_true_r|].
    rewrite andb_false_r, (testbit_high 32 a); [done|exact Ha|lia].
Qed.

Lemma ns_section_desc a :
  in_u32 a -> section_desc (ns_section a) = section_desc (ns_section (2 ^ 20 * l1_index a)).
Proof.
  intros Ha. pose proof (l1_index_range a). unfold section_desc. simpl.
  rewrite (section_base_mask (2 ^ 20 * l1_index a)) by (unfold in_u32; lia).
  by rewrite l1_index_section, section_base_mask.
Qed.

#[local] Opaque l1_index.

Lemma share_inv_map base m st a m' :
  share_inv base m st -> sizeof_sw_page_ref <= heap_max (H := H) -> heap_room st = true ->
  in_u32 a -> m' = <[l1_index a := default 0 (m !! l1_index a) + 1]> m ->
  default 0 (m !! l1_index a) + 1 < 2 ^ 31 ->
  (m !! l1_index a = None -> l1_get base (l1_index a) = 0) ->
  exists st', map_to_ns a st = Ret (0, Some a, st') /\ share_inv base m' st'.
Proof.
  intros [Hwf Hnd Hk Hc Hb Hbase Hz He] Hmax Hroom Ha -> Hlt Hfree.
  pose proof (l1_index_range a) as Hr.
  assert (P : forall t, exists st', page_ref_add (pte_addr (l1_index a)) (set_pt t st) =
      Ret (OTZ_OK, st') /\ pt st' = t /\ heap_wf (pt_heap st') /\
      NoDup (pr_l1_pte <$> page_ref_list st') /\
      (forall r, r ∈ page_ref_list st' -> exists j, ref_key j r = true) /\
      (forall j, pr_ref_cnt <$> find_fst (ref_key j) (page_ref_list st') =
        <[l1_index a := default 0 (m !! l1_index a) + 1]> m !! j)).
  { intros t. apply (page_ref_add_spec (set_pt t st)); try assumption.
    destruct (m !! l1_index a) eqn:E; simpl; [|lia]. apply Hb in E. lia. }
  unfold map_to_ns, __map_to_ns, map_ns_section_entry. fold (ns_section a).
  change (va (ns_section a)) with a.
  destruct (m !! l1_index a) as [n|] eqn:Em.
  - pose proof (He _ _ Em) as En. rewrite En.
    rewrite section_desc_type by (apply ns_section_ok; unfold in_u32; lia).
    change (L1_TYPE_SECTION =? L1_TYPE_FAULT) with false.
    rewrite Z.eqb_refl, ns_bit_field by (apply ns_section_ns; unfold in_u32; lia).
    destruct (P (pt st)) as (st' & E & Hpt & ? & ? & ? & ?). rewrite E. simpl.
    eexists. split; [done|]. cbn [from_option id] in *. split; [assumption..| | | |].
    + intros i k. destruct (decide (l1_index a = i)) as [<-|]; [|rewrite lookup_insert_ne by done; apply Hb].
      rewrite lookup_insert_eq. intros [= <-]. apply Hb in Em. lia.
    + intros i. destruct (decide (l1_index a = i)) as [<-|]; [by rewrite lookup_insert_eq|].
      rewrite lookup_insert_ne, Hpt by done. apply Hbase.
    + intros i k. destruct (decide (l1_index a = i)) as [<-|]; [by intros _; apply (Hz _ n)|].
      rewrite lookup_insert_ne by done. apply Hz.
    + intros i k. rewrite Hpt. destruct (decide (l1_index a = i)) as [<-|]; [by intros _; apply (He _ n)|].
      rewrite lookup_insert_ne by done. apply He.
  - rewrite (Hbase _ Em), (Hfree eq_refl). change (Z.land 0 L1_TYPE_MASK =? L1_TYPE_FAULT) with true.
    destruct (P (<[l1_index a := section_desc (ns_section a)]> (pt st))) as (st' & E & Hpt & ? & ? & ? & ?).
    cbv iota. rewrite E. simpl.
    eexists. split; [done|]. cbn [from_option id] in *. split; [assumption..| | | |].
    + intros i k. destruct (decide (l1_index a = i)) as [<-|]; [|rewrite lookup_insert_ne by done; apply Hb].
      rewrite lookup_insert_eq. intros [= <-]. lia.
    + intros i. destruct (decide (l1_index a = i)) as [<-|]; [by rewrite lookup_insert_eq|].
      rewrite lookup_insert_ne, Hpt, l1_get_insert, decide_False by done. apply Hbase.
    + intros i k. destruct (decide (l1_index a = i)) as [<-|]; [by intros _; auto|].
      rewrite lookup_insert_ne by done. apply Hz.
    + intros i k. rewrite Hpt, l1_get_insert. case_decide as Hi.
      * subst i. intros _. by apply ns_section_desc.
      * rewrite lookup_insert_ne by done. apply He.
Qed.

Lemma count_down_same i n (m : gmap Z Z) :
  count_down i n m !! i = if decide (n = 1) then None else Some (n - 1).
Proof. unfold count_down. case_decide; [apply lookup_delete_eq|apply lookup_insert_eq]. Qed.

Lemma count_down_other i j n (m : gmap Z Z) : i <> j -> count_down i n m !! j = m !! j.
Proof.
  intros Hne. unfold count_down. case_decide; [by apply lookup_delete_ne|by apply lookup_insert_ne].
Qed.

Lemma share_inv_unmap base m st v n :
  share_inv base m st -> m !! l1_index v = Some n ->
  exists st', unmap_from_ns v st = Ret (0, st') /\
    share_inv base (count_down (l1_index v) n m) st'.
Proof.
  intros [Hwf Hnd Hk Hc Hb Hbase Hz He] Hm.
  pose proof (He _ _ Hm) as En. pose proof (l1_index_range v) as Hr.
  destruct (page_ref_release_spec st m (l1_index v) n) as (st' & E & Hpt & ? & ? & ? & ?);
    [done..|by eapply Hb|].
  unfold unmap_from_ns, __unmap_from_ns, unmap_ns_section_entry.
  rewrite En, section_desc_type by (apply ns_section_ok; unfold in_u32; lia).
  change (L1_TYPE_SECTION =? L1_TYPE_FAULT) with false. rewrite Z.eqb_refl, E. cbv iota. simpl.
  assert (Hold : forall i k, l1_index v <> i -> m !! i = Some k ->
    l1_get (pt st') i = section_desc (ns_section (2 ^ 20 * i))).
  { intros i k _. rewrite Hpt. apply He. }
  destruct (Z.eqb_spec (n - 1) 0) as [Hl|Hl].
  - rewrite Hpt, En, ns_bit_field by (apply ns_section_ns; unfold in_u32; lia).
    eexists. split; [done|]. split; [assumption..| | | |]; simpl.
    + intros i k. destruct (decide (l1_index v = i)) as [<-|]; [|rewrite count_down_other by done; apply Hb].
      rewrite count_down_same, decide_True by lia. done.
    + intros i. rewrite l1_get_insert. case_decide as Hi.
      * subst i. intros _. symmetry. by eapply Hz.
      * rewrite count_down_other by done. apply Hbase.
    + intros i k. destruct (decide (l1_index v = i)) as [<-|]; [by intros _; apply (Hz _ n)|].
      rewrite count_down_other by done. apply Hz.
    + intros i k. rewrite l1_get_insert. case_decide as Hi.
      * subst i. rewrite count_down_same, decide_True by lia. done.
      * rewrite count_down_other by done. apply He.
  - eexists. split; [done|]. split; [assumption..| | | |].
    + intros i k. destruct (decide (l1_index v = i)) as [<-|]; [|rewrite count_down_other by done; apply Hb].
      rewrite count_down_same, decide_False by lia. intros [= <-]. apply Hb in Hm. lia.
    + intros i. rewrite Hpt. destruct (decide (l1_index v = i)) as [<-|].
      * by rewrite count_down_same, decide_False by lia.
      * rewrite count_down_other by done. apply Hbase.
    + intros i k. destruct (decide (l1_index v = i)) as [<-|]; [by intros _; apply (Hz _ n)|].
      rewrite count_down_other by done. apply Hz.
    + intros i k. rewrite Hpt. destruct (decide (l1_index v = i)) as [<-|]; [by intros _; apply (He _ n)|].
      rewrite count_down_other by done. apply He.
Qed.

(** What the clients ([process_otzapi], [unmap_shared_memory]) do with
    normal-world pages, and its specification on the counts: a section may be
    shared when it is free in the table or shared already; unsharing a
    section that was never mapped has no effect. *)
Inductive share_op : Type :=
  | ShMap (a : Z)
  | ShUnmap (v : Z).

Definition share_run_op (op : share_op) (st : pt_state) : res pt_state :=
  match op with
  | ShMap a => r ← map_to_ns a st; mret (snd r)
  | ShUnmap v => r ← unmap_from_ns v st; mret (snd r)
  end.

Definition share_abs_op (base : l1_table) (op : share_op) (m : gmap Z Z) : option (gmap Z Z) :=
  match op with
  | ShMap a =>
      let i := l1_index a in
      let n := default 0 (m !! i) in
      if negb (u32 a =? a) || (2 ^ 31 <=? n + 1) || ((n =? 0) && negb (l1_get base i =? 0))
      then None else Some (<[i := n + 1]> m)
  | ShUnmap v =>
      match m !! l1_index v with
      | Some n => Some (count_down (l1_index v) n m)
      | None => if l1_get base (l1_index v) =? 0 then Some m else None
      end
  end.

Fixpoint share_run (ops : list share_op) (st : pt_state) : res pt_state :=
  match ops with
  | [] => mret st
  | op :: ops' => st' ← share_run_op op st; share_run ops' st'
  end.

Fixpoint share_abs (base : l1_table) (ops : list share_op) (m : gmap Z Z) : option (gmap Z Z) :=
  match ops with
  | [] => Some m
  | op :: ops' => m' ← share_abs_op base op m; share_abs base ops' m'
  end.

(** No allocation of a reference cell fails along the run. *)
Fixpoint share_room (ops : list share_op) (st : pt_state) : bool :=
  match ops with
  | [] => true
  | op :: ops' =>
      heap_room st && match share_run_op op st with Ret st' => share_room ops' st' | _ => true end
  end.

Lemma share_inv_op base m st op m' :
  share_inv base m st -> sizeof_sw_page_ref <= heap_max (H := H) -> heap_room st = true ->
  share_abs_op base op m = Some m' ->
  exists st', share_run_op op st = Ret st' /\ share_inv base m' st'.
Proof.
  intros Hi Hmax Hroom. destruct op as [a|v]; simpl.
  - destruct (_ || _) eqn:E; [done|]. intros [= <-].
    rewrite !orb_false_iff, negb_false_iff, Z.eqb_eq, Z.leb_gt in E.
    destruct E as [[Ea Elt] Ez].
    destruct (share_inv_map base m st a (<[l1_index a := default 0 (m !! l1_index a) + 1]> m) Hi
      Hmax Hroom) as (st' & -> & Hi');
      [rewrite <-Ea; apply u32_range|reflexivity|exact Elt| |by exists st'].
    intros Hn. rewrite Hn in Ez. simpl in Ez.
    destruct (Z.eqb_spec (l1_get base (l1_index a)) 0); done.
  - destruct (m !! l1_index v) as [n|] eqn:Em; simpl.
    + intros [= <-]. destruct (share_inv_unmap base m st v n Hi Em) as (st' & -> & Hi').
      by exists st'.
    + destruct (Z.eqb_spec (l1_get base (l1_index v)) 0) as [Hb|]; [|done]. intros [= <-].
      exists st. split; [|done]. unfold unmap_from_ns, __unmap_from_ns, unmap_ns_section_entry.
      rewrite (share_base _ _ _ Hi _ Em), Hb. done.
Qed.

(** C18: sharing normal-world memory is reference counted.  From a table in
    which nothing is shared, any sequence of [map_to_ns] and [unmap_from_ns]
    the contract allows runs without fault; a section with outstanding
    mappings is mapped at its own address, non-secure, and its reference
    count is the number of those mappings; every other entry is what it was
    before the first mapping, so that the last unmap of a section withdraws
    the normal world's page from the secure world. *)
Theorem ns_sharing_refinement base ops h m :
  heap_wf h -> sizeof_sw_page_ref <= heap_max (H := H) ->
  share_room ops (PtState base [] h) = true ->
  share_abs base ops ∅ = Some m ->
  exists st', share_run ops (PtState base [] h) = Ret st' /\
    (forall i, m !! i = None -> l1_get (pt st') i = l1_get base i) /\
    (forall i n, m !! i = Some n ->
       0 < n /\ section_of_desc (2 ^ 20 * i) (l1_get (pt st') i) = ns_section (2 ^ 20 * i)) /\
    (forall i, pr_ref_cnt <$> find_fst (ref_is (pte_addr i)) (page_ref_list st') = m !! i).
Proof.
  intros Hwf Hmax Hroom.
  assert (Hi : share_inv base ∅ (PtState base [] h)).
  { split; simpl; try done; [constructor|set_solver]. }
  revert Hroom Hi. generalize (PtState base [] h) as st. generalize (∅ : gmap Z Z) as m0.
  induction ops as [|op ops IH]; intros m0 st Hroom Hi Ha; simpl in *.
  - simplify_eq. exists st. destruct Hi as [_ _ _ Hc Hb Hbase Hz He].
    split_and!; [done|done| |done]. intros i n Hn. split; [by apply (Hb i n)|].
    rewrite (He _ _ Hn). destruct (Hz _ _ Hn) as [Hr _].
    apply (section_desc_decode (ns_section (2 ^ 20 * i))).
    + apply ns_section_ok. unfold in_u32. lia.
    + simpl. rewrite section_base_mask by (unfold in_u32; lia). by rewrite l1_index_section.
  - apply bind_Some in Ha as (m1 & A1 & A2). apply andb_prop in Hroom as [Hr1 Hr2].
    destruct (share_inv_op base m0 st op m1 Hi Hmax Hr1 A1) as (st1 & E & Hi1).
    rewrite E in *. simpl. by apply (IH m1).
Qed.

(** Sharing a section the secure world itself uses.  When the entry
    already maps secure memory, [map_to_ns] turns it non-secure in place and
    the matching [unmap_from_ns] clears the whole descriptor, so that the
    secure mapping is lost instead of having its NS bit set back to zero. *)
Theorem ns_sharing_over_secure t h a w :
  heap_wf h -> sizeof_sw_page_ref <= heap_max (H := H) -> heap_room (PtState t [] h) = true ->
  in_u32 a -> l1_get t (l1_index a) = w -> in_u32 w ->
  Z.land w L1_TYPE_MASK = L1_TYPE_SECTION -> Z.land w L1_SECTION_NS_IDX_MASK = 0 ->
  exists st1 st2, map_to_ns a (PtState t [] h) = Ret (0, Some a, st1) /\
    l1_get (pt st1) (l1_index a) = Z.lor w L1_SECTION_NS_IDX_MASK /\
    unmap_from_ns a st1 = Ret (0, st2) /\ l1_get (pt st2) (l1_index a) = 0 /\
    page_ref_list st2 = [] /\
    (forall j, j <> l1_index a -> l1_get (pt st2) j = l1_get t j).
Proof.
  intros Hwf Hmax Hroom Ha Hw Hwr Hty Hns.
  unfold map_to_ns, __map_to_ns, map_ns_section_entry, unmap_from_ns, __unmap_from_ns,
    unmap_ns_section_entry. fold (ns_section a). change (va (ns_section a)) with a.
  cbn [pt]. rewrite Hw, Hty, Hns. change (L1_TYPE_SECTION =? L1_TYPE_FAULT) with false.
  rewrite Z.eqb_refl. change (0 =? 0) with true. cbv iota.
  unfold page_ref_add. simpl.
  destruct (heap_malloc_ok COMMON_HEAP_ID sizeof_sw_page_ref h) as (p & h' & Em & Hwf' & _);
    [done|unfold sizeof_sw_page_ref in *; lia|].
  unfold heap_room in Hroom. cbn [pt_heap] in Hroom. rewrite Em in *.
  apply negb_true_iff in Hroom as Hp. simpl. rewrite Hp. simpl.
  destruct (heap_free_ok COMMON_HEAP_ID p h' Hwf') as (h'' & Ef & _).
  eexists _, _. split; [reflexivity|]. cbn [pt]. rewrite l1_get_insert, decide_True by done.
  change (Z.shiftl 1 L1_SECTION_NS_SHIFT) with L1_SECTION_NS_IDX_MASK. split; [done|].
  assert (Z.land (Z.lor w L1_SECTION_NS_IDX_MASK) L1_TYPE_MASK = L1_TYPE_SECTION) as ->.
  { rewrite Z.land_lor_distr_l, Hty. done. }
  change (L1_TYPE_SECTION =? L1_TYPE_FAULT) with false. rewrite Z.eqb_refl. cbv iota.
  unfold page_ref_release, ref_is. simpl. rewrite Z.eqb_refl. simpl.
  change (u32 (1 + -1) =? 0) with true. cbv iota. simpl. rewrite Z.eqb_refl.
  rewrite Ef. simpl.
  change (s32 (u32 (1 + -1)) =? 0) with true. cbv iota.
  rewrite l1_get_insert, decide_True by done.
  rewrite Z.land_lor_distr_l, Hns, Z.land_diag.
  change (Z.lor 0 L1_SECTION_NS_IDX_MASK =? 0) with false. cbv iota.
  split; [reflexivity|]. cbn [pt set_pt page_ref_list]. rewrite l1_get_insert, decide_True by done.
  split_and!; [reflexivity|reflexivity|].
  intros j Hj. by rewrite !l1_get_insert, !decide_False by done.
Qed.
End page_table.

(** ** The properties at concrete inputs *)

(** Two sections at 3 MB mapped at 5 MB, into a table that holds nothing. *)
Lemma secure_memory_map_unmap_witness :
  exists t, map_secure_memory false 0x300000 0x500000 0x200000 3 ∅ = Ret (0, t) /\
    section_of_desc 0x400000 (l1_get t 4) =
      normal_section 0x400000 0x600000 3 1 0 0 0 /\
    exists t', unmap_secure_memory 0x300000 0x200000 t = Ret (0, t') /\ l1_get t' 4 = 0.
Proof.
  destruct (proj2 (secure_memory_map_unmap false 0x300000 0x500000 0x200000 3 ∅))
    as (t & E & Hout & Hin & t' & E' & Hback).
  - unfold aligned_range. split_and!; [lia|lia|lia|reflexivity|reflexivity].
  - unfold aligned_range. split_and!; [lia|lia|lia|reflexivity|reflexivity].
  - exists t. split; [exact E|]. split.
    + apply (Hin 4); [unfold in_range; lia|reflexivity].
    + exists t'. split; [exact E'|]. rewrite Hback by done. reflexivity.
Defined.

Definition bump_test : bump_heap := BumpHeap 0x1000 0x2000 ∅.

(** Pages of two sections, the first shared twice and withdrawn once. *)
Lemma ns_sharing_refinement_witness :
  exists st', share_run false 0x8000 [ShMap 0x12345678; ShMap 0x99900000; ShMap 0x12300000;
                                      ShUnmap 0x12345678; ShUnmap 0x99900000]
                (PtState ∅ [] bump_test) = Ret st' /\
    l1_get (pt st') 0x999 = 0 /\
    section_of_desc (2 ^ 20 * 0x123) (l1_get (pt st') 0x123) = ns_section false (2 ^ 20 * 0x123).
Proof.
  edestruct (ns_sharing_refinement false 0x8000 ∅
    [ShMap 0x12345678; ShMap 0x99900000; ShMap 0x12300000; ShUnmap 0x12345678;
     ShUnmap 0x99900000] bump_test {[0x123 := 1]}) as (st' & E & H1 & H2 & _).
  - split; [done|]. set_solver.
  - done.
  - vm_compute. reflexivity.
  - vm_compute. reflexivity.
  - exists st'. split; [exact E|]. split; [apply (H1 0x999); reflexivity|].
    apply (H2 0x123 1). reflexivity.
Defined.

(** A secure section at 1 MB, shared and withdrawn. *)
Lemma ns_sharing_over_secure_witness :
  exists st1 st2, map_to_ns false 0x8000 0x100000 (PtState {[1 := 0x100c0e]} [] bump_test)
      = Ret (0, Some 0x100000, st1) /\
    unmap_from_ns 0x8000 0x100000 st1 = Ret (0, st2) /\ l1_get (pt st2) 1 = 0.
Proof.
  destruct (ns_sharing_over_secure false 0x8000 {[1 := 0x100c0e]} bump_test 0x100000 0x100c0e)
    as (st1 & st2 & E1 & _ & E2 & Hz & _).
  - split; [done|]. set_solver.
  - done.
  - reflexivity.
  - done.
  - reflexivity.
  - done.
  - reflexivity.
  - reflexivity.
  - exists st1, st2. done.
Defined.
