(* ===== verification/MemMng.v ===== *)
(** [core/mem_mng.c]: the page allocator of the secure world.

    Two bitmaps with one bit per 4K page, most significant bit first, lie next
    to each other behind the kernel image: the physical pages' first, the
    virtual pages' [phy_mem_bmap_len] bytes later.  The model keeps that word
    array, so an access past the first bitmap reaches the second one and an
    access past both is a [Fault]. *)
From stdpp Require Import prelude gmap.
From S2P Require Import Prelude HeapIface PageTable.
#[local] Open Scope Z_scope.

Definition PAGE_SIZE : Z := 4096.
Definition PAGE_SHIFT : Z := 12.
Definition PAGE_OFFSET_MASK : Z := 0xFFF.
Definition SECTION_MASK : Z := 0xFFF00000.
Definition VIR_ASPACE_SIZE : Z := Z.shiftl 1 26.

(** [struct secure_world_mem_info]; the bitmap pointers are word offsets into
    [bmap], the words from [get_sw_code_end()] on. *)
Record secure_world_mem_info : Type := MemInfo {
  bmap : list Z;
  vir_mem_bmap : Z;
  vir_mem_bmap_len : Z;
  phy_mem_bmap_len : Z;
  vir_addr_start : Z;
  vir_memregion_size : Z;
  phy_addr_start : Z;
  phy_memregion_size : Z;
  num_phy_pag_free : Z;
  num_vir_pag_free : Z;
}.

Definition phy_mem_bmap : Z := 0.

(** ** The bitmaps *)

(** [bmap[i >> 5]] and [0x1 << (31 - (i & 0x1F))]. *)
Definition bm_index (base i : Z) : Z := base + Z.shiftr i 5.
Definition bm_mask (i : Z) : Z := Z.shiftl 1 (31 - Z.land i 0x1F).

Definition bm_read (m : list Z) (k : Z) : res Z :=
  if k <? 0 then Fault else of_opt (m !! Z.to_nat k).

Definition bm_test (base i : Z) (m : list Z) : res bool :=
  w ← bm_read m (bm_index base i);
  mret (negb (Z.land w (bm_mask i) =? 0)).

Definition bm_set (base i : Z) (m : list Z) : res (list Z) :=
  w ← bm_read m (bm_index base i);
  mret (<[Z.to_nat (bm_index base i) := Z.lor w (bm_mask i)]> m).

Definition bm_clear (base i : Z) (m : list Z) : res (list Z) :=
  w ← bm_read m (bm_index base i);
  mret (<[Z.to_nat (bm_index base i) := Z.land w (Z.lnot (bm_mask i))]> m).

(** The inner loop: the number of clear bits from [iter] on, up to [n]. *)
Fixpoint avail_count (n : nat) (base iter : Z) (m : list Z) : res Z :=
  match n with
  | O => mret 0
  | S n' =>
      b ← bm_test base iter m;
      if (b : bool) then mret 0
      else k ← avail_count n' base (iter + 1) m; mret (k + 1)
  end.

(** The outer loop from [start] on, [n] iterations being left. *)
Fixpoint find_run (n : nat) (base start req_cnt : Z) (m : list Z) : res (option Z) :=
  match n with
  | O => mret None
  | S n' =>
      avl_cnt ← avail_count (Z.to_nat req_cnt) base start m;
      if (avl_cnt =? req_cnt) then mret (Some start)
      else find_run n' base (start + 1) req_cnt m
  end.

(** Setting ([b = true]) or clearing one bit, and the loops that do so for a
    run of pages while adjusting the count of free pages. *)
Definition bm_flip (b : bool) : Z -> Z -> list Z -> res (list Z) := if b then bm_set else bm_clear.

Fixpoint flip_run (b : bool) (n : nat) (base start num_free : Z) (m : list Z)
    : res (Z * list Z) :=
  match n with
  | O => mret (num_free, m)
  | S n' =>
      m' ← bm_flip b base start m;
      flip_run b n' base (start + 1) (s32 (if b then num_free - 1 else num_free + 1)) m'
  end.

Definition mark_run : nat -> Z -> Z -> Z -> list Z -> res (Z * list Z) := flip_run true.
Definition clear_run : nat -> Z -> Z -> Z -> list Z -> res (Z * list Z) := flip_run false.

(** [while(temp_sz > 0)] of the reserve functions, for at most [fuel] rounds. *)
Fixpoint reserve_loop (fuel : nat) (base res_pg temp_sz num_free : Z) (m : list Z)
    : res (Z * list Z) :=
  if temp_sz =? 0 then mret (num_free, m) else
  match fuel with
  | O => Fault
  | S f =>
      m' ← bm_set base res_pg m;
      reserve_loop f base res_pg (u32 (temp_sz - PAGE_SIZE)) (s32 (num_free - 1)) m'
  end.

Definition set_phy (r : Z * list Z) (st : secure_world_mem_info) : secure_world_mem_info :=
  MemInfo (snd r) (vir_mem_bmap st) (vir_mem_bmap_len st) (phy_mem_bmap_len st)
    (vir_addr_start st) (vir_memregion_size st) (phy_addr_start st) (phy_memregion_size st)
    (fst r) (num_vir_pag_free st).

Definition set_vir (r : Z * list Z) (st : secure_world_mem_info) : secure_world_mem_info :=
  MemInfo (snd r) (vir_mem_bmap st) (vir_mem_bmap_len st) (phy_mem_bmap_len st)
    (vir_addr_start st) (vir_memregion_size st) (phy_addr_start st) (phy_memregion_size st)
    (num_phy_pag_free st) (fst r).

(** ** The allocator *)

(** The two roundings to a page count: the physical one masks with
    [~PAGE_SIZE - 1], the virtual one with [~(PAGE_SIZE - 1)]. *)
Definition phy_round (size : Z) : Z :=
  if Z.land size (PAGE_SIZE - 1) =? 0 then size
  else u32 (Z.land size (u32 (u32 (Z.lnot PAGE_SIZE) - 1)) + PAGE_SIZE).
Definition vir_round (size : Z) : Z :=
  if Z.land size (PAGE_SIZE - 1) =? 0 then size
  else u32 (Z.land size (u32 (Z.lnot (PAGE_SIZE - 1))) + PAGE_SIZE).

(** The bound [(bmap_len << 3) - req_cnt] of the search, in [size_t]. *)
Definition search_limit (bmap_len req_cnt : Z) : Z := u32 (u32 (Z.shiftl bmap_len 3) - req_cnt).

Definition sw_phy_page_alloc (size : Z) (st : secure_world_mem_info)
    : res (Z * secure_world_mem_info) :=
  let req_cnt := Z.shiftr (phy_round size) PAGE_SHIFT in
  if num_phy_pag_free st <? req_cnt then mret (0, st) else
  available ← find_run (Z.to_nat (search_limit (phy_mem_bmap_len st) req_cnt))
                phy_mem_bmap 0 req_cnt (bmap st);
  match available with
  | None => mret (0, st)
  | Some start =>
      r ← mark_run (Z.to_nat req_cnt) phy_mem_bmap start (num_phy_pag_free st) (bmap st);
      mret (u32 (Z.shiftl start PAGE_SHIFT + phy_addr_start st), set_phy r st)
  end.

(** The mapping loop of [sw_vir_page_alloc] over the sections of the range. *)
Fixpoint map_alloc_loop (multicore : bool) (fuel : nat) (start_addr end_addr pa va : Z)
    (pgd : l1_table) : res l1_table :=
  if end_addr <? start_addr then mret pgd else
  match fuel with
  | O => Fault
  | S f =>
      map_alloc_loop multicore f (u32 (start_addr + SECTION_SIZE)) end_addr
        (u32 (pa + SECTION_SIZE)) (u32 (va + SECTION_SIZE))
        (snd (map_to_secure multicore pa va pgd))
  end.

(** More than the sections of the address space. *)
Definition map_alloc_fuel : nat := Z.to_nat 4097.

Definition sw_vir_page_alloc (multicore : bool) (size : Z)
    (st : secure_world_mem_info) (pgd : l1_table)
    : res (Z * (secure_world_mem_info * l1_table)) :=
  let size := vir_round size in
  let req_cnt := Z.shiftr size PAGE_SHIFT in
  if num_vir_pag_free st <? req_cnt then mret (0, (st, pgd)) else
  available ← find_run (Z.to_nat (search_limit (vir_mem_bmap_len st) req_cnt))
                (vir_mem_bmap st) 0 req_cnt (bmap st);
  match available with
  | None => mret (0, (st, pgd))
  | Some start =>
      '(phy_addr, st) ← sw_phy_page_alloc size st;
      if phy_addr =? 0 then mret (0, (st, pgd)) else
      r ← mark_run (Z.to_nat req_cnt) (vir_mem_bmap st) start (num_vir_pag_free st) (bmap st);
      let vir_addr := u32 (Z.shiftl start PAGE_SHIFT + vir_addr_start st) in
      let end_addr := Z.land (u32 (phy_addr + size)) SECTION_MASK in
      let start_addr := Z.land phy_addr SECTION_MASK in
      pgd ← map_alloc_loop multicore map_alloc_fuel start_addr end_addr phy_addr vir_addr pgd;
      mret (vir_addr, (set_vir r st, pgd))
  end.

(** ** Reserving and freeing *)

Definition sw_phy_addr_reserve (fuel : nat) (phy_addr size : Z) (st : secure_world_mem_info)
    : res (Z * secure_world_mem_info) :=
  if (phy_addr <? phy_addr_start st)
     || (u32 (phy_addr_start st + phy_memregion_size st) <? phy_addr)
  then mret (-1, st) else
  let pg_cnt := u32 (Z.shiftr size PAGE_SHIFT) in
  let res_pa := Z.shiftr (u32 (phy_addr - phy_addr_start st)) PAGE_SHIFT in
  avl_cnt ← avail_count (Z.to_nat (u32 (res_pa + pg_cnt) - res_pa)) phy_mem_bmap res_pa (bmap st);
  if negb (avl_cnt =? pg_cnt) then mret (-1, st) else
  r ← reserve_loop fuel phy_mem_bmap res_pa (u32 size) (num_phy_pag_free st) (bmap st);
  mret (0, set_phy r st).

(** The addresses here are [u32 *], so the difference counts words and the
    end of the region is [vir_memregion_size] words away. *)
Definition sw_vir_addr_reserve (fuel : nat) (vir_addr size : Z) (st : secure_world_mem_info)
    : res (Z * secure_world_mem_info) :=
  if (vir_addr <? vir_addr_start st)
     || (u32 (vir_addr_start st + 4 * vir_memregion_size st) <? vir_addr)
  then mret (-1, st) else
  let pg_cnt := u32 (Z.shiftr size PAGE_SHIFT) in
  let res_va := Z.shiftr ((vir_addr - vir_addr_start st) / 4) PAGE_SHIFT in
  avl_cnt ← avail_count (Z.to_nat (u32 (res_va + pg_cnt) - res_va)) (vir_mem_bmap st) res_va
    (bmap st);
  if negb (avl_cnt =? pg_cnt) then mret (-1, st) else
  r ← reserve_loop fuel (vir_mem_bmap st) res_va (u32 size) (num_vir_pag_free st) (bmap st);
  mret (0, set_vir r st).

Definition sw_phy_addr_free (phy_addr size : Z) (st : secure_world_mem_info)
    : res (Z * secure_world_mem_info) :=
  if (phy_addr <? phy_addr_start st)
     || (u32 (phy_addr_start st + phy_memregion_size st) <? phy_addr)
  then mret (-1, st) else
  let fr_phy := Z.shiftr (u32 (phy_addr - phy_addr_start st)) PAGE_SHIFT in
  let tmp_cnt := u32 (fr_phy + Z.shiftr size PAGE_SHIFT) in
  r ← clear_run (Z.to_nat (tmp_cnt - fr_phy)) phy_mem_bmap fr_phy (num_phy_pag_free st) (bmap st);
  mret (0, set_phy r st).

(** [va_to_pa] asks the MMU for the translation. *)
Definition sw_vir_addr_free (va_to_pa : Z -> Z) (vir_addr size : Z) (st : secure_world_mem_info)
    : res (Z * secure_world_mem_info) :=
  if (vir_addr <? vir_addr_start st)
     || (u32 (vir_addr_start st + vir_memregion_size st) <? vir_addr)
  then mret (-1, st) else
  let fr_vir := Z.shiftr (u32 (vir_addr - vir_addr_start st)) PAGE_SHIFT in
  let tmp_cnt := u32 (fr_vir + Z.shiftr size PAGE_SHIFT) in
  r ← clear_run (Z.to_nat (tmp_cnt - fr_vir)) (vir_mem_bmap st) fr_vir (num_vir_pag_free st)
        (bmap st);
  '(_, st) ← sw_phy_addr_free (va_to_pa vir_addr) size (set_vir r st);
  mret (0, st).

(** ** Initialisation *)

(** [sw_memset(p, 0, n)] on the words at [p]; the last, partial word keeps its
    upper bytes (the machine is little endian). *)
Fixpoint clear_bytes (n : Z) (m : list Z) : list Z :=
  match m with
  | [] => []
  | w :: m' =>
      if n <=? 0 then w :: m'
      else if n <? 4 then Z.land w (Z.lnot (Z.ones (8 * n))) :: m'
      else 0 :: clear_bytes (n - 4) m'
  end.

(** The two loops that mark the pages of the kernel image and the bitmaps; an
    address that wraps round starts over, [fuel] bounds the rounds. *)
Fixpoint init_mark (fuel : nat) (base start map_a stop num_free : Z) (m : list Z)
    : res (Z * list Z) :=
  if stop <=? map_a then mret (num_free, m) else
  match fuel with
  | O => Fault
  | S f =>
      m' ← bm_set base (Z.shiftr (u32 (map_a - start)) PAGE_SHIFT) m;
      init_mark f base start (u32 (map_a + PAGE_SIZE)) stop (s32 (num_free - 1)) m'
  end.

Section meminfo_init.
(** The board's RAM, the linked image, and the words found behind it. *)
Context (ram_start ram_end code_start code_end : Z) (raw : list Z).

(** The physical region once its ends are brought to page boundaries; the
    second adjustment reads the start address the first one has updated. *)
Definition phy_region : Z * Z :=
  let size := u32 (ram_end - ram_start + 1) in
  let '(start, size) :=
    if Z.land ram_start PAGE_OFFSET_MASK =? 0 then (ram_start, size) else
      let start := u32 (ram_start + (PAGE_SIZE - Z.land ram_start PAGE_OFFSET_MASK)) in
      (start, u32 (size - (PAGE_SIZE - Z.land start PAGE_OFFSET_MASK))) in
  let size :=
    if Z.land size PAGE_OFFSET_MASK =? 0 then size
    else u32 (size - Z.land size PAGE_OFFSET_MASK) in
  (start, size).

Definition phy_bmap_len : Z :=
  let len := Z.shiftr (snd phy_region) (PAGE_SHIFT + 3) + 1 in
  if Z.land len 0x3 =? 0 then len else len + (4 - Z.land len 0x3).

Definition vir_bmap_len : Z := Z.shiftr VIR_ASPACE_SIZE (PAGE_SHIFT + 3) + 1.

Definition tot_len_to_alloc : Z :=
  u32 (u32 (code_end - code_start) + phy_bmap_len + vir_bmap_len).

(** 2^20 pages cover the address space. *)
Definition init_fuel (len : Z) : nat := Z.to_nat (Z.shiftr len PAGE_SHIFT + 1).

Definition sw_meminfo_init : res secure_world_mem_info :=
  let phy_start := fst phy_region in
  let m := clear_bytes (phy_bmap_len + vir_bmap_len) raw in
  '(nphy, m) ← init_mark (init_fuel tot_len_to_alloc) phy_mem_bmap phy_start phy_start
      (u32 (phy_start + tot_len_to_alloc)) (Z.shiftr (u32 (ram_end - ram_start + 1)) PAGE_SHIFT) m;
  '(nvir, m) ← init_mark (init_fuel tot_len_to_alloc) (phy_bmap_len / 4) code_start code_start
      (u32 (code_start + tot_len_to_alloc)) (Z.shiftr VIR_ASPACE_SIZE PAGE_SHIFT) m;
  mret {| bmap := m; vir_mem_bmap := phy_bmap_len / 4; vir_mem_bmap_len := vir_bmap_len;
          phy_mem_bmap_len := phy_bmap_len; vir_addr_start := code_start;
          vir_memregion_size := VIR_ASPACE_SIZE; phy_addr_start := phy_start;
          phy_memregion_size := snd phy_region;
          num_phy_pag_free := nphy; num_vir_pag_free := nvir |}.
End meminfo_init.

(** ** Bits of the array *)

(** Whether page [i] of the bitmap at [base] is in use. *)
Definition used (base i : Z) (m : list Z) : bool :=
  Z.testbit (default 0 (m !! Z.to_nat (bm_index base i))) (31 - i mod 32).

Definition bm_in (base i : Z) (m : list Z) : Prop :=
  0 <= base /\ 0 <= i /\ base + i / 32 < Z.of_nat (length m).

Lemma bm_mask_pow i : bm_mask i = 2 ^ (31 - i mod 32).
Proof.
  unfold bm_mask. change (Z.land i 0x1F) with (Z.land i (Z.ones 5)). rewrite Z.land_ones by lia.
  change (2 ^ 5) with 32. pose proof (Z.mod_pos_bound i 32).
  rewrite Z.shiftl_mul_pow2 by lia. apply Z.mul_1_l.
Qed.

Lemma bm_read_in base i m :
  bm_in base i m ->
  exists w, m !! Z.to_nat (bm_index base i) = Some w /\ bm_read m (bm_index base i) = Ret w.
Proof.
  intros (Hb & Hi & Hl). unfold bm_read, bm_index in *. rewrite Z.shiftr_div_pow2 by lia.
  change (2 ^ 5) with 32. pose proof (Z.div_pos i 32).
  destruct (lookup_lt_is_Some_2 m (Z.to_nat (base + i / 32))) as [w Hw]; [lia|].
  exists w. split; [done|]. destruct (Z.ltb_spec (base + i / 32) 0); [lia|]. by rewrite Hw.
Qed.

Lemma land_mask_testbit w i :
  negb (Z.land w (bm_mask i) =? 0) = Z.testbit w (31 - i mod 32).
Proof.
  pose proof (Z.mod_pos_bound i 32). rewrite bm_mask_pow. set (k := 31 - i mod 32) in *.
  destruct (Z.testbit w k) eqn:E.
  - apply negb_true_iff, Z.eqb_neq. intros E0.
    assert (T : Z.testbit (Z.land w (2 ^ k)) k = false) by (by rewrite E0, Z.testbit_0_l).
    rewrite Z.land_spec, E, Z.pow2_bits_true in T by lia. done.
  - apply negb_false_iff, Z.eqb_eq. apply Z.bits_inj'. intros n Hn.
    rewrite Z.land_spec, Z.pow2_bits_eqb, Z.testbit_0_l by lia.
    destruct (Z.eqb_spec k n) as [<-|]; [by rewrite E|apply andb_false_r].
Qed.

Lemma bm_test_spec base i m : bm_in base i m -> bm_test base i m = Ret (used base i m).
Proof.
  intros Hin. destruct (bm_read_in _ _ _ Hin) as (w & Hw & E). unfold bm_test, used.
  rewrite E, Hw. simpl. by rewrite land_mask_testbit.
Qed.

Lemma index_div_mod base i j :
  0 <= i -> 0 <= j -> bm_index base i = bm_index base j -> i mod 32 = j mod 32 -> i = j.
Proof.
  unfold bm_index. rewrite !Z.shiftr_div_pow2 by lia. change (2 ^ 5) with 32. intros.
  pose proof (Z.div_mod i 32). pose proof (Z.div_mod j 32). lia.
Qed.

Lemma bm_update_used base i j b w m :
  bm_in base i m -> 0 <= j -> 
  (forall n, 0 <= n -> Z.testbit w n =
     if n =? 31 - i mod 32 then b
     else Z.testbit (default 0 (m !! Z.to_nat (bm_index base i))) n) ->
  used base j (<[Z.to_nat (bm_index base i) := w]> m) = if i =? j then b else used base j m.
Proof.
  intros (Hb & Hi & Hl) Hj Hw. unfold used.
  pose proof (Z.mod_pos_bound j 32). pose proof (Z.mod_pos_bound i 32).
  assert (Hp : forall x, 0 <= x -> 0 <= bm_index base x).
  { intros x Hx. unfold bm_index. rewrite Z.shiftr_div_pow2 by lia.
    pose proof (Z.div_pos x (2 ^ 5)). lia. }
  pose proof (Hp i Hi). pose proof (Hp j Hj).
  destruct (decide (bm_index base i = bm_index base j)) as [E|E].
  - rewrite <-E, list_lookup_insert_eq.
    + simpl. rewrite Hw by lia. destruct (Z.eqb_spec i j) as [<-|Hne].
      * by rewrite Z.eqb_refl.
      * destruct (Z.eqb_spec (31 - j mod 32) (31 - i mod 32)); [|done].
        exfalso. apply Hne, (index_div_mod base); lia.
    + unfold bm_index. rewrite Z.shiftr_div_pow2 by lia. change (2 ^ 5) with 32.
      pose proof (Z.div_pos i 32). lia.
  - rewrite list_lookup_insert_ne by lia. by destruct (Z.eqb_spec i j) as [->|].
Qed.

Lemma bm_flip_spec b base i m :
  bm_in base i m ->
  exists m', bm_flip b base i m = Ret m' /\ length m' = length m /\
    (forall k, k <> Z.to_nat (bm_index base i) -> m' !! k = m !! k) /\
    forall j, 0 <= j -> used base j m' = if i =? j then b else used base j m.
Proof.
  intros Hin. destruct (bm_read_in _ _ _ Hin) as (w & Hw & E). unfold bm_flip, bm_set, bm_clear.
  pose proof (Z.mod_pos_bound i 32).
  destruct b; rewrite E; simpl; (eexists; split; [done|]; split; [apply length_insert|]; split;
    [intros k Hk; by apply list_lookup_insert_ne|]); intros j Hj;
    (apply bm_update_used; [done..|]); intros n Hn;
    rewrite Hw, bm_mask_pow, ?Z.lor_spec, ?Z.land_spec, ?Z.lnot_spec, Z.pow2_bits_eqb by lia;
    simpl; rewrite (Z.eqb_sym (31 - i mod 32));
    destruct (n =? 31 - i mod 32);
    auto using orb_true_r, orb_false_r, andb_false_r, andb_true_r.
Qed.

(** Words that no page of a run touches keep their value. *)
Definition words_off (base start : Z) (n : nat) (m m' : list Z) : Prop :=
  forall k, (forall i, start <= i < start + Z.of_nat n -> k <> Z.to_nat (bm_index base i)) ->
    m' !! k = m !! k.

Definition run_in (base start : Z) (n : nat) (m : list Z) : Prop :=
  forall i, start <= i < start + Z.of_nat n -> bm_in base i m.

Lemma run_in_length base start n m m' :
  length m' = length m -> run_in base start n m -> run_in base start n m'.
Proof. intros L Hr i Hi. unfold bm_in. rewrite L. by apply Hr. Qed.

Lemma run_in_S base start n m : run_in base start (S n) m -> bm_in base start m /\ run_in base (start + 1) n m.
Proof. intros Hr. split; [apply Hr; lia|]. intros i Hi. apply Hr. lia. Qed.

Lemma avail_count_spec n base start m :
  run_in base start n m ->
  exists k, avail_count n base start m = Ret k /\ 0 <= k <= Z.of_nat n /\
    (forall i, start <= i < start + k -> used base i m = false) /\
    (k < Z.of_nat n -> used base (start + k) m = true).
Proof.
  revert start. induction n as [|n IH]; intros start Hr.
  { exists 0. split; [done|]. split; [lia|]. split; [|lia]. intros i Hi. lia. }
  apply run_in_S in Hr as [Hi Hr]. simpl. rewrite (bm_test_spec _ _ _ Hi). simpl.
  destruct (used base start m) eqn:E.
  - exists 0. split; [done|]. split; [lia|]. split; [intros i ?; lia|]. intros _.
    by rewrite Z.add_0_r.
  - destruct (IH _ Hr) as (k & -> & Hk & Hf & Hu). simpl. exists (k + 1).
    split; [done|]. split; [lia|]. split.
    + intros i Hi'. destruct (decide (i = start)) as [->|]; [done|]. apply Hf. lia.
    + intros Hlt. replace (start + (k + 1)) with (start + 1 + k) by lia. apply Hu. lia.
Qed.

(** All the pages of the run are free. *)
Definition free_run (base start req : Z) (m : list Z) : Prop :=
  forall i, start <= i < start + req -> used base i m = false.

Lemma find_run_spec n base start req m :
  0 <= req -> run_in base start (n + Z.to_nat req - 1) m ->
  exists o, find_run n base start req m = Ret o /\
    match o with
    | Some s => start <= s < start + Z.of_nat n /\ free_run base s req m /\
        (forall s', start <= s' < s -> ~ free_run base s' req m)
    | None => forall s', start <= s' < start + Z.of_nat n -> ~ free_run base s' req m
    end.
Proof.
  intros Hreq. revert start. induction n as [|n IH]; intros start Hr.
  { exists None. split; [done|]. intros s'. lia. }
  destruct (avail_count_spec (Z.to_nat req) base start m) as (k & E & Hk & Hf & Hu).
  { intros i Hi. apply Hr. lia. }
  simpl. rewrite E. simpl. rewrite Z2Nat.id in * by done.
  destruct (Z.eqb_spec k req) as [->|Hne].
  - exists (Some start). split; [done|]. split; [lia|]. split; [exact Hf|]. intros s'. lia.
  - assert (Hstart : ~ free_run base start req m).
    { intros Hfree. specialize (Hfree (start + k)). rewrite Hu in Hfree by lia.
      by discriminate Hfree; lia. }
    destruct (IH (start + 1)) as (o & -> & Ho).
    { intros i Hi. apply Hr. lia. }
    exists o. split; [done|]. destruct o as [s|].
    + destruct Ho as (Hs & Hfr & Hfirst). split; [lia|]. split; [done|].
      intros s' Hs'. destruct (decide (s' = start)) as [->|]; [done|]. apply Hfirst. lia.
    + intros s' Hs'. destruct (decide (s' = start)) as [->|]; [done|]. apply Ho. lia.
Qed.

Lemma in_run_iff start i n :
  (start <= i < start + Z.of_nat (S n)) <-> (i = start \/ start + 1 <= i < start + 1 + Z.of_nat n).
Proof. lia. Qed.

Definition flip_count (b : bool) (n : Z) : Z := if b then - n else n.

Lemma flip_run_spec (b : bool) n base start num m :
  run_in base start n m -> in_s32 num -> in_s32 (num + flip_count b (Z.of_nat n)) ->
  exists m', flip_run b n base start num m = Ret (num + flip_count b (Z.of_nat n), m') /\
    length m' = length m /\ words_off base start n m m' /\
    (forall j, 0 <= j -> used base j m' =
       if decide (start <= j < start + Z.of_nat n) then b else used base j m).
Proof.
  revert start num m. induction n as [|n IH]; intros start num m Hr Hn Hn'.
  { exists m. split; [|split; [done|split; [done|]]].
    - simpl. do 2 f_equal. unfold flip_count. destruct b; lia.
    - intros j Hj. rewrite decide_False by lia. done. }
  apply run_in_S in Hr as [Hi Hr]. simpl.
  destruct (bm_flip_spec b _ _ _ Hi) as (m1 & -> & L1 & K1 & U1). simpl.
  assert (s32 (if b then num - 1 else num + 1) = num + flip_count b 1) as ->.
  { unfold flip_count, in_s32 in *. destruct b; rewrite s32_id; unfold in_s32; lia. }
  destruct (IH (start + 1) (num + flip_count b 1) m1) as (m' & E & L & K & U).
  - by apply (run_in_length _ _ _ m).
  - unfold flip_count, in_s32 in *. destruct b; lia.
  - unfold flip_count, in_s32 in *. destruct b; lia.
  - exists m'. rewrite E, L. split; [|split; [done|split]].
    + do 2 f_equal. unfold flip_count. destruct b; lia.
    + intros k Hk. rewrite K, K1; [done| |].
      * apply Hk. lia.
      * intros i Hi'. apply Hk. lia.
    + intros j Hj. rewrite U, U1 by done.
      repeat case_decide; destruct (Z.eqb_spec start j); try lia; done.
Qed.

(** ** Well-formed allocator states *)

Record mem_ok (st : secure_world_mem_info) : Prop := {
  mo_base : 4 * vir_mem_bmap st = phy_mem_bmap_len st;
  mo_phy_len : 0 <= phy_mem_bmap_len st <= 2 ^ 17;
  mo_vir_len : 0 <= vir_mem_bmap_len st <= 2 ^ 17;
  mo_room : vir_mem_bmap st + (vir_mem_bmap_len st + 3) / 4 <= Z.of_nat (length (bmap st));
  mo_phy_addr : 0 < phy_addr_start st /\ phy_addr_start st + 2 ^ 15 * phy_mem_bmap_len st <= 2 ^ 32;
  mo_vir_addr : 0 < vir_addr_start st /\ vir_addr_start st + 2 ^ 15 * vir_mem_bmap_len st <= 2 ^ 32;
  mo_phy_free : 0 <= num_phy_pag_free st <= 8 * phy_mem_bmap_len st;
  mo_vir_free : 0 <= num_vir_pag_free st <= 8 * vir_mem_bmap_len st;
}.

Lemma mem_ok_phy_in st i : mem_ok st -> 0 <= i < 8 * phy_mem_bmap_len st -> bm_in phy_mem_bmap i (bmap st).
Proof.
  intros [] Hi. unfold bm_in, phy_mem_bmap. pose proof (Z.div_lt_upper_bound i 32 (vir_mem_bmap st)).
  pose proof (Z.div_pos (vir_mem_bmap_len st + 3) 4). lia.
Qed.

Lemma mem_ok_vir_in st i :
  mem_ok st -> 0 <= i < 8 * vir_mem_bmap_len st -> bm_in (vir_mem_bmap st) i (bmap st).
Proof.
  intros [] Hi. unfold bm_in. pose proof (Z.div_mod i 32). pose proof (Z.mod_pos_bound i 32).
  pose proof (Z.div_mod (vir_mem_bmap_len st + 3) 4).
  pose proof (Z.mod_pos_bound (vir_mem_bmap_len st + 3) 4). lia.
Qed.

Lemma round_range size : in_u32 size -> in_u32 (phy_round size) /\ in_u32 (vir_round size).
Proof.
  intros Hs. unfold phy_round, vir_round. split; case_match; auto using u32_range.
Qed.

Lemma page_count_range size : in_u32 size -> 0 <= Z.shiftr size PAGE_SHIFT < 2 ^ 20.
Proof.
  unfold in_u32, PAGE_SHIFT. intros Hs. rewrite Z.shiftr_div_pow2 by lia.
  split; [apply Z.div_pos; lia|apply Z.div_lt_upper_bound; lia].
Qed.

Lemma search_limit_eq len req : 0 <= len <= 2 ^ 17 -> 0 <= req <= 8 * len -> search_limit len req = 8 * len - req.
Proof.
  intros Hl Hr. unfold search_limit. rewrite Z.shiftl_mul_pow2 by lia.
  rewrite (u32_id (len * 2 ^ 3)), u32_id; unfold in_u32; lia.
Qed.

(** The search and the marking both allocators run, on one of the bitmaps. *)
Lemma search_mark_spec base len req num m :
  0 <= len <= 2 ^ 17 -> 0 <= req <= num -> num <= 8 * len ->
  (forall i, 0 <= i < 8 * len -> bm_in base i m) ->
  exists o, find_run (Z.to_nat (search_limit len req)) base 0 req m = Ret o /\
    match o with
    | None => forall s, 0 <= s < 8 * len - req -> ~ free_run base s req m
    | Some s => 0 <= s < 8 * len - req /\ free_run base s req m /\
        (forall s', 0 <= s' < s -> ~ free_run base s' req m) /\
        exists m', mark_run (Z.to_nat req) base s num m = Ret (num - req, m') /\
          length m' = length m /\ words_off base s (Z.to_nat req) m m' /\
          forall j, 0 <= j -> used base j m' =
            if decide (s <= j < s + req) then true else used base j m
    end.
Proof.
  intros Hl Hr Hn Hin. rewrite search_limit_eq by lia.
  destruct (find_run_spec (Z.to_nat (8 * len - req)) base 0 req m) as (o & E & Ho); [lia| |].
  { intros i Hi. apply Hin. lia. }
  exists o. split; [exact E|]. destruct o as [s|].
  - rewrite Z2Nat.id in Ho by lia. destruct Ho as (Hs & Hfree & Hfirst).
    split; [lia|]. split; [done|]. split; [intros s' Hs'; apply Hfirst; lia|].
    destruct (flip_run_spec true (Z.to_nat req) base s num m) as (m' & Em & L & K & U).
    { intros i Hi. apply Hin. lia. }
    { unfold in_s32. lia. }
    { unfold in_s32, flip_count. lia. }
    exists m'. unfold mark_run. rewrite Em, Z2Nat.id in * by lia.
    unfold flip_count. by split_and!.
  - rewrite Z2Nat.id in Ho by lia. intros s Hs. apply Ho. lia.
Qed.

(** What an allocation of [req] physical pages does. *)
Definition phy_alloc_post (req p : Z) (st st' : secure_world_mem_info) : Prop :=
  (p = 0 /\ st' = st /\
     (num_phy_pag_free st < req \/
      forall s, 0 <= s < 8 * phy_mem_bmap_len st - req -> ~ free_run phy_mem_bmap s req (bmap st)))
  \/ exists s m', p = phy_addr_start st + PAGE_SIZE * s /\
       st' = set_phy (num_phy_pag_free st - req, m') st /\
       req <= num_phy_pag_free st /\ 0 <= s < 8 * phy_mem_bmap_len st - req /\
       free_run phy_mem_bmap s req (bmap st) /\
       (forall s', 0 <= s' < s -> ~ free_run phy_mem_bmap s' req (bmap st)) /\
       length m' = length (bmap st) /\ words_off phy_mem_bmap s (Z.to_nat req) (bmap st) m' /\
       forall j, 0 <= j -> used phy_mem_bmap j m' =
         if decide (s <= j < s + req) then true else used phy_mem_bmap j (bmap st).

Lemma phy_alloc_spec size st :
  mem_ok st -> in_u32 size ->
  exists p st', sw_phy_page_alloc size st = Ret (p, st') /\
    phy_alloc_post (Z.shiftr (phy_round size) PAGE_SHIFT) p st st'.
Proof.
  intros Hok Hs. destruct (round_range size Hs) as [Hr _]. apply page_count_range in Hr as Hq.
  unfold sw_phy_page_alloc. set (req := Z.shiftr (phy_round size) PAGE_SHIFT) in *.
  destruct (Z.ltb_spec (num_phy_pag_free st) req) as [Hlt|Hge].
  { exists 0, st. split; [done|]. left. auto. }
  pose proof Hok as [].
  destruct (search_mark_spec phy_mem_bmap (phy_mem_bmap_len st) req (num_phy_pag_free st) (bmap st))
    as ([s|] & -> & Ho); [lia|lia|lia|by intros; apply mem_ok_phy_in| |].
  - destruct Ho as (Hs' & Hfree & Hfirst & m' & E & L & K & U). simpl. rewrite E. simpl.
    eexists _, _. split; [done|]. right. exists s, m'.
    split; [|split_and!; try done; lia].
    unfold PAGE_SHIFT, PAGE_SIZE. rewrite Z.shiftl_mul_pow2 by lia.
    rewrite u32_id; [lia|]. unfold in_u32. lia.
  - exists 0, st. split; [done|]. left. auto.
Qed.

(** ** Physical pages over a whole run of the system *)

(** A client allocates a size or gives back the [k]-th block it holds; a block
    is its first page and its number of pages. *)
Inductive page_op : Type :=
  | PAlloc (size : Z)
  | PFree (k : nat).

Definition page_step (op : page_op) (s : secure_world_mem_info * list (Z * Z))
    : res (secure_world_mem_info * list (Z * Z)) :=
  let '(st, live) := s in
  match op with
  | PAlloc size =>
      '(p, st') ← sw_phy_page_alloc (u32 size) st;
      if p =? 0 then mret (st', live)
      else mret (st', live ++ [((p - phy_addr_start st) / PAGE_SIZE,
                                 Z.shiftr (phy_round (u32 size)) PAGE_SHIFT)])
  | PFree k =>
      match live !! k with
      | None => mret (st, live)
      | Some (pg, n) =>
          '(_, st') ← sw_phy_addr_free (phy_addr_start st + PAGE_SIZE * pg) (PAGE_SIZE * n) st;
          mret (st', delete k live)
      end
  end.

Fixpoint page_run (ops : list page_op) (s : secure_world_mem_info * list (Z * Z))
    : res (secure_world_mem_info * list (Z * Z)) :=
  match ops with
  | [] => mret s
  | op :: ops' => s' ← page_step op s; page_run ops' s'
  end.

(** The pages of the blocks that are held. *)
Definition pages_of (live : list (Z * Z)) : list Z := live ≫= fun b => seqZ (fst b) (snd b).
Definition live_sum (live : list (Z * Z)) : Z := foldr (fun b n => snd b + n) 0 live.

Record pages_inv (st0 : secure_world_mem_info) (s : secure_world_mem_info * list (Z * Z)) : Prop := {
  pi_ok : mem_ok (fst s);
  pi_sum : num_phy_pag_free (fst s) + live_sum (snd s) <= 8 * phy_mem_bmap_len (fst s);
  pi_count : Forall (fun b => 0 <= fst b /\ 0 <= snd b /\ fst b + snd b <= 8 * phy_mem_bmap_len (fst s)) (snd s);
  pi_nodup : NoDup (pages_of (snd s));
  pi_used : forall j, j ∈ pages_of (snd s) ->
    used phy_mem_bmap j (bmap (fst s)) = true /\ used phy_mem_bmap j (bmap st0) = false;
  pi_old : forall j, 0 <= j -> used phy_mem_bmap j (bmap st0) = true ->
    used phy_mem_bmap j (bmap (fst s)) = true;
  pi_vir : forall k, vir_mem_bmap st0 <= Z.of_nat k -> bmap (fst s) !! k = bmap st0 !! k;
  pi_base : vir_mem_bmap (fst s) = vir_mem_bmap st0;
}.

Lemma elem_of_pages live j :
  j ∈ pages_of live <-> exists s n, (s, n) ∈ live /\ s <= j < s + n.
Proof.
  unfold pages_of. rewrite list_elem_of_bind. split.
  - intros ([s n] & Hj & Hb). rewrite elem_of_seqZ in Hj. eauto.
  - intros (s & n & Hb & Hj). exists (s, n). by rewrite elem_of_seqZ.
Qed.

Lemma pages_of_app l1 l2 : pages_of (l1 ++ l2) = pages_of l1 ++ pages_of l2.
Proof. apply bind_app. Qed.

Lemma pages_of_cons b l : pages_of (b :: l) = seqZ (fst b) (snd b) ++ pages_of l.
Proof. done. Qed.

Lemma live_sum_app l1 l2 : live_sum (l1 ++ l2) = live_sum l1 + live_sum l2.
Proof. induction l1 as [|b l1 IH]; simpl; [done|]. unfold live_sum in *. simpl. lia. Qed.

Lemma set_phy_ok st num m :
  mem_ok st -> length m = length (bmap st) -> 0 <= num <= 8 * phy_mem_bmap_len st ->
  mem_ok (set_phy (num, m) st).
Proof. intros [] L Hn. split; simpl; try done; try lia. Qed.

(** Words of the virtual bitmap lie behind every physical page's bit. *)
Lemma words_off_vir st s n m' k :
  mem_ok st -> 0 <= s -> s + Z.of_nat n <= 8 * phy_mem_bmap_len st ->
  words_off phy_mem_bmap s n (bmap st) m' -> vir_mem_bmap st <= Z.of_nat k -> m' !! k = bmap st !! k.
Proof.
  intros [] Hs Hn K Hk. apply K. intros i Hi. unfold bm_index, phy_mem_bmap.
  rewrite Z.shiftr_div_pow2 by lia. change (2 ^ 5) with 32.
  pose proof (Z.div_lt_upper_bound i 32 (vir_mem_bmap st)). lia.
Qed.

Lemma live_sum_nonneg live len :
  Forall (fun b => 0 <= fst b /\ 0 <= snd b /\ fst b + snd b <= len) live -> 0 <= live_sum live.
Proof.
  unfold live_sum. induction 1 as [|[s n] l Hb _ IH]; simpl in *; lia.
Qed.

Lemma page_step_alloc st0 st live size :
  pages_inv st0 (st, live) ->
  exists s', page_step (PAlloc size) (st, live) = Ret s' /\ pages_inv st0 s'.
Proof.
  intros [Hok Hsum Hc Hnd Hu Hold Hvir Hbase]. simpl in *.
  destruct (phy_alloc_spec (u32 size) st Hok (u32_range size)) as (p & st' & -> & Hp). simpl.
  destruct (round_range _ (u32_range size)) as [Hr _]. apply page_count_range in Hr.
  set (req := Z.shiftr (phy_round (u32 size)) PAGE_SHIFT) in *. pose proof Hok as [].
  destruct Hp as [(-> & -> & _)|(s & m' & -> & -> & Hq & Hs & Hfree & _ & L & K & U)].
  { eexists. split; [done|]. by split. }
  destruct (Z.eqb_spec (phy_addr_start st + PAGE_SIZE * s) 0); [unfold PAGE_SIZE in *; lia|].
  eexists. split; [done|].
  replace (phy_addr_start st + PAGE_SIZE * s - phy_addr_start st) with (s * PAGE_SIZE) by lia.
  rewrite Z.div_mul by done. pose proof (live_sum_nonneg _ _ Hc).
  split; simpl.
  - apply set_phy_ok; [done|done|lia].
  - rewrite live_sum_app. unfold live_sum at 2. simpl. lia.
  - apply Forall_app. split; [done|]. constructor; [simpl; lia|constructor].
  - rewrite pages_of_app. apply NoDup_app. split; [done|]. split.
    + intros j Hj Hj'. rewrite pages_of_cons, app_nil_r, elem_of_seqZ in Hj'. simpl in Hj'.
      destruct (Hu j Hj) as [Hu1 _]. rewrite Hfree in Hu1 by lia. done.
    + rewrite pages_of_cons, app_nil_r. apply NoDup_seqZ.
  - intros j. rewrite pages_of_app, pages_of_cons, app_nil_r, elem_of_app, elem_of_seqZ. simpl.
    intros Hj. rewrite U.
    + destruct Hj as [Hj|Hj].
      * destruct (Hu j Hj) as [Hu1 Hu2]. split; [|done]. by case_decide.
      * rewrite decide_True by lia. split; [done|].
        destruct (used phy_mem_bmap j (bmap st0)) eqn:E0; [|done].
        rewrite <-(Hfree j) by lia. symmetry. apply Hold; [lia|done].
    + destruct Hj as [Hj|Hj]; [|lia]. apply elem_of_pages in Hj as (s1 & n1 & Hb & Hj).
      rewrite Forall_forall in Hc. specialize (Hc _ Hb). simpl in Hc. lia.
  - intros j Hj Hj0. rewrite U by done. case_decide; [done|]. by apply Hold.
  - intros k Hk. rewrite <-Hvir by done.
    apply (words_off_vir st s (Z.to_nat req)); [done|lia|lia|done|lia].
  - done.
Qed.

Lemma phy_free_spec st pg n :
  mem_ok st -> 0 <= pg -> 0 <= n -> pg + n <= 8 * phy_mem_bmap_len st ->
  num_phy_pag_free st + n <= 8 * phy_mem_bmap_len st ->
  exists r st', sw_phy_addr_free (phy_addr_start st + PAGE_SIZE * pg) (PAGE_SIZE * n) st = Ret (r, st') /\
    ((r = -1 /\ st' = st) \/
     (r = 0 /\ exists m', st' = set_phy (num_phy_pag_free st + n, m') st /\
        length m' = length (bmap st) /\
        words_off phy_mem_bmap pg (Z.to_nat n) (bmap st) m' /\
        forall j, 0 <= j -> used phy_mem_bmap j m' =
          if decide (pg <= j < pg + n) then false else used phy_mem_bmap j (bmap st))).
Proof.
  intros Hok Hpg Hn Hb Hs. pose proof Hok as []. unfold sw_phy_addr_free.
  destruct (_ || _); [exists (-1), st; auto|].
  replace (phy_addr_start st + PAGE_SIZE * pg - phy_addr_start st) with (2 ^ 12 * pg)
    by (unfold PAGE_SIZE; lia).
  change PAGE_SIZE with (2 ^ 12). unfold PAGE_SHIFT.
  rewrite (u32_id (2 ^ 12 * pg)) by (unfold in_u32; lia). rewrite !Z.shiftr_div_pow2 by lia.
  rewrite !(Z.mul_comm (2 ^ 12)), !Z.div_mul by lia.
  rewrite (u32_id (pg + n)) by (unfold in_u32; lia). replace (pg + n - pg) with n by lia.
  destruct (flip_run_spec false (Z.to_nat n) phy_mem_bmap pg (num_phy_pag_free st) (bmap st))
    as (m' & E & L & K & U).
  - intros i Hi. apply mem_ok_phy_in; [done|lia].
  - unfold in_s32. lia.
  - unfold in_s32, flip_count. lia.
  - unfold clear_run. rewrite Z2Nat.id, E in * by done. simpl. eexists _, _. split; [done|].
    right. split; [done|]. exists m'. auto.
Qed.

Lemma page_step_free st0 st live k :
  pages_inv st0 (st, live) ->
  exists s', page_step (PFree k) (st, live) = Ret s' /\ pages_inv st0 s'.
Proof.
  intros Hinv. pose proof Hinv as [Hok Hsum Hc Hnd Hu Hold Hvir Hbase]. simpl in *.
  destruct (live !! k) as [[pg n]|] eqn:Ek; [|by eexists].
  destruct (list_elem_of_split_length _ _ _ Ek) as (l1 & l2 & -> & ->). clear Ek.
  rewrite delete_middle. apply Forall_app in Hc as [Hc1 Hc2].
  apply Forall_cons in Hc2 as [(Hpg & Hn & Hb) Hc2]. simpl in *.
  rewrite live_sum_app in Hsum. unfold live_sum in Hsum at 2. simpl in Hsum. fold (live_sum l2) in Hsum.
  pose proof (live_sum_nonneg _ _ Hc1). pose proof (live_sum_nonneg _ _ Hc2).
  rewrite pages_of_app, pages_of_cons in Hnd. simpl in Hnd.
  assert (Hsub : forall j, j ∈ pages_of (l1 ++ l2) -> j ∈ pages_of (l1 ++ (pg, n) :: l2) /\
            ~ (pg <= j < pg + n)).
  { intros j. rewrite !pages_of_app, pages_of_cons, !elem_of_app. simpl.
    rewrite <-elem_of_seqZ. apply NoDup_app in Hnd as (_ & N1 & N2).
    apply NoDup_app in N2 as (_ & N2 & _). set_solver. }
  assert (Hnd' : NoDup (pages_of (l1 ++ l2))).
  { rewrite pages_of_app. apply NoDup_app in Hnd as (N0 & N1 & N2).
    apply NoDup_app in N2 as (_ & N2 & N3). apply NoDup_app. set_solver. }
  destruct (phy_free_spec st pg n) as (r & st' & -> & Hst'); [done..|lia|]. simpl.
  eexists. split; [done|]. pose proof Hok as [].
  destruct Hst' as [(_ & ->)|(_ & m' & -> & L & K & U)]; split; simpl; try done.
  - rewrite live_sum_app. lia.
  - by apply Forall_app.
  - intros j Hj. by apply Hu, Hsub.
  - apply set_phy_ok; [done|done|lia].
  - rewrite live_sum_app. lia.
  - by apply Forall_app.
  - intros j Hj. destruct (Hsub j Hj) as [Hj1 Hj2]. destruct (Hu j Hj1) as [Hu1 Hu2].
    split; [|done]. apply elem_of_pages in Hj as (s1 & n1 & Hb1 & Hj).
    assert (0 <= s1) by (apply elem_of_app in Hb1 as [Hb1|Hb1];
      [apply (proj1 (Forall_forall _ _) Hc1 _ Hb1)|apply (proj1 (Forall_forall _ _) Hc2 _ Hb1)]).
    by rewrite U, decide_False by lia.
  - intros j Hj Hj0. rewrite U by done. case_decide as Hd; [|by apply Hold].
    destruct (Hu j) as [_ Hu2]; [|congruence].
    rewrite pages_of_app, pages_of_cons, !elem_of_app, elem_of_seqZ. simpl. auto.
  - intros k0 Hk0. rewrite <-Hvir by done.
    apply (words_off_vir st pg (Z.to_nat n)); [done|lia|lia|done|lia].
Qed.


(** ** Rounding *)

Lemma land_page_offset size : Z.land size (PAGE_SIZE - 1) = size mod 4096.
Proof. change (PAGE_SIZE - 1) with (Z.ones 12). by rewrite Z.land_ones. Qed.

Lemma shiftr_page_add x : Z.shiftr (x + PAGE_SIZE) PAGE_SHIFT = Z.shiftr x PAGE_SHIFT + 1.
Proof.
  unfold PAGE_SHIFT, PAGE_SIZE. rewrite !Z.shiftr_div_pow2 by lia. change (2 ^ 12) with 4096.
  rewrite <-(Z.mul_1_l 4096) at 1. by rewrite Z.div_add.
Qed.

(** Masking the pages of a size with [mask] whose pages are [k]. *)
Lemma shiftr_page_land size mask :
  Z.shiftr (Z.land size mask) PAGE_SHIFT = Z.land (size / 4096) (Z.shiftr mask PAGE_SHIFT).
Proof.
  rewrite Z.shiftr_land. f_equal. unfold PAGE_SHIFT. by rewrite Z.shiftr_div_pow2.
Qed.

Lemma land_split q a b :
  Z.land a b = 0 -> Z.land q a + Z.land q b = Z.land q (Z.lor a b).
Proof.
  intros Hab. rewrite Z.add_nocarry_lxor, Z.land_lor_distr_r.
  - apply Z.lxor_lor. rewrite Z.land_assoc, <-(Z.land_assoc q a q), (Z.land_comm a q),
      Z.land_assoc, Z.land_diag, <-Z.land_assoc, Hab. apply Z.land_0_r.
  - rewrite Z.land_assoc, <-(Z.land_assoc q a q), (Z.land_comm a q),
      Z.land_assoc, Z.land_diag, <-Z.land_assoc, Hab. apply Z.land_0_r.
Qed.

Lemma land_le size mask : in_u32 size -> 0 <= mask -> 0 <= Z.land size mask <= size.
Proof.
  intros [Hs _] Hm. split; [apply Z.land_nonneg; lia|].
  pose proof (land_split size mask (Z.lnot mask) (Z.land_lnot_diag mask)) as E.
  rewrite Z.lor_lnot_diag, Z.land_m1_r in E.
  assert (0 <= Z.land size (Z.lnot mask)) by (apply Z.land_nonneg; lia). lia.
Qed.

(** The page counts of the two allocators.  The virtual one covers the size
    asked for.  The physical one is a page short when the size is not a
    multiple of a page and its number of full pages is odd, because
    [~PAGE_SIZE - 1] clears bit 12 of the size; the sizes it is given by
    [sw_vir_page_alloc], which are rounded already, are unaffected. *)
Theorem page_rounding size :
  0 <= size <= 2 ^ 32 - PAGE_SIZE ->
  Z.shiftr (vir_round size) PAGE_SHIFT = (size + 4095) / 4096 /\
  Z.shiftr (phy_round size) PAGE_SHIFT =
    (size + 4095) / 4096 - (if size mod 4096 =? 0 then 0 else (size / 4096) mod 2) /\
  phy_round (vir_round size) = vir_round size.
Proof.
  unfold PAGE_SIZE at 1. intros Hs.
  assert (Hu : in_u32 size) by (unfold in_u32; lia).
  pose proof (Z.div_mod size 4096 ltac:(done)).
  pose proof (Z.mod_pos_bound size 4096 ltac:(done)).
  assert (Hmod : (size mod 4096 = 0 -> (size + 4095) / 4096 = size / 4096) /\
                 (size mod 4096 <> 0 -> (size + 4095) / 4096 = size / 4096 + 1)).
  { split; intros H1.
    - symmetry. apply (Z.div_unique _ _ _ 4095); lia.
    - symmetry. apply (Z.div_unique _ _ _ (size mod 4096 - 1)); lia. }
  destruct Hmod as [Hm1 Hm2]. unfold vir_round, phy_round. rewrite !land_page_offset.
  change (u32 (Z.lnot (PAGE_SIZE - 1))) with 0xFFFFF000.
  change (u32 (u32 (Z.lnot PAGE_SIZE) - 1)) with 0xFFFFEFFE.
  destruct (Z.eqb_spec (size mod 4096) 0) as [Ez|Ez].
  { rewrite (Hm1 Ez), Ez. simpl. unfold PAGE_SHIFT. rewrite Z.shiftr_div_pow2 by lia.
    change (2 ^ 12) with 4096. lia. }
  rewrite (Hm2 Ez).
  pose proof (land_le size 0xFFFFF000 Hu). pose proof (land_le size 0xFFFFEFFE Hu).
  rewrite !u32_id by (unfold in_u32, PAGE_SIZE; lia).
  assert (Hq : 0 <= size / 4096 < 2 ^ 20).
  { split; [apply Z.div_pos; lia|apply Z.div_lt_upper_bound; lia]. }
  assert (E1 : Z.land (size / 4096) 0xFFFFF = size / 4096).
  { change 0xFFFFF with (Z.ones 20). rewrite Z.land_ones by lia. apply Z.mod_small. lia. }
  assert (E2 : Z.land (size / 4096) 0xFFFFE = size / 4096 - (size / 4096) mod 2).
  { pose proof (land_split (size / 4096) 0xFFFFE 1 eq_refl) as E.
    change (Z.lor 0xFFFFE 1) with 0xFFFFF in E. change 1 with (Z.ones 1) in E.
    rewrite (Z.land_ones _ 1) in E by lia. change (2 ^ 1) with 2 in E. lia. }
  rewrite !shiftr_page_add, !shiftr_page_land.
  change (Z.shiftr 0xFFFFF000 PAGE_SHIFT) with 0xFFFFF.
  change (Z.shiftr 0xFFFFEFFE PAGE_SHIFT) with 0xFFFFE. rewrite E1, E2.
  split; [lia|]. split; [lia|].
  rewrite Z.add_mod, (Z.land_comm size), <-(land_page_offset (Z.land _ _)), <-Z.land_assoc,
    (Z.land_comm size), Z.land_assoc by lia.
  change (Z.land 0xFFFFF000 (PAGE_SIZE - 1)) with 0. by rewrite Z.land_0_l.
Qed.

(** ** Reservations *)

(** The loop never advances [res_pg], and it stops only at exactly zero. *)
Lemma reserve_loop_exact n fuel base pg num m :
  (n <= fuel)%nat -> Z.of_nat n < 2 ^ 20 -> bm_in base pg m -> in_s32 num ->
  in_s32 (num - Z.of_nat n) ->
  exists m', reserve_loop fuel base pg (PAGE_SIZE * Z.of_nat n) num m
      = Ret (num - Z.of_nat n, m') /\ length m' = length m /\
    forall j, 0 <= j -> used base j m' =
      if (pg =? j) && negb (n =? 0)%nat then true else used base j m.
Proof.
  revert fuel num m. induction n as [|n IH]; intros fuel num m Hf Hn Hin Hnum Hnum'.
  - exists m. split; [|split; [done|]].
    + rewrite Z.mul_0_r, Z.sub_0_r. by destruct fuel.
    + intros j Hj. by rewrite andb_false_r.
  - destruct fuel as [|fuel]; [lia|]. cbn [reserve_loop]. unfold PAGE_SIZE in *.
    destruct (Z.eqb_spec (4096 * Z.of_nat (S n)) 0); [lia|].
    destruct (bm_flip_spec true base pg m Hin) as (m1 & E & L & _ & U). simpl in E.
    rewrite E. simpl.
    replace (u32 (4096 * Z.of_nat (S n) - 4096)) with (4096 * Z.of_nat n)
      by (rewrite u32_id; [lia|unfold in_u32; lia]).
    rewrite s32_id by (unfold in_s32 in *; lia).
    destruct (IH fuel (num - 1) m1) as (m' & E' & L' & U'); [lia|lia| | | |].
    + destruct Hin as (? & ? & ?). split_and!; [done|done|by rewrite L].
    + unfold in_s32 in *. lia.
    + unfold in_s32 in *. lia.
    + exists m'. rewrite E', L'. split; [do 2 f_equal; lia|]. split; [done|].
      intros j Hj. rewrite U', U by done. simpl. rewrite andb_true_r.
      destruct (Z.eqb_spec pg j); [|done]. by destruct (negb _).
Qed.

Lemma u32_page_mod x : u32 (x - PAGE_SIZE) mod PAGE_SIZE = x mod PAGE_SIZE.
Proof.
  unfold u32, uw. rewrite Z.mod_mod_divide by (exists (2 ^ 20); done).
  rewrite <-(Z.mod_add (x - PAGE_SIZE) 1) by done. f_equal. lia.
Qed.

Lemma reserve_loop_diverges fuel base pg size num m :
  size mod PAGE_SIZE <> 0 -> reserve_loop fuel base pg size num m = Fault.
Proof.
  revert size num m. induction fuel as [|fuel IH]; intros size num m Hs; simpl;
    (destruct (Z.eqb_spec size 0) as [->|]; [done|]); [done|].
  unfold bm_set, bm_read. destruct (bm_index base pg <? 0); [done|].
  destruct (m !! _); simpl; [|done]. apply IH. by rewrite u32_page_mod.
Qed.

(** [sw_phy_addr_reserve] on a free range that lies in the region.  With a
    size of [n] whole pages it returns, lowers the count by [n], but marks only
    the first page of the range: the other pages can still be handed out.  With
    any other size the loop never ends, however many rounds it is given. *)
Theorem phy_reserve_behaviour fuel st pg n size :
  mem_ok st -> 0 <= pg -> 0 < n < 2 ^ 19 -> pg + n <= 8 * phy_mem_bmap_len st ->
  n <= num_phy_pag_free st -> (Z.to_nat n <= fuel)%nat ->
  phy_addr_start st + PAGE_SIZE * pg <= u32 (phy_addr_start st + phy_memregion_size st) ->
  free_run phy_mem_bmap pg n (bmap st) -> size / PAGE_SIZE = n ->
  (size = PAGE_SIZE * n ->
   exists st', sw_phy_addr_reserve fuel (phy_addr_start st + PAGE_SIZE * pg) size st = Ret (0, st') /\
     num_phy_pag_free st' = num_phy_pag_free st - n /\
     (forall j, 0 <= j -> used phy_mem_bmap j (bmap st') =
        if pg =? j then true else used phy_mem_bmap j (bmap st))) /\
  (size mod PAGE_SIZE <> 0 ->
   sw_phy_addr_reserve fuel (phy_addr_start st + PAGE_SIZE * pg) size st = Fault).
Proof.
  intros Hok Hpg Hn Hb Hnum Hf Hreg Hfree Hsz. pose proof Hok as [].
  unfold sw_phy_addr_reserve.
  replace (phy_addr_start st + PAGE_SIZE * pg - phy_addr_start st) with (PAGE_SIZE * pg) by lia.
  change PAGE_SIZE with (2 ^ 12) in *. unfold PAGE_SHIFT.
  destruct (Z.ltb_spec (phy_addr_start st + 2 ^ 12 * pg) (phy_addr_start st)); [lia|].
  destruct (Z.ltb_spec (u32 (phy_addr_start st + phy_memregion_size st))
    (phy_addr_start st + 2 ^ 12 * pg)); [lia|]. cbn [orb].
  pose proof (Z.div_mod size (2 ^ 12) ltac:(lia)) as Hdiv.
  pose proof (Z.mod_pos_bound size (2 ^ 12) ltac:(lia)) as Hmod.
  rewrite !Z.shiftr_div_pow2, Hsz by lia.
  rewrite (u32_id n), (u32_id (2 ^ 12 * pg)) by (unfold in_u32; lia).
  rewrite (Z.mul_comm _ pg), Z.div_mul, (u32_id (pg + n)) by (unfold in_u32; lia).
  replace (pg + n - pg) with n by lia.
  assert (Hin : run_in phy_mem_bmap pg (Z.to_nat n) (bmap st)).
  { intros i Hi. apply mem_ok_phy_in; [done|lia]. }
  destruct (avail_count_spec _ _ _ _ Hin) as (k & -> & Hk & _ & Hu).
  assert (k = n) as ->.
  { destruct (decide (k < n)); [|lia]. specialize (Hfree (pg + k)). rewrite Hu in Hfree by lia.
    by discriminate Hfree; lia. }
  cbn [mbind res_bind mret res_ret]. rewrite Z.eqb_refl. cbn [negb]. cbv iota.
  rewrite (u32_id size) by (unfold in_u32; lia). split.
  - intros ->. destruct (reserve_loop_exact (Z.to_nat n) fuel phy_mem_bmap pg
      (num_phy_pag_free st) (bmap st)) as (m' & E & L & U); [lia|lia| | | |].
    + apply mem_ok_phy_in; [done|lia].
    + unfold in_s32. lia.
    + unfold in_s32. lia.
    + rewrite Z2Nat.id in E by lia. change (2 ^ 12) with PAGE_SIZE. rewrite E. simpl.
      eexists. split; [done|]. split; [simpl; lia|]. intros j Hj. simpl. rewrite U by done.
      destruct (Nat.eqb_spec (Z.to_nat n) 0); [lia|]. by rewrite andb_true_r.
  - intros Hne. by rewrite reserve_loop_diverges.
Qed.

(** ** Virtual allocations and the page table *)

(** The address the table translates [v] to. *)
Definition translate (pgd : l1_table) (v : Z) : Z :=
  Z.land (l1_get pgd (l1_index v)) SECTION_BASE_MASK + v mod SECTION_SIZE.

Definition secure_section (multicore : bool) (v p : Z) : cpu_section :=
  normal_section v p PRIV_RW_USR_RW L1_EXECUTE_ALLOW 0 1 (s_attr multicore).

Lemma secure_section_ok multicore v p : in_u32 p -> section_ok (secure_section multicore v p).
Proof.
  intros Hp. unfold section_ok, secure_section, normal_section, s_attr, SECURE_ACCESS_DOMAIN,
    PRIV_RW_USR_RW, L1_EXECUTE_ALLOW. simpl. destruct multicore; split_and!; try done; lia.
Qed.

Lemma l1_index_eq v : in_u32 v -> l1_index v = v / 2 ^ 20.
Proof. intros Hv. unfold l1_index. rewrite u32_id by done. by rewrite Z.shiftr_div_pow2. Qed.

(** The loop maps the sections from that of [va] on, one per section from
    [start_addr] to [end_addr], and leaves the other entries. *)
Lemma map_alloc_loop_spec multicore (k fuel : nat) (a e p v : Z) pgd :
  (k < fuel)%nat -> e + 1 - a = Z.of_nat k -> 0 <= a -> e < 4095 ->
  0 <= v -> v + 2 ^ 20 * Z.of_nat k < 2 ^ 32 -> 0 <= p -> p + 2 ^ 20 * Z.of_nat k < 2 ^ 32 ->
  exists t, map_alloc_loop multicore fuel (2 ^ 20 * a) (2 ^ 20 * e) p v pgd = Ret t /\
    forall j, l1_get t j =
      if decide (v / 2 ^ 20 <= j < v / 2 ^ 20 + Z.of_nat k) then
        if free_entry (l1_get pgd j)
        then section_desc (secure_section multicore (v + 2 ^ 20 * (j - v / 2 ^ 20))
               (p + 2 ^ 20 * (j - v / 2 ^ 20)))
        else l1_get pgd j
      else l1_get pgd j.
Proof.
  revert fuel a p v pgd. induction k as [|k IH]; intros fuel a p v pgd Hf Hk Ha He Hv1 Hv2 Hp1 Hp2.
  { exists pgd. split.
    - destruct fuel; simpl; (destruct (Z.ltb_spec (2 ^ 20 * e) (2 ^ 20 * a)); [done|lia]).
    - intros j. by rewrite decide_False by lia. }
  destruct fuel as [|fuel]; [lia|]. cbn [map_alloc_loop].
  destruct (Z.ltb_spec (2 ^ 20 * e) (2 ^ 20 * a)); [lia|].
  rewrite !SECTION_SIZE_eq, (u32_id (2 ^ 20 * a + _)), (u32_id (p + _)), (u32_id (v + _))
    by (unfold in_u32; lia).
  replace (2 ^ 20 * a + 2 ^ 20) with (2 ^ 20 * (a + 1)) by lia.
  destruct (IH fuel (a + 1) (p + 2 ^ 20) (v + 2 ^ 20) (snd (map_to_secure multicore p v pgd)))
    as (t & E & Ht); [lia..|].
  exists t. split; [exact E|]. intros j. rewrite Ht.
  assert ((v + 2 ^ 20) / 2 ^ 20 = v / 2 ^ 20 + 1) as ->
    by (rewrite <-(Z.mul_1_l (2 ^ 20)) at 1; by rewrite Z.div_add).
  unfold map_to_secure. rewrite l1_get_map. cbn [va normal_section].
  fold (secure_section multicore v p). rewrite (l1_index_eq v) by (unfold in_u32; lia).
  change (Z.land (l1_get pgd j) L1_TYPE_MASK =? L1_TYPE_FAULT) with (free_entry (l1_get pgd j)).
  destruct (decide (v / 2 ^ 20 = j)) as [<-|Hj].
  - rewrite decide_False, decide_True by lia. rewrite Z.sub_diag, Z.mul_0_r, !Z.add_0_r. done.
  - repeat case_decide; try lia; try done.
    replace (v + 2 ^ 20 + 2 ^ 20 * (j - (v / 2 ^ 20 + 1))) with (v + 2 ^ 20 * (j - v / 2 ^ 20)) by lia.
    replace (p + 2 ^ 20 + 2 ^ 20 * (j - (v / 2 ^ 20 + 1))) with (p + 2 ^ 20 * (j - v / 2 ^ 20)) by lia.
    done.
Qed.

Lemma used_words base j m m' :
  (m' !! Z.to_nat (bm_index base j) = m !! Z.to_nat (bm_index base j)) ->
  used base j m' = used base j m.
Proof. unfold used. by intros ->. Qed.

(** Marking physical pages does not change a virtual page's bit, and
    conversely. *)
Lemma used_vir_phy st s n m' j :
  mem_ok st -> 0 <= s -> s + Z.of_nat n <= 8 * phy_mem_bmap_len st ->
  words_off phy_mem_bmap s n (bmap st) m' -> 0 <= j ->
  used (vir_mem_bmap st) j m' = used (vir_mem_bmap st) j (bmap st).
Proof.
  intros Hok Hs Hn K Hj. apply used_words. apply (words_off_vir st s n); try done.
  unfold bm_index. rewrite Z.shiftr_div_pow2 by lia. pose proof (Z.div_pos j (2 ^ 5)).
  destruct Hok. lia.
Qed.

Lemma used_phy_vir st s n m m' j :
  mem_ok st -> 0 <= s -> words_off (vir_mem_bmap st) s n m m' ->
  0 <= j < 8 * phy_mem_bmap_len st -> used phy_mem_bmap j m' = used phy_mem_bmap j m.
Proof.
  intros [] Hs K Hj. apply used_words, K. intros i Hi. unfold bm_index, phy_mem_bmap.
  rewrite !Z.shiftr_div_pow2 by lia. pose proof (Z.div_pos i (2 ^ 5)).
  pose proof (Z.div_lt_upper_bound j (2 ^ 5) (vir_mem_bmap st)).
  pose proof (Z.div_pos j (2 ^ 5)). lia.
Qed.

Lemma section_mask_eq x : in_u32 x -> Z.land x SECTION_MASK = 2 ^ 20 * (x / 2 ^ 20).
Proof.
  intros Hx. change SECTION_MASK with SECTION_BASE_MASK.
  rewrite section_base_mask by done. by rewrite l1_index_eq.
Qed.

(** The address a mapped byte of the block translates to: the section offset
    is the virtual one. *)
Lemma translate_mapped multicore (k : nat) v p pgd t x :
  0 <= v -> v + 2 ^ 20 * Z.of_nat k < 2 ^ 32 -> 0 <= p -> p + 2 ^ 20 * Z.of_nat k < 2 ^ 32 ->
  (forall j, l1_get t j =
     if decide (v / 2 ^ 20 <= j < v / 2 ^ 20 + Z.of_nat k) then
       if free_entry (l1_get pgd j)
       then section_desc (secure_section multicore (v + 2 ^ 20 * (j - v / 2 ^ 20))
              (p + 2 ^ 20 * (j - v / 2 ^ 20)))
       else l1_get pgd j
     else l1_get pgd j) ->
  0 <= x -> v mod 2 ^ 20 + x < 2 ^ 20 * Z.of_nat k ->
  free_entry (l1_get pgd (l1_index (v + x))) = true ->
  translate t (v + x) = p + x + (v mod 2 ^ 20 - p mod 2 ^ 20).
Proof.
  intros Hv1 Hv2 Hp1 Hp2 Ht Hx Hxk Hfree.
  pose proof (Z.div_mod v (2 ^ 20) ltac:(lia)). pose proof (Z.div_mod p (2 ^ 20) ltac:(lia)).
  pose proof (Z.mod_pos_bound v (2 ^ 20) ltac:(lia)).
  pose proof (Z.div_mod (v + x) (2 ^ 20) ltac:(lia)).
  pose proof (Z.mod_pos_bound (v + x) (2 ^ 20) ltac:(lia)).
  rewrite l1_index_eq in Hfree by (unfold in_u32; lia).
  unfold translate. rewrite l1_index_eq by (unfold in_u32; lia).
  set (j := (v + x) / 2 ^ 20) in *. rewrite Ht, decide_True, Hfree by lia.
  assert (Hp : in_u32 (p + 2 ^ 20 * (j - v / 2 ^ 20))) by (unfold in_u32; lia).
  rewrite section_desc_base by (by apply secure_section_ok). cbn [pa secure_section normal_section].
  change SECTION_BASE_MASK with SECTION_MASK. rewrite section_mask_eq, SECTION_SIZE_eq by done.
  rewrite (Z.mul_comm (2 ^ 20) (j - _)), Z.div_add by lia. lia.
Qed.

(** The state after [req] pages were taken from both bitmaps. *)
Definition vir_alloc_pages (req s1 s2 : Z) (st st' : secure_world_mem_info) : Prop :=
  mem_ok st' /\ vir_addr_start st' = vir_addr_start st /\ phy_addr_start st' = phy_addr_start st /\
  vir_mem_bmap st' = vir_mem_bmap st /\ vir_mem_bmap_len st' = vir_mem_bmap_len st /\
  phy_mem_bmap_len st' = phy_mem_bmap_len st /\
  0 <= s1 < 8 * phy_mem_bmap_len st - req /\ 0 <= s2 < 8 * vir_mem_bmap_len st - req /\
  free_run phy_mem_bmap s1 req (bmap st) /\ free_run (vir_mem_bmap st) s2 req (bmap st) /\
  num_phy_pag_free st' = num_phy_pag_free st - req /\
  num_vir_pag_free st' = num_vir_pag_free st - req /\
  (forall j, 0 <= j < 8 * phy_mem_bmap_len st -> used phy_mem_bmap j (bmap st') =
     if decide (s1 <= j < s1 + req) then true else used phy_mem_bmap j (bmap st)) /\
  (forall j, 0 <= j -> used (vir_mem_bmap st) j (bmap st') =
     if decide (s2 <= j < s2 + req) then true else used (vir_mem_bmap st) j (bmap st)).

Lemma vir_alloc_pages_spec req s1 s2 m1 st :
  mem_ok st -> 0 <= req <= num_phy_pag_free st -> req <= num_vir_pag_free st ->
  0 <= s1 < 8 * phy_mem_bmap_len st - req -> 0 <= s2 < 8 * vir_mem_bmap_len st - req ->
  free_run phy_mem_bmap s1 req (bmap st) -> free_run (vir_mem_bmap st) s2 req (bmap st) ->
  length m1 = length (bmap st) -> words_off phy_mem_bmap s1 (Z.to_nat req) (bmap st) m1 ->
  (forall j, 0 <= j -> used phy_mem_bmap j m1 =
     if decide (s1 <= j < s1 + req) then true else used phy_mem_bmap j (bmap st)) ->
  exists r, mark_run (Z.to_nat req) (vir_mem_bmap st) s2 (num_vir_pag_free st) m1 = Ret r /\
    vir_alloc_pages req s1 s2 st (set_vir r (set_phy (num_phy_pag_free st - req, m1) st)).
Proof.
  intros Hok Hr1 Hr2 Hs1 Hs2 Hf1 Hf2 L K U. pose proof Hok as [].
  destruct (flip_run_spec true (Z.to_nat req) (vir_mem_bmap st) s2 (num_vir_pag_free st) m1)
    as (m2 & E & L2 & K2 & U2).
  { intros i Hi. unfold bm_in. rewrite L. by apply mem_ok_vir_in; [|lia]. }
  { unfold in_s32. lia. }
  { unfold in_s32, flip_count. lia. }
  rewrite Z2Nat.id in * by lia.
  exists (num_vir_pag_free st - req, m2). split; [exact E|]. unfold vir_alloc_pages. simpl.
  split_and!; try done; try lia.
  - split; simpl; try done; try lia.
  - intros j Hj. rewrite (used_phy_vir st s2 (Z.to_nat req) m1 m2) by (done || lia). apply U. lia.
  - intros j Hj. rewrite U2 by done.
    rewrite (used_vir_phy st s1 (Z.to_nat req) m1 j) by (done || lia). done.
Qed.

Lemma vir_round_eq size :
  0 <= size <= 2 ^ 32 - PAGE_SIZE -> vir_round size = PAGE_SIZE * ((size + 4095) / 4096).
Proof.
  unfold PAGE_SIZE at 1. intros Hs. unfold vir_round. rewrite land_page_offset.
  change (u32 (Z.lnot (PAGE_SIZE - 1))) with (Z.shiftl (Z.ones 20) 12).
  pose proof (Z.div_mod size 4096 ltac:(done)).
  pose proof (Z.mod_pos_bound size 4096 ltac:(done)).
  assert (E : Z.land size (Z.shiftl (Z.ones 20) 12) = 4096 * (size / 4096)).
  { pose proof (land_split size (Z.ones 12) (Z.shiftl (Z.ones 20) 12) eq_refl) as E.
    change (Z.lor (Z.ones 12) (Z.shiftl (Z.ones 20) 12)) with (Z.ones 32) in E.
    rewrite !(Z.land_ones size), (Z.mod_small size (2 ^ 32)) in E by lia.
    change (2 ^ 12) with 4096 in E. lia. }
  rewrite E. unfold PAGE_SIZE. destruct (Z.eqb_spec (size mod 4096) 0) as [Ez|Ez].
  - rewrite <-(Z.div_unique (size + 4095) 4096 (size / 4096) 4095); lia.
  - rewrite <-(Z.div_unique (size + 4095) 4096 (size / 4096 + 1) (size mod 4096 - 1)) by lia.
    rewrite u32_id; [lia|unfold in_u32; lia].
Qed.

(** The sections [sw_vir_page_alloc] maps for a block at [v] and [p]. *)
Lemma vir_alloc_table multicore v p sz pgd :
  0 <= v -> v + sz + 2 ^ 21 < 2 ^ 32 -> 0 <= p -> p + sz + 2 ^ 21 < 2 ^ 32 -> 0 <= sz ->
  exists t, map_alloc_loop multicore map_alloc_fuel (Z.land p SECTION_MASK)
      (Z.land (u32 (p + sz)) SECTION_MASK) p v pgd = Ret t /\
    (p mod SECTION_SIZE = v mod SECTION_SIZE ->
     forall x, 0 <= x < sz -> free_entry (l1_get pgd (l1_index (v + x))) = true ->
       translate t (v + x) = p + x) /\
    (p mod SECTION_SIZE <> v mod SECTION_SIZE ->
       free_entry (l1_get pgd (l1_index v)) = true -> translate t v <> p).
Proof.
  intros Hv1 Hv2 Hp1 Hp2 Hsz. rewrite u32_id by (unfold in_u32; lia).
  rewrite !section_mask_eq, SECTION_SIZE_eq by (unfold in_u32; lia).
  pose proof (Z.div_mod p (2 ^ 20) ltac:(lia)). pose proof (Z.mod_pos_bound p (2 ^ 20) ltac:(lia)).
  pose proof (Z.div_mod (p + sz) (2 ^ 20) ltac:(lia)).
  pose proof (Z.mod_pos_bound (p + sz) (2 ^ 20) ltac:(lia)).
  pose proof (Z.mod_pos_bound v (2 ^ 20) ltac:(lia)).
  set (k := Z.to_nat ((p + sz) / 2 ^ 20 + 1 - p / 2 ^ 20)).
  destruct (map_alloc_loop_spec multicore k map_alloc_fuel (p / 2 ^ 20) ((p + sz) / 2 ^ 20) p v pgd)
    as (t & E & Ht); [unfold map_alloc_fuel; lia|lia..|].
  exists t. split; [exact E|]. split.
  - intros Hc x Hx Hf. rewrite (translate_mapped multicore k v p pgd t x); try done; try lia.
  - intros Hc Hf. rewrite <-(Z.add_0_r v).
    rewrite (translate_mapped multicore k v p pgd t 0); rewrite ?Z.add_0_r; try done; try lia.
Qed.

(** The outcome of a virtual allocation; see [vir_page_alloc_spec]. *)
Lemma vir_page_alloc_outcome multicore size st pgd :
  mem_ok st -> 0 <= size <= 2 ^ 32 - PAGE_SIZE ->
  phy_addr_start st + 2 ^ 15 * phy_mem_bmap_len st + 2 ^ 21 < 2 ^ 32 ->
  vir_addr_start st + 2 ^ 15 * vir_mem_bmap_len st + 2 ^ 21 < 2 ^ 32 ->
  exists v st' pgd', sw_vir_page_alloc multicore size st pgd = Ret (v, (st', pgd')) /\
    ((v = 0 /\ st' = st /\ pgd' = pgd) \/
     exists s1 s2, let req := (size + 4095) / 4096 in
       let p := phy_addr_start st + PAGE_SIZE * s1 in
       v = vir_addr_start st + PAGE_SIZE * s2 /\ vir_alloc_pages req s1 s2 st st' /\
       (p mod SECTION_SIZE = v mod SECTION_SIZE ->
        forall x, 0 <= x < PAGE_SIZE * req ->
          free_entry (l1_get pgd (l1_index (v + x))) = true -> translate pgd' (v + x) = p + x) /\
       (p mod SECTION_SIZE <> v mod SECTION_SIZE ->
          free_entry (l1_get pgd (l1_index v)) = true -> translate pgd' v <> p)).
Proof.
  intros Hok Hs Hptop Hvtop. pose proof Hok as [].
  pose proof (Z.div_pos (size + 4095) 4096 ltac:(lia) ltac:(lia)) as Hq.
  unfold sw_vir_page_alloc. rewrite vir_round_eq by done.
  set (req := (size + 4095) / 4096) in *.
  assert (Hreq : req <= 2 ^ 20 - 1).
  { unfold PAGE_SIZE in *. apply Z.lt_succ_r, Z.div_lt_upper_bound; lia. }
  assert (Ereq : Z.shiftr (PAGE_SIZE * req) PAGE_SHIFT = req).
  { unfold PAGE_SIZE, PAGE_SHIFT. rewrite Z.shiftr_div_pow2, Z.mul_comm by lia. by apply Z.div_mul. }
  rewrite Ereq. destruct (Z.ltb_spec (num_vir_pag_free st) req).
  { exists 0, st, pgd. auto. }
  destruct (search_mark_spec (vir_mem_bmap st) (vir_mem_bmap_len st) req (num_vir_pag_free st)
    (bmap st)) as (o & -> & Ho); [lia|lia|lia|by intros; apply mem_ok_vir_in|].
  destruct o as [s2|]; [|exists 0, st, pgd; auto].
  destruct Ho as (Hs2 & Hf2 & _). cbn [mbind res_bind].
  destruct (phy_alloc_spec (PAGE_SIZE * req) st Hok) as (p & st1 & -> & Hp).
  { unfold in_u32, PAGE_SIZE. lia. }
  assert (phy_round (PAGE_SIZE * req) = PAGE_SIZE * req) as Er.
  { unfold phy_round. rewrite land_page_offset, Z.mul_comm. unfold PAGE_SIZE.
    by rewrite Z.mod_mul. }
  rewrite Er, Ereq in Hp. cbn [mbind res_bind].
  destruct Hp as [(-> & -> & _)|(s1 & m1 & -> & -> & Hn1 & Hs1 & Hf1 & _ & L & K & U)].
  { exists 0, st, pgd. auto. }
  destruct (Z.eqb_spec (phy_addr_start st + PAGE_SIZE * s1) 0); [unfold PAGE_SIZE in *; lia|].
  destruct (vir_alloc_pages_spec req s1 s2 m1 st) as (r & E & Hpages); try done; try lia.
  cbn [num_vir_pag_free vir_mem_bmap vir_addr_start bmap set_phy snd] in *. rewrite E.
  cbn [mbind res_bind]. unfold PAGE_SHIFT. rewrite Z.shiftl_mul_pow2 by lia.
  rewrite (u32_id (s2 * _ + _)) by (unfold in_u32; lia).
  unfold PAGE_SIZE in *.
  destruct (vir_alloc_table multicore (s2 * 2 ^ 12 + vir_addr_start st) (phy_addr_start st + 4096 * s1)
    (4096 * req) pgd) as (t & -> & Ht1 & Ht2); [lia..|].
  cbn [mbind res_bind mret res_ret]. eexists _, _, _. split; [reflexivity|]. right. exists s1, s2.
  replace (s2 * 2 ^ 12 + vir_addr_start st) with (vir_addr_start st + 4096 * s2) in * by lia.
  auto.
Qed.


(** ** The initial state *)

Lemma length_clear_bytes n m : length (clear_bytes n m) = length m.
Proof. revert n. induction m as [|w m IH]; intros n; simpl; [done|]. repeat case_match; simpl; auto. Qed.

Lemma clear_bytes_zero n m (q : nat) :
  4 * Z.of_nat q + 4 <= n -> default 0 (clear_bytes n m !! q) = 0.
Proof.
  revert n q. induction m as [|w m IH]; intros n q Hq; simpl; [done|].
  destruct (Z.leb_spec n 0); [lia|]. destruct (Z.ltb_spec n 4); [lia|].
  destruct q as [|q]; simpl; [done|]. apply IH. lia.
Qed.

Lemma clear_bytes_used base j n m :
  0 <= base -> 0 <= j -> 4 * (base + j / 32) + 4 <= n -> used base j (clear_bytes n m) = false.
Proof.
  intros Hb Hj Hn. unfold used, bm_index. rewrite Z.shiftr_div_pow2 by lia. change (2 ^ 5) with 32.
  pose proof (Z.div_pos j 32). rewrite clear_bytes_zero by lia. apply Z.testbit_0_l.
Qed.

Lemma init_mark_spec (k fuel : nat) base start i stop num m :
  (k <= fuel)%nat -> 0 <= i -> 0 <= start -> start + 4096 * (i + Z.of_nat k) < 2 ^ 32 ->
  start + 4096 * (i + Z.of_nat k) - 4096 < stop <= start + 4096 * (i + Z.of_nat k) ->
  run_in base i k m -> in_s32 num -> in_s32 (num - Z.of_nat k) ->
  exists m', init_mark fuel base start (start + 4096 * i) stop num m = Ret (num - Z.of_nat k, m') /\
    length m' = length m /\ words_off base i k m m' /\
    forall j, 0 <= j -> used base j m' =
      if decide (i <= j < i + Z.of_nat k) then true else used base j m.
Proof.
  revert fuel i num m. induction k as [|k IH]; intros fuel i num m Hf Hi Hs Htop Hstop Hr Hn Hn'.
  { exists m. split.
    - destruct fuel; simpl; (destruct (Z.leb_spec stop (start + 4096 * i)); [|lia]);
        do 2 f_equal; lia.
    - split_and!; [done|done|]. intros j Hj. by rewrite decide_False by lia. }
  destruct fuel as [|fuel]; [lia|]. cbn [init_mark].
  destruct (Z.leb_spec stop (start + 4096 * i)); [lia|].
  apply run_in_S in Hr as [Hin Hr]. unfold PAGE_SHIFT, PAGE_SIZE.
  replace (start + 4096 * i - start) with (i * 2 ^ 12) by lia.
  rewrite (u32_id (i * 2 ^ 12)), Z.shiftr_div_pow2, Z.div_mul by (unfold in_u32; lia).
  destruct (bm_flip_spec true base i m Hin) as (m1 & E & L & K & U). simpl in E. rewrite E. simpl.
  rewrite (u32_id (start + 4096 * i + 4096)), s32_id by (unfold in_u32, in_s32 in *; lia).
  replace (start + 4096 * i + 4096) with (start + 4096 * (i + 1)) by lia.
  destruct (IH fuel (i + 1) (num - 1) m1) as (m' & E' & L' & K' & U'); try lia.
  { by apply (run_in_length _ _ _ m). }
  { unfold in_s32 in *. lia. }
  { unfold in_s32 in *. lia. }
  exists m'. rewrite E', L'. split; [do 2 f_equal; lia|]. split_and!; [done| |].
  - intros q Hq. rewrite K', K; [done| |].
    + apply Hq. lia.
    + intros i' Hi'. apply Hq. lia.
  - intros j Hj. rewrite U', U by done.
    repeat case_decide; destruct (Z.eqb_spec i j); try lia; done.
Qed.

Section meminfo_init_spec.
Context (ram_start ram_end code_start code_end : Z) (raw : list Z).
Hypothesis Hram : 0 < ram_start /\ ram_start + 2 ^ 13 <= ram_end + 1 /\ ram_end + 2 ^ 17 < 2 ^ 32.

Local Abbreviation region := (phy_region ram_start ram_end).
Local Abbreviation plen := (phy_bmap_len ram_start ram_end).
Local Abbreviation ram_pages := ((ram_end - ram_start + 1) / 4096).

Lemma page_offset_eq x : Z.land x PAGE_OFFSET_MASK = x mod 4096.
Proof. change PAGE_OFFSET_MASK with (Z.ones 12). by rewrite Z.land_ones. Qed.

Lemma phy_region_spec :
  fst region mod 4096 = 0 /\ snd region mod 4096 = 0 /\ 0 <= snd region /\
  ram_start <= fst region /\ fst region + snd region <= ram_end + 1 /\
  ram_pages - 1 <= snd region / 4096 <= ram_pages.
Proof.
  destruct Hram as (H1 & H2 & H3). unfold phy_region. rewrite !page_offset_eq.
  rewrite (u32_id (ram_end - ram_start + 1)) by (unfold in_u32; lia).
  pose proof (Z.div_mod ram_start 4096 ltac:(lia)). pose proof (Z.mod_pos_bound ram_start 4096 ltac:(lia)).
  set (size := ram_end - ram_start + 1).
  assert (Htrim : forall s, 0 <= s <= size -> size - 4096 <= s ->
    exists z, (if s mod 4096 =? 0 then s else u32 (s - s mod 4096)) = 4096 * z /\
      z = s / 4096).
  { intros s Hs _. exists (s / 4096). split; [|done]. pose proof (Z.div_mod s 4096 ltac:(lia)).
    pose proof (Z.mod_pos_bound s 4096 ltac:(lia)).
    destruct (Z.eqb_spec (s mod 4096) 0); [lia|]. rewrite u32_id; [lia|unfold in_u32; lia]. }
  destruct (Z.eqb_spec (ram_start mod 4096) 0) as [Ez|Ez]; cbn [fst snd].
  - rewrite page_offset_eq. destruct (Htrim size) as (z & -> & ->); [lia|lia|].
    pose proof (Z.div_mod size 4096 ltac:(lia)). pose proof (Z.mod_pos_bound size 4096 ltac:(lia)).
    rewrite (Z.mul_comm 4096), Z.mod_mul, Z.div_mul by lia. lia.
  - unfold PAGE_SIZE.
    rewrite (u32_id (ram_start + _)) by (unfold in_u32; lia).
    assert (Ea : (ram_start + (4096 - ram_start mod 4096)) mod 4096 = 0).
    { replace (ram_start + (4096 - ram_start mod 4096)) with ((ram_start / 4096 + 1) * 4096) by lia.
      by apply Z.mod_mul. }
    rewrite !page_offset_eq, Ea, Z.sub_0_r, (u32_id (size - 4096)) by (unfold in_u32; lia).
    destruct (Htrim (size - 4096)) as (z & -> & ->); [lia|lia|].
    assert ((size - 4096) / 4096 = size / 4096 - 1) as ->.
    { replace (size - 4096) with (size + (-1) * 4096) by lia. rewrite Z.div_add by lia. lia. }
    pose proof (Z.div_mod size 4096 ltac:(lia)). pose proof (Z.mod_pos_bound size 4096 ltac:(lia)).
    rewrite (Z.mul_comm 4096), Z.mod_mul, Z.div_mul by lia. lia.
Qed.

Lemma land_3 x : Z.land x 3 = x mod 4.
Proof. change 3 with (Z.ones 2). by rewrite Z.land_ones. Qed.

Lemma phy_bmap_len_spec :
  plen mod 4 = 0 /\ snd region / 2 ^ 15 + 1 <= plen <= snd region / 2 ^ 15 + 4.
Proof.
  destruct phy_region_spec as (_ & _ & Hpos & _).
  unfold phy_bmap_len, PAGE_SHIFT. rewrite land_3, Z.shiftr_div_pow2 by lia. change (12 + 3) with 15.
  set (l := snd region / 2 ^ 15 + 1). pose proof (Z.mod_pos_bound l 4 ltac:(lia)).
  destruct (Z.eqb_spec (l mod 4) 0); [lia|].
  replace (l + (4 - l mod 4)) with ((l / 4 + 1) * 4) by (pose proof (Z.div_mod l 4 ltac:(lia)); lia).
  rewrite Z.mod_mul by lia. pose proof (Z.div_mod l 4 ltac:(lia)). lia.
Qed.

Local Abbreviation tot := (code_end - code_start + plen + vir_bmap_len).
Local Abbreviation N := ((tot + 4095) / 4096).

(** The bounds every step of the initialisation relies on. *)
Lemma init_bounds :
  0 < code_start <= code_end -> tot <= snd region -> tot <= 2 ^ 26 ->
  4 * (plen / 4) = plen /\ 0 < plen /\ snd region < 2 ^ 15 * plen <= snd region + 2 ^ 17 /\
  4096 * N - 4096 < tot <= 4096 * N /\ 1 <= N <= 2 ^ 14 /\ N <= snd region / 4096 /\
  N <= 8 * plen /\ tot_len_to_alloc ram_start ram_end code_start code_end = tot /\
  ram_pages <= 8 * plen + N /\ ram_pages < 2 ^ 20.
Proof.
  intros Hcode Hfit Hvfit.
  destruct phy_region_spec as (Ha & Hb & Hpos & Hlo & Hhi & Hpages).
  destruct phy_bmap_len_spec as [Hp4 Hplen]. destruct Hram as (H1 & H2 & H3).
  change vir_bmap_len with 2049 in *.
  pose proof (Z.div_mod (snd region) (2 ^ 15) ltac:(lia)).
  pose proof (Z.mod_pos_bound (snd region) (2 ^ 15) ltac:(lia)).
  pose proof (Z.div_mod (snd region) 4096 ltac:(lia)).
  pose proof (Z.div_mod plen 4 ltac:(lia)).
  pose proof (Z.div_mod (code_end - code_start + plen + 2049 + 4095) 4096 ltac:(lia)).
  pose proof (Z.mod_pos_bound (code_end - code_start + plen + 2049 + 4095) 4096 ltac:(lia)).
  pose proof (Z.div_pos (snd region) (2 ^ 15) ltac:(lia) ltac:(lia)).
  pose proof (Z.div_mod (ram_end - ram_start + 1) 4096 ltac:(lia)).
  pose proof (Z.mod_pos_bound (ram_end - ram_start + 1) 4096 ltac:(lia)).
  split_and!; try lia.
  unfold tot_len_to_alloc. change vir_bmap_len with 2049.
  rewrite (u32_id (code_end - code_start)), u32_id by (unfold in_u32; lia). done.
Qed.

(** [sw_meminfo_init].  When the image and the two bitmaps fit the secure
    RAM and the virtual region, initialisation returns a well-formed state whose
    physical region is the page-aligned part of the RAM; the pages of the image
    and of the bitmaps are marked in both bitmaps, every other page is free, and
    the counters hold the pages that remain. *)
Theorem meminfo_init_spec :
  0 < code_start <= code_end -> code_start + 2 ^ 26 + 2 ^ 15 <= 2 ^ 32 ->
  tot <= snd region -> tot <= 2 ^ 26 -> plen / 4 + 513 <= Z.of_nat (length raw) ->
  exists st, sw_meminfo_init ram_start ram_end code_start code_end raw = Ret st /\ mem_ok st /\
    phy_addr_start st mod PAGE_SIZE = 0 /\ ram_start <= phy_addr_start st /\
    phy_addr_start st + phy_memregion_size st <= ram_end + 1 /\
    (forall j, 0 <= j < 8 * plen -> used phy_mem_bmap j (bmap st) = bool_decide (j < N)) /\
    (forall j, 0 <= j < 2 ^ 14 -> used (vir_mem_bmap st) j (bmap st) = bool_decide (j < N)) /\
    num_phy_pag_free st = ram_pages - N /\ num_vir_pag_free st = 2 ^ 14 - N.
Proof.
  intros Hcode Hctop Hfit Hvfit Hraw.
  destruct phy_region_spec as (Ha & Hb & Hpos & Hlo & Hhi & Hpages).
  destruct (init_bounds Hcode Hfit Hvfit)
    as (Hp4 & Hp0 & Hps & HN & HN1 & HN2 & HN3 & Htot & Hpg & Hpg2).
  destruct Hram as (H1 & H2 & H3). change vir_bmap_len with 2049 in *.
  unfold sw_meminfo_init. rewrite Htot. change vir_bmap_len with 2049.
  set (T := code_end - code_start + plen + 2049) in *. set (n := (T + 4095) / 4096) in *.
  assert (Hfuel : (Z.to_nat n <= init_fuel T)%nat).
  { unfold init_fuel, PAGE_SHIFT. rewrite Z.shiftr_div_pow2 by lia. change (2 ^ 12) with 4096.
    pose proof (Z.div_mod T 4096 ltac:(lia)). pose proof (Z.mod_pos_bound T 4096 ltac:(lia)). lia. }
  rewrite !(u32_id (_ + T)), (u32_id (ram_end - _ + 1)) by (unfold in_u32; lia).
  unfold PAGE_SHIFT. rewrite (Z.shiftr_div_pow2 (ram_end - _ + 1)) by lia.
  change (2 ^ 12) with 4096. change (Z.shiftr VIR_ASPACE_SIZE 12) with (2 ^ 14).
  set (m0 := clear_bytes (plen + 2049) raw).
  assert (L0 : length m0 = length raw) by apply length_clear_bytes.
  destruct (init_mark_spec (Z.to_nat n) (init_fuel T) phy_mem_bmap (fst region) 0
    (fst region + T) ram_pages m0) as (m1 & E1 & L1 & K1 & U1); [done|lia|lia|lia|lia| | | |].
  { intros i Hi. unfold bm_in, phy_mem_bmap. pose proof (Z.div_lt_upper_bound i 32 (plen / 4)). lia. }
  { unfold in_s32. lia. }
  { unfold in_s32. lia. }
  rewrite Z.mul_0_r, Z.add_0_r in E1. rewrite E1. cbn [mbind res_bind].
  destruct (init_mark_spec (Z.to_nat n) (init_fuel T) (plen / 4) code_start 0
    (code_start + T) (2 ^ 14) m1) as (m2 & E2 & L2 & K2 & U2); [done|lia|lia|lia|lia| | | |].
  { intros i Hi. unfold bm_in. pose proof (Z.div_lt_upper_bound i 32 512). lia. }
  { unfold in_s32. lia. }
  { unfold in_s32. lia. }
  rewrite Z.mul_0_r, Z.add_0_r in E2. rewrite E2. cbn [mbind res_bind mret res_ret].
  eexists. split; [reflexivity|]. rewrite Z2Nat.id in * by lia.
  assert (Hok : mem_ok {| bmap := m2; vir_mem_bmap := plen / 4; vir_mem_bmap_len := 2049;
          phy_mem_bmap_len := plen; vir_addr_start := code_start;
          vir_memregion_size := VIR_ASPACE_SIZE; phy_addr_start := fst region;
          phy_memregion_size := snd region;
          num_phy_pag_free := ram_pages - n; num_vir_pag_free := 2 ^ 14 - n |}).
  { split; simpl; try lia. rewrite L2, L1, L0. change ((2049 + 3) / 4) with 513. lia. }
  split; [done|]. cbn [phy_addr_start bmap phy_memregion_size vir_mem_bmap num_phy_pag_free
    num_vir_pag_free]. unfold PAGE_SIZE. split_and!; try lia.
  - intros j Hj. rewrite (used_phy_vir _ 0 (Z.to_nat n) m1 m2 j Hok) by (done || simpl; lia).
    rewrite U1 by lia. unfold m0. pose proof (Z.div_lt_upper_bound j 32 (plen / 4)).
    rewrite (clear_bytes_used phy_mem_bmap) by (unfold phy_mem_bmap; lia).
    case_decide; case_bool_decide; try done; lia.
  - intros j Hj. rewrite U2 by lia.
    assert (used (plen / 4) j m1 = false) as ->.
    { rewrite (used_words _ _ m0 m1).
      - apply clear_bytes_used; [lia|lia|]. pose proof (Z.div_lt_upper_bound j 32 512). lia.
      - apply K1. intros i Hi. unfold bm_index, phy_mem_bmap. rewrite !Z.shiftr_div_pow2 by lia.
        pose proof (Z.div_pos j (2 ^ 5)). pose proof (Z.div_lt_upper_bound i (2 ^ 5) (plen / 4)).
        pose proof (Z.div_pos i (2 ^ 5)). lia. }
    case_decide; case_bool_decide; try done; lia.
Qed.
End meminfo_init_spec.

(** ** A small machine

    40 pages of RAM at 64K, a kernel image of one page. *)
Definition small_raw : list Z := replicate 600 0xFFFFFFFF.

(** Take every page, one at a time, then give back every other one. *)
Definition fragment_ops : list page_op :=
  replicate 38 (PAlloc PAGE_SIZE) ++ (PFree <$> seq 0 19).

(** An allocation can leave the RAM.  The bitmap is rounded up to whole
    words, its slack bits are clear, and only the total count of free pages is
    compared with the request; so once the free pages are scattered, a request
    for two adjacent pages is served from the slack, behind the last page. *)
Theorem phy_alloc_beyond_ram :
  exists st st' live pg n,
    sw_meminfo_init 0x10000 0x37FFF 0x8000 0x9000 small_raw = Ret st /\
    page_run (fragment_ops ++ [PAlloc (2 * PAGE_SIZE)]) (st, []) = Ret (st', live) /\
    last live = Some (pg, n) /\ n = 2 /\
    phy_addr_start st + phy_memregion_size st <= phy_addr_start st + PAGE_SIZE * pg.
Proof.
  do 5 eexists. split; [vm_compute; reflexivity|]. split; [vm_compute; reflexivity|].
  split; [reflexivity|]. split; [reflexivity|]. vm_compute. discriminate.
Qed.

Definition small_mem : secure_world_mem_info :=
  match sw_meminfo_init 0x10000 0x37FFF 0x8000 0x9000 small_raw with
  | Ret st => st
  | _ => MemInfo [] 0 0 0 0 0 0 0 0 0
  end.

Lemma small_mem_ok : mem_ok small_mem.
Proof. split; by_compute. Qed.

Lemma meminfo_init_spec_witness :
  exists st, sw_meminfo_init 0x10000 0x37FFF 0x8000 0x9000 small_raw = Ret st /\
    num_phy_pag_free st = 38 /\ used phy_mem_bmap 1 (bmap st) = true /\
    used phy_mem_bmap 2 (bmap st) = false.
Proof.
  destruct (meminfo_init_spec 0x10000 0x37FFF 0x8000 0x9000 small_raw)
    as (st & E & _ & _ & _ & _ & U & _ & Hn & _); try by_compute.
  exists st. split; [exact E|]. split; [rewrite Hn; reflexivity|].
  split; rewrite U by by_compute; reflexivity.
Defined.


(** 4097 bytes are two pages; the physical allocator counts one. *)
Lemma page_rounding_witness :
  Z.shiftr (vir_round 4097) PAGE_SHIFT = 2 /\ Z.shiftr (phy_round 4097) PAGE_SHIFT = 1.
Proof.
  destruct (page_rounding 4097) as (E1 & E2 & _); [by_compute|].
  split; [exact E1|exact E2].
Defined.

Lemma phy_reserve_behaviour_witness :
  exists st', sw_phy_addr_reserve 3 (phy_addr_start small_mem + PAGE_SIZE * 5) 0x3000 small_mem
      = Ret (0, st') /\ used phy_mem_bmap 6 (bmap st') = false /\
  sw_phy_addr_reserve 3 (phy_addr_start small_mem + PAGE_SIZE * 5) 0x3001 small_mem = Fault.
Proof.
  assert (Hf : free_run phy_mem_bmap 5 3 (bmap small_mem)).
  { intros i Hi. assert (i = 5 \/ i = 6 \/ i = 7) as [-> | [-> | ->]] by lia; reflexivity. }
  destruct (phy_reserve_behaviour 3 small_mem 5 3 0x3000 small_mem_ok) as [H1 _];
    try exact Hf; try by_compute; try lia.
  destruct (phy_reserve_behaviour 3 small_mem 5 3 0x3001 small_mem_ok) as [_ H2];
    try exact Hf; try by_compute; try lia.
  destruct (H1 eq_refl) as (st' & E & _ & U). exists st'. split; [exact E|]. split.
  - rewrite U by lia. reflexivity.
  - apply H2. vm_compute. discriminate.
Defined.

