(* ===== verification/Buddy.v ===== *)
(** [lib/sw_buddy.c], [lib/sw_heap.c]: the private heaps of the tasks.

    A heap's first quarter holds two arrays of housekeeping nodes; the rest is
    cut into blocks.  A bin is the list of the free nodes of one order, given by
    their positions in [hk_fn]; the allocated blocks are the nodes of [current],
    positions in [hk_an].  The lists are the sequences [DList] shows the
    intrusive lists to implement. *)
From stdpp Require Import prelude gmap.
From S2P Require Import Prelude HeapIface PageTable MemMng.
#[local] Open Scope Z_scope.

Definition HOUSE_KEEPING_PERCENT : Z := 25.
Definition MIN_BLOCK_SIZE : Z := Z.shiftl 1 2.
Definition MAX_BLOCK_SIZE : Z := Z.shiftl 1 12.
Definition BINS_MAX_ORDER : nat := 11.
Definition NUM_OF_HEAPS : nat := 8.
Definition HEAP_SIZE : Z := Z.shiftl 1 16.
Definition sizeof_sw_free_area : Z := 16.
Definition sizeof_sw_alloced_area : Z := 24.

(** [MIN_BLOCK_SIZE << idx]. *)
Definition blk (idx : nat) : Z := Z.shiftl MIN_BLOCK_SIZE (Z.of_nat idx).

Definition IS_POW_TWO (x : Z) : bool := negb (x =? 0) && (Z.land x (x - 1) =? 0).

Record sw_alloced_area : Type := Alloced { aa_map : Z; blk_sz : Z; bin_num : nat }.
Record sw_free_bin : Type := FreeBin { fa_head : list nat; fa_count : Z }.

(** [struct sw_heap]; a free housekeeping node is one whose [map] is zero. *)
Record sw_heap : Type := Heap {
  hk_fn : list Z;
  hk_an : list sw_alloced_area;
  current : list nat;
  current_count : Z;
  mem_start : Z;
  mem_size : Z;
  heap_start : Z;
  heap_size : Z;
  free_area : list sw_free_bin;
}.

Definition set_fn (fn : list Z) (h : sw_heap) : sw_heap :=
  Heap fn (hk_an h) (current h) (current_count h) (mem_start h) (mem_size h) (heap_start h)
    (heap_size h) (free_area h).
Definition set_bins (bins : list sw_free_bin) (h : sw_heap) : sw_heap :=
  Heap (hk_fn h) (hk_an h) (current h) (current_count h) (mem_start h) (mem_size h)
    (heap_start h) (heap_size h) bins.
Definition set_current (an : list sw_alloced_area) (cur : list nat) (n : Z) (h : sw_heap) : sw_heap :=
  Heap (hk_fn h) an cur n (mem_start h) (mem_size h) (heap_start h) (heap_size h) (free_area h).

Definition fn_map (fn : list Z) (n : nat) : Z := default 0 (fn !! n).
Definition an_get (an : list sw_alloced_area) (k : nat) : sw_alloced_area :=
  default (Alloced 0 0 0) (an !! k).
Definition bin_get (bins : list sw_free_bin) (i : nat) : sw_free_bin :=
  default (FreeBin [] 0) (bins !! i).

(** ** Housekeeping nodes *)

Definition get_free_hk_node (h : sw_heap) : option nat :=
  fst <$> list_find (fun m => m = 0) (hk_fn h).
Definition get_free_ac_node (h : sw_heap) : option nat :=
  fst <$> list_find (fun e => aa_map e = 0) (hk_an h).
Definition free_hk_node (n : nat) (h : sw_heap) : sw_heap := set_fn (<[n := 0]> (hk_fn h)) h.

(** ** Taking a block *)

(** [list_add_tail] and [list_pop_tail] on a bin, with its count. *)
Definition bin_add_tail (i n : nat) (bins : list sw_free_bin) : list sw_free_bin :=
  let b := bin_get bins i in <[i := FreeBin (fa_head b ++ [n]) (fa_count b + 1)]> bins.
Definition bin_set (i : nat) (l : list nat) (c : Z) (bins : list sw_free_bin) : list sw_free_bin :=
  <[i := FreeBin l c]> bins.

(** [k] is [BINS_MAX_ORDER - idx]. *)
Fixpoint buddy_get_block_at (k : nat) (h : sw_heap) : option nat * sw_heap :=
  match k with
  | O => (None, h)
  | S k' =>
      let idx := (BINS_MAX_ORDER - k)%nat in
      let b := bin_get (free_area h) idx in
      match last (fa_head b) with
      | Some n =>
          (Some n, set_bins (bin_set idx (removelast (fa_head b)) (fa_count b - 1) (free_area h)) h)
      | None =>
          match buddy_get_block_at k' h with
          | (None, h1) => (None, h1)
          | (Some farea, h1) =>
              match get_free_hk_node h1 with
              | None => (None, h1)
              | Some rarea =>
                  let h2 := set_bins (bin_add_tail idx farea (free_area h1)) h1 in
                  (Some rarea,
                   set_fn (<[rarea := u32 (fn_map (hk_fn h1) farea + blk idx)]> (hk_fn h2)) h2)
              end
          end
      end
  end.

Definition buddy_get_block (idx : nat) (h : sw_heap) : option nat * sw_heap :=
  buddy_get_block_at (BINS_MAX_ORDER - idx) h.

(** ** Taking several adjacent blocks of the last bin *)

(** The search: [snode] and [pnode] as positions in the list, [count] as the
    code keeps it; [None] for [snode] is [NULL].  It ends at a full run or at
    the end of the list, with whatever [snode] and [count] are then. *)
Fixpoint contiguous_scan (fn : list Z) (num_blocks : Z) (pos : nat) (l : list nat)
    (snode : option nat) (pnode : option nat) (count : Z) : option nat * Z :=
  match l with
  | [] => (snode, count)
  | cnode :: l' =>
      let snode := match snode with None => Some pos | Some _ => snode end in
      match pnode with
      | Some p =>
          if u32 (fn_map fn p + MAX_BLOCK_SIZE) =? fn_map fn cnode then
            if count + 1 =? num_blocks then (snode, count + 1)
            else contiguous_scan fn num_blocks (S pos) l' snode (Some cnode) (count + 1)
          else contiguous_scan fn num_blocks (S pos) l' None pnode count
      | None => contiguous_scan fn num_blocks (S pos) l' snode (Some cnode) count
      end
  end.

(** Removing [count] nodes from position [pos] on faults when it would unlink
    the head of the list.  The nodes keep their [map]; the copy returned is a
    node of its own. *)
Definition buddy_get_contiguous_block (num_blocks : Z) (idx : nat) (h : sw_heap)
    : res (option nat * sw_heap) :=
  if (BINS_MAX_ORDER <=? idx)%nat then mret (None, h) else
  let b := bin_get (free_area h) idx in
  match fa_head b with
  | [] => mret (None, h)
  | l =>
      if fa_count b <? num_blocks then mret (None, h) else
      match contiguous_scan (hk_fn h) num_blocks 0 l None None 0 with
      | (None, _) => mret (None, h)
      | (Some pos, count) =>
          match get_free_hk_node h with
          | None => Panic
          | Some cnode =>
              let n := Z.to_nat count in
              if (length l <? pos + n)%nat then Fault else
              let h1 := set_fn (<[cnode := fn_map (hk_fn h) (default 0%nat (l !! pos))]> (hk_fn h)) h in
              let bins := bin_set idx (take pos l ++ drop (pos + n) l) (fa_count b - count) (free_area h1) in
              mret (Some cnode, set_bins bins h1)
          end
      end
  end.

(** ** Allocation *)

(** Recording an allocated block in a free node of [hk_an]. *)
Definition add_current (k : nat) (e : sw_alloced_area) (h : sw_heap) : sw_heap :=
  set_current (<[k := e]> (hk_an h)) (current h ++ [k]) (current_count h + 1) h.

(** The loop over the orders; [n] iterations are left. *)
Fixpoint malloc_loop (n idx : nat) (curr_blk size : Z) (h : sw_heap) : Z * sw_heap :=
  match n with
  | O => (0, h)
  | S n' =>
      if curr_blk <? size then malloc_loop n' (S idx) (Z.shiftl curr_blk 1) size h
      else
        match buddy_get_block idx h with
        | (None, h1) => malloc_loop n' (S idx) curr_blk size h1
        | (Some farea, h1) =>
            match get_free_ac_node h1 with
            | None => (0, h1)
            | Some k =>
                let map := fn_map (hk_fn h1) farea in
                (map, add_current k (Alloced map curr_blk idx) (free_hk_node farea h1))
            end
        end
  end.

Definition sw_buddy_malloc (size : Z) (h : sw_heap) : res (Z * sw_heap) :=
  if heap_size h <? size then mret (0, h) else
  let loop h := malloc_loop (S BINS_MAX_ORDER) 0 MIN_BLOCK_SIZE size h in
  if MAX_BLOCK_SIZE <? size then
    let bneeded := if size mod MAX_BLOCK_SIZE =? 0 then size / MAX_BLOCK_SIZE
                   else size / MAX_BLOCK_SIZE + 1 in
    '(farea, h1) ← buddy_get_contiguous_block bneeded (BINS_MAX_ORDER - 1) h;
    match farea with
    | None => mret (loop h1)
    | Some f =>
        match get_free_ac_node h1 with
        | None => Panic
        | Some k =>
            let map := fn_map (hk_fn h1) f in
            let e := Alloced map (u32 (MAX_BLOCK_SIZE * bneeded)) (BINS_MAX_ORDER - 1) in
            mret (map, free_hk_node f (add_current k e h1))
        end
    end
  else mret (loop h).

(** ** Release *)

Definition search_for_allocated_block (addr : Z) (h : sw_heap) : option nat :=
  find_fst (fun k => aa_map (an_get (hk_an h) k) =? addr) (current h).

(** The new node goes behind the first larger one, or behind the last. *)
Fixpoint add_after (fn : list Z) (node : nat) (l : list nat) : list nat :=
  match l with
  | [] => [node]
  | x :: l' =>
      match l' with
      | [] => [x; node]
      | _ => if fn_map fn node <? fn_map fn x then x :: node :: l' else x :: add_after fn node l'
      end
  end.

Definition add_free_area_to_bin (node bin : nat) (h : sw_heap) : sw_heap :=
  let b := bin_get (free_area h) bin in
  set_bins (bin_set bin (add_after (hk_fn h) node (fa_head b)) (fa_count b + 1) (free_area h)) h.

(** One pass of [coalesce_buddies]: the first two neighbours in the list whose
    blocks are adjacent. *)
Fixpoint coalesce_scan (fn : list Z) (size : Z) (lfa : nat) (lmap : Z) (l : list nat)
    : option (nat * nat) :=
  match l with
  | [] => None
  | cfa :: l' =>
      if negb (lmap =? 0) && (u32 (lmap + size) =? fn_map fn cfa) then Some (lfa, cfa)
      else coalesce_scan fn size cfa (fn_map fn cfa) l'
  end.

Fixpoint coalesce_buddies (fuel : nat) (bin : nat) (h : sw_heap) : res sw_heap :=
  match fuel with
  | O => Fault
  | S f =>
      if (bin =? BINS_MAX_ORDER - 1)%nat then mret h else
      let b := bin_get (free_area h) bin in
      match coalesce_scan (hk_fn h) (blk bin) 0 0 (fa_head b) with
      | Some (lfa, cfa) =>
          let l := filter (fun n => n <> cfa /\ n <> lfa) (fa_head b) in
          let h1 := set_bins (bin_set bin l (fa_count b - 2) (free_area h)) (free_hk_node cfa h) in
          coalesce_buddies f bin (add_free_area_to_bin lfa (S bin) h1)
      | None => coalesce_buddies f (S bin) h
      end
  end.

Definition bins_nodes (bins : list sw_free_bin) : list nat := bins ≫= fa_head.

(** Each round merges two nodes into one or moves to the next order. *)
Definition coalesce_fuel (h : sw_heap) : nat := (S BINS_MAX_ORDER + length (bins_nodes (free_area h)))%nat.

Definition return_to_pool (aarea : sw_alloced_area) (h : sw_heap) : res (Z * sw_heap) :=
  match get_free_hk_node h with
  | None => mret (-1, h)
  | Some n =>
      let h1 := set_fn (<[n := aa_map aarea]> (hk_fn h)) h in
      let h2 := add_free_area_to_bin n (bin_num aarea) h1 in
      if 1 <? fa_count (bin_get (free_area h2) (bin_num aarea))
      then h3 ← coalesce_buddies (coalesce_fuel h2) (bin_num aarea) h2; mret (0, h3)
      else mret (0, h2)
  end.

Definition buddy_free (ptr : Z) (h : sw_heap) : res sw_heap :=
  match search_for_allocated_block ptr h with
  | None => mret h
  | Some k =>
      '(_, h1) ← return_to_pool (an_get (hk_an h) k) h;
      mret (set_current (<[k := Alloced 0 0 0]> (hk_an h1))
              (filter (fun x => x <> k) (current h1)) (current_count h1) h1)
  end.

(** ** Initialisation of one heap *)

Definition empty_bins : list sw_free_bin := replicate BINS_MAX_ORDER (FreeBin [] 0).

(** [while (mem_size > 0)]; [fuel] bounds the rounds, a size that is not a
    multiple of [MAX_BLOCK_SIZE] wraps round and runs out of nodes. *)
Fixpoint init_blocks (fuel : nat) (start size : Z) (h : sw_heap) : res (Z * sw_heap) :=
  if size =? 0 then mret (0, h) else
  match fuel with
  | O => Fault
  | S f =>
      match get_free_hk_node h with
      | None => mret (-1, h)
      | Some n =>
          let h1 := set_fn (<[n := start]> (hk_fn h)) h in
          init_blocks f (u32 (start + MAX_BLOCK_SIZE)) (u32 (size - MAX_BLOCK_SIZE))
            (set_bins (bin_add_tail (BINS_MAX_ORDER - 1) n (free_area h1)) h1)
      end
  end.

(** The heap [h0] found in the table before is kept when the size is refused. *)
Definition buddy_init (start size : Z) (h0 : sw_heap) : res (Z * sw_heap) :=
  if negb (IS_POW_TWO size) then mret (OTZ_EFAIL, h0) else
  let hk_total_size := u32 (size * HOUSE_KEEPING_PERCENT) / 100 in
  let fn_count := Z.to_nat (hk_total_size / 2 / sizeof_sw_free_area) in
  let an_count := Z.to_nat (hk_total_size / 2 / sizeof_sw_alloced_area) in
  let h := {| hk_fn := replicate fn_count 0; hk_an := replicate an_count (Alloced 0 0 0);
              current := []; current_count := current_count h0;
              mem_start := u32 (start + hk_total_size); mem_size := u32 (size - hk_total_size);
              heap_start := start; heap_size := size; free_area := empty_bins |} in
  init_blocks (S fn_count) (mem_start h) (mem_size h) h.

(** ** The heaps of the tasks *)

(** [buddy_heap] with [h_index]: the owner and its number of live blocks. *)
Record heaps : Type := Heaps { buddy_heap : list sw_heap; h_index : list (Z * Z) }.

Definition find_heap (heap_id : Z) (s : heaps) : option nat :=
  fst <$> list_find (fun e => fst e = heap_id) (h_index s).

Definition no_heap : sw_heap := Heap [] [] [] 0 0 0 0 0 [].
Definition heap_at (i : nat) (s : heaps) : sw_heap := default no_heap (buddy_heap s !! i).

(** [h_index[i].num_blocks_alloc += d], and a new state for heap [i]. *)
Definition put_heap (i : nat) (h : sw_heap) (d : Z) (s : heaps) : heaps :=
  let e := default (-1, 0) (h_index s !! i) in
  Heaps (<[i := h]> (buddy_heap s)) (<[i := (fst e, s32 (snd e + d))]> (h_index s)).

Definition sw_malloc_private (heap_id size : Z) (s : heaps) : res (Z * heaps) :=
  match find_heap heap_id s with
  | None => mret (0, s)
  | Some i =>
      '(addr, h) ← sw_buddy_malloc size (heap_at i s);
      mret (addr, put_heap i h (if 0 <? addr then 1 else 0) s)
  end.

Definition sw_free_private (heap_id pointer : Z) (s : heaps) : res heaps :=
  match find_heap heap_id s with
  | None => mret s
  | Some i => h ← buddy_free pointer (heap_at i s); mret (put_heap i h (-1) s)
  end.

(** The variants that look up the heap of the current task; [buddy_zalloc] also
    clears the block, which is memory the model does not hold. *)
Definition sw_malloc (task_id size : Z) (s : heaps) : res (Z * heaps) := sw_malloc_private task_id size s.
Definition buddy_zalloc (task_id size : Z) (s : heaps) : res (Z * heaps) := sw_malloc_private task_id size s.
Definition sw_free (task_id pointer : Z) (s : heaps) : res heaps := sw_free_private task_id pointer s.

Definition get_ptr_size (task_id ptr : Z) (s : heaps) : Z :=
  match find_heap task_id s with
  | None => u32 (-1)
  | Some i =>
      match search_for_allocated_block ptr (heap_at i s) with
      | None => 0
      | Some k => blk_sz (an_get (hk_an (heap_at i s)) k)
      end
  end.

Definition sw_heap_init (index : nat) (start size : Z) (s : heaps) : res (Z * heaps) :=
  '(r, h) ← buddy_init start size (heap_at index s);
  mret (r, Heaps (<[index := h]> (buddy_heap s)) (<[index := (-1, 0)]> (h_index s))).

Definition alloc_private_heap (heap_id : Z) (s : heaps) : Z * heaps :=
  match find_heap heap_id s with
  | Some _ => (0, s)
  | None =>
      match find_heap (-1) s with
      | Some i =>
          let e := default (-1, 0) (h_index s !! i) in
          (0, Heaps (buddy_heap s) (<[i := (heap_id, snd e)]> (h_index s)))
      | None => (-1, s)
      end
  end.

Definition free_private_heap (heap_id : Z) (s : heaps) : Z * heaps :=
  match find_heap heap_id s with
  | None => (-1, s)
  | Some i =>
      let e := default (-1, 0) (h_index s !! i) in
      if negb (snd e =? 0) then (-1, s)
      else (0, Heaps (buddy_heap s) (<[i := (-1, snd e)]> (h_index s)))
  end.

(** [sw_malloc_int]: the heaps are virtual blocks of 64K. *)
Fixpoint malloc_int_loop (multicore : bool) (n : nat) (index : nat)
    (st : secure_world_mem_info * l1_table) (s : heaps)
    : res ((secure_world_mem_info * l1_table) * heaps) :=
  match n with
  | O => mret (st, s)
  | S n' =>
      '(start_addr, st1) ← sw_vir_page_alloc multicore HEAP_SIZE (fst st) (snd st);
      if negb (0 <? start_addr) then Panic else
      '(r, s1) ← sw_heap_init index start_addr HEAP_SIZE s;
      if r <? 0 then Panic else malloc_int_loop multicore n' (S index) st1 s1
  end.

Definition sw_malloc_int (multicore : bool) (st : secure_world_mem_info * l1_table) (s : heaps)
    : res ((secure_world_mem_info * l1_table) * heaps) :=
  malloc_int_loop multicore NUM_OF_HEAPS 0 st s.

(** ** Blocks as sets of bytes *)

Definition area (a : Z) (i : nat) : list Z := seqZ a (blk i).

(** The bytes of the free nodes, order by order, and of the live blocks. *)
Definition nodes_bytes (fn : list Z) (i : nat) (l : list nat) : list Z :=
  l ≫= fun n => area (fn_map fn n) i.
Fixpoint bins_bytes (fn : list Z) (i : nat) (bins : list sw_free_bin) : list Z :=
  match bins with
  | [] => []
  | b :: bins' => nodes_bytes fn i (fa_head b) ++ bins_bytes fn (S i) bins'
  end.
Definition free_bytes (h : sw_heap) : list Z := bins_bytes (hk_fn h) 0 (free_area h).
Definition live_area (an : list sw_alloced_area) (k : nat) : list Z :=
  area (aa_map (an_get an k)) (bin_num (an_get an k)).
Definition live_bytes (h : sw_heap) : list Z := current h ≫= live_area (hk_an h).

Record heap_inv (h : sw_heap) : Prop := {
  hi_len : length (free_area h) = BINS_MAX_ORDER;
  hi_count : Forall (fun b => fa_count b = Z.of_nat (length (fa_head b))) (free_area h);
  hi_nodes : NoDup (bins_nodes (free_area h));
  hi_maps : forall n, n ∈ bins_nodes (free_area h) -> fn_map (hk_fn h) n <> 0;
  hi_cur : NoDup (current h);
  hi_live : forall k, k ∈ current h -> aa_map (an_get (hk_an h) k) <> 0 /\
    (bin_num (an_get (hk_an h) k) < BINS_MAX_ORDER)%nat /\
    0 <= blk_sz (an_get (hk_an h) k) <= blk (bin_num (an_get (hk_an h) k));
  hi_bytes : NoDup (free_bytes h ++ live_bytes h);
  hi_mem : 0 < mem_start h /\ mem_start h + mem_size h <= 2 ^ 32;
  hi_range : forall x, x ∈ free_bytes h ++ live_bytes h -> mem_start h <= x < mem_start h + mem_size h;
  hi_size : MAX_BLOCK_SIZE <= heap_size h;
}.

Lemma blk_pos i : 0 < blk i.
Proof. unfold blk, MIN_BLOCK_SIZE. rewrite !Z.shiftl_mul_pow2 by lia. lia. Qed.

Lemma blk_S i : blk (S i) = blk i + blk i.
Proof.
  unfold blk. rewrite !Z.shiftl_mul_pow2, Nat2Z.inj_succ, Z.pow_succ_r by lia. lia.
Qed.

Lemma area_split a i : area a (S i) = area a i ++ area (a + blk i) i.
Proof. unfold area. rewrite blk_S. pose proof (blk_pos i). apply seqZ_app; lia. Qed.

Lemma area_start a i : a ∈ area a i.
Proof. apply elem_of_seqZ. pose proof (blk_pos i). lia. Qed.

Lemma nodes_bytes_app fn i l1 l2 : nodes_bytes fn i (l1 ++ l2) = nodes_bytes fn i l1 ++ nodes_bytes fn i l2.
Proof. apply bind_app. Qed.

Lemma nodes_bytes_cons fn i n l : nodes_bytes fn i (n :: l) = area (fn_map fn n) i ++ nodes_bytes fn i l.
Proof. done. Qed.

(** Replacing one bin exchanges its nodes' bytes. *)
Lemma bins_bytes_insert fn i j bins b b' :
  bins !! j = Some b ->
  bins_bytes fn i (<[j := b']> bins) ++ nodes_bytes fn (i + j) (fa_head b)
    ≡ₚ bins_bytes fn i bins ++ nodes_bytes fn (i + j) (fa_head b').
Proof.
  revert i j. induction bins as [|b0 bins IH]; intros i j Hj; [done|].
  destruct j as [|j]; simpl in *.
  - simplify_eq. rewrite Nat.add_0_r. solve_Permutation.
  - specialize (IH (S i) j Hj). rewrite <-plus_n_Sm. simpl in IH.
    rewrite <-!app_assoc. by rewrite IH.
Qed.

Lemma bins_nodes_insert j bins b b' :
  bins !! j = Some b ->
  bins_nodes (<[j := b']> bins) ++ fa_head b ≡ₚ bins_nodes bins ++ fa_head b'.
Proof.
  unfold bins_nodes. revert j. induction bins as [|b0 bins IH]; intros j Hj; [done|].
  destruct j as [|j]; simpl in *.
  - simplify_eq. solve_Permutation.
  - specialize (IH j Hj). rewrite <-!app_assoc. by rewrite IH.
Qed.

Lemma bins_bytes_fn fn fn' i bins :
  (forall n, n ∈ bins_nodes bins -> fn_map fn' n = fn_map fn n) ->
  bins_bytes fn' i bins = bins_bytes fn i bins.
Proof.
  revert i. unfold bins_nodes. induction bins as [|b bins IH]; intros i Hf; simpl; [done|].
  rewrite IH by (intros; apply Hf; set_solver). f_equal. unfold nodes_bytes.
  assert (Hb : forall n, n ∈ fa_head b -> fn_map fn' n = fn_map fn n) by (intros; apply Hf; set_solver).
  clear Hf IH. induction (fa_head b) as [|n l IHl]; simpl; [done|].
  rewrite Hb by set_solver. f_equal. apply IHl. intros. apply Hb. set_solver.
Qed.

Lemma fn_map_insert_ne fn n x k : k <> n -> fn_map (<[n := x]> fn) k = fn_map fn k.
Proof. intros Hne. unfold fn_map. by rewrite list_lookup_insert_ne. Qed.

Lemma fn_map_insert fn n x : (n < length fn)%nat -> fn_map (<[n := x]> fn) n = x.
Proof. intros Hn. unfold fn_map. by rewrite list_lookup_insert_eq. Qed.

Lemma get_free_hk_node_Some h n :
  get_free_hk_node h = Some n -> fn_map (hk_fn h) n = 0 /\ (n < length (hk_fn h))%nat.
Proof.
  unfold get_free_hk_node. intros Hf. apply fmap_Some in Hf as ([k m] & Hf & ->). simpl.
  apply list_find_Some in Hf as (Hl & -> & _). unfold fn_map. rewrite Hl.
  split; [done|]. by eapply lookup_lt_Some.
Qed.

Lemma get_free_ac_node_Some h k :
  get_free_ac_node h = Some k -> aa_map (an_get (hk_an h) k) = 0 /\ (k < length (hk_an h))%nat.
Proof.
  unfold get_free_ac_node. intros Hf. apply fmap_Some in Hf as ([i e] & Hf & ->). simpl.
  apply list_find_Some in Hf as (Hl & He & _). unfold an_get. rewrite Hl.
  split; [done|]. by eapply lookup_lt_Some.
Qed.

(** ** The free side of a heap *)

Record bins_inv (fn : list Z) (bins : list sw_free_bin) : Prop := {
  bi_len : length bins = BINS_MAX_ORDER;
  bi_count : Forall (fun b => fa_count b = Z.of_nat (length (fa_head b))) bins;
  bi_nodes : NoDup (bins_nodes bins);
  bi_maps : forall n, n ∈ bins_nodes bins -> fn_map fn n <> 0;
}.

Lemma bin_get_lookup bins i : (i < length bins)%nat -> bins !! i = Some (bin_get bins i).
Proof. intros Hi. unfold bin_get. by destruct (lookup_lt_is_Some_2 bins i Hi) as [b ->]. Qed.

Lemma bin_get_nodes bins i n : n ∈ fa_head (bin_get bins i) -> n ∈ bins_nodes bins.
Proof.
  unfold bin_get. destruct (bins !! i) as [b|] eqn:E; simpl; [|set_solver]. intros Hn.
  unfold bins_nodes. apply list_elem_of_bind. exists b. split; [done|].
  by eapply list_elem_of_lookup_2.
Qed.

(** Replacing the nodes of bin [i]. *)
Lemma bin_update_bytes fn bins i l c :
  (i < length bins)%nat ->
  bins_bytes fn 0 (bin_set i l c bins) ++ nodes_bytes fn i (fa_head (bin_get bins i))
    ≡ₚ bins_bytes fn 0 bins ++ nodes_bytes fn i l.
Proof. intros Hi. by apply (bins_bytes_insert fn 0 i), bin_get_lookup. Qed.

Lemma bin_update_nodes bins i l c :
  (i < length bins)%nat ->
  bins_nodes (bin_set i l c bins) ++ fa_head (bin_get bins i) ≡ₚ bins_nodes bins ++ l.
Proof. intros Hi. by apply (bins_nodes_insert i), bin_get_lookup. Qed.

(** Adding the node [n] to bin [i], whatever its place in the list. *)
Lemma bins_add fn bins i n l :
  bins_inv fn bins -> (i < BINS_MAX_ORDER)%nat -> n ∉ bins_nodes bins -> fn_map fn n <> 0 ->
  l ≡ₚ fa_head (bin_get bins i) ++ [n] ->
  let bins' := bin_set i l (fa_count (bin_get bins i) + 1) bins in
  bins_inv fn bins' /\ bins_nodes bins' ≡ₚ n :: bins_nodes bins /\
  bins_bytes fn 0 bins' ≡ₚ area (fn_map fn n) i ++ bins_bytes fn 0 bins.
Proof.
  intros [Hlen Hc Hnd Hm] Hi Hn Hmap Hl bins'.
  assert (Hi' : (i < length bins)%nat) by (by rewrite Hlen).
  assert (Hnodes : bins_nodes bins' ≡ₚ n :: bins_nodes bins).
  { pose proof (bin_update_nodes bins i l (fa_count (bin_get bins i) + 1) Hi') as P.
    fold bins' in P. clearbody bins'.
    rewrite Hl, (Permutation_app_comm (fa_head _) [n]), app_assoc in P.
    apply Permutation_app_inv_r in P. rewrite P. by rewrite Permutation_app_comm. }
  split; [|split; [done|]].
  - split.
    + unfold bins', bin_set. by rewrite length_insert.
    + apply Forall_insert; [done|]. simpl. rewrite Hl, length_app. simpl.
      rewrite Forall_lookup in Hc. rewrite (Hc i _ (bin_get_lookup _ _ Hi')). lia.
    + rewrite Hnodes. by constructor.
    + intros k. rewrite Hnodes. intros [->|Hk]%elem_of_cons; auto.
  - pose proof (bin_update_bytes fn bins i l (fa_count (bin_get bins i) + 1) Hi') as P.
    assert (Hb : nodes_bytes fn i l ≡ₚ area (fn_map fn n) i ++ nodes_bytes fn i (fa_head (bin_get bins i))).
    { unfold nodes_bytes. rewrite Hl, bind_app. simpl. rewrite app_nil_r. apply Permutation_app_comm. }
    rewrite Hb, app_assoc in P. apply Permutation_app_inv_r in P. fold bins' in P. rewrite P.
    apply Permutation_app_comm.
Qed.

(** Taking the node [n] out of bin [i]. *)
Lemma bins_remove fn bins i n l c :
  bins_inv fn bins -> (i < BINS_MAX_ORDER)%nat ->
  fa_head (bin_get bins i) ≡ₚ n :: l -> c = fa_count (bin_get bins i) - 1 ->
  let bins' := bin_set i l c bins in
  bins_inv fn bins' /\ bins_nodes bins ≡ₚ n :: bins_nodes bins' /\
  bins_bytes fn 0 bins ≡ₚ area (fn_map fn n) i ++ bins_bytes fn 0 bins'.
Proof.
  intros [Hlen Hc Hnd Hm] Hi Hl -> bins'.
  assert (Hi' : (i < length bins)%nat) by (by rewrite Hlen).
  assert (Hnodes : bins_nodes bins ≡ₚ n :: bins_nodes bins').
  { pose proof (bin_update_nodes bins i l (fa_count (bin_get bins i) - 1) Hi') as P.
    rewrite Hl in P. fold bins' in P. rewrite <-Permutation_middle, app_comm_cons in P.
    by apply Permutation_app_inv_r in P. }
  split; [|split; [done|]].
  - split.
    + unfold bins', bin_set. by rewrite length_insert.
    + apply Forall_insert; [done|]. simpl.
      rewrite Forall_lookup in Hc. rewrite (Hc i _ (bin_get_lookup _ _ Hi')), Hl. simpl. lia.
    + rewrite Hnodes in Hnd. by apply NoDup_cons in Hnd as [_ ?].
    + intros k Hk. apply Hm. rewrite Hnodes. set_solver.
  - pose proof (bin_update_bytes fn bins i l (fa_count (bin_get bins i) - 1) Hi') as P.
    assert (Hb : nodes_bytes fn i (fa_head (bin_get bins i)) ≡ₚ area (fn_map fn n) i ++ nodes_bytes fn i l).
    { unfold nodes_bytes. by rewrite Hl. }
    rewrite Hb, app_assoc in P. apply Permutation_app_inv_r in P. fold bins' in P.
    rewrite <-P. apply Permutation_app_comm.
Qed.

(** A node outside the bins may change its [map]. *)
Lemma bins_inv_fn fn fn' bins :
  (forall n, n ∈ bins_nodes bins -> fn_map fn' n = fn_map fn n) -> bins_inv fn bins -> bins_inv fn' bins.
Proof. intros Hf [Hlen Hc Hnd Hm]. split; try done. intros n Hn. rewrite Hf by done. auto. Qed.

Lemma free_node_not_in fn bins n : bins_inv fn bins -> fn_map fn n = 0 -> n ∉ bins_nodes bins.
Proof. intros Hb Hz Hn. by apply (bi_maps _ _ Hb) in Hn. Qed.

Lemma bins_insert_outside fn bins n x :
  bins_inv fn bins -> n ∉ bins_nodes bins ->
  bins_inv (<[n := x]> fn) bins /\ bins_bytes (<[n := x]> fn) 0 bins = bins_bytes fn 0 bins.
Proof.
  intros Hb Hn.
  assert (Hf : forall k, k ∈ bins_nodes bins -> fn_map (<[n := x]> fn) k = fn_map fn k).
  { intros k Hk. apply fn_map_insert_ne. intros ->. done. }
  split; [by apply (bins_inv_fn fn)|by apply bins_bytes_fn].
Qed.

(** What taking a block of order [idx] does to a heap. *)
Definition get_block_post (idx : nat) (h : sw_heap) (r : option nat * sw_heap) : Prop :=
  let h' := snd r in
  h' = set_bins (free_area h') (set_fn (hk_fn h') h) /\
  bins_inv (hk_fn h') (free_area h') /\
  match fst r with
  | Some n => n ∉ bins_nodes (free_area h') /\ fn_map (hk_fn h') n <> 0 /\
      area (fn_map (hk_fn h') n) idx ++ free_bytes h' ≡ₚ free_bytes h
  | None => free_bytes h' ⊆+ free_bytes h
  end.

Lemma buddy_get_block_at_spec k h :
  (k <= BINS_MAX_ORDER)%nat -> bins_inv (hk_fn h) (free_area h) ->
  (forall x, x ∈ free_bytes h -> 0 < x < 2 ^ 32) ->
  get_block_post (BINS_MAX_ORDER - k) h (buddy_get_block_at k h).
Proof.
  intros Hk Hb Hx. induction k as [|k IH].
  { split; [by destruct h|]. split; [done|]. by simpl. }
  cbn [buddy_get_block_at]. cbv zeta. set (idx := (BINS_MAX_ORDER - S k)%nat).
  destruct (last (fa_head (bin_get (free_area h) idx))) as [n|] eqn:El.
  - apply last_Some in El as [l El]. rewrite El, removelast_last.
    destruct (bins_remove (hk_fn h) (free_area h) idx n l (fa_count (bin_get (free_area h) idx) - 1))
      as (Hb' & Hn & Hbytes); [done|unfold idx, BINS_MAX_ORDER; lia| |done|].
    { rewrite El. by rewrite Permutation_app_comm. }
    split; [done|]. split; [done|]. simpl. split; [|split].
    + pose proof (bi_nodes _ _ Hb) as Hnd. rewrite Hn in Hnd. by apply NoDup_cons in Hnd as [? _].
    + apply (bi_maps _ _ Hb). rewrite Hn. set_solver.
    + unfold free_bytes. simpl. by rewrite Hbytes.
  - clear El. specialize (IH ltac:(lia)). replace (BINS_MAX_ORDER - k)%nat with (S idx) in IH
      by (unfold idx, BINS_MAX_ORDER in *; lia).
    destruct (buddy_get_block_at k h) as [[f|] h1]; [|exact IH].
    destruct IH as (E1 & Hb1 & Hf & Hmf & Hbytes). simpl in *.
    destruct (get_free_hk_node h1) as [r|] eqn:Er.
    + apply get_free_hk_node_Some in Er as [Hr0 Hrl].
      assert (Hrn : r ∉ bins_nodes (free_area h1)) by (by eapply free_node_not_in).
      assert (Hrf : r <> f) by (intros ->; done).
      set (a := fn_map (hk_fn h1) f) in *. rewrite area_split in Hbytes.
      assert (Ha : 0 < a + blk idx < 2 ^ 32).
      { apply Hx. rewrite <-Hbytes, !elem_of_app. left. right. apply area_start. }
      rewrite (u32_id (a + blk idx)) by (unfold in_u32; lia).
      unfold bin_add_tail. fold (bin_set idx (fa_head (bin_get (free_area h1) idx) ++ [f])
        (fa_count (bin_get (free_area h1) idx) + 1) (free_area h1)).
      destruct (bins_add (hk_fn h1) (free_area h1) idx f (fa_head (bin_get (free_area h1) idx) ++ [f]))
        as (Hb2 & Hn2 & Hbytes2); [done|unfold idx, BINS_MAX_ORDER; lia|done|done|done|].
      set (bins2 := bin_set _ _ _ _) in *.
      assert (Hr2 : r ∉ bins_nodes bins2) by (rewrite Hn2; set_solver).
      destruct (bins_insert_outside (hk_fn h1) bins2 r (a + blk idx) Hb2 Hr2) as [Hb3 Hbytes3].
      split; [by rewrite E1|]. split; [done|]. simpl. rewrite fn_map_insert by done.
      split; [done|]. split; [lia|]. unfold free_bytes. simpl. rewrite Hbytes3, Hbytes2.
      rewrite <-Hbytes. fold a. unfold free_bytes. rewrite !app_assoc. f_equiv.
      apply Permutation_app_comm.
    + split; [done|]. split; [done|]. simpl. rewrite <-Hbytes. apply submseteq_inserts_l. done.
Qed.

Lemma buddy_get_block_spec idx h :
  (idx <= BINS_MAX_ORDER)%nat -> bins_inv (hk_fn h) (free_area h) ->
  (forall x, x ∈ free_bytes h -> 0 < x < 2 ^ 32) ->
  get_block_post idx h (buddy_get_block idx h).
Proof.
  intros Hi Hb Hx. unfold buddy_get_block.
  pose proof (buddy_get_block_at_spec (BINS_MAX_ORDER - idx) h) as P.
  replace (BINS_MAX_ORDER - (BINS_MAX_ORDER - idx))%nat with idx in P by lia. apply P; [lia|done..].
Qed.

(** ** Giving a block back *)

Lemma add_after_perm fn n l : add_after fn n l ≡ₚ l ++ [n].
Proof.
  induction l as [|x l IH]; simpl; [done|]. destruct l as [|y l]; [done|].
  case_match; [|by rewrite IH]. constructor. apply Permutation_cons_append.
Qed.

Lemma coalesce_scan_spec fn sz p l x y :
  coalesce_scan fn sz p (fn_map fn p) l = Some (x, y) ->
  exists l1 l2, p :: l = l1 ++ x :: y :: l2 /\ fn_map fn x <> 0 /\
    u32 (fn_map fn x + sz) = fn_map fn y.
Proof.
  revert p. induction l as [|c l IH]; intros p; simpl; [done|].
  destruct (_ && _) eqn:E.
  - intros [= <- <-]. apply andb_prop in E as [E1 E2].
    apply negb_true_iff, Z.eqb_neq in E1. apply Z.eqb_eq in E2. by exists [], l.
  - intros Hs. destruct (IH c Hs) as (l1 & l2 & -> & H1 & H2). by exists (p :: l1), l2.
Qed.

Lemma filter_remove2 (l1 l2 : list nat) x y :
  NoDup (l1 ++ x :: y :: l2) -> filter (fun n => n <> y /\ n <> x) (l1 ++ x :: y :: l2) = l1 ++ l2.
Proof.
  intros N. rewrite filter_app, !filter_cons_False by (intros []; congruence).
  apply NoDup_app in N as (_ & N1 & N2). apply NoDup_cons in N2 as [N2 N3].
  apply NoDup_cons in N3 as [N3 _]. f_equal; apply filter_id; set_solver.
Qed.

(** The outcome of a step that only rearranges the free side: the heap but for
    its nodes and bins is [h], the free bytes are [bs]. *)
Definition free_side (bs : list Z) (h h' : sw_heap) : Prop :=
  h' = set_bins (free_area h') (set_fn (hk_fn h') h) /\
  bins_inv (hk_fn h') (free_area h') /\ free_bytes h' ≡ₚ bs.

Lemma free_side_trans bs bs' h h1 h2 : free_side bs h h1 -> free_side bs' h1 h2 -> free_side bs' h h2.
Proof. intros (E1 & _) (E2 & Hb & Hbs). split; [rewrite E2, E1; done|done]. Qed.

Lemma add_free_area_to_bin_spec n i h :
  bins_inv (hk_fn h) (free_area h) -> (i < BINS_MAX_ORDER)%nat ->
  n ∉ bins_nodes (free_area h) -> fn_map (hk_fn h) n <> 0 ->
  free_side (area (fn_map (hk_fn h) n) i ++ free_bytes h) h (add_free_area_to_bin n i h) /\
  bins_nodes (free_area (add_free_area_to_bin n i h)) ≡ₚ n :: bins_nodes (free_area h).
Proof.
  intros Hb Hi Hn Hm.
  destruct (bins_add (hk_fn h) (free_area h) i n
    (add_after (hk_fn h) n (fa_head (bin_get (free_area h) i)))) as (Hb' & Hn' & Hbytes);
    [done..|apply add_after_perm|].
  unfold free_side, add_free_area_to_bin, free_bytes. by split.
Qed.

(** Two adjacent free nodes of bin [i] become one of bin [i + 1]. *)
Lemma coalesce_step h i x y l1 l2 :
  bins_inv (hk_fn h) (free_area h) -> (S i < BINS_MAX_ORDER)%nat ->
  (forall z, z ∈ free_bytes h -> 0 < z < 2 ^ 32) ->
  fa_head (bin_get (free_area h) i) = l1 ++ x :: y :: l2 ->
  u32 (fn_map (hk_fn h) x + blk i) = fn_map (hk_fn h) y ->
  let b := bin_get (free_area h) i in
  let h1 := set_bins (bin_set i (l1 ++ l2) (fa_count b - 2) (free_area h)) (free_hk_node y h) in
  free_side (free_bytes h) h (add_free_area_to_bin x (S i) h1) /\
  bins_nodes (free_area h) ≡ₚ y :: bins_nodes (free_area (add_free_area_to_bin x (S i) h1)).
Proof.
  intros Hb Hi Hz Hl Hadj b h1.
  destruct (bins_remove (hk_fn h) (free_area h) i x (l1 ++ y :: l2) (fa_count b - 1))
    as (Hb1 & Hn1 & Hbytes1); [done|lia| |done|].
  { rewrite Hl. symmetry. apply Permutation_middle. }
  destruct (bins_remove (hk_fn h) (bin_set i (l1 ++ y :: l2) (fa_count b - 1) (free_area h)) i y
    (l1 ++ l2) (fa_count b - 2)) as (Hb2 & Hn2 & Hbytes2); [done|lia| | |].
  { unfold bin_get, bin_set. rewrite list_lookup_insert_eq by (rewrite (bi_len _ _ Hb); lia). simpl.
    symmetry. apply Permutation_middle. }
  { unfold bin_get at 1, bin_set. rewrite list_lookup_insert_eq by (rewrite (bi_len _ _ Hb); lia). simpl. lia. }
  unfold bin_set at 1 in Hb2. unfold bin_set at 1 in Hbytes2. unfold bin_set at 2 in Hn2.
  unfold bin_set in Hb2, Hn2, Hbytes2. rewrite list_insert_insert_eq in Hb2, Hn2, Hbytes2.
  fold (bin_set i (l1 ++ l2) (fa_count b - 2) (free_area h)) in Hb2, Hn2, Hbytes2.
  fold (bin_set i (l1 ++ y :: l2) (fa_count b - 1) (free_area h)) in Hn2, Hbytes2.
  rewrite Hn2 in Hn1. rewrite Hbytes2 in Hbytes1. set (bins2 := bin_set i (l1 ++ l2) _ _) in *.
  pose proof (bi_nodes _ _ Hb) as Hnd. rewrite Hn1 in Hnd.
  apply NoDup_cons in Hnd as [Hx Hnd]. apply NoDup_cons in Hnd as [Hy Hnd].
  assert (Hmap : forall n, n ∈ [x; y] -> fn_map (hk_fn h) n <> 0).
  { intros n Hn. apply (bi_maps _ _ Hb). rewrite Hn1. set_solver. }
  destruct (bins_insert_outside (hk_fn h) bins2 y 0 Hb2 Hy) as [Hb3 Hbytes3].
  assert (Hxy : fn_map (<[y := 0]> (hk_fn h)) x = fn_map (hk_fn h) x)
    by (apply fn_map_insert_ne; set_solver).
  destruct (add_free_area_to_bin_spec x (S i) h1) as [Hs Hn4]; [done|done|set_solver| |].
  { simpl. rewrite Hxy. apply Hmap. set_solver. }
  split.
  - destruct Hs as (E & Hb4 & Hbytes4). split; [done|]. split; [done|]. rewrite Hbytes4.
    unfold free_bytes, h1. simpl. rewrite Hxy, Hbytes3, Hbytes1, area_split, <-app_assoc.
    f_equiv. rewrite <-Hadj, u32_id; [done|].
    assert (0 < fn_map (hk_fn h) x + blk i - 1 < 2 ^ 32).
    { apply Hz. unfold free_bytes. rewrite Hbytes1, elem_of_app. left. apply elem_of_seqZ.
      pose proof (blk_pos i). lia. }
    unfold in_u32. destruct (decide (fn_map (hk_fn h) x + blk i = 2 ^ 32)) as [E2|]; [|lia].
    rewrite E2 in Hadj. change (u32 (2 ^ 32)) with 0 in Hadj. exfalso.
    apply (Hmap y); [set_solver|done].
  - rewrite Hn1, Hn4. apply perm_swap.
Qed.

Lemma coalesce_buddies_spec fuel i h :
  bins_inv (hk_fn h) (free_area h) -> (i < BINS_MAX_ORDER)%nat ->
  (forall z, z ∈ free_bytes h -> 0 < z < 2 ^ 32) ->
  (BINS_MAX_ORDER - i + length (bins_nodes (free_area h)) <= fuel)%nat ->
  exists h', coalesce_buddies fuel i h = Ret h' /\ free_side (free_bytes h) h h'.
Proof.
  revert i h. induction fuel as [|fuel IH]; intros i h Hb Hi Hz Hf; [lia|].
  cbn [coalesce_buddies]. destruct (Nat.eqb_spec i (BINS_MAX_ORDER - 1)) as [->|Hne].
  { exists h. split; [done|]. split; [by destruct h|done]. }
  assert (HSi : (S i < BINS_MAX_ORDER)%nat) by (unfold BINS_MAX_ORDER in *; lia).
  destruct (coalesce_scan _ _ _ _ _) as [[x y]|] eqn:Es.
  - assert (exists l1 l2, fa_head (bin_get (free_area h) i) = l1 ++ x :: y :: l2 /\
      u32 (fn_map (hk_fn h) x + blk i) = fn_map (hk_fn h) y) as (l1 & l2 & El & Hadj).
    { destruct (fa_head (bin_get (free_area h) i)) as [|c l] eqn:El; [done|].
      cbn [coalesce_scan] in Es. change (negb (0 =? 0)) with false in Es. cbn [andb] in Es.
      destruct (coalesce_scan_spec _ _ _ _ _ _ Es) as (l1 & l2 & E & _ & Ha). eauto. }
    assert (Hnd : NoDup (l1 ++ x :: y :: l2)).
    { pose proof (bin_update_nodes (free_area h) i [] 0) as P. rewrite El, app_nil_r in P.
      pose proof (bi_nodes _ _ Hb) as Hnd. rewrite <-P in Hnd by (rewrite (bi_len _ _ Hb); lia).
      by apply NoDup_app in Hnd as (_ & _ & ?). }
    rewrite El, filter_remove2 by done.
    destruct (coalesce_step h i x y l1 l2) as [Hs Hn]; [done..|].
    set (h1 := add_free_area_to_bin _ _ _) in *. pose proof Hs as (_ & Hb1 & Hbytes1).
    destruct (IH i h1) as (h' & E' & Hs'); [done|done| | |].
    + intros z Hin. apply Hz. by rewrite <-Hbytes1.
    + rewrite Hn in Hf. cbn [length] in Hf. lia.
    + exists h'. split; [done|]. eapply free_side_trans; [exact Hs|].
      destruct Hs' as (E2 & Hb2 & Hbytes2). split; [done|]. split; [done|]. by rewrite Hbytes2.
  - destruct (IH (S i) h) as (h' & E' & Hs'); [done|done|done|lia|]. by exists h'.
Qed.

Lemma return_to_pool_spec e h :
  bins_inv (hk_fn h) (free_area h) -> (bin_num e < BINS_MAX_ORDER)%nat -> aa_map e <> 0 ->
  (forall z, z ∈ area (aa_map e) (bin_num e) ++ free_bytes h -> 0 < z < 2 ^ 32) ->
  exists r h', return_to_pool e h = Ret (r, h') /\
    ((r = -1 /\ h' = h /\ get_free_hk_node h = None) \/
     (r = 0 /\ free_side (area (aa_map e) (bin_num e) ++ free_bytes h) h h')).
Proof.
  intros Hb Hi Hm Hz. unfold return_to_pool.
  destruct (get_free_hk_node h) as [n|] eqn:En; [|by exists (-1), h; auto].
  apply get_free_hk_node_Some in En as [Hn0 Hnl].
  assert (Hn : n ∉ bins_nodes (free_area h)) by (by eapply free_node_not_in).
  destruct (bins_insert_outside (hk_fn h) (free_area h) n (aa_map e) Hb Hn) as [Hb1 Hbytes1].
  set (h1 := set_fn _ h).
  assert (Hmap : fn_map (hk_fn h1) n = aa_map e) by (by apply fn_map_insert).
  destruct (add_free_area_to_bin_spec n (bin_num e) h1) as [Hs Hn2]; [done|done|done|by rewrite Hmap|].
  rewrite Hmap in Hs. unfold free_bytes at 1 in Hs. simpl in Hs. rewrite Hbytes1 in Hs.
  set (h2 := add_free_area_to_bin n (bin_num e) h1) in *.
  assert (Hs2 : free_side (area (aa_map e) (bin_num e) ++ free_bytes h) h h2).
  { destruct Hs as (E & Hs). split; [|exact Hs]. rewrite E. done. }
  destruct (1 <? _); [|exists 0, h2; auto].
  destruct (coalesce_buddies_spec (coalesce_fuel h2) (bin_num e) h2) as (h3 & E3 & Hs3).
  - apply Hs2.
  - done.
  - intros z. destruct Hs2 as (_ & _ & ->). apply Hz.
  - unfold coalesce_fuel. lia.
  - rewrite E3. simpl. exists 0, h3. split; [done|]. right. split; [done|].
    eapply free_side_trans; [exact Hs2|]. destruct Hs3 as (E & Hb3 & Hbytes3).
    split; [done|]. split; [done|]. rewrite Hbytes3. apply Hs2.
Qed.

(** ** A whole heap *)

Definition live_addrs (h : sw_heap) : list Z := (fun k => aa_map (an_get (hk_an h) k)) <$> current h.

Lemma heap_bins h : heap_inv h -> bins_inv (hk_fn h) (free_area h).
Proof. intros []. by split. Qed.

Lemma heap_bytes_pos h z : heap_inv h -> z ∈ free_bytes h ++ live_bytes h -> 0 < z < 2 ^ 32.
Proof. intros [] Hz. specialize (hi_range0 z Hz). lia. Qed.

(** Rebuilding the invariant from a new free side and a new live side whose
    bytes were among the heap's. *)
Lemma heap_inv_intro h h' :
  heap_inv h -> bins_inv (hk_fn h') (free_area h') ->
  mem_start h' = mem_start h -> mem_size h' = mem_size h -> heap_size h' = heap_size h ->
  NoDup (current h') ->
  (forall k, k ∈ current h' -> aa_map (an_get (hk_an h') k) <> 0 /\
    (bin_num (an_get (hk_an h') k) < BINS_MAX_ORDER)%nat /\
    0 <= blk_sz (an_get (hk_an h') k) <= blk (bin_num (an_get (hk_an h') k))) ->
  free_bytes h' ++ live_bytes h' ⊆+ free_bytes h ++ live_bytes h ->
  heap_inv h'.
Proof.
  intros [] [] E1 E2 E3 Hc Hl Hs. split; try done.
  - apply submseteq_Permutation in Hs as [bs Hs]. rewrite Hs in hi_bytes0.
    by apply NoDup_app in hi_bytes0 as (? & _ & _).
  - by rewrite E1, E2.
  - intros x Hx. rewrite E1, E2. apply hi_range0. by eapply elem_of_submseteq.
  - by rewrite E3.
Qed.

Lemma an_get_insert an k e j :
  (k < length an)%nat -> an_get (<[k := e]> an) j = if decide (k = j) then e else an_get an j.
Proof.
  intros Hk. unfold an_get. case_decide; [subst; by rewrite list_lookup_insert_eq|].
  by rewrite list_lookup_insert_ne.
Qed.

Lemma live_area_ext an an' (cur : list nat) :
  (forall k, k ∈ cur -> an_get an' k = an_get an k) -> cur ≫= live_area an' = cur ≫= live_area an.
Proof.
  induction cur as [|k cur IH]; intros He; simpl; [done|].
  unfold live_area at 1 3. rewrite He by set_solver. f_equal. apply IH. set_solver.
Qed.

(** What an allocation of at most one block does to a heap. *)
Definition malloc_post (size : Z) (h : sw_heap) (r : Z * sw_heap) : Prop :=
  let h' := snd r in
  heap_inv h' /\ mem_start h' = mem_start h /\ mem_size h' = mem_size h /\
  ((fst r = 0 /\ hk_an h' = hk_an h /\ current h' = current h) \/
   exists k e, k ∉ current h /\ fst r = aa_map e /\ fst r <> 0 /\ size <= blk_sz e /\
     blk_sz e <= blk (bin_num e) /\
     hk_an h' = <[k := e]> (hk_an h) /\ current h' = current h ++ [k] /\
     (k < length (hk_an h))%nat /\
     mem_start h <= aa_map e /\ aa_map e + blk (bin_num e) <= mem_start h + mem_size h /\
     forall x, x ∈ live_bytes h -> x ∉ area (aa_map e) (bin_num e)).

Lemma get_block_heap idx h r :
  heap_inv h -> (idx < BINS_MAX_ORDER)%nat -> buddy_get_block idx h = r ->
  (fst r = None -> heap_inv (snd r) /\
     snd r = set_bins (free_area (snd r)) (set_fn (hk_fn (snd r)) h)) /\
  (forall n, fst r = Some n -> n ∉ bins_nodes (free_area (snd r)) /\ fn_map (hk_fn (snd r)) n <> 0 /\
     bins_inv (hk_fn (snd r)) (free_area (snd r)) /\
     snd r = set_bins (free_area (snd r)) (set_fn (hk_fn (snd r)) h) /\
     area (fn_map (hk_fn (snd r)) n) idx ++ free_bytes (snd r) ≡ₚ free_bytes h).
Proof.
  intros Hinv Hi <-. pose proof (heap_bins _ Hinv) as Hb.
  destruct (buddy_get_block_spec idx h) as (E & Hb' & Hr); [lia|done| |].
  { intros x Hx. apply (heap_bytes_pos h); [done|]. apply elem_of_app. by left. }
  destruct (buddy_get_block idx h) as [o h1]. simpl in *. split.
  - intros ->. split; [|done]. rewrite E. apply (heap_inv_intro h); try done; try apply Hinv.
    + unfold live_bytes. simpl. apply submseteq_app; [|done]. exact Hr.
  - intros n ->. destruct Hr as (Hn & Hm & Hbytes). auto.
Qed.

(** A block taken from the bins becomes a live block. *)
Lemma malloc_take idx curr size h h1 n k :
  heap_inv h -> (idx < BINS_MAX_ORDER)%nat -> 0 <= curr <= blk idx -> size <= curr ->
  n ∉ bins_nodes (free_area h1) -> fn_map (hk_fn h1) n <> 0 ->
  bins_inv (hk_fn h1) (free_area h1) -> h1 = set_bins (free_area h1) (set_fn (hk_fn h1) h) ->
  area (fn_map (hk_fn h1) n) idx ++ free_bytes h1 ≡ₚ free_bytes h ->
  get_free_ac_node h1 = Some k ->
  malloc_post size h (fn_map (hk_fn h1) n,
    add_current k (Alloced (fn_map (hk_fn h1) n) curr idx) (free_hk_node n h1)).
Proof.
  intros Hinv Hi Hcurr Hsize Hn Hm Hb E Hbytes Hk.
  apply get_free_ac_node_Some in Hk as [Hk0 Hkl].
  assert (Ean : hk_an h1 = hk_an h) by (by rewrite E).
  assert (Ecur : current h1 = current h) by (by rewrite E). rewrite Ean in Hk0, Hkl.
  assert (Hkc : k ∉ current h) by (intros Hin; by destruct (hi_live _ Hinv k Hin)).
  set (e := Alloced (fn_map (hk_fn h1) n) curr idx).
  set (h' := add_current k e (free_hk_node n h1)).
  destruct (bins_insert_outside (hk_fn h1) (free_area h1) n 0 Hb Hn) as [Hb' Hbytes'].
  assert (Hold : forall j, j ∈ current h -> an_get (<[k := e]> (hk_an h)) j = an_get (hk_an h) j).
  { intros j Hj. rewrite an_get_insert, decide_False; [done| |done]. by intros ->. }
  assert (Elive : live_bytes h' = live_bytes h ++ area (aa_map e) idx).
  { unfold live_bytes, h'. simpl. rewrite Ean, Ecur, bind_app, (live_area_ext (hk_an h)) by done.
    f_equal. simpl. unfold live_area. rewrite an_get_insert, decide_True by done. apply app_nil_r. }
  assert (Hp : free_bytes h' ++ live_bytes h' ≡ₚ free_bytes h ++ live_bytes h).
  { rewrite Elive, <-Hbytes. unfold free_bytes at 1. simpl. rewrite Hbytes'.
    fold (free_bytes h1). change (aa_map e) with (fn_map (hk_fn h1) n). solve_Permutation. }
  assert (Ha : forall x, x ∈ area (aa_map e) idx -> x ∈ free_bytes h).
  { intros x Hx. rewrite <-Hbytes. apply elem_of_app. by left. }
  assert (Ecur' : current h' = current h ++ [k]) by (unfold h'; simpl; by rewrite Ecur).
  assert (Ean' : hk_an h' = <[k := e]> (hk_an h)) by (unfold h'; simpl; by rewrite Ean).
  unfold malloc_post. cbn [fst snd]. split.
  - apply (heap_inv_intro h); try done; try (unfold h'; simpl; by rewrite E).
    + rewrite Ecur'. apply NoDup_app. split; [apply Hinv|]. split; [set_solver|apply NoDup_singleton].
    + rewrite Ean', Ecur'. intros j [Hj|Hj]%elem_of_app.
      * rewrite Hold by done. by apply (hi_live _ Hinv).
      * apply list_elem_of_singleton in Hj as ->. by rewrite an_get_insert, decide_True.
    + by rewrite Hp.
  - split; [unfold h'; simpl; by rewrite E|]. split; [unfold h'; simpl; by rewrite E|].
    right. exists k, e. split_and!; try done; try (unfold e; simpl; lia).
    + destruct (hi_range _ Hinv (fn_map (hk_fn h1) n)) as [? _]; [|done].
      apply elem_of_app. left. apply Ha, area_start.
    + pose proof (blk_pos idx).
      destruct (hi_range _ Hinv (fn_map (hk_fn h1) n + blk idx - 1)); [|unfold e; simpl; lia].
      apply elem_of_app. left. apply Ha, elem_of_seqZ. simpl. lia.
    + intros x Hx Hx'. pose proof (hi_bytes _ Hinv) as Hnd.
      apply NoDup_app in Hnd as (_ & Hdis & _). apply (Hdis x); [by apply Ha|done].
Qed.

Lemma malloc_post_trans size h bins fn r :
  malloc_post size (set_bins bins (set_fn fn h)) r -> malloc_post size h r.
Proof. done. Qed.

Lemma malloc_loop_spec n idx curr size h :
  heap_inv h -> (idx + n = S BINS_MAX_ORDER)%nat -> 0 <= curr <= blk idx -> 
  malloc_post size h (malloc_loop n idx curr size h).
Proof.
  revert idx curr h. induction n as [|n IH]; intros idx curr h Hinv Hn Hcurr.
  { split; [done|]. split_and!; [done|done|]. by left. }
  assert (Hnext : 0 <= curr <= blk (S idx)) by (rewrite blk_S; pose proof (blk_pos idx); lia).
  cbn [malloc_loop]. destruct (Z.ltb_spec curr size).
  { apply IH; [done|lia|]. rewrite Z.shiftl_mul_pow2 by lia. rewrite blk_S. lia. }
  destruct (decide (idx = BINS_MAX_ORDER)) as [->|Hidx].
  { change (buddy_get_block BINS_MAX_ORDER h) with (@None nat, h). cbv iota. apply IH; [done|lia|done]. }
  assert (Hi : (idx < BINS_MAX_ORDER)%nat) by lia.
  destruct (buddy_get_block idx h) as [o h1] eqn:Eb.
  destruct (get_block_heap idx h _ Hinv Hi Eb) as [HN HS]. cbn [fst snd] in *.
  destruct o as [f|].
  - destruct (HS f eq_refl) as (Hf & Hm & Hb & E & Hbytes).
    destruct (get_free_ac_node h1) as [k|] eqn:Ek.
    + by apply (malloc_take idx curr size h h1 f k).
    + unfold malloc_post. cbn [fst snd]. split; [|rewrite E; split_and!; auto].
      apply (heap_inv_intro h); try done; try (rewrite E; done).
      * rewrite E. apply Hinv.
      * rewrite E. apply Hinv.
      * rewrite <-Hbytes. assert (live_bytes h1 = live_bytes h) as -> by (by rewrite E).
        apply submseteq_app; [|done]. by apply submseteq_inserts_l.
  - destruct (HN eq_refl) as [Hinv1 E]. 
    apply (malloc_post_trans size h (free_area h1) (hk_fn h1)). rewrite <-E.
    apply IH; [done|lia|done].
Qed.

Lemma sw_buddy_malloc_spec size h :
  heap_inv h -> 0 <= size <= MAX_BLOCK_SIZE ->
  exists r, sw_buddy_malloc size h = Ret r /\ malloc_post size h r.
Proof.
  intros Hinv Hs. unfold sw_buddy_malloc.
  destruct (Z.ltb_spec (heap_size h) size); [pose proof (hi_size _ Hinv); lia|].
  destruct (Z.ltb_spec MAX_BLOCK_SIZE size); [lia|]. eexists. split; [done|].
  apply malloc_loop_spec; [done|done|]. pose proof (blk_pos 0). by compute.
Qed.

Lemma NoDup_split_app {A} (x : A) l1 l2 : NoDup (l1 ++ x :: l2) -> NoDup (l1 ++ l2).
Proof. rewrite <-Permutation_middle. by intros [_ ?]%NoDup_cons. Qed.

(** Releasing the live block at [ptr]. *)
Definition free_post (ptr : Z) (h h' : sw_heap) : Prop :=
  heap_inv h' /\ mem_start h' = mem_start h /\ mem_size h' = mem_size h /\
  ((ptr ∉ live_addrs h /\ h' = h) \/
   exists k, k ∈ current h /\ aa_map (an_get (hk_an h) k) = ptr /\
     hk_an h' = <[k := Alloced 0 0 0]> (hk_an h) /\ current h' = filter (fun x => x <> k) (current h) /\
     (get_free_hk_node h <> None -> free_bytes h' ≡ₚ live_area (hk_an h) k ++ free_bytes h)).

Lemma an_len h k : heap_inv h -> k ∈ current h -> (k < length (hk_an h))%nat.
Proof.
  intros Hinv Hk. destruct (hi_live _ Hinv k Hk) as [Hm _]. unfold an_get in Hm.
  destruct (hk_an h !! k) eqn:E; [by eapply lookup_lt_Some|done].
Qed.

Lemma buddy_free_spec ptr h :
  heap_inv h -> exists h', buddy_free ptr h = Ret h' /\ free_post ptr h h'.
Proof.
  intros Hinv. unfold buddy_free, search_for_allocated_block.
  destruct (find_fst _ (current h)) as [k|] eqn:Ef.
  2: { exists h. split; [done|]. split; [done|]. split_and!; [done|done|]. left. split; [|done]. intros Hin.
       apply list_elem_of_fmap in Hin as (k & -> & Hk).
       pose proof (proj1 (find_fst_None _ _) Ef k Hk) as E. simpl in E. by rewrite Z.eqb_refl in E. }
  apply find_fst_Some in Ef as [Hk Em]. apply Z.eqb_eq in Em.
  pose proof (hi_live _ Hinv k Hk) as (Hm & Hb & _). pose proof (an_len h k Hinv Hk) as Hkl.
  apply list_elem_of_split in Hk as Hsplit. destruct Hsplit as (l1 & l2 & Ec).
  pose proof (hi_cur _ Hinv) as Hcur. rewrite Ec in Hcur.
  set (e := an_get (hk_an h) k) in *.
  assert (Elive : live_bytes h ≡ₚ area (aa_map e) (bin_num e) ++ (l1 ++ l2) ≫= live_area (hk_an h)).
  { unfold live_bytes. rewrite Ec, !bind_app. simpl. unfold live_area at 2. fold e.
    solve_Permutation. }
  destruct (return_to_pool_spec e h) as (r & h1 & E & Hr); [by apply heap_bins|done|done| |].
  { intros z Hz. apply (heap_bytes_pos h); [done|]. rewrite Elive, !elem_of_app.
    apply elem_of_app in Hz. tauto. }
  rewrite E. cbn [mbind res_bind mret res_ret]. eexists. split; [done|].
  assert (Hh1 : hk_an h1 = hk_an h /\ current h1 = current h /\ mem_start h1 = mem_start h /\
      mem_size h1 = mem_size h /\ heap_size h1 = heap_size h /\
      bins_inv (hk_fn h1) (free_area h1) /\ free_bytes h1 ⊆+ area (aa_map e) (bin_num e) ++ free_bytes h /\
      (get_free_hk_node h <> None -> free_bytes h1 ≡ₚ area (aa_map e) (bin_num e) ++ free_bytes h)).
  { destruct Hr as [(_ & -> & Hno)|[_ (E1 & Hb1 & Hbs)]].
    - split_and!; try done; [by apply heap_bins|]. by apply submseteq_inserts_l.
    - rewrite E1 at 1 2 3 4 5. split_and!; try done. by rewrite Hbs. }
  destruct Hh1 as (Ean & Ecur & Em1 & Em2 & Em3 & Hb1 & Hbs & Hback). clear E Hr.
  assert (Hfil : filter (fun x => x <> k) (current h) = l1 ++ l2) by (rewrite Ec; by apply filter_remove).
  assert (Hsub : forall j, j ∈ l1 ++ l2 -> j ∈ current h /\ j <> k).
  { intros j Hj. rewrite <-Hfil, list_elem_of_filter in Hj. tauto. }
  assert (Hold : forall j, j ∈ l1 ++ l2 -> an_get (<[k := Alloced 0 0 0]> (hk_an h)) j = an_get (hk_an h) j).
  { intros j Hj. rewrite an_get_insert, decide_False; [done| |done]. intros ->. by destruct (Hsub j Hj). }
  split.
  - apply (heap_inv_intro h); simpl; try done.
    + rewrite Ecur, Hfil. apply (NoDup_split_app k l1 l2 Hcur).
    + rewrite Ean, Ecur, Hfil. intros j Hj. rewrite Hold by done.
      apply (hi_live _ Hinv). by apply Hsub.
    + unfold live_bytes. simpl. rewrite Ean, Ecur, Hfil, (live_area_ext (hk_an h)) by done.
      fold (live_bytes h). rewrite Elive.
      transitivity ((area (aa_map e) (bin_num e) ++ free_bytes h) ++ ((l1 ++ l2) ≫= live_area (hk_an h))).
      * by apply submseteq_app.
      * apply Permutation_submseteq. solve_Permutation.
  - split_and!; [done|done|]. right. exists k. cbn [hk_an current set_current].
    rewrite Ean, Ecur. by split_and!.
Qed.

(** ** All the heaps *)

Definition mem_end (h : sw_heap) : Z := mem_start h + mem_size h.

Record heaps_wf (s : heaps) : Prop := {
  hw_len : length (h_index s) = length (buddy_heap s);
  hw_inv : forall i h, buddy_heap s !! i = Some h -> heap_inv h;
  hw_apart : forall i j h h', buddy_heap s !! i = Some h -> buddy_heap s !! j = Some h' -> i <> j ->
    mem_end h <= mem_start h' \/ mem_end h' <= mem_start h;
}.

Definition heaps_live (s : heaps) : gset Z := list_to_set (buddy_heap s ≫= live_addrs).

Lemma elem_of_heaps_live s x :
  x ∈ heaps_live s <-> exists i h, buddy_heap s !! i = Some h /\ x ∈ live_addrs h.
Proof.
  unfold heaps_live. rewrite elem_of_list_to_set, list_elem_of_bind. split.
  - intros (h & Hx & Hh). apply list_elem_of_lookup in Hh as [i Hi]. eauto.
  - intros (i & h & Hi & Hx). exists h. split; [done|]. by eapply list_elem_of_lookup_2.
Qed.

Lemma live_addr_in h x :
  heap_inv h -> x ∈ live_addrs h -> x ∈ live_bytes h /\ mem_start h <= x < mem_end h.
Proof.
  intros Hinv Hx. assert (Hin : x ∈ live_bytes h).
  { apply list_elem_of_fmap in Hx as (k & -> & Hk). unfold live_bytes. apply list_elem_of_bind.
    exists k. split; [|done]. apply area_start. }
  split; [done|]. apply (hi_range _ Hinv). apply elem_of_app. by right.
Qed.

Lemma find_heap_Some hid s i :
  heaps_wf s -> find_heap hid s = Some i -> exists h, buddy_heap s !! i = Some h /\ heap_at i s = h.
Proof.
  intros Hw Hf. unfold find_heap in Hf. apply fmap_Some in Hf as ([k e] & Hf & ->).
  apply list_find_Some in Hf as (Hl & _ & _). apply lookup_lt_Some in Hl. rewrite (hw_len _ Hw) in Hl.
  destruct (lookup_lt_is_Some_2 _ _ Hl) as [h Hh]. exists h. simpl. split; [done|].
  unfold heap_at. by rewrite Hh.
Qed.

(** Replacing one heap by a heap on the same memory. *)
Lemma heaps_wf_put i h h' d s :
  heaps_wf s -> buddy_heap s !! i = Some h -> heap_inv h' ->
  mem_start h' = mem_start h -> mem_size h' = mem_size h -> heaps_wf (put_heap i h' d s).
Proof.
  intros [Hl Hi Ha] Hh Hinv E1 E2. split; simpl.
  - by rewrite !length_insert.
  - intros j hj Hj. apply list_lookup_insert_Some in Hj as [(-> & <- & _)|[_ Hj]]; [done|by eapply Hi].
  - unfold mem_end in *. intros j1 j2 h1 h2 Hj1 Hj2 Hne.
    apply list_lookup_insert_Some in Hj1 as [(-> & <- & _)|[Hn1 Hj1]];
      apply list_lookup_insert_Some in Hj2 as [(-> & <- & _)|[Hn2 Hj2]]; try done.
    + rewrite E1, E2. by apply (Ha j1 j2 h h2).
    + rewrite E1, E2. by apply (Ha j1 j2 h1 h).
    + by apply (Ha j1 j2).
Qed.

Lemma heaps_live_put i h h' d s x :
  buddy_heap s !! i = Some h ->
  x ∈ heaps_live (put_heap i h' d s) <->
    x ∈ live_addrs h' \/ exists j hj, j <> i /\ buddy_heap s !! j = Some hj /\ x ∈ live_addrs hj.
Proof.
  intros Hh. rewrite elem_of_heaps_live. simpl. split.
  - intros (j & hj & Hj & Hx). apply list_lookup_insert_Some in Hj as [(-> & <- & _)|[Hn Hj]]; [auto|].
    right. exists j, hj. auto.
  - intros [Hx|(j & hj & Hn & Hj & Hx)].
    + exists i, h'. split; [|done]. rewrite list_lookup_insert_eq; [done|by eapply lookup_lt_Some].
    + exists j, hj. by rewrite list_lookup_insert_ne.
Qed.

Lemma live_addrs_old h an' k :
  (k < length (hk_an h))%nat -> k ∉ current h -> forall e, an' = <[k := e]> (hk_an h) ->
  (fun j => aa_map (an_get an' j)) <$> current h = live_addrs h.
Proof.
  intros Hk Hn e ->. unfold live_addrs. apply list_fmap_ext. intros i j Hj.
  rewrite an_get_insert, decide_False; [done| |done]. intros ->.
  apply Hn. by eapply list_elem_of_lookup_2.
Qed.

Lemma malloc_live size h r :
  heap_inv h -> malloc_post size h r ->
  (fst r = 0 /\ live_addrs (snd r) = live_addrs h) \/
  (fst r <> 0 /\ fst r ∉ live_addrs h /\ mem_start h <= fst r < mem_end h /\
     live_addrs (snd r) = live_addrs h ++ [fst r]).
Proof.
  intros Hinv (_ & _ & _ & [(E0 & Ean & Ecur)|(k & e & Hk & Er & Hr & _ & _ & Ean & Ecur & Hkl & H1 & H2 & Hd)]).
  - left. split; [done|]. unfold live_addrs. by rewrite Ean, Ecur.
  - right. pose proof (blk_pos (bin_num e)). rewrite Er. split; [by rewrite <-Er|]. split_and!.
    + intros Hin. destruct (live_addr_in h _ Hinv Hin) as [Hb _]. apply (Hd _ Hb), area_start.
    + done.
    + unfold mem_end. lia.
    + unfold live_addrs at 1. rewrite Ecur, fmap_app, (live_addrs_old h _ k Hkl Hk e Ean). simpl.
      by rewrite Ean, an_get_insert, decide_True.
Qed.

#[export] Instance buddy_PrivateHeap : PrivateHeap heaps := {
  heap_malloc := sw_malloc_private;
  heap_free := sw_free_private;
  heap_alloc_private := alloc_private_heap;
  heap_free_private := free_private_heap;
}.

Lemma buddy_malloc_ok hid size s :
  heaps_wf s -> 0 <= size <= MAX_BLOCK_SIZE ->
  exists p s', sw_malloc_private hid size s = Ret (p, s') /\ heaps_wf s' /\
    ((p = 0 /\ heaps_live s' = heaps_live s) \/
     (p <> 0 /\ p ∉ heaps_live s /\ heaps_live s' = {[p]} ∪ heaps_live s)).
Proof.
  intros Hw Hs. unfold sw_malloc_private. destruct (find_heap hid s) as [i|] eqn:Ef.
  2: { exists 0, s. auto. }
  destruct (find_heap_Some _ _ _ Hw Ef) as (h & Hh & ->).
  pose proof (hw_inv _ Hw _ _ Hh) as Hinv.
  destruct (sw_buddy_malloc_spec size h Hinv Hs) as ([p h'] & E & Hp). rewrite E. simpl.
  exists p. eexists. split; [done|]. pose proof Hp as (Hinv' & E1 & E2 & _). simpl in *.
  split; [by apply (heaps_wf_put i h)|].
  assert (Hsplit : forall x, x ∈ heaps_live s <-> x ∈ live_addrs h \/
    exists j hj, j <> i /\ buddy_heap s !! j = Some hj /\ x ∈ live_addrs hj).
  { intros x. rewrite elem_of_heaps_live. split.
    - intros (j & hj & Hj & Hx). destruct (decide (j = i)) as [->|]; [left; by simplify_eq|eauto 10].
    - intros [Hx|(j & hj & _ & Hj & Hx)]; eauto. }
  destruct (malloc_live _ _ _ Hinv Hp) as [(E0 & El)|(Hp0 & Hpn & Hpr & El)]; simpl in *.
  - left. split; [done|]. apply set_eq. intros x.
    by rewrite (heaps_live_put i h), El, Hsplit.
  - right. split; [done|]. split.
    + rewrite Hsplit. intros [Hx|(j & hj & Hj & Hlj & Hx)]; [done|].
      destruct (live_addr_in hj p (hw_inv _ Hw _ _ Hlj) Hx) as [_ Hr].
      destruct (hw_apart _ Hw _ _ _ _ Hh Hlj); [done|lia|lia].
    + apply set_eq. intros x. rewrite (heaps_live_put i h) by done.
      rewrite El, elem_of_union, elem_of_singleton, elem_of_app, list_elem_of_singleton, Hsplit. tauto.
Qed.

Lemma buddy_free_ok hid p s :
  heaps_wf s ->
  exists s', sw_free_private hid p s = Ret s' /\ heaps_wf s' /\
    heaps_live s ∖ {[p]} ⊆ heaps_live s' /\ heaps_live s' ⊆ heaps_live s.
Proof.
  intros Hw. unfold sw_free_private. destruct (find_heap hid s) as [i|] eqn:Ef.
  2: { exists s. split; [done|]. split; [done|]. set_solver. }
  destruct (find_heap_Some _ _ _ Hw Ef) as (h & Hh & ->).
  destruct (buddy_free_spec p h (hw_inv _ Hw _ _ Hh)) as (h' & E & Hinv' & E1 & E2 & Hf).
  rewrite E. simpl. eexists. split; [done|]. split; [by apply (heaps_wf_put i h)|].
  assert (Hl : forall x, (x ∈ live_addrs h' -> x ∈ live_addrs h) /\
                         (x ∈ live_addrs h -> x <> p -> x ∈ live_addrs h')).
  { destruct Hf as [[_ ->]|(k & Hk & Em & Ean & Ecur & _)]; [auto|]. intros x.
    pose proof (an_len h k (hw_inv _ Hw _ _ Hh) Hk) as Hkl. unfold live_addrs.
    rewrite Ean, Ecur, !list_elem_of_fmap. split.
    - intros (j & -> & Hj). apply list_elem_of_filter in Hj as [Hjk Hj]. exists j.
      by rewrite an_get_insert, decide_False.
    - intros (j & -> & Hj) Hne. exists j. rewrite an_get_insert, decide_False; [|congruence|done].
      split; [done|]. apply list_elem_of_filter. split; [congruence|done]. }
  split; intros x; rewrite ?elem_of_difference, ?elem_of_singleton, (heaps_live_put i h) by done.
  - intros [Hx Hne]. apply elem_of_heaps_live in Hx as (j & hj & Hj & Hx).
    destruct (decide (j = i)) as [->|]; [simplify_eq; left; by apply Hl|right; eauto].
  - intros [Hx|(j & hj & _ & Hj & Hx)]; apply elem_of_heaps_live; [|by eauto].
    exists i, h. split; [done|]. by apply Hl.
Qed.

Lemma heaps_wf_index s n f : heaps_wf s -> heaps_wf (Heaps (buddy_heap s) (<[n := f]> (h_index s))).
Proof. intros [Hl Hi Ha]. split; simpl; [by rewrite length_insert|done|done]. Qed.

Lemma open_heap_ok hid s :
  heaps_wf s -> heaps_wf (snd (alloc_private_heap hid s)) /\
    heaps_live (snd (alloc_private_heap hid s)) = heaps_live s.
Proof. intros Hw. unfold alloc_private_heap. repeat case_match; simpl; auto using heaps_wf_index. Qed.

Lemma close_heap_ok hid s :
  heaps_wf s -> heaps_wf (snd (free_private_heap hid s)) /\
    heaps_live (snd (free_private_heap hid s)) = heaps_live s.
Proof. intros Hw. unfold free_private_heap. repeat case_match; simpl; auto using heaps_wf_index. Qed.

#[export] Instance buddy_PrivateHeapLaws : PrivateHeapLaws heaps.
Proof.
  refine {| heap_wf := heaps_wf; heap_live := heaps_live; heap_max := MAX_BLOCK_SIZE |}.
  - apply buddy_malloc_ok.
  - apply buddy_free_ok.
  - apply open_heap_ok.
  - apply close_heap_ok.
Defined.

(** ** Initialisation *)

(** The nodes of [j] blocks from [s0] on, and the rest of the array. *)
Definition block_maps (s0 : Z) (j : nat) : list Z := (fun i => s0 + MAX_BLOCK_SIZE * Z.of_nat i) <$> seq 0 j.
Definition init_fn (s0 : Z) (j m : nat) : list Z := block_maps s0 j ++ replicate m 0.
Definition init_bins (j : nat) : list sw_free_bin :=
  bin_set (BINS_MAX_ORDER - 1) (seq 0 j) (Z.of_nat j) empty_bins.

Lemma list_find_app_replicate (l : list Z) m :
  (forall x, x ∈ l -> x <> 0) -> (0 < m)%nat ->
  list_find (fun x => x = 0) (l ++ replicate m 0) = Some (length l, 0).
Proof.
  induction l as [|x l IH]; intros Hl Hm; simpl.
  - destruct m; [lia|done].
  - rewrite decide_False by (apply Hl; set_solver). rewrite IH; [done|set_solver|done].
Qed.

Lemma insert_block_maps s0 j m :
  <[j := s0 + MAX_BLOCK_SIZE * Z.of_nat j]> (init_fn s0 j (S m)) = init_fn s0 (S j) m.
Proof.
  unfold init_fn, block_maps. rewrite insert_app_r_alt by (by rewrite length_fmap, length_seq).
  rewrite length_fmap, length_seq, Nat.sub_diag, seq_S, fmap_app, <-app_assoc. done.
Qed.

Lemma init_blocks_spec r fuel s0 j m h :
  (r <= fuel)%nat -> (r <= m)%nat -> 0 < s0 -> s0 + MAX_BLOCK_SIZE * Z.of_nat (j + r) <= 2 ^ 32 ->
  hk_fn h = init_fn s0 j m -> free_area h = init_bins j ->
  init_blocks fuel (u32 (s0 + MAX_BLOCK_SIZE * Z.of_nat j)) (MAX_BLOCK_SIZE * Z.of_nat r) h =
    Ret (0, set_bins (init_bins (j + r)) (set_fn (init_fn s0 (j + r) (m - r)) h)).
Proof.
  change MAX_BLOCK_SIZE with 4096.
  revert fuel j m h. induction r as [|r IH]; intros fuel j m h Hf Hm Hs Htop Efn Ebins.
  { rewrite Nat.add_0_r, Nat.sub_0_r, <-Efn, <-Ebins. destruct fuel, h; done. }
  destruct fuel as [|fuel]; [lia|]. destruct m as [|m]; [lia|]. cbn [init_blocks].
  change MAX_BLOCK_SIZE with 4096.
  destruct (Z.eqb_spec (4096 * Z.of_nat (S r)) 0); [lia|].
  rewrite (u32_id (s0 + _)) by (unfold in_u32; lia).
  assert (Hfree : get_free_hk_node h = Some j).
  { unfold get_free_hk_node. rewrite Efn. unfold init_fn.
    rewrite list_find_app_replicate; [simpl; f_equal; unfold block_maps; by rewrite length_fmap, length_seq| |lia].
    intros x Hx. apply list_elem_of_fmap in Hx as (i & -> & _). change MAX_BLOCK_SIZE with 4096. lia. }
  rewrite Hfree, Efn. change 4096 with MAX_BLOCK_SIZE. rewrite insert_block_maps.
  change MAX_BLOCK_SIZE with 4096.
  replace (u32 (4096 * Z.of_nat (S r) - 4096)) with (4096 * Z.of_nat r)
    by (rewrite u32_id; [lia|unfold in_u32; lia]).
  replace (s0 + 4096 * Z.of_nat j + 4096) with (s0 + 4096 * Z.of_nat (S j)) by lia.
  rewrite (IH fuel (S j) m); [|lia|lia|done|lia|done|].
  - replace (S j + r)%nat with (j + S r)%nat by lia. done.
  - cbn [free_area set_bins set_fn]. rewrite Ebins. unfold bin_add_tail, init_bins, bin_set.
    unfold bin_get. rewrite list_lookup_insert_eq by (apply Nat.ltb_lt; reflexivity). simpl fa_head. simpl fa_count.
    rewrite list_insert_insert_eq, seq_S. f_equal. f_equal; lia.
Qed.

Lemma fn_map_init s0 j m n :
  (n < j)%nat -> fn_map (init_fn s0 j m) n = s0 + MAX_BLOCK_SIZE * Z.of_nat n.
Proof.
  intros Hn. unfold fn_map, init_fn.
  rewrite lookup_app_l by (unfold block_maps; rewrite length_fmap, length_seq; lia).
  unfold block_maps. by rewrite list_lookup_fmap, lookup_seq_lt by lia.
Qed.

Lemma nodes_bytes_init s0 j m :
  nodes_bytes (init_fn s0 j m) (BINS_MAX_ORDER - 1) (seq 0 j) = seqZ s0 (MAX_BLOCK_SIZE * Z.of_nat j).
Proof.
  assert (H : forall n, (n <= j)%nat -> nodes_bytes (init_fn s0 j m) (BINS_MAX_ORDER - 1) (seq 0 n) =
    seqZ s0 (MAX_BLOCK_SIZE * Z.of_nat n)); [|by apply H].
  induction n as [|n IH]; intros Hn; [done|].
  rewrite seq_S, nodes_bytes_app, IH by lia.
  replace (MAX_BLOCK_SIZE * Z.of_nat (S n)) with (MAX_BLOCK_SIZE * Z.of_nat n + MAX_BLOCK_SIZE) by lia.
  rewrite seqZ_app by (unfold MAX_BLOCK_SIZE; rewrite ?Z.shiftl_mul_pow2 by lia; lia). f_equal.
  change (nodes_bytes (init_fn s0 j m) (BINS_MAX_ORDER - 1) [(0 + n)%nat]) with
    (seqZ (fn_map (init_fn s0 j m) n) MAX_BLOCK_SIZE ++ []).
  by rewrite app_nil_r, fn_map_init by lia.
Qed.

Definition HK_SIZE : Z := 16384.

(** The heap [buddy_init] builds at [start]. *)
Definition fresh_heap (start cnt : Z) : sw_heap :=
  {| hk_fn := init_fn (start + HK_SIZE) 12 500; hk_an := replicate 341 (Alloced 0 0 0);
     current := []; current_count := cnt; mem_start := start + HK_SIZE;
     mem_size := HEAP_SIZE - HK_SIZE; heap_start := start; heap_size := HEAP_SIZE;
     free_area := init_bins 12 |}.

Lemma buddy_init_eq start h0 :
  0 < start -> start + HEAP_SIZE <= 2 ^ 32 ->
  buddy_init start HEAP_SIZE h0 = Ret (0, fresh_heap start (current_count h0)).
Proof.
  change HEAP_SIZE with 65536 at 1. intros Hs Ht. unfold buddy_init.
  change (IS_POW_TWO HEAP_SIZE) with true. cbn [negb].
  change (u32 (HEAP_SIZE * HOUSE_KEEPING_PERCENT) / 100) with HK_SIZE. cbv zeta. cbv iota.
  change (Z.to_nat (HK_SIZE / 2 / sizeof_sw_free_area)) with 512%nat.
  change (Z.to_nat (HK_SIZE / 2 / sizeof_sw_alloced_area)) with 341%nat.
  cbn [mem_start mem_size]. change (u32 (HEAP_SIZE - HK_SIZE)) with (MAX_BLOCK_SIZE * Z.of_nat 12).
  pose proof (init_blocks_spec 12 513 (start + HK_SIZE) 0 512
    {| hk_fn := replicate 512 0; hk_an := replicate 341 (Alloced 0 0 0); current := [];
       current_count := current_count h0; mem_start := u32 (start + HK_SIZE);
       mem_size := MAX_BLOCK_SIZE * Z.of_nat 12; heap_start := start; heap_size := HEAP_SIZE;
       free_area := empty_bins |}) as P.
  unfold HK_SIZE in *. rewrite Z.mul_0_r, Z.add_0_r in P.
  change MAX_BLOCK_SIZE with 4096 in *. rewrite P; try done; try lia.
  unfold fresh_heap. do 2 f_equal. unfold set_bins, set_fn. cbn.
  rewrite u32_id by (unfold in_u32; lia). done.
Qed.

Lemma fresh_heap_inv start cnt :
  0 < start -> start + HEAP_SIZE <= 2 ^ 32 -> heap_inv (fresh_heap start cnt).
Proof.
  change HEAP_SIZE with 65536 at 1. intros Hs Ht.
  assert (Hfree : free_bytes (fresh_heap start cnt) ++ live_bytes (fresh_heap start cnt) =
    seqZ (start + HK_SIZE) (MAX_BLOCK_SIZE * Z.of_nat 12)).
  { rewrite <-(nodes_bytes_init (start + HK_SIZE) 12 500).
    change (live_bytes (fresh_heap start cnt)) with (@nil Z). rewrite app_nil_r.
    change (free_bytes (fresh_heap start cnt)) with
      (nodes_bytes (init_fn (start + HK_SIZE) 12 500) (BINS_MAX_ORDER - 1) (seq 0 12) ++ []).
    apply app_nil_r. }
  change MAX_BLOCK_SIZE with 4096 in Hfree. unfold HK_SIZE in *.
  split.
  - reflexivity.
  - repeat constructor.
  - change (bins_nodes (free_area (fresh_heap start cnt))) with (seq 0 12 ++ []).
    rewrite app_nil_r. apply NoDup_seq.
  - change (bins_nodes (free_area (fresh_heap start cnt))) with (seq 0 12 ++ []).
    change (hk_fn (fresh_heap start cnt)) with (init_fn (start + 16384) 12 500).
    intros n. rewrite app_nil_r, elem_of_seq. intros Hn. rewrite fn_map_init by lia.
    assert (0 < MAX_BLOCK_SIZE) by reflexivity. nia.
  - apply NoDup_nil_2.
  - intros k Hk. exfalso. exact (not_elem_of_nil k Hk).
  - rewrite Hfree. apply NoDup_seqZ.
  - cbn [mem_start mem_size fresh_heap]. change (HEAP_SIZE - HK_SIZE) with 49152. unfold HK_SIZE. lia.
  - intros x. rewrite Hfree, elem_of_seqZ. cbn [mem_start mem_size fresh_heap].
    change (HEAP_SIZE - HK_SIZE) with 49152. unfold HK_SIZE. lia.
  - discriminate.
Qed.

(** ** The heaps [sw_malloc_int] sets up *)

(** The first [n] heaps are fresh heaps on the virtual blocks at [start i]. *)
Record int_inv (vbase : Z) (n : nat) (st : secure_world_mem_info) (s : heaps) : Prop := {
  ii_ok : mem_ok st;
  ii_vbase : vir_addr_start st = vbase;
  ii_ptop : phy_addr_start st + 2 ^ 15 * phy_mem_bmap_len st + 2 ^ 21 < 2 ^ 32;
  ii_vtop : vir_addr_start st + 2 ^ 15 * vir_mem_bmap_len st + 2 ^ 21 < 2 ^ 32;
  ii_len : length (buddy_heap s) = NUM_OF_HEAPS /\ length (h_index s) = NUM_OF_HEAPS;
  ii_heap : forall i, (i < n)%nat -> exists cnt pg, h_index s !! i = Some (-1, 0) /\
    buddy_heap s !! i = Some (fresh_heap (vbase + PAGE_SIZE * pg) cnt) /\ 0 <= pg /\
    pg + 16 <= 8 * vir_mem_bmap_len st /\
    forall j, pg <= j < pg + 16 -> used (vir_mem_bmap st) j (bmap st) = true;
  ii_apart : forall i j p q ci cj, (i < n)%nat -> (j < n)%nat -> i <> j ->
    buddy_heap s !! i = Some (fresh_heap (vbase + PAGE_SIZE * p) ci) ->
    buddy_heap s !! j = Some (fresh_heap (vbase + PAGE_SIZE * q) cj) -> p + 16 <= q \/ q + 16 <= p;
}.

Lemma fresh_heap_inj a b ca cb : fresh_heap a ca = fresh_heap b cb -> a = b.
Proof. intros E. by injection E. Qed.

Lemma int_inv_step multicore vbase n st pgd s :
  int_inv vbase n st s -> (n < NUM_OF_HEAPS)%nat ->
  malloc_int_loop multicore 1 n (st, pgd) s = Panic \/
  exists st' pgd' s', int_inv vbase (S n) st' s' /\
    forall k, malloc_int_loop multicore (S k) n (st, pgd) s =
      malloc_int_loop multicore k (S n) (st', pgd') s'.
Proof.
  intros [Hok Hvb Hpt Hvt [Hl1 Hl2] Hh Ha] Hn.
  destruct (vir_page_alloc_outcome multicore HEAP_SIZE st pgd Hok) as (v & st' & pgd' & E & Hv);
    [by compute|done|done|].
  cbn [malloc_int_loop fst snd]. rewrite E. cbn [mbind res_bind].
  destruct Hv as [(-> & _)|(s1 & s2 & -> & Hp & _)]; [by left|].
  destruct Hp as (Hok' & Evs & Eps & Evb & Evl & Epl & _ & Hs2 & _ & Hf2 & _ & _ & _ & U).
  change ((HEAP_SIZE + 4095) / 4096) with 16 in *. pose proof Hok as [].
  destruct (Z.ltb_spec 0 (vir_addr_start st + PAGE_SIZE * s2)); [|unfold PAGE_SIZE in *; lia].
  cbn [negb]. unfold sw_heap_init.
  rewrite buddy_init_eq by (change HEAP_SIZE with 65536; unfold PAGE_SIZE; lia).
  cbn [mbind res_bind mret res_ret]. change (0 <? 0) with false. cbv iota.
  set (cnt := current_count _). right. eexists st', pgd', _. split; [|reflexivity].
  rewrite Hvb in *.
  assert (Hnew : forall i, (i < S n)%nat -> i <> n -> (i < n)%nat) by lia.
  split; simpl; try done; rewrite ?Evs, ?Eps, ?Evl, ?Epl, ?Evb; try done.
  - by rewrite !length_insert.
  - intros i Hi. destruct (decide (i = n)) as [->|Hne].
    + exists cnt, s2. rewrite !list_lookup_insert_eq by lia. split_and!; try done; try lia.
      intros j Hj. rewrite U, decide_True by lia. done.
    + destruct (Hh i ltac:(auto)) as (c & pg & H1 & H2 & H3 & H4 & H5). exists c, pg.
      rewrite !list_lookup_insert_ne by done. split_and!; try done.
      intros j Hj. rewrite U by lia. case_decide; [done|by apply H5].
  - assert (Hold : forall i p c, (i < n)%nat ->
      buddy_heap s !! i = Some (fresh_heap (vbase + PAGE_SIZE * p) c) -> p + 16 <= s2 \/ s2 + 16 <= p).
    { intros i p c Hi Hlk. destruct (Hh i Hi) as (c' & pg & _ & Hlk' & Hpg & _ & Hu).
      rewrite Hlk in Hlk'. injection Hlk' as Ep _. unfold PAGE_SIZE in Ep. assert (p = pg) as -> by lia.
      destruct (decide (pg + 16 <= s2)); [by left|]. destruct (decide (s2 + 16 <= pg)); [by right|].
      assert (Hc : exists j, pg <= j < pg + 16 /\ s2 <= j < s2 + 16) by (exists (Z.max pg s2); lia).
      destruct Hc as (j & Hj1 & Hj2). specialize (Hu j Hj1). rewrite Hf2 in Hu by lia. done. }
    intros i j p q ci cj Hi Hj Hne Hlp Hlq.
    destruct (decide (i = n)) as [->|Hin]; destruct (decide (j = n)) as [->|Hjn]; try done.
    + rewrite list_lookup_insert_eq in Hlp by lia. rewrite list_lookup_insert_ne in Hlq by done.
      injection Hlp as Ep _. unfold PAGE_SIZE in Ep. assert (s2 = p) as <- by lia.
      destruct (Hold j q cj); [auto|done|lia|lia].
    + rewrite list_lookup_insert_eq in Hlq by lia. rewrite list_lookup_insert_ne in Hlp by done.
      injection Hlq as Ep _. unfold PAGE_SIZE in Ep. assert (s2 = q) as <- by lia.
      destruct (Hold i p ci); [auto|done|lia|lia].
    + rewrite list_lookup_insert_ne in Hlp, Hlq by done. eapply (Ha i j); eauto.
Qed.

Lemma int_inv_wf vbase st s :
  int_inv vbase NUM_OF_HEAPS st s -> heaps_wf s /\ heaps_live s = ∅ /\
    Forall (fun e => e = (-1, 0)) (h_index s).
Proof.
  intros [Hok Hvb Hpt Hvt [Hl1 Hl2] Hh Ha]. pose proof Hok as [].
  assert (Hheap : forall i h, buddy_heap s !! i = Some h -> (i < NUM_OF_HEAPS)%nat /\
    exists cnt pg, h = fresh_heap (vbase + PAGE_SIZE * pg) cnt /\ 0 <= pg /\ pg + 16 <= 8 * vir_mem_bmap_len st).
  { intros i h Hi. pose proof (lookup_lt_Some _ _ _ Hi) as Hlt. rewrite Hl1 in Hlt. split; [done|].
    destruct (Hh i Hlt) as (cnt & pg & _ & Hi' & H1 & H2 & _). rewrite Hi in Hi'. injection Hi' as ->. eauto. }
  split; [split; [by rewrite Hl1| |]|split].
  - intros i h Hi. destruct (Hheap i h Hi) as (_ & cnt & pg & -> & H1 & H2).
    apply fresh_heap_inv; unfold PAGE_SIZE; change HEAP_SIZE with 65536; lia.
  - intros i j h h' Hi Hj Hne. destruct (Hheap i h Hi) as (Hin & c & p & -> & _).
    destruct (Hheap j h' Hj) as (Hjn & c' & q & -> & _). unfold mem_end. cbn [mem_start mem_size fresh_heap].
    change (HEAP_SIZE - HK_SIZE) with 49152. unfold HK_SIZE, PAGE_SIZE.
    destruct (Ha i j p q c c'); [done..|lia|lia].
  - apply set_eq. intros x. rewrite elem_of_heaps_live. split; [|set_solver].
    intros (i & h & Hi & Hx). destruct (Hheap i h Hi) as (_ & cnt & pg & -> & _).
    exfalso. exact (not_elem_of_nil x Hx).
  - apply Forall_lookup. intros i e Hi. pose proof (lookup_lt_Some _ _ _ Hi) as Hlt. rewrite Hl2 in Hlt.
    destruct (Hh i Hlt) as (_ & _ & Hi' & _). congruence.
Qed.

Lemma malloc_int_loop_inv multicore k n st pgd s vbase :
  (n + k = NUM_OF_HEAPS)%nat -> int_inv vbase n st s ->
  malloc_int_loop multicore k n (st, pgd) s = Panic \/
  exists st' pgd' s', malloc_int_loop multicore k n (st, pgd) s = Ret ((st', pgd'), s') /\
    int_inv vbase NUM_OF_HEAPS st' s'.
Proof.
  revert n st pgd s. induction k as [|k IH]; intros n st pgd s Hn Hinv.
  - right. exists st, pgd, s. rewrite <-Hn, Nat.add_0_r. done.
  - destruct (int_inv_step multicore vbase n st pgd s Hinv) as [HP|(st' & pgd' & s' & Hinv' & E)]; [lia| |].
    + left. cbn [malloc_int_loop fst snd] in *.
      destruct (sw_vir_page_alloc _ _ _ _) as [[a st1]| |]; try done. cbn [mbind res_bind] in *.
      destruct (negb _); [done|]. destruct (sw_heap_init _ _ _ _) as [[r s1]| |]; try done.
      cbn [mbind res_bind] in *. by destruct (r <? 0).
    + rewrite E. apply IH; [lia|done].
Qed.

(** [sw_malloc_int] on a well-formed page allocator either panics (the
    pages are exhausted) or leaves eight well-formed, unowned, empty heaps on
    pairwise disjoint memory: the state the contract of the private heaps
    starts from. *)
Theorem sw_malloc_int_spec multicore st pgd s :
  mem_ok st -> phy_addr_start st + 2 ^ 15 * phy_mem_bmap_len st + 2 ^ 21 < 2 ^ 32 ->
  vir_addr_start st + 2 ^ 15 * vir_mem_bmap_len st + 2 ^ 21 < 2 ^ 32 ->
  length (buddy_heap s) = NUM_OF_HEAPS -> length (h_index s) = NUM_OF_HEAPS ->
  sw_malloc_int multicore (st, pgd) s = Panic \/
  exists st' pgd' s', sw_malloc_int multicore (st, pgd) s = Ret ((st', pgd'), s') /\
    mem_ok st' /\ heaps_wf s' /\ heaps_live s' = ∅ /\ Forall (fun e => e = (-1, 0)) (h_index s').
Proof.
  intros Hok Hp Hv Hl1 Hl2. unfold sw_malloc_int.
  assert (Hinv : int_inv (vir_addr_start st) 0 st s) by (split; try done; intros; lia).
  destruct (malloc_int_loop_inv multicore NUM_OF_HEAPS 0 st pgd s _ eq_refl Hinv) as [HP|(st' & pgd' & s' & E & Hi)]; [by left|].
  right. exists st', pgd', s'. split; [done|]. split; [apply Hi|]. by apply (int_inv_wf (vir_addr_start st) st').
Qed.

(** ** The heaps at work *)

Inductive heap_op : Type :=
  | HMalloc (heap_id size : Z)
  | HFree (heap_id ptr : Z)
  | HOpen (heap_id : Z)
  | HClose (heap_id : Z).

Definition heap_step (op : heap_op) (s : heaps) : res heaps :=
  match op with
  | HMalloc heap_id size => r ← sw_malloc_private heap_id size s; mret (snd r)
  | HFree heap_id ptr => sw_free_private heap_id ptr s
  | HOpen heap_id => mret (snd (alloc_private_heap heap_id s))
  | HClose heap_id => mret (snd (free_private_heap heap_id s))
  end.

Fixpoint heap_run (ops : list heap_op) (s : heaps) : res heaps :=
  match ops with
  | [] => mret s
  | op :: ops' => s' ← heap_step op s; heap_run ops' s'
  end.

(** Requests of at most one block of the last bin. *)
Definition small_op (op : heap_op) : bool :=
  match op with HMalloc _ size => (0 <=? size) && (size <=? MAX_BLOCK_SIZE) | _ => true end.

Lemma heap_step_wf op s :
  heaps_wf s -> small_op op = true -> exists s', heap_step op s = Ret s' /\ heaps_wf s'.
Proof.
  intros Hw Hop. destruct op as [hid size|hid p|hid|hid]; simpl in *.
  - apply andb_prop in Hop as [H1%Z.leb_le H2%Z.leb_le].
    destruct (buddy_malloc_ok hid size s Hw (conj H1 H2)) as (p & s' & -> & Hw' & _). by exists s'.
  - destruct (buddy_free_ok hid p s Hw) as (s' & -> & Hw' & _). by exists s'.
  - eexists. split; [done|]. by apply open_heap_ok.
  - eexists. split; [done|]. by apply close_heap_ok.
Qed.

(** C26: the heaps hand out disjoint memory.  From well-formed heaps, any
    sequence of allocations of at most [MAX_BLOCK_SIZE] bytes, releases (of any
    address), openings and closings of private heaps terminates without fault;
    then, in every heap, the free and the live blocks do not share a byte, they
    lie in the heap's memory, each live block is as large as its recorded size,
    and the memories of two heaps do not meet. *)
Theorem heap_run_safe ops s :
  heaps_wf s -> forallb small_op ops = true ->
  exists s', heap_run ops s = Ret s' /\
    (forall i h, buddy_heap s' !! i = Some h ->
       NoDup (free_bytes h ++ live_bytes h) /\
       (forall x, x ∈ free_bytes h ++ live_bytes h -> mem_start h <= x < mem_end h) /\
       (forall k, k ∈ current h ->
          seqZ (aa_map (an_get (hk_an h) k)) (blk_sz (an_get (hk_an h) k)) ⊆ live_area (hk_an h) k)) /\
    (forall i j h h', buddy_heap s' !! i = Some h -> buddy_heap s' !! j = Some h' -> i <> j ->
       mem_end h <= mem_start h' \/ mem_end h' <= mem_start h).
Proof.
  intros Hw Hops.
  assert (exists s', heap_run ops s = Ret s' /\ heaps_wf s') as (s' & E & [Hl Hi Ha]).
  { revert s Hw Hops. induction ops as [|op ops IH]; intros s Hw Hops; simpl in *; [by exists s|].
    apply andb_prop in Hops as [H1 H2]. destruct (heap_step_wf op s Hw H1) as (s1 & -> & Hw1). by apply IH. }
  exists s'. split; [done|]. split; [|done]. intros i h Hh. destruct (Hi i h Hh).
  split; [done|]. split; [done|]. intros k Hk x Hx. unfold live_area, area.
  destruct (hi_live0 k Hk) as (_ & _ & Hsz). rewrite elem_of_seqZ in *. lia.
Qed.

Lemma filter_snoc_id (l : list nat) k : k ∉ l -> filter (fun x => x <> k) (l ++ [k]) = l.
Proof.
  intros Hk. rewrite filter_app, filter_cons_False, filter_nil, app_nil_r by (by intros []).
  apply filter_id. intros x Hx ->. done.
Qed.

(** Allocate and release.  In a well-formed heap, a block that was handed
    out is one whole block of the order the size asks for or a larger one, no
    live block had a byte of it, and releasing it, provided a housekeeping node
    is left, gives back exactly its bytes to the free side, however the buddies
    coalesce, and leaves the live blocks as they were before. *)
Theorem malloc_free_block size h p h1 :
  heap_inv h -> 0 <= size <= MAX_BLOCK_SIZE -> sw_buddy_malloc size h = Ret (p, h1) -> p <> 0 ->
  get_free_hk_node h1 <> None ->
  exists order h2, size <= blk order /\
    (forall x, x ∈ area p order -> x ∉ live_bytes h /\ mem_start h <= x < mem_end h) /\
    buddy_free p h1 = Ret h2 /\ heap_inv h2 /\ live_addrs h2 = live_addrs h /\
    free_bytes h2 ≡ₚ area p order ++ free_bytes h1.
Proof.
  intros Hinv Hs E Hp Hhk. destruct (sw_buddy_malloc_spec size h Hinv Hs) as (r & E' & Hpost).
  rewrite E in E'. injection E' as <-.
  destruct Hpost as (Hinv1 & Em1 & Em2 & [(E0 & _)|(k & e & Hk & Er & _ & H1 & H2 & Ean & Ecur & Hkl & H3 & H4 & Hd)]);
    [done|]. cbn [fst snd] in *. subst p.
  assert (Hek : an_get (hk_an h1) k = e) by (rewrite Ean, an_get_insert, decide_True; done).
  assert (Hold : forall j, j ∈ current h -> an_get (hk_an h1) j = an_get (hk_an h) j).
  { intros j Hj. rewrite Ean, an_get_insert, decide_False; [done| |done]. by intros ->. }
  destruct (buddy_free_spec (aa_map e) h1 Hinv1) as (h2 & E2 & Hinv2 & _ & _ & Hf).
  exists (bin_num e), h2. split; [lia|]. split.
  { intros x Hx. split; [intros Hl; by apply (Hd x Hl)|]. apply elem_of_seqZ in Hx. unfold mem_end. lia. }
  split; [done|]. split; [done|].
  destruct Hf as [[Hn _]|(k' & Hk' & Em & Ean2 & Ecur2 & Hback)].
  { exfalso. apply Hn. unfold live_addrs. apply list_elem_of_fmap. exists k. rewrite Hek, Ecur. set_solver. }
  assert (k' = k) as ->.
  { rewrite Ecur in Hk'. apply elem_of_app in Hk' as [Hk'|Hk']; [|by apply list_elem_of_singleton in Hk'].
    exfalso. apply (Hd (aa_map e)); [|apply area_start]. rewrite <-Em, Hold by done.
    apply live_addr_in; [done|]. apply list_elem_of_fmap. by exists k'. }
  split.
  - unfold live_addrs at 1. rewrite Ecur2, Ecur, filter_snoc_id by done.
    apply (live_addrs_old h _ k Hkl Hk (Alloced 0 0 0)). by rewrite Ean2, Ean, list_insert_insert_eq.
  - rewrite Hback by done. unfold live_area. by rewrite Hek.
Qed.

(** ** Large requests *)

Definition test_heap : sw_heap := fresh_heap 0x100000 0.

(** The blocks of the last bin that are free, in the order of the list. *)
Definition free_maps (h : sw_heap) : list Z :=
  fn_map (hk_fn h) <$> fa_head (bin_get (free_area h) (BINS_MAX_ORDER - 1)).

(** A request of [n] blocks on a fresh heap: the address and the free blocks. *)
Definition large_request (n : Z) : res (Z * list Z) :=
  '(p, h) ← sw_buddy_malloc (n * MAX_BLOCK_SIZE) test_heap; mret (p, free_maps h).

(** Requests of several blocks on a fresh heap of twelve.  Two to eleven
    blocks are served from the front and leave the others free.  A request for
    all twelve also succeeds, but the last block stays in the bin: it is inside
    the block handed out, and the next allocation returns it. *)
Theorem contiguous_requests :
  forallb (fun n => match large_request n with
                    | Ret (p, l) => (p =? 0x104000) &&
                        bool_decide (l = (fun i => 0x104000 + MAX_BLOCK_SIZE * i) <$> seqZ n (12 - n))
                    | _ => false
                    end) (seqZ 2 10) = true /\
  large_request 12 = Ret (0x104000, [0x104000 + 11 * MAX_BLOCK_SIZE]) /\
  ('(p, h1) ← sw_buddy_malloc (12 * MAX_BLOCK_SIZE) test_heap;
   '(q, _) ← sw_buddy_malloc MAX_BLOCK_SIZE h1; mret (p, q)) =
    Ret (0x104000, 0x104000 + 11 * MAX_BLOCK_SIZE).
Proof. split_and!; vm_compute; reflexivity. Qed.

(** A byte of a free block, block by block instead of byte by byte. *)
Fixpoint in_bins (fn : list Z) (i : nat) (bins : list sw_free_bin) (x : Z) : bool :=
  match bins with
  | [] => false
  | b :: bins' =>
      existsb (fun n => (fn_map fn n <=? x) && (x <? fn_map fn n + blk i)) (fa_head b) || in_bins fn (S i) bins' x
  end.

Lemma in_bins_spec fn i bins x : x ∈ bins_bytes fn i bins -> in_bins fn i bins x = true.
Proof.
  revert i. induction bins as [|b bins IH]; intros i; cbn [bins_bytes in_bins]; [by intros ?%elem_of_nil|].
  rewrite elem_of_app, orb_true_iff. intros [Hx|Hx]; [left|right; by apply IH].
  unfold nodes_bytes in Hx. apply list_elem_of_bind in Hx as (n & Hx & Hn). apply elem_of_seqZ in Hx.
  apply existsb_exists. exists n. split; [by apply list_elem_of_In|]. apply andb_true_iff. lia.
Qed.

(** Releasing a block of several units returns only its first unit to the
    bins: after one allocation and release of two units, eleven of the twelve
    are left. *)
Theorem contiguous_free_leak :
  ('(p, h1) ← sw_buddy_malloc (2 * MAX_BLOCK_SIZE) test_heap;
   h2 ← buddy_free p h1;
   mret (p, current h2, length (free_maps h2), bool_decide (0x105000 ∈ free_bytes h2))) =
    Ret (0x104000, [], 11%nat, false).
Proof.
  assert (E : match '(p, h1) ← sw_buddy_malloc (2 * MAX_BLOCK_SIZE) test_heap; h2 ← buddy_free p h1; mret (p, h2) with
              | Ret (p, h2) => p = 0x104000 /\ current h2 = [] /\ length (free_maps h2) = 11%nat /\
                               in_bins (hk_fn h2) 0 (free_area h2) 0x105000 = false
              | _ => False
              end) by (vm_compute; repeat split).
  destruct (sw_buddy_malloc (2 * MAX_BLOCK_SIZE) test_heap) as [[p h1]| |]; [|done..]. cbn [mbind res_bind] in E |- *.
  destruct (buddy_free p h1) as [h2| |]; [|done..]. cbn [mbind res_bind mret res_ret] in E |- *.
  destruct E as (-> & -> & -> & Hin). rewrite bool_decide_false; [done|].
  intros Hx%in_bins_spec. congruence.
Qed.

(** ** The properties at concrete inputs *)

Lemma test_heap_inv : heap_inv test_heap.
Proof. apply fresh_heap_inv; by compute. Qed.

Lemma malloc_free_block_witness :
  exists order h2, 100 <= blk order /\
    buddy_free (fst (malloc_loop 12 0 4 100 test_heap)) (snd (malloc_loop 12 0 4 100 test_heap)) = Ret h2 /\
    heap_inv h2.
Proof.
  destruct (malloc_free_block 100 test_heap (fst (malloc_loop 12 0 4 100 test_heap))
    (snd (malloc_loop 12 0 4 100 test_heap)) test_heap_inv) as (order & h2 & H1 & _ & H2 & H3 & _).
  - by compute.
  - vm_compute. reflexivity.
  - vm_compute. discriminate.
  - vm_compute. discriminate.
  - exists order, h2. auto.
Defined.

Definition test_heaps : heaps := Heaps [test_heap; fresh_heap 0x200000 0] [(0, 0); (-1, 0)].

Lemma test_heaps_wf : heaps_wf test_heaps.
Proof.
  split; [done| |].
  - intros [|[|i]] h Hh; simplify_eq/=; [apply test_heap_inv|apply fresh_heap_inv; by compute].
  - intros [|[|i]] [|[|j]] h h' Hh Hj Hne; simplify_eq/=; vm_compute; [left|right]; discriminate.
Qed.

Lemma heap_run_safe_witness :
  exists s', heap_run [HMalloc 0 100; HOpen 7; HMalloc 7 4096; HFree 0 0x105000; HClose 7] test_heaps = Ret s' /\
    forall i h, buddy_heap s' !! i = Some h -> NoDup (free_bytes h ++ live_bytes h).
Proof.
  destruct (heap_run_safe [HMalloc 0 100; HOpen 7; HMalloc 7 4096; HFree 0 0x105000; HClose 7] test_heaps
    test_heaps_wf) as (s' & E & H1 & _); [reflexivity|].
  exists s'. split; [exact E|]. intros i h Hh. exact (proj1 (H1 i h Hh)).
Defined.

Definition no_heaps : heaps := Heaps (replicate 8 no_heap) (replicate 8 (0, 0)).

(** A machine with room for the heaps. *)
Definition big_mem : secure_world_mem_info :=
  match sw_meminfo_init 0x10000 0xD7FFF 0x8000 0x9000 small_raw with
  | Ret st => st
  | _ => small_mem
  end.

Lemma big_mem_ok : mem_ok big_mem.
Proof. split; by_compute. Qed.

Definition is_panic {A} (r : res A) : bool := match r with Panic => true | _ => false end.

Lemma sw_malloc_int_spec_witness :
  exists st' pgd' s', sw_malloc_int false (big_mem, ∅) no_heaps = Ret ((st', pgd'), s') /\ heaps_wf s'.
Proof.
  destruct (sw_malloc_int_spec false big_mem ∅ no_heaps big_mem_ok)
    as [H|(st' & pgd' & s' & E & _ & Hw & _)]; try by_compute.
  - exfalso. assert (Hp : is_panic (sw_malloc_int false (big_mem, ∅) no_heaps) = false)
      by (vm_compute; reflexivity).
    rewrite H in Hp. discriminate.
  - exists st', pgd', s'. split; [exact E|exact Hw].
Defined.
