(* ===== verification/Acl.v ===== *)
(** [lib/sw_user_mgmt.c]: which user of which group may create a task for, or
    connect to, a service ("device"). *)
From stdpp Require Import prelude gmap strings.
From S2P Require Import Prelude HeapIface.
#[local] Open Scope Z_scope.

(** The lists of [core/include/global.h], nested as their heads are. *)
Record acl_group : Type := AclGroup { gid : Z; user_head : list Z }.
Record acl_device : Type := AclDevice { did : Z; group_head : list acl_group }.

(** [acl_t] of a task. *)
Record acl_t : Type := Acl { username : string; acl_uid : Z; acl_gid : Z }.

Definition OTZ_SVC_GLOBAL : Z := 0x1.
Definition OTZ_SVC_ECHO : Z := 0x2.
Definition OTZ_SVC_DRM : Z := 0x3.
Definition OTZ_SVC_CRYPT : Z := 0x4.
Definition OTZ_SVC_MUTEX_TEST : Z := 0x5.
Definition OTZ_SVC_VIRTUAL_KEYBOARD : Z := 0x6.

Definition sizeof_acl_user : Z := 12.
Definition sizeof_acl_group : Z := 20.
Definition sizeof_acl_device : Z := 20.

Definition is_dev (d : Z) (x : acl_device) : bool := did x =? d.
Definition is_grp (g : Z) (x : acl_group) : bool := gid x =? g.
Definition is_usr (u : Z) (x : Z) : bool := u =? x.

(** The search of [getPermission]; [cred] is the access control record of the
    executing task, and reading it without such a task faults. *)
Definition getPermission (exec_mode : Z) (cred : res acl_t) (d_id : Z) (devs : list acl_device) : res Z :=
  if exec_mode =? 1 then
    match find_fst (is_dev d_id) devs with
    | None => mret (-1)
    | Some acld =>
        match group_head acld with
        | [] => mret (-1)
        | groups =>
            c ← cred;
            match find_fst (is_grp (acl_gid c)) groups with
            | None => mret (-1)
            | Some aclg =>
                match find_fst (is_usr (acl_uid c)) (user_head aclg) with
                | None => mret (-1)
                | Some _ => mret 1
                end
            end
        end
    end
  else mret 1.

Section acl.
Context {H : Type} `{PrivateHeap H}.

(** [sw_malloc_private] of a cell, or [DIE_NOW]. *)
Definition acl_cell (size : Z) (h : H) : res H :=
  '(p, h') ← heap_malloc COMMON_HEAP_ID size h;
  if p =? 0 then Panic else mret h'.

(** The searches find the device ([found] becomes 1), its group (2) and the
    user (3); the missing cells are then created from the user upwards. *)
Definition updateGlobalACL (d_id g_id u_id : Z) (s : list acl_device * H)
    : res (list acl_device * H) :=
  let '(devs, h) := s in
  match find_fst (is_dev d_id) devs with
  | None =>
      h ← acl_cell sizeof_acl_user h;
      h ← acl_cell sizeof_acl_group h;
      h ← acl_cell sizeof_acl_device h;
      mret (devs ++ [AclDevice d_id [AclGroup g_id [u_id]]], h)
  | Some acld =>
      match find_fst (is_grp g_id) (group_head acld) with
      | None =>
          h ← acl_cell sizeof_acl_user h;
          h ← acl_cell sizeof_acl_group h;
          let add d := AclDevice (did d) (group_head d ++ [AclGroup g_id [u_id]]) in
          mret (default devs (snd <$> find_upd (is_dev d_id) add devs), h)
      | Some aclg =>
          match find_fst (is_usr u_id) (user_head aclg) with
          | Some _ => mret (devs, h)
          | None =>
              h ← acl_cell sizeof_acl_user h;
              let addu g := AclGroup (gid g) (user_head g ++ [u_id]) in
              let add d :=
                AclDevice (did d) (default (group_head d) (snd <$> find_upd (is_grp g_id) addu (group_head d))) in
              mret (default devs (snd <$> find_upd (is_dev d_id) add devs), h)
          end
      end
  end.

Fixpoint updateGlobalACLs (ops : list (Z * Z * Z)) (s : list acl_device * H) : res (list acl_device * H) :=
  match ops with
  | [] => mret s
  | (d, g, u) :: ops' => s' ← updateGlobalACL d g u s; updateGlobalACLs ops' s'
  end.

(** The access control record of a new task, and what its service may use. *)
Definition setPermission (service_id : Z) (s : list acl_device * H)
    : res (Z * acl_t * (list acl_device * H)) :=
  if service_id =? OTZ_SVC_GLOBAL then
    s ← updateGlobalACLs ((fun d => (d, 1, service_id)) <$>
          [OTZ_SVC_GLOBAL; OTZ_SVC_ECHO; OTZ_SVC_DRM; OTZ_SVC_CRYPT; OTZ_SVC_MUTEX_TEST;
           OTZ_SVC_VIRTUAL_KEYBOARD]) s;
    mret (1, Acl "OTZ_GLOBAL" service_id 1, s)
  else if service_id =? OTZ_SVC_ECHO then mret (1, Acl "OTZ_ECHO" service_id 1, s)
  else if service_id =? OTZ_SVC_DRM then
    s ← updateGlobalACL 2 1 service_id s; mret (1, Acl "OTZ_DRM" service_id 1, s)
  else if service_id =? OTZ_SVC_CRYPT then mret (1, Acl "OTZ_CRYPT" service_id 1, s)
  else if service_id =? OTZ_SVC_MUTEX_TEST then
    s ← updateGlobalACL 2 1 service_id s; mret (1, Acl "OTZ_MUTEX" service_id 1, s)
  else if service_id =? OTZ_SVC_VIRTUAL_KEYBOARD then
    s ← updateGlobalACL 2 1 service_id s; mret (1, Acl "OTZ_KEYBOARD" service_id 1, s)
  else mret (-1, Acl "UN-DEF" service_id 0, s).

(** ** The access matrix *)

(** The triple the search of [getPermission] succeeds for. *)
Definition allowed (devs : list acl_device) (d g u : Z) : bool :=
  match find_fst (is_dev d) devs with
  | None => false
  | Some acld =>
      match find_fst (is_grp g) (group_head acld) with
      | None => false
      | Some aclg => match find_fst (is_usr u) (user_head aclg) with Some _ => true | None => false end
      end
  end.

Lemma getPermission_allowed d c devs :
  getPermission 1 (Ret c) d devs =
    Ret (if allowed devs d (acl_gid c) (acl_uid c) then 1 else -1).
Proof.
  unfold getPermission, allowed. simpl. destruct (find_fst _ devs) as [a|]; [|done].
  destruct (group_head a) as [|g gs]; [done|].
  cbn [find_fst].
  destruct (if is_grp _ g then _ else _) as [x|]; [|done]. by destruct (find_fst _ _).
Qed.

Lemma find_upd_fst_default {A} (p : A -> bool) f l y :
  (forall x, p x = true -> p (f x) = true) ->
  find_fst p l = Some y ->
  find_fst p (default l (snd <$> find_upd p f l)) = Some (f y) /\
  forall q, (forall x, p x = true -> q x = false /\ q (f x) = false) ->
    find_fst q (default l (snd <$> find_upd p f l)) = find_fst q l.
Proof.
  intros Hp Hf. pose proof (find_upd_fst p f l) as F. rewrite Hf in F.
  destruct (find_upd p f l) as [[z l']|] eqn:E; simplify_eq/=. split.
  - by apply (find_fst_upd_same p f l).
  - intros q Hq. by apply (find_fst_upd_other p q f l (f y)).
Qed.

Lemma eqb_other {A} (key : A -> Z) (f : A -> A) a b :
  a <> b -> (forall x, key (f x) = key x) ->
  forall x, (key x =? a) = true -> (key x =? b) = false /\ (key (f x) =? b) = false.
Proof. intros Hne Hk x Hx. apply Z.eqb_eq in Hx. rewrite Hk, Hx. split; by apply Z.eqb_neq. Qed.

(** One update adds exactly one triple. *)
Lemma updateGlobalACL_allowed d g u devs h devs' h' :
  updateGlobalACL d g u (devs, h) = Ret (devs', h') ->
  forall d' g' u', allowed devs' d' g' u' =
    allowed devs d' g' u' || ((d' =? d) && (g' =? g) && (u' =? u)).
Proof.
  unfold updateGlobalACL. destruct (find_fst (is_dev d) devs) as [a|] eqn:Ed.
  - destruct (find_fst (is_grp g) (group_head a)) as [b|] eqn:Eg.
    + destruct (find_fst (is_usr u) (user_head b)) as [c|] eqn:Eu.
      * intros E d' g' u'. inv_ret. simplify_eq.
        destruct (Z.eqb_spec d' d) as [->|]; [|by rewrite orb_false_r].
        destruct (Z.eqb_spec g' g) as [->|]; [|by rewrite orb_false_r].
        destruct (Z.eqb_spec u' u) as [->|]; [|by rewrite orb_false_r].
        unfold allowed. by rewrite Ed, Eg, Eu.
      * intros E d' g' u'. inv_ret. simplify_eq. unfold allowed.
        set (addu := fun g0 => AclGroup (gid g0) (user_head g0 ++ [u])).
        set (add := fun d0 => AclDevice (did d0) _).
        destruct (find_upd_fst_default (is_dev d) add devs a) as [F1 F2]; [done|done|].
        destruct (Z.eqb_spec d' d) as [->|Hd]; cbn [andb].
        -- rewrite F1, Ed. unfold add. cbn [group_head did].
           destruct (find_upd_fst_default (is_grp g) addu (group_head a) b) as [G1 G2]; [done|done|].
           destruct (Z.eqb_spec g' g) as [->|Hg]; cbn [andb].
           ++ rewrite G1, Eg. unfold addu. cbn [user_head].
              rewrite find_fst_app. simpl. unfold is_usr.
              destruct (find_fst (fun x => u' =? x) (user_head b)); [done|]. by destruct (u' =? u).
           ++ rewrite G2, orb_false_r; [done|]. by apply (eqb_other gid addu g g'); [congruence|].
        -- rewrite F2, orb_false_r; [done|]. by apply (eqb_other did add d d'); [congruence|].
    + intros E d' g' u'. inv_ret. simplify_eq. unfold allowed.
      set (add := fun d0 => AclDevice (did d0) _).
      destruct (find_upd_fst_default (is_dev d) add devs a) as [F1 F2]; [done|done|].
      destruct (Z.eqb_spec d' d) as [->|Hd]; cbn [andb].
      * rewrite F1, Ed. unfold add. cbn [group_head]. rewrite find_fst_app. simpl.
        unfold is_grp at 2. cbn [gid]. rewrite (Z.eqb_sym g g').
        destruct (Z.eqb_spec g' g) as [->|Hg]; cbn [andb].
        -- rewrite Eg. cbn [user_head]. unfold is_usr. simpl. by destruct (u' =? u).
        -- rewrite orb_false_r. by destruct (find_fst (is_grp g') (group_head a)).
      * rewrite F2, orb_false_r; [done|]. by apply (eqb_other did add d d'); [congruence|].
  - intros E d' g' u'. inv_ret. simplify_eq. unfold allowed.
    rewrite find_fst_app. simpl. unfold is_dev at 2. cbn [did]. rewrite (Z.eqb_sym d d').
    destruct (Z.eqb_spec d' d) as [->|Hd]; cbn [andb].
    + rewrite Ed. unfold is_grp, is_usr. simpl. rewrite (Z.eqb_sym g g').
      destruct (g' =? g); [|done]. simpl. by destruct (u' =? u).
    + rewrite orb_false_r. by destruct (find_fst (is_dev d') devs).
Qed.

Lemma updateGlobalACLs_allowed ops devs h devs' h' :
  updateGlobalACLs ops (devs, h) = Ret (devs', h') ->
  forall d g u, allowed devs' d g u = allowed devs d g u || bool_decide ((d, g, u) ∈ ops).
Proof.
  revert devs h. induction ops as [|[[d0 g0] u0] ops IH]; intros devs h E d g u; simpl in E.
  - inv_ret. simplify_eq. by rewrite orb_false_r.
  - inv_ret. destruct x as [devs1 h1].
    rewrite (IH _ _ H2), (updateGlobalACL_allowed _ _ _ _ _ _ _ H1), <-orb_assoc. f_equal.
    rewrite (bool_decide_ext ((d, g, u) ∈ (d0, g0, u0) :: ops)
               ((d, g, u) = (d0, g0, u0) \/ (d, g, u) ∈ ops)) by apply elem_of_cons.
    rewrite bool_decide_or. f_equal. apply eq_bool_prop_intro.
    rewrite bool_decide_spec, !andb_True, !Is_true_true, !Z.eqb_eq.
    split; [intros [[-> ->] ->]; done|by intros [= -> -> ->]].
Qed.

(** The updates a service's [setPermission] makes. *)
Definition perm_ops (service_id : Z) : list (Z * Z * Z) :=
  if service_id =? OTZ_SVC_GLOBAL then
    (fun d => (d, 1, service_id)) <$>
      [OTZ_SVC_GLOBAL; OTZ_SVC_ECHO; OTZ_SVC_DRM; OTZ_SVC_CRYPT; OTZ_SVC_MUTEX_TEST;
       OTZ_SVC_VIRTUAL_KEYBOARD]
  else if (service_id =? OTZ_SVC_DRM) || (service_id =? OTZ_SVC_MUTEX_TEST)
          || (service_id =? OTZ_SVC_VIRTUAL_KEYBOARD) then [(2, 1, service_id)]
  else [].

Lemma setPermission_ops service s r acl s' :
  setPermission service s = Ret (r, acl, s') ->
  updateGlobalACLs (perm_ops service) s = Ret s' /\ acl_uid acl = service /\
  acl_gid acl = (if (1 <=? service) && (service <=? 6) then 1 else 0) /\
  r = (if (1 <=? service) && (service <=? 6) then 1 else -1).
Proof.
  unfold setPermission, perm_ops, OTZ_SVC_GLOBAL, OTZ_SVC_ECHO, OTZ_SVC_DRM, OTZ_SVC_CRYPT,
    OTZ_SVC_MUTEX_TEST, OTZ_SVC_VIRTUAL_KEYBOARD.
  destruct (Z.eqb_spec service 1) as [->|]; [intros E; inv_ret; simplify_eq; done|].
  destruct (Z.eqb_spec service 2) as [->|]; [intros E; inv_ret; simplify_eq; done|].
  destruct (Z.eqb_spec service 3) as [->|]; [intros E; inv_ret; simplify_eq|].
  { split; [|done]. simpl in *. by rewrite H1. }
  destruct (Z.eqb_spec service 4) as [->|]; [intros E; inv_ret; simplify_eq; done|].
  destruct (Z.eqb_spec service 5) as [->|]; [intros E; inv_ret; simplify_eq|].
  { split; [|done]. simpl in *. by rewrite H1. }
  destruct (Z.eqb_spec service 6) as [->|]; [intros E; inv_ret; simplify_eq|].
  { split; [|done]. simpl in *. by rewrite H1. }
  intros E. inv_ret. simplify_eq. split; [done|]. split; [done|].
  replace ((1 <=? service) && (service <=? 6)) with false; [done|].
  destruct (Z.leb_spec 1 service), (Z.leb_spec service 6); simpl; done || lia.
Qed.

(** The tasks created at boot, in their order. *)
Fixpoint setPermissions (svcs : list Z) (s : list acl_device * H) : res (list acl_device * H) :=
  match svcs with
  | [] => mret s
  | svc :: svcs' => '(_, _, s') ← setPermission svc s; setPermissions svcs' s'
  end.

Lemma setPermissions_ops svcs s s' :
  setPermissions svcs s = Ret s' -> updateGlobalACLs (svcs ≫= perm_ops) s = Ret s'.
Proof.
  revert s. induction svcs as [|svc svcs IH]; intros s E; simpl in E; [done|].
  apply res_bind_Ret in E as ([[r acl] s1] & E1 & E2).
  apply setPermission_ops in E1 as [E1 _]. apply IH in E2. cbn [mbind list_bind].
  revert E1 E2. generalize (svcs ≫= perm_ops), (perm_ops svc). clear.
  intros l2 l1. revert s. induction l1 as [|[[d g] u] l1 IH]; intros s; simpl.
  { by intros [= ->] ?. }
  intros E1 E2. apply res_bind_Ret in E1 as (s2 & -> & E1). simpl. by apply IH.
Qed.

(** ** No update faults *)

Section laws.
Context `{!PrivateHeapLaws H}.

(** The outcome of code that allocates kernel cells: it stops in [DIE_NOW] or
    leaves a well-formed heap that kept every live cell. *)
Definition grows {A} (h : H) (m : res (A * H)) : Prop :=
  m = Panic \/ exists a h', m = Ret (a, h') /\ heap_wf h' /\ heap_live h ⊆ heap_live h'.

Lemma acl_cell_ok size h :
  heap_wf h -> 0 <= size <= heap_max (H := H) ->
  acl_cell size h = Panic \/
  exists h', acl_cell size h = Ret h' /\ heap_wf h' /\ heap_live h ⊆ heap_live h'.
Proof.
  intros Hwf Hs. unfold acl_cell.
  destruct (heap_malloc_ok COMMON_HEAP_ID size h Hwf Hs) as (p & h' & -> & Hwf' & Hc).
  simpl. destruct (Z.eqb_spec p 0) as [->|]; [by left|]. right. exists h'.
  split; [done|]. split; [done|]. destruct Hc as [[-> ?]|(? & ? & ->)]; [done|set_solver].
Qed.

(** One more cell before the rest of the routine. *)
Lemma grows_cell {A} size (h : H) (f : H -> res (A * H)) :
  heap_wf h -> 0 <= size <= heap_max (H := H) ->
  (forall h1, heap_wf h1 -> heap_live h ⊆ heap_live h1 -> grows h (f h1)) ->
  grows h (acl_cell size h ≫= f).
Proof.
  intros Hwf Hs Hf. destruct (acl_cell_ok size h Hwf Hs) as [->|(h1 & -> & Hwf1 & Hl)].
  - by left.
  - simpl. by apply Hf.
Qed.

Lemma grows_weaken {A} (h h1 : H) (m : res (A * H)) :
  heap_live h ⊆ heap_live h1 -> grows h1 m -> grows h m.
Proof.
  intros Hl [->|(a & h' & -> & Hwf & Hl')]; [by left|right]. exists a, h'.
  split; [done|]. split; [done|]. by etrans.
Qed.

Lemma grows_ret {A} (a : A) h h' :
  heap_wf h' -> heap_live h ⊆ heap_live h' -> grows h (mret (a, h')).
Proof. right. by exists a, h'. Qed.

Lemma updateGlobalACL_grows d g u devs h :
  heap_wf h -> 20 <= heap_max (H := H) -> grows h (updateGlobalACL d g u (devs, h)).
Proof.
  intros Hwf Hm. assert (0 <= sizeof_acl_user <= heap_max (H := H)) by (unfold sizeof_acl_user; lia).
  assert (0 <= sizeof_acl_group <= heap_max (H := H)) by (unfold sizeof_acl_group; lia).
  unfold updateGlobalACL.
  repeat case_match; repeat (apply grows_cell; [done|done|]; intros ???; eapply grows_weaken; [done|]);
    by apply grows_ret.
Qed.

Lemma updateGlobalACLs_grows ops devs h :
  heap_wf h -> 20 <= heap_max (H := H) -> grows h (updateGlobalACLs ops (devs, h)).
Proof.
  intros Hwf Hm. revert devs h Hwf. induction ops as [|[[d g] u] ops IH]; intros devs h Hwf.
  { by apply grows_ret. }
  cbn [updateGlobalACLs]. destruct (updateGlobalACL_grows d g u devs h Hwf Hm) as [->|(devs1 & h1 & -> & Hwf1 & Hl)]; [by left|].
  cbn. eapply grows_weaken; [done|]. by apply IH.
Qed.

Lemma setPermission_grows service devs h :
  heap_wf h -> 20 <= heap_max (H := H) ->
  setPermission service (devs, h) = Panic \/
  exists r acl devs' h', setPermission service (devs, h) = Ret (r, acl, (devs', h')) /\
    heap_wf h' /\ heap_live h ⊆ heap_live h'.
Proof.
  intros Hwf Hm. unfold setPermission.
  repeat match goal with |- context [if ?b then _ else _] => destruct b end;
    try (right; by eexists _, _, _, _).
  - destruct (updateGlobalACLs_grows ((fun d => (d, 1, service)) <$>
      [OTZ_SVC_GLOBAL; OTZ_SVC_ECHO; OTZ_SVC_DRM; OTZ_SVC_CRYPT; OTZ_SVC_MUTEX_TEST;
       OTZ_SVC_VIRTUAL_KEYBOARD]) devs h Hwf Hm) as [->|(devs' & h' & -> & ? & ?)]; [by left|].
    right. by eexists _, _, _, _.
  - destruct (updateGlobalACL_grows 2 1 service devs h Hwf Hm) as [->|(devs' & h' & -> & ? & ?)]; [by left|].
    right. by eexists _, _, _, _.
  - destruct (updateGlobalACL_grows 2 1 service devs h Hwf Hm) as [->|(devs' & h' & -> & ? & ?)]; [by left|].
    right. by eexists _, _, _, _.
  - destruct (updateGlobalACL_grows 2 1 service devs h Hwf Hm) as [->|(devs' & h' & -> & ? & ?)]; [by left|].
    right. by eexists _, _, _, _.
Qed.

(** C29: the access control lists refine a set of (device, group, user) triples:
    any sequence of updates on the initially empty list either stops in
    [DIE_NOW] for lack of memory or returns, keeping the heap well formed and
    every older cell, and then a task's request succeeds in [getPermission]
    exactly when its triple was one of the updates. *)
Theorem acl_refinement (ops : list (Z * Z * Z)) (h : H)
    (Hwf : heap_wf h) (Hmax : 20 <= heap_max (H := H)) :
  updateGlobalACLs ops ([], h) = Panic \/
  exists devs h', updateGlobalACLs ops ([], h) = Ret (devs, h') /\ heap_wf h' /\
    heap_live h ⊆ heap_live h' /\
    forall (cred : acl_t) (d_id : Z),
      getPermission 1 (Ret cred) d_id devs =
        Ret (if bool_decide ((d_id, acl_gid cred, acl_uid cred) ∈ ops) then 1 else -1).
Proof.
  destruct (updateGlobalACLs_grows ops [] h Hwf Hmax) as [?|(devs & h' & E & Hwf' & Hl)]; [by left|].
  right. exists devs, h'. split; [done|]. split; [done|]. split; [done|].
  intros cred d. by rewrite getPermission_allowed, (updateGlobalACLs_allowed _ _ _ _ _ E).
Qed.
End laws.

(** Which triples the boot adds. *)
Lemma boot_ops (svcs : list Z) d g u :
  (d, g, u) ∈ svcs ≫= perm_ops <->
  (g = 1 /\ (u = 1 /\ 1 <= d <= 6 \/ (u = 3 \/ u = 5 \/ u = 6) /\ d = 2)) /\ u ∈ svcs.
Proof.
  rewrite list_elem_of_bind. unfold perm_ops, OTZ_SVC_GLOBAL, OTZ_SVC_ECHO, OTZ_SVC_DRM,
    OTZ_SVC_CRYPT, OTZ_SVC_MUTEX_TEST, OTZ_SVC_VIRTUAL_KEYBOARD.
  split.
  - intros (svc & Hin & Hsvc). revert Hin.
    destruct (Z.eqb_spec svc 1) as [->|]; [|case_match eqn:E].
    + cbn [fmap list_fmap]. rewrite !elem_of_cons, elem_of_nil.
      intros Hd. assert (g = 1 /\ u = 1 /\ 1 <= d <= 6) as (-> & -> & ?)
        by (repeat destruct Hd as [Hd|Hd]; simplify_eq; done).
      split; [|done]. split; [done|]. left. lia.
    + intros Hin%list_elem_of_singleton. simplify_eq. split; [|done]. split; [done|]. right.
      rewrite !orb_true_iff, !Z.eqb_eq in E. lia.
    + by intros ?%elem_of_nil.
  - intros [[-> Hu] Hin]. exists u. split; [|done]. destruct (Z.eqb_spec u 1) as [->|Hne].
    + cbn [fmap list_fmap]. rewrite !elem_of_cons.
      assert (d = 1 \/ d = 2 \/ d = 3 \/ d = 4 \/ d = 5 \/ d = 6) as Hd by lia.
      naive_solver.
    + destruct Hu as [[??]|[Hu ->]]; [lia|].
      assert ((u =? 3) || (u =? 5) || (u =? 6) = true) as ->.
      { rewrite !orb_true_iff, !Z.eqb_eq. lia. }
      by apply list_elem_of_singleton.
Qed.

End acl.

Lemma acl_refinement_witness :
  exists devs h',
    updateGlobalACLs [(2, 1, 3); (2, 1, 5); (2, 1, 3)] ([], BumpHeap 4096 100000 ∅) = Ret (devs, h') /\
    getPermission 1 (Ret (Acl "OTZ_MUTEX" 5 1)) 2 devs = Ret 1 /\
    getPermission 1 (Ret (Acl "OTZ_CRYPT" 4 1)) 2 devs = Ret (-1).
Proof.
  destruct (acl_refinement [(2, 1, 3); (2, 1, 5); (2, 1, 3)] (BumpHeap 4096 100000 ∅))
    as [Hp|(devs & h' & E & _ & _ & Hperm)].
  - split; [by compute|]. intros p Hp. by apply not_elem_of_empty in Hp.
  - by compute.
  - by vm_compute in Hp.
  - exists devs, h'. split; [exact E|]. rewrite !Hperm. split; reflexivity.
Defined.

(** The boot image of the tree: the global task, then every service. *)
Definition boot_acl : list acl_device * bump_heap :=
  match setPermissions [1; 2; 3; 4; 5; 6] ([], BumpHeap 4096 100000 ∅) with
  | Ret s => s
  | _ => ([], BumpHeap 0 0 ∅)
  end.

