(* ===== verification/Task.v ===== *)
(** [core/task.c], [core/global.c], [core/scheduler.c] and
    [arch/arm/armv7/cpu_task.c]: the tasks of the secure kernel, the ready
    list and the round-robin scheduler.

    The kernel state keeps the program's memory layout: the list nodes live in
    one heap of [sw_list.h] nodes (three of them inside every task), a task
    control block is found by its address, and the blocks come from the
    kernel's private heaps.  Reading a block that was freed faults. *)
From stdpp Require Import prelude gmap strings.
From S2P Require Import Prelude DList HeapIface Acl.
#[local] Open Scope Z_scope.

(** ** List nodes *)

(** A [struct list]: a global list head, a field of the task at an address, or
    the head or an element of a wait queue. *)
Inductive node : Type :=
  | NTaskList
  | NReadyList
  | NHead (task : Z)
  | NReadyHead (task : Z)
  | NPendingHead (task : Z)
  | NWqList (wq_head : Z)
  | NWq (wq : Z).

#[export] Instance node_eq_dec : EqDecision node.
Proof. solve_decision. Defined.

Definition node_code (n : node) : Z * Z :=
  match n with
  | NTaskList => (0, 0)
  | NReadyList => (1, 0)
  | NHead a => (2, a)
  | NReadyHead a => (3, a)
  | NPendingHead a => (4, a)
  | NWqList a => (5, a)
  | NWq a => (6, a)
  end.

#[export] Instance node_code_inj : Inj (=) (=) node_code.
Proof. intros [] []; simpl; congruence. Qed.

#[export] Instance node_countable : Countable node.
Proof.
  apply (inj_countable node_code (fun p =>
    match p with
    | (0, _) => Some NTaskList
    | (1, _) => Some NReadyList
    | (2, a) => Some (NHead a)
    | (3, a) => Some (NReadyHead a)
    | (4, a) => Some (NPendingHead a)
    | (5, a) => Some (NWqList a)
    | (6, a) => Some (NWq a)
    | _ => None
    end)).
  by intros [].
Defined.

(** [list_entry] of a [head] and of a [ready_head] field. *)
Definition task_entry (n : node) : res Z := match n with NHead a => Ret a | _ => Fault end.
Definition ready_entry (n : node) : res Z := match n with NReadyHead a => Ret a | _ => Fault end.

(** ** Data *)

Definition TASK_ID_START : Z := 0x111.
Definition TASK_STATE_SUSPEND : Z := 0.
Definition TASK_STATE_WAIT : Z := 1.
Definition TASK_STATE_READY_TO_RUN : Z := 2.
Definition TASK_STATE_RUNNING : Z := 3.

Definition Mode_USR : Z := 0x10.
Definition I_BIT : Z := 0x80.

Record sw_task_cpu_regs : Type := CpuRegs { regs : list Z; sp : Z; lr : Z; spsr : Z; pc : Z }.

Record sw_tls : Type := Tls {
  params : list Z; ret_val : Z; ipi_ret_val : Z; tls_elf_flag : Z; tls_process : Z; private_data : Z;
}.

Record sw_task : Type := SwTask {
  task_id : Z; service_id : Z; entry_addr : Z; name : string; state : Z;
  task_sp : Z; task_sp_size : Z; tls : Z; task_regs : sw_task_cpu_regs; task_acl : acl_t;
}.

(** [sa_config_t], the fields [create_task] reads. *)
Record sa_config_t : Type := SaConfig {
  service_uuid : Z; service_name : string; stack_size : Z; entry_point : Z;
  elf_flag : Z; process : Z; data : Z;
}.

Record wait_queue : Type := WaitQueue { wq_data : Z; wq_func : Z }.

Definition sizeof_sw_task : Z := 180.
Definition sizeof_sw_tls : Z := 36.

Definition set_state (st : Z) (t : sw_task) : sw_task :=
  SwTask (task_id t) (service_id t) (entry_addr t) (name t) st
    (task_sp t) (task_sp_size t) (tls t) (task_regs t) (task_acl t).
Definition set_task_regs (r : sw_task_cpu_regs) (t : sw_task) : sw_task :=
  SwTask (task_id t) (service_id t) (entry_addr t) (name t) (state t)
    (task_sp t) (task_sp_size t) (tls t) r (task_acl t).
Definition set_task_acl (a : acl_t) (t : sw_task) : sw_task :=
  SwTask (task_id t) (service_id t) (entry_addr t) (name t) (state t)
    (task_sp t) (task_sp_size t) (tls t) (task_regs t) a.
Definition set_params (ps : list Z) (t : sw_tls) : sw_tls :=
  Tls ps (ret_val t) (ipi_ret_val t) (tls_elf_flag t) (tls_process t) (private_data t).

Section task.
Context {H : Type} `{PrivateHeap H}.

(** [global_val] (its list heads are nodes of [lists]), the blocks of the
    tasks and of their local storage, the wait queues, the private heaps, the
    saved user context of the processor ([temp_swi_regs]) and whether the
    kernel's tick timer runs. *)
Record kst : Type := Kst {
  lists : lheap node;
  tasks : gmap Z sw_task;
  tlss : gmap Z sw_tls;
  wq_counts : gmap Z Z;
  wqs : gmap Z wait_queue;
  kheap : H;
  cpu : sw_task_cpu_regs;
  timer_on : bool;
  next_task_id : Z;
  current_task_id : Z;
  exec_mode : Z;
  device_acl_list : list acl_device;
}.

Definition set_lists (l : lheap node) (s : kst) : kst :=
  Kst l (tasks s) (tlss s) (wq_counts s) (wqs s) (kheap s) (cpu s) (timer_on s)
    (next_task_id s) (current_task_id s) (exec_mode s) (device_acl_list s).
Definition set_tasks (m : gmap Z sw_task) (s : kst) : kst :=
  Kst (lists s) m (tlss s) (wq_counts s) (wqs s) (kheap s) (cpu s) (timer_on s)
    (next_task_id s) (current_task_id s) (exec_mode s) (device_acl_list s).
Definition set_tlss (m : gmap Z sw_tls) (s : kst) : kst :=
  Kst (lists s) (tasks s) m (wq_counts s) (wqs s) (kheap s) (cpu s) (timer_on s)
    (next_task_id s) (current_task_id s) (exec_mode s) (device_acl_list s).
Definition set_wq_counts (m : gmap Z Z) (s : kst) : kst :=
  Kst (lists s) (tasks s) (tlss s) m (wqs s) (kheap s) (cpu s) (timer_on s)
    (next_task_id s) (current_task_id s) (exec_mode s) (device_acl_list s).
Definition set_wqs (m : gmap Z wait_queue) (s : kst) : kst :=
  Kst (lists s) (tasks s) (tlss s) (wq_counts s) m (kheap s) (cpu s) (timer_on s)
    (next_task_id s) (current_task_id s) (exec_mode s) (device_acl_list s).
Definition set_kheap (h : H) (s : kst) : kst :=
  Kst (lists s) (tasks s) (tlss s) (wq_counts s) (wqs s) h (cpu s) (timer_on s)
    (next_task_id s) (current_task_id s) (exec_mode s) (device_acl_list s).
Definition set_cpu (c : sw_task_cpu_regs) (s : kst) : kst :=
  Kst (lists s) (tasks s) (tlss s) (wq_counts s) (wqs s) (kheap s) c (timer_on s)
    (next_task_id s) (current_task_id s) (exec_mode s) (device_acl_list s).
Definition set_timer_on (b : bool) (s : kst) : kst :=
  Kst (lists s) (tasks s) (tlss s) (wq_counts s) (wqs s) (kheap s) (cpu s) b
    (next_task_id s) (current_task_id s) (exec_mode s) (device_acl_list s).
Definition set_next_task_id (i : Z) (s : kst) : kst :=
  Kst (lists s) (tasks s) (tlss s) (wq_counts s) (wqs s) (kheap s) (cpu s) (timer_on s)
    i (current_task_id s) (exec_mode s) (device_acl_list s).
Definition set_current_task_id (i : Z) (s : kst) : kst :=
  Kst (lists s) (tasks s) (tlss s) (wq_counts s) (wqs s) (kheap s) (cpu s) (timer_on s)
    (next_task_id s) i (exec_mode s) (device_acl_list s).
Definition set_exec_mode (m : Z) (s : kst) : kst :=
  Kst (lists s) (tasks s) (tlss s) (wq_counts s) (wqs s) (kheap s) (cpu s) (timer_on s)
    (next_task_id s) (current_task_id s) m (device_acl_list s).
Definition set_acls (a : list acl_device) (s : kst) : kst :=
  Kst (lists s) (tasks s) (tlss s) (wq_counts s) (wqs s) (kheap s) (cpu s) (timer_on s)
    (next_task_id s) (current_task_id s) (exec_mode s) a.

(** A write through a pointer to a task; writing a freed block faults. *)
Definition upd_task (a : Z) (f : sw_task -> sw_task) (s : kst) : res kst :=
  t ← of_opt (tasks s !! a);
  mret (set_tasks (<[a := f t]> (tasks s)) s).

(** ** [core/global.c] *)

(** The page reference list and the parameter stacks that [global_init] also
    clears belong to other components. *)
Definition global_init (s : kst) : res kst :=
  let l := INIT_LIST_HEAD NReadyList (INIT_LIST_HEAD NTaskList (lists s)) in
  let s := set_acls [] (set_lists l s) in
  let s := set_next_task_id TASK_ID_START (set_exec_mode 0 (set_current_task_id 0 s)) in
  let '(r, h) := heap_alloc_private COMMON_HEAP_ID (kheap s) in
  if r =? -1 then Panic else mret (set_kheap h s).

Definition schedule_task (a : Z) (s : kst) : res kst :=
  l ← list_add_tail NReadyList (NReadyHead a) (lists s);
  mret (set_lists l s).

Definition schedule_task_next (a : Z) (s : kst) : res kst :=
  l ← list_add NReadyList (NReadyHead a) (lists s);
  mret (set_lists l s).

(** The search loop the accessors share: the guard on the empty list, the walk
    over the task list and the break at the task with the identifier. *)
Definition has_id (id : Z) (s : kst) (n : node) : res bool :=
  a ← task_entry n;
  t ← of_opt (tasks s !! a);
  mret (task_id t =? id).

Definition find_task (id : Z) (s : kst) : res (option Z) :=
  e ← list_empty NTaskList (lists s);
  if (e : bool) then mret None else
  n ← list_search (has_id id s) NTaskList (lists s);
  match n with
  | None => mret None
  | Some n => a ← task_entry n; mret (Some a)
  end.

(** [task_id] is an [int] compared with a [u32]. *)
Definition get_task (id : Z) (s : kst) : res (option Z) := find_task (u32 id) s.

Definition get_current_task (s : kst) : res (option Z) := find_task (current_task_id s) s.

Definition get_current_task_id (s : kst) : Z := s32 (current_task_id s).

Definition get_task_tls (id : Z) (s : kst) : res Z :=
  o ← find_task (u32 id) s;
  match o with
  | None => mret 0
  | Some a => t ← of_opt (tasks s !! a); mret (tls t)
  end.

Definition get_task_state (id : Z) (s : kst) : res Z :=
  o ← find_task (u32 id) s;
  match o with
  | None => mret TASK_STATE_SUSPEND
  | Some a => t ← of_opt (tasks s !! a); mret (state t)
  end.

Definition schedule_task_id (id : Z) (s : kst) : res kst :=
  o ← get_task id s;
  match o with
  | None => mret s
  | Some a => s ← upd_task a (set_state TASK_STATE_READY_TO_RUN) s; schedule_task a s
  end.

Definition suspend_task (id st : Z) (s : kst) : res kst :=
  o ← find_task (u32 id) s;
  match o with
  | None => mret s
  | Some a =>
      s ← upd_task a (set_state (u32 st)) s;
      mret (if (current_task_id s =? u32 id) && (u32 st =? TASK_STATE_SUSPEND)
            then set_current_task_id (u32 (-1)) s else s)
  end.

Definition update_current_task (o : option Z) (s : kst) : res kst :=
  match o with
  | None => mret s
  | Some a => t ← of_opt (tasks s !! a); mret (set_current_task_id (task_id t) s)
  end.

(** [current_task != NULL] and in neither of the two sleeping states. *)
Definition runnable (o : option Z) (s : kst) : res bool :=
  match o with
  | None => mret false
  | Some a =>
      t ← of_opt (tasks s !! a);
      mret (negb (state t =? TASK_STATE_WAIT) && negb (state t =? TASK_STATE_SUSPEND))
  end.

Definition get_next_task (s : kst) : res (option Z * kst) :=
  current_task ← get_current_task s;
  empty ← list_empty NReadyList (lists s);
  if (empty : bool) then
    r ← runnable current_task s;
    mret (if (r : bool) then current_task else None, s)
  else
    '(l, ls) ← list_pop NReadyList (lists s);
    next_task ← ready_entry l;
    let s := set_lists ls s in
    again ← list_search (fun n => temp_task ← ready_entry n; mret (bool_decide (Some temp_task = current_task)))
              NReadyList (lists s);
    match again with
    | Some _ => mret (Some next_task, s)
    | None =>
        r ← runnable current_task s;
        match current_task with
        | Some c => if (r : bool) then s ← schedule_task c s; mret (Some next_task, s)
                    else mret (Some next_task, s)
        | None => mret (Some next_task, s)
        end
    end.

(** ** [core/task.c] and [core/scheduler.c] *)

(** [cpu_task_init]: a fresh user context entering the task's function. *)
Definition cpu_task_regs_init (t : sw_task) : sw_task_cpu_regs :=
  CpuRegs (task_id t :: tls t :: replicate 11 0)
    (u32 (task_sp t + task_sp_size t)) 0 (Z.lor Mode_USR I_BIT) (entry_addr t).

Definition cpu_task_init (a : Z) (s : kst) : res (Z * kst) :=
  s ← upd_task a (fun t => set_task_regs (cpu_task_regs_init t) t) s;
  mret (OTZ_OK, s).

(** [save_task_context_regs] and [restore_task_context_regs] copy the user
    context, which the exception entry saved, to and from the task. *)
Definition task_context_switch (new_task old_task : option Z) (s : kst) : res kst :=
  s ← (match old_task with
       | Some o => upd_task o (set_task_regs (cpu s)) s
       | None => mret s
       end);
  match new_task with
  | Some n => t ← of_opt (tasks s !! n); mret (set_cpu (task_regs t) s)
  | None => mret s
  end.

Definition scheduler (s : kst) : res kst :=
  current_task ← get_current_task s;
  '(next_task, s) ← get_next_task s;
  s ← (if bool_decide (current_task = next_task) then mret s
       else
         s ← (match next_task with
              | Some n => s ← upd_task n (set_state TASK_STATE_RUNNING) s; update_current_task (Some n) s
              | None => mret s
              end);
         task_context_switch next_task current_task s);
  mret (match next_task with None => set_timer_on false s | Some _ => s end).

Definition start_task (id : Z) (ps : option (list Z)) (s : kst) : res (Z * kst) :=
  o ← find_task (u32 id) s;
  match o with
  | None => mret (OTZ_EFAIL, s)
  | Some a =>
      '(ret, s) ← cpu_task_init a s;
      if negb (ret =? OTZ_OK) then mret (ret, s) else
      t ← of_opt (tasks s !! a);
      l ← of_opt (tlss s !! tls t);
      let ps := match ps with Some ps => take 4 ps | None => replicate 4 0 end in
      let s := set_tlss (<[tls t := set_params ps l]> (tlss s)) s in
      s ← schedule_task a s;
      mret (OTZ_OK, s)
  end.

(** [sw_malloc_private] and [sw_free_private] on the kernel state. *)
Definition k_malloc (hid size : Z) (s : kst) : res (Z * kst) :=
  '(p, h) ← heap_malloc hid size (kheap s); mret (p, set_kheap h s).
Definition k_free (hid p : Z) (s : kst) : res kst :=
  h ← heap_free hid p (kheap s); mret (set_kheap h s).

(** The label [handle_err1] of [create_task]. *)
Definition create_task_err (cfg : sa_config_t) (tmp_task_id new_task tls0 sp0 : Z) (s : kst) : res kst :=
  s ← (if data cfg =? 0 then mret s
       else if bool_decide (service_name cfg = "dispatcher"%string)
       then k_free COMMON_HEAP_ID (data cfg) s
       else k_free (s32 (current_task_id s)) (data cfg) s);
  s ← (if tls0 =? 0 then mret s else k_free tmp_task_id tls0 s);
  s ← (if sp0 =? 0 then mret s else k_free tmp_task_id sp0 s);
  k_free tmp_task_id new_task s.

(** The guard on the caller's permission. *)
Definition create_denied (cfg : sa_config_t) (s : kst) : res bool :=
  if exec_mode s =? 1 then
    cur ← get_current_task s;
    r ← getPermission (exec_mode s)
          (match cur with Some a => t ← of_opt (tasks s !! a); mret (task_acl t) | None => Fault end)
          (u32 (service_uuid cfg)) (device_acl_list s);
    mret (r =? -1)
  else mret false.

(** The successful end of [create_task], once the three blocks are there:
    [junk] is what the fresh block held in the fields that are not set. *)
Definition create_task_init (cfg : sa_config_t) (tmp_task_id new_task tls0 sp0 : Z)
    (junk : sw_task) (s : kst) : res kst :=
  let t := SwTask (u32 tmp_task_id) (u32 (service_uuid cfg)) (entry_point cfg) (service_name cfg)
             TASK_STATE_SUSPEND sp0 (stack_size cfg) tls0 (task_regs junk) (task_acl junk) in
  let s := set_tasks (<[new_task := t]> (tasks s)) s in
  let l := INIT_LIST_HEAD (NPendingHead new_task)
             (INIT_LIST_HEAD (NReadyHead new_task) (INIT_LIST_HEAD (NHead new_task) (lists s))) in
  l ← list_add_tail NTaskList (NHead new_task) l;
  let s := set_lists l s in
  '(_, acl, (devs, h)) ← setPermission (service_id t) (device_acl_list s, kheap s);
  s ← upd_task new_task (set_task_acl acl) (set_kheap h (set_acls devs s));
  mret (if service_uuid cfg =? 1 then set_exec_mode 1 s else s).

(** The result, the value left in [*task_id] and the state; [junk] and
    [junk_tls] are the contents of freshly allocated blocks. *)
Definition create_task (cfg : sa_config_t) (junk : sw_task) (junk_tls : sw_tls) (s : kst)
    : res (Z * Z * kst) :=
  denied ← create_denied cfg s;
  if (denied : bool) then mret (OTZ_ENOMEM, -1, s) else
  let tmp_task_id := s32 (next_task_id s) in
  let s := set_next_task_id (u32 (next_task_id s + 1)) s in
  let '(r, h) := heap_alloc_private tmp_task_id (kheap s) in
  let s := set_kheap h s in
  if r =? -1 then mret (OTZ_ENOMEM, -1, s) else
  '(new_task, s) ← k_malloc tmp_task_id sizeof_sw_task s;
  if new_task =? 0 then mret (OTZ_ENOMEM, -1, s) else
  '(tls0, s) ← k_malloc tmp_task_id sizeof_sw_tls s;
  if tls0 =? 0 then
    s ← create_task_err cfg tmp_task_id new_task 0 (task_sp junk) s; mret (OTZ_ENOMEM, -1, s)
  else
  let l := Tls (params junk_tls) (ret_val junk_tls) (ipi_ret_val junk_tls)
             (elf_flag cfg) (process cfg) (data cfg) in
  let s := set_tlss (<[tls0 := l]> (tlss s)) s in
  '(sp0, s) ← k_malloc tmp_task_id (stack_size cfg) s;
  if sp0 =? 0 then
    s ← create_task_err cfg tmp_task_id new_task tls0 0 s; mret (OTZ_ENOMEM, -1, s)
  else
  s ← create_task_init cfg tmp_task_id new_task tls0 sp0 junk s;
  mret (OTZ_OK, tmp_task_id, s).

(** The blocks of a task, freed; their contents are gone. *)
Definition free_task (id a : Z) (s : kst) : res kst :=
  t ← of_opt (tasks s !! a);
  s ← (if tls t =? 0 then mret s
       else k_free id (tls t) (set_tlss (delete (tls t) (tlss s)) s));
  s ← k_free id (task_sp t) s;
  s ← k_free id a (set_tasks (delete a (tasks s)) s);
  let '(_, h) := heap_free_private id (kheap s) in
  mret (set_kheap h s).

(** The first [ready_head] of a task with the identifier leaves the ready list. *)
Definition unready (id : Z) (s : kst) : res kst :=
  e ← list_empty NReadyList (lists s);
  if (e : bool) then mret s else
  n ← list_search (fun n => a ← ready_entry n; t ← of_opt (tasks s !! a); mret (task_id t =? id))
        NReadyList (lists s);
  match n with
  | None => mret s
  | Some n => l ← list_del n (lists s); mret (set_lists l s)
  end.

Definition destroy_task (id : Z) (s : kst) : res (Z * kst) :=
  o ← find_task (u32 id) s;
  match o with
  | None => mret (OTZ_EFAIL, s)
  | Some a =>
      l ← list_del (NHead a) (lists s);
      s ← unready (u32 id) (set_lists l s);
      s ← free_task id a s;
      mret (OTZ_OK, s)
  end.
End task.
Arguments kst : clear implicits.
