(* ===== verification/Sched.v ===== *)
(** The scheduler's contract.

    [vk] is what the tasks may rely on: a set of virtual processors, one per
    task, run in turn by a round-robin queue.  The kernel of [Task] (pointers,
    intrusive lists, register blocks, heaps) is shown to simulate it. *)
From stdpp Require Import prelude gmap strings.
From S2P Require Import Prelude DList HeapIface Acl Task.
#[local] Open Scope Z_scope.

(** ** The abstract machine *)

(** The live tasks, their states, the user context of each virtual processor,
    the context each would start with, the ready queue, the identifier of the
    current task, the tick timer and the next identifier. *)
Record vk : Type := Vk {
  ids : list Z;
  vst : gmap Z Z;
  vregs : gmap Z sw_task_cpu_regs;
  ictx : gmap Z sw_task_cpu_regs;
  rdy : list Z;
  cur : Z;
  tmr : bool;
  nxt : Z;
}.

Definition no_task : Z := u32 (-1).

Definition v_state (i : Z) (g : vk) : Z := default TASK_STATE_SUSPEND (vst g !! i).

Definition v_runnable (i : Z) (g : vk) : bool :=
  negb (v_state i g =? TASK_STATE_WAIT) && negb (v_state i g =? TASK_STATE_SUSPEND).

Definition v_cur (g : vk) : option Z := if decide (cur g ∈ ids g) then Some (cur g) else None.

Definition set_rdy (q : list Z) (g : vk) : vk :=
  Vk (ids g) (vst g) (vregs g) (ictx g) q (cur g) (tmr g) (nxt g).
Definition set_vst (i st : Z) (g : vk) : vk :=
  Vk (ids g) (<[i := st]> (vst g)) (vregs g) (ictx g) (rdy g) (cur g) (tmr g) (nxt g).
Definition set_cur (c : Z) (g : vk) : vk :=
  Vk (ids g) (vst g) (vregs g) (ictx g) (rdy g) c (tmr g) (nxt g).
Definition set_vregs (m : gmap Z sw_task_cpu_regs) (g : vk) : vk :=
  Vk (ids g) (vst g) m (ictx g) (rdy g) (cur g) (tmr g) (nxt g).
Definition set_tmr (b : bool) (g : vk) : vk :=
  Vk (ids g) (vst g) (vregs g) (ictx g) (rdy g) (cur g) b (nxt g).
Definition set_nxt (n : Z) (g : vk) : vk :=
  Vk (ids g) (vst g) (vregs g) (ictx g) (rdy g) (cur g) (tmr g) n.

(** The choice of the next task. *)
Definition v_next (g : vk) : option Z * vk :=
  match rdy g with
  | [] =>
      (match v_cur g with Some c => if v_runnable c g then Some c else None | None => None end, g)
  | n :: q =>
      (Some n,
       set_rdy (match v_cur g with
                | Some c => if decide (c ∈ q) then q
                            else if v_runnable c g then q ++ [c] else q
                | None => q
                end) g)
  end.

(** A tick: nobody's context changes, the processor moves on. *)
Definition v_tick (g : vk) : vk :=
  match v_next g with
  | (None, g') => set_tmr false g'
  | (Some n, g') =>
      if decide (v_cur g = Some n) then g' else set_cur n (set_vst n TASK_STATE_RUNNING g')
  end.

Definition v_ready (i : Z) (g : vk) : vk :=
  if decide (i ∈ ids g) then set_rdy (rdy g ++ [i]) (set_vst i TASK_STATE_READY_TO_RUN g) else g.

(** Suspending the running task discards its context. *)
Definition v_suspend (i st : Z) (g : vk) : vk :=
  if decide (i ∈ ids g) then
    let g := set_vst i st g in
    if decide (cur g = i /\ st = TASK_STATE_SUSPEND)
    then set_cur no_task (set_vregs (delete i (vregs g)) g) else g
  else g.

Definition v_start (i : Z) (g : vk) : vk :=
  if decide (i ∈ ids g) then
    set_rdy (rdy g ++ [i]) (set_vregs (partial_alter (fun _ => ictx g !! i) i (vregs g)) g)
  else g.

Definition v_destroy (i : Z) (g : vk) : vk :=
  if decide (i ∈ ids g) then
    Vk (filter (fun j => j <> i) (ids g)) (vst g) (vregs g) (ictx g)
       (filter (fun j => j <> i) (rdy g)) (cur g) (tmr g) (nxt g)
  else g.

Definition v_create (c : sw_task_cpu_regs) (g : vk) : vk :=
  Vk (ids g ++ [nxt g]) (<[nxt g := TASK_STATE_SUSPEND]> (vst g)) (delete (nxt g) (vregs g))
     (<[nxt g := c]> (ictx g)) (rdy g) (cur g) (tmr g) (nxt g + 1).

(** ** Events *)

(** What can happen to the kernel: a tick, the user code of the current task
    leaving another context, and the calls of the kernel's interface. *)
Inductive event : Type :=
  | ETick
  | ERun (c : sw_task_cpu_regs)
  | EReady (id : Z)
  | ESuspend (id st : Z)
  | EStart (id : Z) (ps : option (list Z))
  | ECreate (cfg : sa_config_t) (junk : sw_task) (junk_tls : sw_tls)
  | EDestroy (id : Z).

(** The transitions of the abstract machine; a creation may fail. *)
Inductive vstep (g : vk) : event -> vk -> Prop :=
  | VTick : vstep g ETick (v_tick g)
  | VRun c : vstep g (ERun c) (set_vregs (<[cur g := c]> (vregs g)) g)
  | VReady i : vstep g (EReady i) (v_ready (u32 i) g)
  | VSuspend i st : vstep g (ESuspend i st) (v_suspend (u32 i) (u32 st) g)
  | VStart i ps : vstep g (EStart i ps) (v_start (u32 i) g)
  | VCreate cfg junk junk_tls tls sp :
      vstep g (ECreate cfg junk junk_tls)
        (v_create (CpuRegs (nxt g :: tls :: replicate 11 0) (u32 (sp + stack_size cfg)) 0
                     (Z.lor Mode_USR I_BIT) (entry_point cfg)) g)
  | VNoCreate cfg junk junk_tls n :
      n = nxt g \/ n = nxt g + 1 ->
      vstep g (ECreate cfg junk junk_tls) (set_nxt n g)
  | VDestroy i : vstep g (EDestroy i) (v_destroy (u32 i) g).

Section sched.
Context {H : Type} `{PrivateHeap H}.

Definition kstep (e : event) (s : kst H) : res (kst H) :=
  match e with
  | ETick => scheduler s
  | ERun c => mret (set_cpu c s)
  | EReady id => schedule_task_id id s
  | ESuspend id st => suspend_task id st s
  | EStart id ps => r ← start_task id ps s; mret (snd r)
  | ECreate cfg junk junk_tls => r ← create_task cfg junk junk_tls s; mret (snd r)
  | EDestroy id => r ← destroy_task id s; mret (snd r)
  end.

(** ** The simulation relation *)

(** The memory blocks of the task at [a]. *)
Definition blocks (s : kst H) (a : Z) : list Z :=
  match tasks s !! a with Some t => [a; tls t; task_sp t] | None => [] end.

(** The task block at an address holds the task [i]. *)
Record task_rel (s : kst H) (g : vk) (i : Z) (t : sw_task) : Prop := {
  tr_id : task_id t = i;
  tr_state : vst g !! i = Some (state t);
  tr_regs : forall c, cur g <> i -> vregs g !! i = Some c -> task_regs t = c;
  tr_ictx : ictx g !! i = Some (cpu_task_regs_init t);
  tr_tls : is_Some (tlss s !! tls t);
}.

Context `{!PrivateHeapLaws H}.

(** [adr] locates the block of each task. *)
Record sched_rel (adr : Z -> Z) (s : kst H) (g : vk) : Prop := {
  rel_all : dlist (lists s) NTaskList ((fun i => NHead (adr i)) <$> ids g);
  rel_rdy : dlist (lists s) NReadyList ((fun i => NReadyHead (adr i)) <$> rdy g);
  rel_task : forall i, i ∈ ids g -> exists t, tasks s !! adr i = Some t /\ task_rel s g i t;
  rel_sub : forall i, i ∈ rdy g -> i ∈ ids g;
  rel_cur : current_task_id s = cur g;
  rel_cpu : forall c, cur g ∈ ids g -> vregs g !! cur g = Some c -> cpu s = c;
  rel_timer : timer_on s = tmr g;
  rel_next : next_task_id s = nxt g;
  rel_ids : (forall i, i ∈ ids g -> 0 <= i < nxt g) /\ 0 <= nxt g <= 2 ^ 31;
  rel_wf : heap_wf (kheap s);
  rel_blocks : NoDup (0 :: (ids g ≫= fun i => blocks s (adr i)));
  rel_live : forall p, p ∈ ids g ≫= (fun i => blocks s (adr i)) -> p ∈ heap_live (kheap s);
}.

(** When an event may happen: a task is not queued twice, only the running
    task's code runs, a started task is not the running one, and a new task
    is described by a configuration that fits. *)
Definition ev_ok (s : kst H) (g : vk) (e : event) : Prop :=
  match e with
  | ETick => True
  | ERun _ => cur g ∈ ids g
  | EReady i => u32 i ∉ rdy g
  | ESuspend _ _ => True
  | EStart i _ => u32 i ∉ rdy g /\ u32 i <> cur g
  | ECreate cfg junk junk_tls =>
      (exec_mode s = 1 -> cur g ∈ ids g) /\ nxt g < 2 ^ 31 /\
      0 <= stack_size cfg <= heap_max (H := H) /\ 180 <= heap_max (H := H) /\
      map_Forall (fun a t => data cfg ∉ [a; tls t; task_sp t] /\ task_sp junk ∉ [a; tls t; task_sp t])
        (tasks s)
  | EDestroy _ => True
  end.

(** ** Lemmas on the relation *)

Lemma rel_task_at adr s g i :
  sched_rel adr s g -> i ∈ ids g ->
  exists t, tasks s !! adr i = Some t /\ task_rel s g i t.
Proof. intros R. apply R. Qed.

Lemma adr_inj adr s g i j :
  sched_rel adr s g -> i ∈ ids g -> j ∈ ids g -> adr i = adr j -> i = j.
Proof.
  intros R Hi Hj E. destruct (rel_task _ _ _ R i Hi) as (t & Et & Ht).
  destruct (rel_task _ _ _ R j Hj) as (t' & Et' & Ht'). rewrite E in Et. simplify_eq.
  by rewrite <-(tr_id _ _ _ _ Ht), <-(tr_id _ _ _ _ Ht').
Qed.

Lemma ids_nodup adr s g : sched_rel adr s g -> NoDup (ids g).
Proof.
  intros R. pose proof (dlist_nodup _ _ _ (rel_all _ _ _ R)) as N.
  apply NoDup_cons in N as [_ N]. by apply NoDup_fmap_1 in N.
Qed.

Lemma rdy_nodup adr s g : sched_rel adr s g -> NoDup (rdy g).
Proof.
  intros R. pose proof (dlist_nodup _ _ _ (rel_rdy _ _ _ R)) as N.
  apply NoDup_cons in N as [_ N]. by apply NoDup_fmap_1 in N.
Qed.

(** Searching a list of nodes by the identifier they stand for. *)
Lemma find_fst_image {A B} (f : A -> B) (p : B -> bool) `{EqDecision A} i l :
  (forall j, j ∈ l -> p (f j) = bool_decide (j = i)) ->
  find_fst p (f <$> l) = if decide (i ∈ l) then Some (f i) else None.
Proof.
  induction l as [|j l IH]; intros Hp.
  { rewrite decide_False by apply not_elem_of_nil. done. }
  cbn [fmap list_fmap find_fst]. rewrite Hp by set_solver. case_bool_decide as E.
  - subst. rewrite decide_True by set_solver. done.
  - rewrite IH by (intros; apply Hp; set_solver).
    destruct (decide (i ∈ l)); [rewrite decide_True by set_solver|rewrite decide_False by set_solver]; done.
Qed.

Lemma find_task_rel adr s g i :
  sched_rel adr s g ->
  find_task i s = Ret (if decide (i ∈ ids g) then Some (adr i) else None).
Proof.
  intros R. unfold find_task. rewrite (list_empty_spec _ _ _ (rel_all _ _ _ R)). cbn.
  case_bool_decide as E.
  { apply fmap_nil_inv in E. rewrite E, decide_False by apply not_elem_of_nil. done. }
  set (p := fun n => match n with
    | NHead a => match tasks s !! a with Some t => task_id t =? i | None => false end
    | _ => false end).
  rewrite (list_search_spec (has_id i s) p _ _ _ (rel_all _ _ _ R)).
  - rewrite (find_fst_image (fun j => NHead (adr j)) p i).
    + cbn. by destruct (decide (i ∈ ids g)).
    + intros j Hj. destruct (rel_task _ _ _ R j Hj) as (t & Et & Ht). unfold p.
      rewrite Et, (tr_id _ _ _ _ Ht). apply eq_bool_prop_intro.
      by rewrite bool_decide_spec, Is_true_true, Z.eqb_eq.
  - intros k Hk. apply list_elem_of_fmap in Hk as (j & -> & Hj).
    destruct (rel_task _ _ _ R j Hj) as (t & Et & Ht). unfold has_id, p. cbn. by rewrite Et.
Qed.

Lemma get_current_task_rel adr s g :
  sched_rel adr s g -> get_current_task s = Ret (adr <$> v_cur g).
Proof.
  intros R. unfold get_current_task, v_cur. rewrite (rel_cur _ _ _ R), (find_task_rel _ _ _ _ R).
  by destruct (decide _).
Qed.

(** [task_rel] depends on few of the fields. *)
Lemma task_rel_ext s s' g g' i t :
  tlss s' = tlss s -> cur g' = cur g -> vst g' !! i = vst g !! i ->
  vregs g' !! i = vregs g !! i -> ictx g' !! i = ictx g !! i ->
  task_rel s g i t -> task_rel s' g' i t.
Proof. intros E1 E2 E3 E4 E5 []. constructor; rewrite ?E1, ?E2, ?E3, ?E4, ?E5; done. Qed.

(** The lists change. *)
Lemma rel_lists adr s g l q :
  sched_rel adr s g ->
  dlist l NTaskList ((fun i => NHead (adr i)) <$> ids g) ->
  dlist l NReadyList ((fun i => NReadyHead (adr i)) <$> q) ->
  (forall i, i ∈ q -> i ∈ ids g) ->
  sched_rel adr (set_lists l s) (set_rdy q g).
Proof.
  intros R D1 D2 Hq. constructor; try done; try apply R.
  intros i Hi. destruct (rel_task _ _ _ R i Hi) as (t & Et & Ht). exists t.
  split; [done|]. by apply (task_rel_ext s _ g).
Qed.

(** One task's block changes. *)
Lemma rel_upd adr s g g' i t t' :
  sched_rel adr s g -> i ∈ ids g -> tasks s !! adr i = Some t ->
  tls t' = tls t -> task_sp t' = task_sp t ->
  ids g' = ids g -> rdy g' = rdy g -> cur g' = cur g -> tmr g' = tmr g -> nxt g' = nxt g ->
  (forall j, j ∈ ids g -> j <> i ->
     vst g' !! j = vst g !! j /\ vregs g' !! j = vregs g !! j /\ ictx g' !! j = ictx g !! j) ->
  task_rel s g' i t' ->
  (forall c, cur g ∈ ids g -> vregs g' !! cur g = Some c -> cpu s = c) ->
  sched_rel adr (set_tasks (<[adr i := t']> (tasks s)) s) g'.
Proof.
  intros R Hi Et Htls Hsp Eids Erdy Ecur Etmr Enxt Hoth Ht' Hcpu.
  assert (Hb : forall j, blocks (set_tasks (<[adr i := t']> (tasks s)) s) (adr j) = blocks s (adr j)).
  { intros j. unfold blocks. cbn. destruct (decide (adr i = adr j)) as [E|E].
    - rewrite <-E, lookup_insert_eq, Et. by rewrite Htls, Hsp.
    - by rewrite lookup_insert_ne. }
  constructor; rewrite ?Eids, ?Erdy, ?Ecur, ?Etmr, ?Enxt; try apply R.
  - intros j Hj. destruct (decide (j = i)) as [->|Hne].
    + exists t'. split; [apply lookup_insert_eq|]. by apply (task_rel_ext s _ g').
    + destruct (rel_task _ _ _ R j Hj) as (tj & Ej & Hr). exists tj. split.
      * cbn. rewrite lookup_insert_ne; [done|]. intros E. by apply Hne, (adr_inj adr s g).
      * destruct (Hoth j Hj Hne) as (? & ? & ?). by apply (task_rel_ext s _ g).
  - exact Hcpu.
  - erewrite (list_bind_ext _ (fun j => blocks s (adr j)) _ (ids g)); [apply R|done|done].
  - erewrite (list_bind_ext _ (fun j => blocks s (adr j)) _ (ids g)); [apply R|done|done].
Qed.

(** ** Each operation follows the abstract machine *)

Lemma schedule_task_rel adr s g i :
  sched_rel adr s g -> i ∈ ids g -> i ∉ rdy g ->
  exists s', schedule_task (adr i) s = Ret s' /\ sched_rel adr s' (set_rdy (rdy g ++ [i]) g).
Proof.
  intros R Hi Hq. unfold schedule_task.
  destruct (list_add_tail_head (lists s) NReadyList _ (NReadyHead (adr i)) (rel_rdy _ _ _ R))
    as (l & -> & D & S).
  { rewrite not_elem_of_cons. split; [done|]. intros (j & E & Hj)%list_elem_of_fmap.
    simplify_eq. apply Hq. rewrite (adr_inj adr s g i j); [done|done|done|by apply R|done]. }
  cbn. eexists. split; [done|]. apply rel_lists; [done| | |].
  - eapply dlist_same_off; [exact S| |apply R]. set_solver.
  - by rewrite fmap_app.
  - intros j [?|Ej%list_elem_of_singleton]%elem_of_app; [by apply R|by subst].
Qed.

Lemma set_state_rel adr s g i st :
  sched_rel adr s g -> i ∈ ids g ->
  exists s', upd_task (adr i) (set_state st) s = Ret s' /\ sched_rel adr s' (set_vst i st g) /\
    lists s' = lists s.
Proof.
  intros R Hi. destruct (rel_task_at _ _ _ _ R Hi) as (t & Et & Ht). unfold upd_task. rewrite Et. cbn.
  eexists. split; [done|]. split; [|done].
  apply (rel_upd adr s g (set_vst i st g) i t); try done.
  - intros j Hj Hne. cbn. by rewrite lookup_insert_ne.
  - destruct Ht. constructor; try done. cbn. apply lookup_insert_eq.
  - apply R.
Qed.

Lemma v_state_rel adr s g i t :
  sched_rel adr s g -> i ∈ ids g -> tasks s !! adr i = Some t -> state t = v_state i g.
Proof.
  intros R Hi Et. destruct (rel_task_at _ _ _ _ R Hi) as (t' & Et' & Ht). simplify_eq.
  unfold v_state. by rewrite (tr_state _ _ _ _ Ht).
Qed.

Lemma runnable_rel adr s g :
  sched_rel adr s g ->
  runnable (adr <$> v_cur g) s =
    Ret (match v_cur g with Some c => v_runnable c g | None => false end).
Proof.
  intros R. unfold v_cur, runnable, v_runnable. destruct (decide _) as [Hc|Hc]; [|done]. cbn.
  destruct (rel_task_at _ _ _ _ R Hc) as (t & Et & _). rewrite Et. cbn.
  by rewrite (v_state_rel _ _ _ _ _ R Hc Et).
Qed.

Lemma v_cur_elem g c : v_cur g = Some c -> c ∈ ids g /\ c = cur g.
Proof. unfold v_cur. case_decide; [intros [= <-]; done|done]. Qed.

Lemma get_next_task_rel adr s g :
  sched_rel adr s g ->
  exists s', get_next_task s = Ret (adr <$> fst (v_next g), s') /\ sched_rel adr s' (snd (v_next g)).
Proof.
  intros R. unfold get_next_task. rewrite (get_current_task_rel _ _ _ R).
  rewrite (list_empty_spec _ _ _ (rel_rdy _ _ _ R)). cbn [mbind res_bind].
  unfold v_next. pose proof (rel_rdy _ _ _ R) as D. pose proof (rdy_nodup _ _ _ R) as N.
  destruct (rdy g) as [|n q] eqn:Eq; cbn [fmap list_fmap] in D |- *.
  - rewrite bool_decide_eq_true_2 by done. rewrite (runnable_rel _ _ _ R). cbn.
    exists s. split; [|done]. destruct (v_cur g) as [c|]; [|done]. by destruct (v_runnable c g).
  - rewrite bool_decide_eq_false_2 by done. apply NoDup_cons in N as [Nn N].
    destruct (list_pop_spec _ _ _ _ D) as (l & -> & D' & S). cbn [mbind res_bind ready_entry].
    assert (Hsub : forall i, i ∈ q -> i ∈ ids g) by (intros; apply R; rewrite Eq; set_solver).
    assert (R1 : sched_rel adr (set_lists l s) (set_rdy q g)).
    { apply rel_lists; [done| |done|done]. eapply dlist_same_off; [exact S| |apply R]. set_solver. }
    cbn [lists set_lists].
    set (p := fun k => match k with
      | NReadyHead a => bool_decide (Some a = adr <$> v_cur g) | _ => false end).
    rewrite (list_search_spec _ p _ _ _ D') by (by intros k (j & -> & _)%list_elem_of_fmap).
    destruct (v_cur g) as [c|] eqn:Ec; cbn [mbind res_bind fmap option_fmap option_map].
    + destruct (v_cur_elem _ _ Ec) as [Hc _].
      rewrite (find_fst_image (fun i => NReadyHead (adr i)) p c).
      2: { intros j Hj. unfold p. apply bool_decide_ext. split; [|by intros ->].
           intros [= E]. apply (adr_inj adr s g); [done|by apply Hsub|done|done]. }
      destruct (decide (c ∈ q)) as [Hin|Hin].
      { eexists. split; [done|]. exact R1. }
      pose proof (runnable_rel _ _ _ R) as Hr. rewrite Ec in Hr. cbn [fmap option_fmap option_map] in Hr.
      change (runnable (Some (adr c)) (set_lists l s)) with (runnable (Some (adr c)) s). rewrite Hr.
      cbn [mbind res_bind]. destruct (v_runnable c g).
      * destruct (schedule_task_rel adr _ _ c R1 Hc Hin) as (s' & -> & R'). eexists. split; [done|]. exact R'.
      * eexists. split; [done|]. exact R1.
    + rewrite (proj2 (find_fst_None p _)).
      2: { by intros k (j & -> & _)%list_elem_of_fmap. }
      cbn. eexists. split; [done|]. exact R1.
Qed.

(** Saving the running task's context is invisible. *)
Lemma save_rel adr s g c :
  sched_rel adr s g -> c ∈ ids g -> c = cur g ->
  exists s', upd_task (adr c) (set_task_regs (cpu s)) s = Ret s' /\ sched_rel adr s' g /\
    cpu s' = cpu s /\ (exists t, tasks s' !! adr c = Some t /\ task_regs t = cpu s).
Proof.
  intros R Hc ->. destruct (rel_task_at _ _ _ _ R Hc) as (t & Et & Ht). unfold upd_task. rewrite Et. cbn.
  eexists. split; [done|]. split; [|split; [done|]].
  - apply (rel_upd adr s g g (cur g) t); try done; [|apply R].
    destruct Ht. by constructor.
  - eexists. cbn. by rewrite lookup_insert_eq.
Qed.

(** The processor moves to [n]. *)
Lemma move_rel adr s g n tn :
  sched_rel adr s g -> n ∈ ids g -> n <> cur g -> tasks s !! adr n = Some tn ->
  (forall t c, cur g ∈ ids g -> tasks s !! adr (cur g) = Some t ->
     vregs g !! cur g = Some c -> task_regs t = c) ->
  sched_rel adr (set_cpu (task_regs tn) (set_current_task_id n s)) (set_cur n g).
Proof.
  intros R Hn Hne En Hold. constructor; try done; try apply R.
  - intros i Hi. destruct (rel_task_at _ _ _ _ R Hi) as (t & Et & Ht). exists t. split; [done|].
    destruct Ht as [T1 T2 T3 T4 T5]. constructor; try done. cbn. intros c Hci Hv.
    destruct (decide (cur g = i)) as [<-|]; [by eapply Hold|by apply T3].
  - intros c _ Hv. destruct (rel_task_at _ _ _ _ R Hn) as (t & Et & Ht).
    rewrite En in Et. injection Et as <-. by apply (tr_regs _ _ _ _ Ht).
Qed.

Lemma switch_rel adr s g n :
  sched_rel adr s g -> n ∈ ids g -> v_cur g <> Some n ->
  exists s', (s1 ← update_current_task (Some (adr n)) s;
              task_context_switch (Some (adr n)) (adr <$> v_cur g) s1) = Ret s' /\
    sched_rel adr s' (set_cur n g).
Proof.
  intros R Hn Hne. destruct (rel_task_at _ _ _ _ R Hn) as (tn & En & Htn).
  unfold update_current_task. rewrite En. cbn [of_opt mbind res_bind mret res_ret].
  rewrite (tr_id _ _ _ _ Htn).
  unfold task_context_switch. unfold v_cur in *. destruct (decide _) as [Hc|Hc].
  - assert (Hnc : n <> cur g) by congruence. cbn [fmap option_fmap option_map].
    destruct (save_rel adr s g _ R Hc eq_refl) as (s1 & E1 & R1 & Ecpu & t & Et & Hr).
    assert (E1' : upd_task (adr (cur g)) (set_task_regs (cpu (set_current_task_id n s)))
              (set_current_task_id n s) = Ret (set_current_task_id n s1)).
    { revert E1. unfold upd_task. cbn. destruct (tasks s !! adr (cur g)); [|done]. cbn. by intros [= <-]. }
    rewrite E1'. cbn [mbind res_bind].
    destruct (rel_task_at _ _ _ _ R1 Hn) as (tn' & En' & _). change (tasks (set_current_task_id n s1)) with (tasks s1).
    rewrite En'. cbn. eexists. split; [done|]. apply move_rel; [done..|].
    intros t' c _ Et' Hv. simplify_eq. rewrite Hr. by apply (rel_cpu _ _ _ R).
  - cbn. rewrite En. cbn. eexists. split; [done|]. apply move_rel; [done|done| |done|].
    + intros ->. done.
    + intros t c Hin. done.
Qed.

Lemma set_timer_rel adr s g b : sched_rel adr s g -> sched_rel adr (set_timer_on b s) (set_tmr b g).
Proof.
  intros R. constructor; try done; try apply R.
  intros i Hi. destruct (rel_task_at _ _ _ _ R Hi) as (t & Et & Ht). exists t. split; [done|].
  by apply (task_rel_ext s _ g).
Qed.

Lemma v_next_elem adr s g n : sched_rel adr s g -> fst (v_next g) = Some n -> n ∈ ids g.
Proof.
  intros R. unfold v_next. pose proof (rel_sub _ _ _ R) as Hs. destruct (rdy g) as [|m q]; cbn.
  - destruct (v_cur g) as [c|] eqn:E; [|done]. destruct (v_runnable c g); [|done].
    intros [= <-]. by apply v_cur_elem in E as [? _].
  - intros [= <-]. apply Hs. set_solver.
Qed.

Lemma v_next_same g : v_cur (snd (v_next g)) = v_cur g /\ ids (snd (v_next g)) = ids g.
Proof. unfold v_next. by destruct (rdy g). Qed.

Lemma scheduler_rel adr s g :
  sched_rel adr s g -> exists s', scheduler s = Ret s' /\ sched_rel adr s' (v_tick g).
Proof.
  intros R. unfold scheduler, v_tick. rewrite (get_current_task_rel _ _ _ R). cbn [mbind res_bind].
  destruct (get_next_task_rel _ _ _ R) as (s1 & -> & R1). cbn [mbind res_bind].
  pose proof (v_next_elem adr s g) as Hel. destruct (v_next_same g) as [Hcur Hids]. destruct (v_next g) as [[n|] g1]; cbn [fst snd] in *.
  - specialize (Hel n R eq_refl). case_decide as Ec.
    + rewrite bool_decide_eq_true_2 by (by rewrite Ec). cbn. eauto.
    + rewrite bool_decide_eq_false_2.
      2: { destruct (v_cur g) as [c|] eqn:E; [|done]. intros [= Ea]. apply Ec. f_equal.
           apply v_cur_elem in E as [? _]. by apply (adr_inj adr s g). }
      cbn [fmap option_fmap option_map]. rewrite <-Hids in Hel.
      destruct (set_state_rel adr s1 g1 n TASK_STATE_RUNNING R1 Hel) as (s2 & E2 & R2 & _).
      rewrite E2. cbn [mbind res_bind].
      destruct (switch_rel adr s2 _ n R2 Hel) as (s3 & E3 & R3).
      { change (v_cur (set_vst n TASK_STATE_RUNNING g1)) with (v_cur g1). by rewrite Hcur. }
      change (v_cur (set_vst n TASK_STATE_RUNNING g1)) with (v_cur g1) in E3. rewrite Hcur in E3.
      rewrite E3. cbn. eauto.
  - case_bool_decide as E; cbn [mbind res_bind mret res_ret].
    + eexists. split; [done|]. by apply set_timer_rel.
    + destruct (v_cur g) as [c|] eqn:Ec; [|done]. cbn [fmap option_fmap option_map task_context_switch].
      destruct (v_cur_elem _ _ Hcur) as [Hc ->].
      destruct (save_rel adr s1 g1 _ R1 Hc eq_refl) as (s2 & E2 & R2 & _).
      unfold task_context_switch. cbn [mbind res_bind mret res_ret]. rewrite E2. cbn.
      eexists. split; [done|]. by apply set_timer_rel.
Qed.

Lemma schedule_task_id_rel adr s g i :
  sched_rel adr s g -> u32 i ∉ rdy g ->
  exists s', schedule_task_id i s = Ret s' /\ sched_rel adr s' (v_ready (u32 i) g).
Proof.
  intros R Hq. unfold schedule_task_id, get_task, v_ready. rewrite (find_task_rel _ _ _ _ R).
  cbn [mbind res_bind]. destruct (decide _) as [Hi|Hi]; [|by eexists].
  destruct (set_state_rel adr s g _ TASK_STATE_READY_TO_RUN R Hi) as (s1 & -> & R1 & _).
  exact (schedule_task_rel adr s1 _ (u32 i) R1 Hi Hq).
Qed.

(** The current task is given up. *)
Lemma drop_cur_rel adr s g :
  sched_rel adr s g ->
  sched_rel adr (set_current_task_id no_task s)
    (set_cur no_task (set_vregs (delete (cur g) (vregs g)) g)).
Proof.
  intros R. constructor; try done; try apply R.
  - intros i Hi. destruct (rel_task_at _ _ _ _ R Hi) as (t & Et & []). exists t. split; [done|].
    constructor; try done. cbn. intros c _. rewrite lookup_delete_Some. intros [? ?]. auto.
  - intros c Hc. exfalso. apply (proj1 (rel_ids _ _ _ R)) in Hc. pose proof (proj2 (rel_ids _ _ _ R)).
    revert Hc. unfold set_cur, no_task. cbn. change (u32 (-1)) with 4294967295. lia.
Qed.

Lemma suspend_task_rel adr s g i st :
  sched_rel adr s g ->
  exists s', suspend_task i st s = Ret s' /\ sched_rel adr s' (v_suspend (u32 i) (u32 st) g).
Proof.
  intros R. unfold suspend_task, v_suspend. rewrite (find_task_rel _ _ _ _ R).
  cbn [mbind res_bind]. destruct (decide (u32 i ∈ ids g)) as [Hi|Hi]; [|by eexists].
  destruct (set_state_rel adr s g _ (u32 st) R Hi) as (s1 & -> & R1 & _). cbn [mbind res_bind].
  eexists. split; [done|]. rewrite (rel_cur _ _ _ R1). cbn.
  destruct (Z.eqb_spec (cur g) (u32 i)) as [E1|E1], (Z.eqb_spec (u32 st) TASK_STATE_SUSPEND) as [E2|E2];
    cbn [andb]; case_decide; try tauto.
  apply drop_cur_rel in R1. cbn in R1. by rewrite E1 in R1.
Qed.

Lemma start_task_rel adr s g i ps :
  sched_rel adr s g -> u32 i ∉ rdy g -> u32 i <> cur g ->
  exists r s', start_task i ps s = Ret (r, s') /\ sched_rel adr s' (v_start (u32 i) g) /\
    r = if decide (u32 i ∈ ids g) then OTZ_OK else OTZ_EFAIL.
Proof.
  intros R Hq Hc. unfold start_task, v_start. rewrite (find_task_rel _ _ _ _ R).
  cbn [mbind res_bind]. destruct (decide (u32 i ∈ ids g)) as [Hi|Hi]; [|by eexists _, _].
  destruct (rel_task_at _ _ _ _ R Hi) as (t & Et & Ht).
  unfold cpu_task_init, upd_task. rewrite Et. cbn [of_opt mbind res_bind mret res_ret].
  cbn [negb Z.eqb OTZ_OK tasks set_tasks].
  rewrite lookup_insert_eq. cbn [of_opt mbind res_bind mret res_ret tlss set_tasks tls set_task_regs].
  destruct (tr_tls _ _ _ _ Ht) as [l El]. rewrite El. cbn [of_opt mbind res_bind mret res_ret].
  set (s1 := set_tasks _ s).
  set (g1 := set_vregs (partial_alter (fun _ => ictx g !! u32 i) (u32 i) (vregs g)) g).
  assert (R1 : sched_rel adr s1 g1).
  { apply (rel_upd adr s g g1 (u32 i) t); try done.
    - intros j Hj Hne. cbn. by rewrite lookup_partial_alter_ne.
    - destruct Ht as [T1 T2 T3 T4 T5]. constructor; try done. cbn. intros c _.
      rewrite lookup_partial_alter_eq, T4. by intros [= <-].
    - cbn. intros c Hin. rewrite lookup_partial_alter_ne by done. by apply (rel_cpu _ _ _ R). }
  set (l' := set_params _ l).
  assert (R2 : sched_rel adr (set_tlss (<[tls t := l']> (tlss s)) s1) g1).
  { constructor; try done; try apply R1.
    intros j Hj. destruct (rel_task_at _ _ _ _ R1 Hj) as (tj & Etj & []). exists tj. split; [done|].
    constructor; try done. cbn. destruct (decide (tls t = tls tj)) as [<-|].
    - rewrite lookup_insert_eq. by eexists.
    - by rewrite lookup_insert_ne. }
  destruct (schedule_task_rel adr _ _ _ R2 Hi Hq) as (s' & E & R'). rewrite E. cbn.
  eexists _, _. split; [done|]. by split.
Qed.

(** *** Destruction *)

Lemma k_free_ok hid p (s : kst H) :
  heap_wf (kheap s) ->
  exists h, k_free hid p s = Ret (set_kheap h s) /\ heap_wf h /\
    heap_live (kheap s) ∖ {[p]} ⊆ heap_live h.
Proof.
  intros Hwf. unfold k_free. destruct (heap_free_ok hid p _ Hwf) as (h & -> & ? & ? & _).
  cbn. eauto.
Qed.

Lemma list_bind_ext_elem {A B} (f g : A -> list B) l :
  (forall x, x ∈ l -> f x = g x) -> l ≫= f = l ≫= g.
Proof.
  induction l as [|x l IH]; intros E; [done|]. cbn. rewrite E by set_solver.
  f_equal. apply IH. set_solver.
Qed.

(** What [free_task] leaves. *)
Lemma free_task_ok id a (s : kst H) t :
  heap_wf (kheap s) -> tasks s !! a = Some t -> tls t <> 0 ->
  exists h, free_task id a s =
      Ret (set_kheap h (set_tasks (delete a (tasks s)) (set_tlss (delete (tls t) (tlss s)) s))) /\
    heap_wf h /\ heap_live (kheap s) ∖ {[tls t]} ∖ {[task_sp t]} ∖ {[a]} ⊆ heap_live h.
Proof.
  intros Hwf Et Hne. unfold free_task. rewrite Et. cbn [of_opt mbind res_bind].
  apply Z.eqb_neq in Hne. rewrite Hne.
  destruct (k_free_ok id (tls t) (set_tlss (delete (tls t) (tlss s)) s) Hwf) as (h1 & -> & W1 & L1).
  cbn [mbind res_bind].
  destruct (k_free_ok id (task_sp t) (set_kheap h1 (set_tlss (delete (tls t) (tlss s)) s)) W1) as (h2 & -> & W2 & L2).
  cbn [mbind res_bind].
  match goal with |- context [k_free id a ?x] => destruct (k_free_ok id a x W2) as (h3 & -> & W3 & L3) end.
  cbn [mbind res_bind]. pose proof (heap_free_private_ok id h3 W3) as [W4 L4].
  change (kheap (set_kheap h3 _)) with h3. destruct (heap_free_private id h3) as [r h4]. cbn in *.
  eexists. split; [reflexivity|]. split; [done|]. rewrite L4. set_solver.
Qed.

Lemma NoDup_bind_remove {A B} (f : A -> list B) l1 x l2 :
  NoDup ((l1 ++ x :: l2) ≫= f) ->
  NoDup ((l1 ++ l2) ≫= f) /\ forall p, p ∈ f x -> p ∉ (l1 ++ l2) ≫= f.
Proof.
  rewrite !bind_app. cbn. intros N.
  rewrite (Permutation_app_comm (f x)), app_assoc in N. apply NoDup_app in N as (N1 & N2 & _).
  split; [done|]. intros p Hp Hin. by apply (N2 p).
Qed.

Lemma blocks_other adr s g i j :
  sched_rel adr s g -> i ∈ ids g -> j ∈ ids g -> i <> j -> forall t, tasks s !! adr i = Some t ->
  forall p, p ∈ blocks s (adr j) -> p <> tls t /\ p <> task_sp t /\ p <> adr i.
Proof.
  intros R Hi Hj Hne t Et p Hp. pose proof (rel_blocks _ _ _ R) as N.
  apply NoDup_cons in N as [_ N]. apply list_elem_of_split in Hi as (l1 & l2 & E). rewrite E in N.
  apply NoDup_bind_remove in N as [_ N].
  assert (Hin : p ∈ (l1 ++ l2) ≫= (fun i => blocks s (adr i))).
  { apply list_elem_of_bind. exists j. split; [done|]. rewrite E in Hj. set_solver. }
  split_and!; intros ->; eapply N; try exact Hin; unfold blocks; rewrite Et; set_solver.
Qed.

(** The ready list after [unready]. *)
Lemma unready_rel adr s g l i :
  sched_rel adr s g ->
  dlist l NReadyList ((fun i => NReadyHead (adr i)) <$> rdy g) ->
  exists l', unready i (set_lists l s) = Ret (set_lists l' s) /\
    dlist l' NReadyList ((fun i => NReadyHead (adr i)) <$> filter (fun j => j <> i) (rdy g)) /\
    same_off (NReadyList :: ((fun i => NReadyHead (adr i)) <$> rdy g)) l l'.
Proof.
  intros R D. unfold unready. cbn [lists set_lists]. rewrite (list_empty_spec _ _ _ D). cbn [mbind res_bind].
  case_bool_decide as E.
  { apply fmap_nil_inv in E. rewrite E. exists l. split; [done|]. split; [|done].
    rewrite E in D. exact D. }
  set (p := fun n => match n with
    | NReadyHead a => match tasks s !! a with Some t => task_id t =? i | None => false end
    | _ => false end).
  assert (Ht : forall j, j ∈ rdy g -> exists t, tasks s !! adr j = Some t /\ task_id t = j).
  { intros j Hj. apply (rel_sub _ _ _ R) in Hj. destruct (rel_task _ _ _ R j Hj) as (t & Et & []).
    by exists t. }
  rewrite (list_search_spec _ p _ _ _ D).
  2: { intros k (j & -> & Hj)%list_elem_of_fmap. destruct (Ht j Hj) as (t & Et & _). unfold p. cbn.
       by rewrite Et. }
  rewrite (find_fst_image (fun j => NReadyHead (adr j)) p i).
  2: { intros j Hj. destruct (Ht j Hj) as (t & Et & Hid). unfold p. rewrite Et, Hid.
       apply eq_bool_prop_intro. by rewrite bool_decide_spec, Is_true_true, Z.eqb_eq. }
  cbn [mbind res_bind]. destruct (decide (i ∈ rdy g)) as [Hi|Hi].
  - apply list_elem_of_split in Hi as (l1 & l2 & Eq). pose proof (rdy_nodup _ _ _ R) as N.
    rewrite Eq in *. rewrite fmap_app in D. cbn [fmap list_fmap] in D.
    destruct (dlist_remove _ _ _ _ _ D) as (l' & -> & D' & _ & _ & S). cbn [mbind res_bind].
    exists l'. split; [done|]. rewrite filter_remove by done. rewrite !fmap_app. done.
  - exists l. split; [done|]. split; [|done]. rewrite filter_id; [done|]. intros j Hj ->. done.
Qed.

Lemma destroy_task_rel adr s g i :
  sched_rel adr s g ->
  exists r s', destroy_task i s = Ret (r, s') /\ sched_rel adr s' (v_destroy (u32 i) g) /\
    r = if decide (u32 i ∈ ids g) then OTZ_OK else OTZ_EFAIL.
Proof.
  intros R. unfold destroy_task, v_destroy. rewrite (find_task_rel _ _ _ _ R).
  cbn [mbind res_bind]. destruct (decide (u32 i ∈ ids g)) as [Hi|Hi]; [|by eexists _, _].
  set (k := u32 i) in *. destruct (rel_task_at _ _ _ _ R Hi) as (t & Et & Ht).
  pose proof (ids_nodup _ _ _ R) as N. pose proof (list_elem_of_split _ _ Hi) as (l1 & l2 & Eids).
  pose proof (rel_all _ _ _ R) as D. rewrite Eids, fmap_app in D. cbn [fmap list_fmap] in D.
  destruct (dlist_remove _ _ _ _ _ D) as (l & -> & D1 & _ & _ & S1). cbn [mbind res_bind].
  assert (Dr : dlist l NReadyList ((fun i => NReadyHead (adr i)) <$> rdy g)).
  { eapply dlist_same_off; [exact S1| |apply R].
    set_solver. }
  destruct (unready_rel adr s g l k R Dr) as (l' & -> & Dr' & S2). cbn [mbind res_bind].
  assert (Htls : tls t <> 0).
  { pose proof (rel_blocks _ _ _ R) as [N0 _]%NoDup_cons. intros E0. apply N0, list_elem_of_bind.
    exists k. split; [|done]. unfold blocks. rewrite Et, E0. set_solver. }
  destruct (free_task_ok i (adr k) (set_lists l' s) t (rel_wf _ _ _ R) Et Htls) as (h & -> & Hwf & Hl).
  cbn [mbind res_bind]. eexists _, _. split; [reflexivity|]. split; [|done].
  rewrite Eids, filter_remove by (by rewrite <-Eids).
  assert (Hoth : forall j, j ∈ l1 ++ l2 -> j ∈ ids g /\ k <> j).
  { intros j Hj. rewrite Eids in N |- *. apply NoDup_app in N as (_ & N1 & N2).
    apply NoDup_cons in N2 as [N2 _]. set_solver. }
  assert (Hblk : forall j, j ∈ l1 ++ l2 ->
    blocks (set_kheap h (set_tasks (delete (adr k) (tasks s)) (set_tlss (delete (tls t) (tlss s)) s))) (adr j)
      = blocks s (adr j)).
  { intros j Hj. destruct (Hoth j Hj) as [Hj' Hne]. unfold blocks. cbn.
    rewrite lookup_delete_ne; [done|]. intros E. by apply Hne, (adr_inj adr s g). }
  pose proof (rel_blocks _ _ _ R) as [N0 Nb]%NoDup_cons. rewrite Eids in N0, Nb.
  pose proof (NoDup_bind_remove _ _ _ _ Nb) as [Nb' Nk].
  assert (Hbind : (l1 ++ l2) ≫= (fun j => blocks (set_kheap h (set_tasks (delete (adr k) (tasks s))
      (set_tlss (delete (tls t) (tlss s)) s))) (adr j)) = (l1 ++ l2) ≫= (fun j => blocks s (adr j))).
  { apply list_bind_ext_elem. exact Hblk. }
  constructor; cbn [ids rdy lists set_lists set_kheap set_tasks set_tlss tasks tlss kheap]; try apply R.
  - rewrite fmap_app. eapply dlist_same_off; [exact S2| |exact D1]. set_solver.
  - exact Dr'.
  - intros j Hj. destruct (Hoth j Hj) as [Hj' Hne]. destruct (rel_task_at _ _ _ _ R Hj') as (tj & Etj & Htj).
    exists tj. split.
    + rewrite lookup_delete_ne; [done|]. intros E. by apply Hne, (adr_inj adr s g).
    + destruct Htj. constructor; try done. cbn. rewrite lookup_delete_ne; [done|].
      apply not_eq_sym. eapply (blocks_other adr s g k j); [done..|]. unfold blocks. rewrite Etj. set_solver.
  - intros j [Hne Hj]%list_elem_of_filter. pose proof (rel_sub _ _ _ R j Hj) as Hj'. rewrite Eids in Hj'.
    set_solver.
  - intros c Hc. apply (rel_cpu _ _ _ R). by apply Hoth.
  - split; [|apply R]. intros j Hj. apply (rel_ids _ _ _ R). by apply Hoth.
  - done.
  - match goal with |- NoDup (0 :: ?x) => replace x with ((l1 ++ l2) ≫= (fun j => blocks s (adr j))) by exact (eq_sym Hbind) end.
    apply NoDup_cons. split; [|done]. rewrite !bind_app in N0 |- *. cbn in N0. set_solver.
  - match goal with |- forall p, p ∈ ?x -> _ => replace x with ((l1 ++ l2) ≫= (fun j => blocks s (adr j))) by exact (eq_sym Hbind) end.
    intros p Hp. apply Hl. assert (Hne : p <> tls t /\ p <> task_sp t /\ p <> adr k).
    { split_and!; intros ->; eapply Nk; try exact Hp; unfold blocks; rewrite Et; set_solver. }
    assert (p ∈ heap_live (kheap s)).
    { apply (rel_live _ _ _ R). rewrite Eids. rewrite !bind_app in Hp |- *. cbn. set_solver. }
    set_solver.
Qed.

(** *** Creation *)

Lemma rel_heap adr s g h :
  sched_rel adr s g -> heap_wf h ->
  (forall p, p ∈ ids g ≫= (fun i => blocks s (adr i)) -> p ∈ heap_live h) ->
  sched_rel adr (set_kheap h s) g.
Proof.
  intros R Hwf Hl. constructor; try done; try apply R.
  intros i Hi. destruct (rel_task_at _ _ _ _ R Hi) as (t & Et & Ht). exists t. split; [done|].
  by apply (task_rel_ext s _ g).
Qed.

Lemma rel_nxt adr s g n :
  sched_rel adr s g -> nxt g <= n <= 2 ^ 31 -> sched_rel adr (set_next_task_id n s) (set_nxt n g).
Proof.
  intros R Hn. constructor; try done; try apply R.
  - intros i Hi. destruct (rel_task_at _ _ _ _ R Hi) as (t & Et & Ht). exists t. split; [done|].
    by apply (task_rel_ext s _ g).
  - cbn. pose proof (rel_ids _ _ _ R) as [Hi ?]. split; [|lia].
    intros i Hin. apply Hi in Hin. lia.
Qed.

Lemma rel_tlss adr s g q l :
  sched_rel adr s g -> sched_rel adr (set_tlss (<[q := l]> (tlss s)) s) g.
Proof.
  intros R. constructor; try done; try apply R.
  intros j Hj. destruct (rel_task_at _ _ _ _ R Hj) as (tj & Etj & []). exists tj. split; [done|].
  constructor; try done. cbn. destruct (decide (q = tls tj)) as [<-|].
  - rewrite lookup_insert_eq. by eexists.
  - by rewrite lookup_insert_ne.
Qed.

(** Everything a live task owns. *)
Definition owned (adr : Z -> Z) (s : kst H) (g : vk) : list Z := ids g ≫= fun i => blocks s (adr i).

Lemma k_malloc_rel adr hid size s g :
  sched_rel adr s g -> 0 <= size <= heap_max (H := H) ->
  exists p h, k_malloc hid size s = Ret (p, set_kheap h s) /\ sched_rel adr (set_kheap h s) g /\
    heap_live (kheap s) ⊆ heap_live h /\
    (p <> 0 -> p ∉ owned adr s g /\ p ∉ heap_live (kheap s) /\ p ∈ heap_live h).
Proof.
  intros R Hs. unfold k_malloc.
  destruct (heap_malloc_ok hid size _ (rel_wf _ _ _ R) Hs) as (p & h & -> & Hwf & Hc). cbn.
  exists p, h. split; [done|]. pose proof (rel_live _ _ _ R) as Hlive.
  assert (Hl : heap_live (kheap s) ⊆ heap_live h) by (destruct Hc as [[_ ->]|(_ & _ & ->)]; set_solver).
  split; [|split; [done|]].
  - apply rel_heap; [done|done|]. intros q Hq. by apply Hl, Hlive.
  - intros Hp. destruct Hc as [[? _]|(_ & Hf & ->)]; [done|]. split; [|split; [done|set_solver]].
    intros Hin. by apply Hf, Hlive.
Qed.

Lemma k_free_rel adr hid p s g :
  sched_rel adr s g -> p ∉ owned adr s g ->
  exists h, k_free hid p s = Ret (set_kheap h s) /\ sched_rel adr (set_kheap h s) g.
Proof.
  intros R Hp. destruct (k_free_ok hid p s (rel_wf _ _ _ R)) as (h & -> & Hwf & Hl).
  exists h. split; [done|]. apply rel_heap; [done|done|].
  intros q Hq. apply Hl. pose proof (rel_live _ _ _ R q Hq). set_solver.
Qed.

Lemma create_task_err_rel adr cfg tmp a q r s g :
  sched_rel adr s g -> (forall x, x ∈ [data cfg; a; q; r] -> x ∉ owned adr s g) ->
  exists h, create_task_err cfg tmp a q r s = Ret (set_kheap h s) /\ sched_rel adr (set_kheap h s) g.
Proof.
  intros R Hx. unfold create_task_err.
  assert (Hstep : forall (b : bool) hid x s1, x ∈ [data cfg; a; q; r] ->
    (exists h, s1 = set_kheap h s) -> sched_rel adr s1 g ->
    exists s2, (if b then mret s1 else k_free hid x s1) = Ret s2 /\
      (exists h, s2 = set_kheap h s) /\ sched_rel adr s2 g).
  { intros b hid x s1 Hin [h ->] R1. destruct b; [by eauto|].
    destruct (k_free_rel adr hid x (set_kheap h s) g R1 (Hx x Hin)) as (h' & E & R2).
    exists (set_kheap h' s). split; [exact E|]. split; [by eauto|exact R2]. }
  assert (R0 : exists h, s = set_kheap h s) by (exists (kheap s); by destruct s).
  assert (Hd : exists hid, (if data cfg =? 0 then mret s
       else if bool_decide (service_name cfg = "dispatcher"%string)
       then k_free COMMON_HEAP_ID (data cfg) s
       else k_free (s32 (current_task_id s)) (data cfg) s)
     = (if data cfg =? 0 then mret s else k_free hid (data cfg) s))
    by (case_bool_decide; eauto).
  destruct Hd as [hid ->].
  destruct (Hstep (data cfg =? 0) hid (data cfg) s) as (s1 & -> & H1 & R1); [set_solver|done|done|].
  cbn [mbind res_bind].
  destruct (Hstep (q =? 0) tmp q s1) as (s2 & -> & H2 & R2); [set_solver|done|done|].
  cbn [mbind res_bind].
  destruct (Hstep (r =? 0) tmp r s2) as (s3 & -> & H3 & R3); [set_solver|done|done|].
  cbn [mbind res_bind].
  destruct (Hstep false tmp a s3) as (s4 & -> & [h ->] & R4); [set_solver|done|done|]. eauto.
Qed.

Lemma create_denied_ok adr cfg s g :
  sched_rel adr s g -> (exec_mode s = 1 -> cur g ∈ ids g) -> exists b, create_denied cfg s = Ret b.
Proof.
  intros R Hc. unfold create_denied. destruct (Z.eqb_spec (exec_mode s) 1) as [E|]; [|by eexists].
  rewrite (get_current_task_rel _ _ _ R). unfold v_cur. rewrite decide_True by auto.
  cbn [mbind res_bind fmap option_fmap option_map].
  destruct (rel_task_at _ _ _ _ R (Hc E)) as (t & -> & _). cbn [of_opt mbind res_bind mret res_ret].
  rewrite E, getPermission_allowed. cbn. by eexists.
Qed.

Lemma adr_owned adr s g i : sched_rel adr s g -> i ∈ ids g -> adr i ∈ owned adr s g.
Proof.
  intros R Hi. apply list_elem_of_bind. exists i. split; [|done]. unfold blocks.
  destruct (rel_task_at _ _ _ _ R Hi) as (t & -> & _). set_solver.
Qed.

Lemma NoDup_4 (a b c d : Z) :
  a <> b -> a <> c -> a <> d -> b <> c /\ b <> d /\ c <> d -> NoDup [a; b; c; d].
Proof.
  intros ??? (? & ? & ?).
  repeat (apply NoDup_cons; split; [rewrite ?not_elem_of_cons; split_and?; done || apply not_elem_of_nil|]).
  apply NoDup_nil_2.
Qed.

(** The three blocks of a new task. *)
Record new_blocks (adr : Z -> Z) (s : kst H) (g : vk) (p q r : Z) : Prop := {
  nb_nodup : NoDup [0; p; q; r];
  nb_fresh : forall x, x ∈ [p; q; r] -> x ∉ owned adr s g /\ x ∈ heap_live (kheap s);
  nb_tls : is_Some (tlss s !! q);
}.

Definition adr_new (adr : Z -> Z) (n p : Z) : Z -> Z := fun j => if decide (j = n) then p else adr j.

Lemma fmap_adr_new (f : Z -> node) adr n p (l : list Z) :
  n ∉ l -> (fun i => f (adr_new adr n p i)) <$> l = (fun i => f (adr i)) <$> l.
Proof.
  intros Hn. apply list_fmap_ext. intros k x Hx. unfold adr_new. rewrite decide_False; [done|].
  intros ->. apply Hn. by apply list_elem_of_lookup_2 in Hx.
Qed.

(** The lists after the three [INIT_LIST_HEAD]s and the insertion. *)
Lemma create_lists adr s g p :
  sched_rel adr s g -> p ∉ owned adr s g ->
  exists l, list_add_tail NTaskList (NHead p)
      (INIT_LIST_HEAD (NPendingHead p) (INIT_LIST_HEAD (NReadyHead p) (INIT_LIST_HEAD (NHead p) (lists s)))) = Ret l /\
    dlist l NTaskList (((fun i => NHead (adr i)) <$> ids g) ++ [NHead p]) /\
    dlist l NReadyList ((fun i => NReadyHead (adr i)) <$> rdy g).
Proof.
  intros R Hp. set (l0 := INIT_LIST_HEAD _ _).
  assert (Hne : forall i, i ∈ ids g -> adr i <> p) by (intros i Hi <-; by apply Hp, adr_owned).
  assert (S0 : same_off [NHead p; NReadyHead p; NPendingHead p] (lists s) l0).
  { eapply same_off_trans; [apply (same_off_weaken [NHead p]); [set_solver|apply init_same_off]|].
    eapply same_off_trans; [apply (same_off_weaken [NReadyHead p]); [set_solver|apply init_same_off]|].
    apply (same_off_weaken [NPendingHead p]); [set_solver|apply init_same_off]. }
  assert (D1 : dlist l0 NTaskList ((fun i => NHead (adr i)) <$> ids g)).
  { eapply dlist_same_off; [exact S0| |apply R]. intros k [->|(i & -> & Hi)%list_elem_of_fmap]%elem_of_cons.
    - set_solver.
    - pose proof (Hne i Hi). set_solver. }
  assert (D2 : dlist l0 NReadyList ((fun i => NReadyHead (adr i)) <$> rdy g)).
  { eapply dlist_same_off; [exact S0| |apply R]. intros k [->|(i & -> & Hi)%list_elem_of_fmap]%elem_of_cons.
    - set_solver.
    - pose proof (Hne i (rel_sub _ _ _ R i Hi)). set_solver. }
  destruct (list_add_tail_head l0 NTaskList _ (NHead p) D1) as (l & E & D & S).
  { rewrite not_elem_of_cons. split; [done|]. intros (i & Ei & Hi)%list_elem_of_fmap. simplify_eq.
    by apply (Hne i). }
  exists l. split; [done|]. split; [done|]. eapply dlist_same_off; [exact S| |exact D2]. set_solver.
Qed.

(** The machine with a new task, from the fields of the state. *)
Lemma rel_insert adr s g p q r t c s' :
  sched_rel adr s (set_nxt (nxt g + 1) g) -> (forall i, i ∈ ids g -> i < nxt g) -> 0 <= nxt g ->
  new_blocks adr s g p q r ->
  dlist (lists s') NTaskList (((fun i => NHead (adr i)) <$> ids g) ++ [NHead p]) ->
  dlist (lists s') NReadyList ((fun i => NReadyHead (adr i)) <$> rdy g) ->
  tasks s' = <[p := t]> (tasks s) -> tlss s' = tlss s -> cpu s' = cpu s -> timer_on s' = timer_on s ->
  next_task_id s' = next_task_id s -> current_task_id s' = current_task_id s ->
  heap_wf (kheap s') -> heap_live (kheap s) ⊆ heap_live (kheap s') ->
  task_id t = nxt g -> state t = TASK_STATE_SUSPEND -> tls t = q -> task_sp t = r ->
  cpu_task_regs_init t = c ->
  sched_rel (adr_new adr (nxt g) p) s' (v_create c g) /\
  owned (adr_new adr (nxt g) p) s' (v_create c g) = owned adr s g ++ [p; q; r].
Proof.
  intros R Hlt H0n [Nd Hf Htls] D1 D2 Et Etls Ecpu Etm En Ec Hwf Hl T1 T2 T3 T4 T5.
  assert (Hn : nxt g ∉ ids g) by (intros Hin%Hlt; lia).
  assert (Hnr : nxt g ∉ rdy g) by (intros Hin; by apply Hn, (rel_sub _ _ _ R)).
  assert (Hnp : forall i, i ∈ ids g -> adr i <> p).
  { intros i Hi <-. destruct (Hf (adr i)) as [Hno _]; [set_solver|]. by apply Hno, (adr_owned adr s (set_nxt (nxt g + 1) g)). }
  assert (Hold : forall i, i ∈ ids g -> adr_new adr (nxt g) p i = adr i).
  { intros i Hi. unfold adr_new. rewrite decide_False; [done|]. by intros ->. }
  assert (Hnew : adr_new adr (nxt g) p (nxt g) = p) by (unfold adr_new; by rewrite decide_True).
  assert (Hown : ids (v_create c g) ≫= (fun i => blocks s' (adr_new adr (nxt g) p i))
                 = owned adr s g ++ [p; q; r]).
  { cbn [ids v_create]. rewrite bind_app. f_equal.
    - apply list_bind_ext_elem. intros i Hi. rewrite Hold by done. unfold blocks. rewrite Et.
      by rewrite lookup_insert_ne by (apply not_eq_sym; auto).
    - cbn. rewrite Hnew. unfold blocks. rewrite Et, lookup_insert_eq. cbn. by rewrite T3, T4. }
  split; [|exact Hown]. constructor; rewrite ?Hown, ?Etm, ?En, ?Ec; try apply R; try done.
  - cbn [ids v_create]. rewrite fmap_app, (fmap_adr_new NHead) by done. cbn. by rewrite Hnew.
  - cbn [rdy v_create]. by rewrite (fmap_adr_new NReadyHead).
  - intros i [Hi| ->%list_elem_of_singleton]%elem_of_app.
    + destruct (rel_task_at _ _ _ _ R Hi) as (ti & Eti & Hti). exists ti. rewrite Hold by done. split.
      * rewrite Et. by rewrite lookup_insert_ne by (apply not_eq_sym; auto).
      * assert (i <> nxt g) by (by intros ->).
        eapply (task_rel_ext s _ (set_nxt (nxt g + 1) g)); try done; cbn;
          by rewrite ?lookup_insert_ne, ?lookup_delete_ne by congruence.
    + exists t. rewrite Hnew. split; [by rewrite Et, lookup_insert_eq|]. constructor; try done.
      * cbn. by rewrite lookup_insert_eq, T2.
      * cbn. intros c0 _. by rewrite lookup_delete_eq.
      * cbn. by rewrite lookup_insert_eq, T5.
      * by rewrite Etls, T3.
  - intros i Hi%(rel_sub _ _ _ R). cbn in *. set_solver.
  - cbn. intros c0 Hin. destruct (decide (cur g = nxt g)) as [->|Hne].
    + by rewrite lookup_delete_eq.
    + rewrite lookup_delete_ne, Ecpu by done. apply (rel_cpu _ _ _ R). cbn. set_solver.
  - cbn. pose proof (rel_ids _ _ _ R) as [Hr1 Hr2]. cbn in *. split; [|lia].
    intros i [Hi|Hi%list_elem_of_singleton]%elem_of_app; [|lia]. apply Hr1 in Hi. lia.
  - rewrite app_comm_cons. apply NoDup_app. split; [apply (rel_blocks _ _ _ R)|].
    apply NoDup_cons in Nd as [N0 Nd]. split; [|done].
    intros x [->|Hx]%elem_of_cons; [done|]. intros Hin. by destruct (Hf x Hin).
  - intros x [Hx|Hx]%elem_of_app; apply Hl; [by apply (rel_live _ _ _ R)|by apply Hf].
Qed.

(** The task that a configuration describes, at the address of its block. *)
Definition task_made (cfg : sa_config_t) (s : kst H) (a : Z) : Prop :=
  exists t l, tasks s !! a = Some t /\ service_id t = u32 (service_uuid cfg) /\
    entry_addr t = entry_point cfg /\ name t = service_name cfg /\ state t = TASK_STATE_SUSPEND /\
    tlss s !! tls t = Some l /\ private_data l = data cfg /\ tls_elf_flag l = elf_flag cfg /\
    tls_process l = process cfg.

Lemma create_task_init_rel adr cfg tmp p q r junk s g :
  sched_rel adr s (set_nxt (nxt g + 1) g) -> (forall i, i ∈ ids g -> i < nxt g) ->
  u32 tmp = nxt g -> 20 <= heap_max (H := H) -> new_blocks adr s g p q r ->
  create_task_init cfg tmp p q r junk s = Panic \/
  exists s', create_task_init cfg tmp p q r junk s = Ret s' /\
    sched_rel (adr_new adr (nxt g) p) s'
      (v_create (CpuRegs (nxt g :: q :: replicate 11 0) (u32 (r + stack_size cfg)) 0
                   (Z.lor Mode_USR I_BIT) (entry_point cfg)) g) /\
    owned (adr_new adr (nxt g) p) s'
      (v_create (CpuRegs (nxt g :: q :: replicate 11 0) (u32 (r + stack_size cfg)) 0
                   (Z.lor Mode_USR I_BIT) (entry_point cfg)) g) = owned adr s g ++ [p; q; r] /\
    (forall l, tlss s !! q = Some l -> private_data l = data cfg -> tls_elf_flag l = elf_flag cfg ->
       tls_process l = process cfg -> task_made cfg s' p).
Proof.
  intros R Hlt Htmp Hm [Nd Hf Htls]. unfold create_task_init. rewrite Htmp. cbv zeta.
  destruct (Hf p) as [Hp Hpl]; [set_solver|].
  destruct (create_lists adr s (set_nxt (nxt g + 1) g) p R Hp) as (l & El & D1 & D2).
  cbn [lists set_tasks]. rewrite El. cbn [mbind res_bind].
  set (t := SwTask _ _ _ _ _ _ _ _ _ _).
  destruct (setPermission_grows (service_id t) (device_acl_list s) (kheap s) (rel_wf _ _ _ R) Hm)
    as [E|(x & acl & devs & h & E & Hwf & Hl)].
  { left. cbn [device_acl_list kheap set_lists set_tasks]. by rewrite E. }
  right. cbn [device_acl_list kheap set_lists set_tasks]. rewrite E. cbn [mbind res_bind].
  unfold upd_task. cbn [tasks set_kheap set_acls set_lists set_tasks]. rewrite lookup_insert_eq.
  cbn [of_opt mbind res_bind mret res_ret]. rewrite insert_insert_eq.
  eexists. split; [reflexivity|].
  assert (0 <= nxt g) by (pose proof (u32_range tmp) as Hr; rewrite Htmp in Hr; apply Hr).
  apply and_assoc. split; [by destruct (service_uuid cfg =? 1); apply (rel_insert adr s g p q r (set_task_acl acl t))|].
  intros l' El' P1 P2 P3. exists (set_task_acl acl t), l'.
  destruct (service_uuid cfg =? 1); cbn; rewrite lookup_insert_eq; by split_and!.
Qed.

Lemma create_task_rel adr cfg junk junk_tls s g :
  sched_rel adr s g -> ev_ok s g (ECreate cfg junk junk_tls) ->
  create_task cfg junk junk_tls s = Panic \/
  exists r id s' adr' g', create_task cfg junk junk_tls s = Ret (r, id, s') /\
    vstep g (ECreate cfg junk junk_tls) g' /\ sched_rel adr' s' g' /\
    (r = OTZ_OK /\ id = nxt g /\ ids g' = ids g ++ [id] /\ task_made cfg s' (adr' id) /\
       (forall x, x ∈ heap_live (kheap s) -> x ∉ owned adr s g -> x ∉ owned adr' s' g') \/
     r = OTZ_ENOMEM /\ id = -1 /\ ids g' = ids g /\ adr' = adr /\ tasks s' = tasks s).
Proof.
  intros R (Hexec & Hn & Hsz & Hmax & Hj). unfold create_task.
  assert (Hj' : forall x, x ∈ [data cfg; task_sp junk] -> x ∉ owned adr s g).
  { intros x Hx (i & Hin & _)%list_elem_of_bind. unfold blocks in Hin.
    destruct (tasks s !! adr i) as [t|] eqn:Et; [|set_solver]. destruct (Hj _ _ Et). set_solver. }
  destruct (create_denied_ok adr cfg s g R Hexec) as [b ->]. cbn [mbind res_bind].
  assert (Hfail : forall s' n, n = nxt g \/ n = nxt g + 1 -> sched_rel adr s' (set_nxt n g) ->
    tasks s' = tasks s ->
    exists r id s'' adr' g', Ret (OTZ_ENOMEM, -1, s') = Ret (r, id, s'') /\
      vstep g (ECreate cfg junk junk_tls) g' /\ sched_rel adr' s'' g' /\
      (r = OTZ_OK /\ id = nxt g /\ ids g' = ids g ++ [id] /\ task_made cfg s'' (adr' id) /\
         (forall x, x ∈ heap_live (kheap s) -> x ∉ owned adr s g -> x ∉ owned adr' s'' g') \/
       r = OTZ_ENOMEM /\ id = -1 /\ ids g' = ids g /\ adr' = adr /\ tasks s'' = tasks s)).
  { intros s' n Hnn R' Et. exists OTZ_ENOMEM, (-1), s', adr, (set_nxt n g). split; [done|].
    split; [by constructor|]. split; [done|]. by right. }
  destruct b. { right. eapply (Hfail s (nxt g)); [by left| |done]. by destruct g. }
  pose proof (rel_ids _ _ _ R) as [Hids Hnx].
  rewrite (rel_next _ _ _ R). rewrite u32_id by (unfold in_u32; lia). rewrite s32_id by (unfold in_s32; lia).
  pose proof (rel_nxt adr s g (nxt g + 1) R ltac:(lia)) as R1. set (s1 := set_next_task_id _ s) in *.
  set (g1 := set_nxt (nxt g + 1) g) in *.
  pose proof (heap_alloc_private_ok (nxt g) _ (rel_wf _ _ _ R1)) as [Wa La].
  destruct (heap_alloc_private (nxt g) (kheap s1)) as [ra ha]. cbn [snd] in *.
  assert (R2 : sched_rel adr (set_kheap ha s1) g1).
  { apply rel_heap; [done|done|]. intros x Hx. rewrite La. by apply (rel_live _ _ _ R1). }
  destruct (ra =? -1). { right. eapply (Hfail _ (nxt g + 1)); [by right|done|done]. }
  assert (Z0 : 0 ∉ owned adr s g) by (pose proof (rel_blocks _ _ _ R) as [? _]%NoDup_cons; done).
  destruct (k_malloc_rel adr (nxt g) sizeof_sw_task _ g1 R2) as (p & h1 & -> & R3 & L1 & F1);
    [unfold sizeof_sw_task; lia|].
  cbn [mbind res_bind]. destruct (Z.eqb_spec p 0) as [_|Hp0].
  { right. eapply (Hfail _ (nxt g + 1)); [by right|done|done]. }
  destruct (F1 Hp0) as (Fp & Fp' & Gp). clear F1.
  destruct (k_malloc_rel adr (nxt g) sizeof_sw_tls _ g1 R3) as (q & h2 & -> & R4 & L2 & F2);
    [unfold sizeof_sw_tls; lia|].
  cbn [mbind res_bind]. destruct (Z.eqb_spec q 0) as [_|Hq0].
  { right. destruct (create_task_err_rel adr cfg (nxt g) p 0 (task_sp junk) _ g1 R4) as (h' & -> & R').
    - intros x Hx. assert (x ∈ [data cfg; task_sp junk] \/ x = p \/ x = 0) as [?|[->| ->]] by set_solver;
        [by apply Hj'|done|done].
    - eapply (Hfail _ (nxt g + 1)); [by right|done|done]. }
  destruct (F2 Hq0) as (Fq & Fq' & Gq). clear F2.
  set (tl := Tls _ _ _ _ _ _). set (s4 := set_kheap h2 _) in *.
  pose proof (rel_tlss adr s4 g1 q tl R4) as R5. set (s5 := set_tlss _ s4) in *.
  destruct (k_malloc_rel adr (nxt g) (stack_size cfg) _ g1 R5) as (r & h3 & -> & R6 & L3 & F3); [lia|].
  cbn [mbind res_bind]. destruct (Z.eqb_spec r 0) as [_|Hr0].
  { right. destruct (create_task_err_rel adr cfg (nxt g) p q 0 _ g1 R6) as (h' & -> & R').
    - intros x Hx. assert (x ∈ [data cfg; task_sp junk] \/ x = p \/ x = q \/ x = 0) as [?|[->|[->| ->]]]
        by set_solver; [by apply Hj'|done|done|done].
    - eapply (Hfail _ (nxt g + 1)); [by right|done|done]. }
  destruct (F3 Hr0) as (Fr & Fr' & Gr). clear F3.
  destruct (create_task_init_rel adr cfg (nxt g) p q r junk _ g R6) as [->|(s' & -> & R' & Ho & M)].
  - intros i Hi. by apply Hids.
  - apply u32_id. unfold in_u32. lia.
  - lia.
  - constructor.
    + assert (p <> q /\ p <> r /\ q <> r) by (split_and!; intros ->; set_solver).
      apply NoDup_4; congruence || done.
    + intros x Hx. assert (x = p \/ x = q \/ x = r) as [->|[->| ->]] by set_solver; split; done || set_solver.
    + cbn. rewrite lookup_insert_eq. by eexists.
  - by left.
  - right. eexists _, _, _, _, _. split; [reflexivity|]. split; [by apply VCreate|]. split; [exact R'|].
    left. do 3 (split; [done|]). split.
    { unfold adr_new. rewrite decide_True by done. apply (M tl); [|done..]. cbn. by rewrite lookup_insert_eq. }
    intros x Hx Hno. rewrite Ho, not_elem_of_app. split; [done|].
    assert (Lx : x ∈ heap_live ha) by (by rewrite La).
    assert (x <> p /\ x <> q /\ x <> r); [|set_solver].
    split_and!; intros ->; [done|by apply Fq', L1|by apply Fr', L2, L1].
Qed.

(** ** The simulation *)

Lemma kstep_rel adr s g e :
  sched_rel adr s g -> ev_ok s g e ->
  kstep e s = Panic \/
  exists adr' s' g', kstep e s = Ret s' /\ vstep g e g' /\ sched_rel adr' s' g'.
Proof.
  intros R Hok. destruct e as [|c|i|i st|i ps|cfg junk junk_tls|i]; cbn [kstep ev_ok] in *.
  - right. destruct (scheduler_rel _ _ _ R) as (s' & E & R'). eauto 6 using vstep.
  - right. eexists adr, _, _. split; [reflexivity|]. split; [constructor|].
    constructor; try done; try apply R.
    + intros i Hi. destruct (rel_task_at _ _ _ _ R Hi) as (t & Et & Ht). exists t. split; [done|].
      destruct Ht as [T1 T2 T3 T4 T5]. constructor; try done. cbn. intros c' Hne. rewrite lookup_insert_ne by done. auto.
    + cbn. intros c' _. rewrite lookup_insert_eq. congruence.
  - right. destruct (schedule_task_id_rel _ _ _ _ R Hok) as (s' & E & R'). eauto 6 using vstep.
  - right. destruct (suspend_task_rel _ _ _ i st R) as (s' & E & R'). eauto 6 using vstep.
  - right. destruct Hok as [Hq Hc]. destruct (start_task_rel _ _ _ i ps R Hq Hc) as (r & s' & -> & R' & _).
    cbn. eauto 6 using vstep.
  - destruct (create_task_rel adr cfg junk junk_tls s g R Hok) as [->|(r & id & s' & adr' & g' & -> & V & R' & _)];
      [by left|right]. cbn. eauto 6.
  - right. destruct (destroy_task_rel _ _ _ i R) as (r & s' & -> & R' & _). cbn. eauto 6 using vstep.
Qed.

(** What can be observed of the kernel is what the abstract machine says. *)
Definition observes (s : kst H) (g : vk) : Prop :=
  current_task_id s = cur g /\ timer_on s = tmr g /\
  (forall i, get_task_state i s =
     Ret (if decide (u32 i ∈ ids g) then v_state (u32 i) g else TASK_STATE_SUSPEND)) /\
  (exists q, list_for_each NReadyList (lists s) = Ret q /\ length q = length (rdy g)) /\
  (forall c, cur g ∈ ids g -> vregs g !! cur g = Some c -> cpu s = c).

(** Every enabled sequence of events runs on the kernel and on the abstract
    machine side by side. *)
Fixpoint simulates (es : list event) (s : kst H) (g : vk) : Prop :=
  observes s g /\
  match es with
  | [] => True
  | e :: es' =>
      ev_ok s g e ->
      kstep e s = Panic \/
      exists s' g', kstep e s = Ret s' /\ vstep g e g' /\ simulates es' s' g'
  end.

Lemma observes_rel adr s g : sched_rel adr s g -> observes s g.
Proof.
  intros R. split; [apply R|]. split; [apply R|]. split; [|split].
  - intros i. unfold get_task_state. rewrite (find_task_rel _ _ _ _ R). cbn [mbind res_bind].
    destruct (decide _) as [Hi|Hi]; [|done]. destruct (rel_task_at _ _ _ _ R Hi) as (t & Et & Ht).
    rewrite Et. cbn. unfold v_state. by rewrite (tr_state _ _ _ _ Ht).
  - eexists. split; [apply list_for_each_spec, R|]. by rewrite length_fmap.
  - apply R.
Qed.

Lemma simulates_rel es adr s g : sched_rel adr s g -> simulates es s g.
Proof.
  revert adr s g. induction es as [|e es IH]; intros adr s g R; (split; [by eapply observes_rel|]); [done|].
  intros Hok. destruct (kstep_rel adr s g e R Hok) as [?|(adr' & s' & g' & E & V & R')]; [by left|].
  right. exists s', g'. split; [done|]. split; [done|]. by eapply IH.
Qed.

(** The machine after [global_init]. *)
Definition v_boot (timer : bool) : vk := Vk [] ∅ ∅ ∅ [] 0 timer TASK_ID_START.

Lemma global_init_rel adr s0 s :
  heap_wf (kheap s0) -> global_init s0 = Ret s -> sched_rel adr s (v_boot (timer_on s0)).
Proof.
  intros Hwf. unfold global_init. pose proof (heap_alloc_private_ok COMMON_HEAP_ID _ Hwf) as [Wa La].
  cbn [kheap set_next_task_id set_exec_mode set_current_task_id set_acls set_lists].
  destruct (heap_alloc_private COMMON_HEAP_ID (kheap s0)) as [r h]. cbn [snd] in *.
  destruct (r =? -1); [done|]. intros [= <-]. constructor; try done.
  - cbn. eapply dlist_same_off; [apply init_same_off| |apply dlist_init]. set_solver.
  - apply dlist_init.
  - by intros i Hi%elem_of_nil.
  - split; [by intros i Hi%elem_of_nil|]. by compute.
  - apply NoDup_singleton.
  - by intros p Hp%elem_of_nil.
Qed.

(** C1: the kernel implements one virtual processor per task, run by a
    round-robin queue.  From the state [global_init] leaves, every sequence of
    ticks, user execution, wake-ups, suspensions, starts, creations and
    destructions of tasks in which each event is allowed runs without a fault
    (a creation may stop in [DIE_NOW] when the kernel's own heap is full), and
    at every moment the kernel shows what the abstract machine prescribes: the
    current task, every task's state, the length of the ready list, and in the
    processor exactly the user context the current task last had. *)
Theorem kernel_refines_virtual_cpus (es : list event) (s0 s : kst H)
    (Hwf : heap_wf (kheap s0)) (Hboot : global_init s0 = Ret s) :
  simulates es s (v_boot (timer_on s0)).
Proof. apply (simulates_rel es (fun x => x)). by apply global_init_rel. Qed.

(** *** Liveness *)

Fixpoint ticks (n : nat) (s : kst H) : res (kst H) :=
  match n with O => mret s | S n' => s' ← scheduler s; ticks n' s' end.

Fixpoint v_ticks (n : nat) (g : vk) : vk :=
  match n with O => g | S n' => v_ticks n' (v_tick g) end.

Lemma ticks_rel adr n s g :
  sched_rel adr s g -> exists s', ticks n s = Ret s' /\ sched_rel adr s' (v_ticks n g).
Proof.
  revert s g. induction n as [|n IH]; intros s g R; cbn [ticks v_ticks]; [by eexists|].
  destruct (scheduler_rel _ _ _ R) as (s1 & -> & R1). cbn [mbind res_bind]. by apply IH.
Qed.

(** One tick serves the head of the queue and moves the others up. *)
Lemma v_tick_rdy g n q :
  rdy g = n :: q -> cur (v_tick g) = n /\ exists q', rdy (v_tick g) = q ++ q'.
Proof.
  intros E. unfold v_tick, v_next. rewrite E.
  destruct (v_cur g) as [c|] eqn:Ec.
  - apply v_cur_elem in Ec as Ec'. destruct Ec' as [_ Ec'].
    assert (Hq : exists q', (if decide (c ∈ q) then q else if v_runnable c g then q ++ [c] else q) = q ++ q').
    { destruct (decide _); [exists []; by rewrite app_nil_r|].
      destruct (v_runnable c g); [by eexists|exists []; by rewrite app_nil_r]. }
    destruct (decide (Some c = Some n)) as [En|]; cbn; split; try done. congruence.
  - rewrite decide_False by done. cbn. split; [done|]. exists []. by rewrite app_nil_r.
Qed.

Lemma v_ticks_serve n g t : rdy g !! n = Some t -> cur (v_ticks (S n) g) = t.
Proof.
  revert g. induction n as [|n IH]; intros g Ht; destruct (rdy g) as [|m q] eqn:E; try done.
  - destruct (v_tick_rdy g m q E) as [Hc _]. cbn in Ht |- *. congruence.
  - destruct (v_tick_rdy g m q E) as [_ [q' Hq]]. change (cur (v_ticks (S n) (v_tick g)) = t).
    apply IH. rewrite Hq. cbn in Ht. by apply lookup_app_l_Some.
Qed.

(** C5: no ready task starves: the task at position [n] of the ready queue is
    the current one after [n + 1] ticks, in every state of the kernel that
    represents an abstract machine. *)
Theorem ready_task_runs (adr : Z -> Z) (s : kst H) (g : vk) (n : nat) (t : Z)
    (Hrel : sched_rel adr s g) (Hready : rdy g !! n = Some t) :
  exists s', ticks (S n) s = Ret s' /\ current_task_id s' = t /\
    get_current_task s' = Ret (Some (adr t)).
Proof.
  destruct (ticks_rel adr (S n) s g Hrel) as (s' & E & R'). exists s'. split; [done|].
  pose proof (v_ticks_serve n g t Hready) as Hc. split; [by rewrite (rel_cur _ _ _ R')|].
  rewrite (get_current_task_rel _ _ _ R'). unfold v_cur. rewrite Hc.
  rewrite decide_True; [done|].
  assert (Hids : forall k g0, ids (v_ticks k g0) = ids g0).
  { induction k as [|k IH]; intros g0; [done|]. cbn [v_ticks]. rewrite IH.
    unfold v_tick. pose proof (v_next_same g0) as [_ <-]. destruct (v_next g0) as [[m|] g1]; [|done].
    by destruct (decide _). }
  rewrite Hids. apply (rel_sub _ _ _ Hrel). by eapply list_elem_of_lookup_2.
Qed.

(** C32: a task must not be queued twice.  Scheduling a task that is already
    in the ready list drops every task queued behind it, and when it is the
    last one the list is closed onto itself: no traversal of it ends. *)
Theorem double_schedule_corrupts (adr : Z -> Z) (s : kst H) (g : vk) (q1 q2 : list Z) (i : Z)
    (Hrel : sched_rel adr s g) (Hq : rdy g = q1 ++ i :: q2) :
  exists s', schedule_task (adr i) s = Ret s' /\
    list_for_each NReadyList (lists s') =
      match q2 with
      | [] => Fault
      | _ => Ret ((fun j => NReadyHead (adr j)) <$> (q1 ++ [i]))
      end.
Proof.
  pose proof (rel_rdy _ _ _ Hrel) as D. rewrite Hq, fmap_app in D. cbn [fmap list_fmap] in D.
  destruct (list_add_tail_again _ _ _ _ _ D) as (l & E & W). unfold schedule_task. rewrite E. cbn.
  eexists. split; [done|]. cbn. rewrite W, fmap_app. by destruct q2.
Qed.
End sched.

(** ** Concrete runs *)

Definition ctx0 : sw_task_cpu_regs := CpuRegs (replicate 13 0) 0 0 0 0.
Definition junk_task : sw_task := SwTask 0 0 0 "" 0 0 0 0 ctx0 (Acl "" 0 0).
Definition junk_tls0 : sw_tls := Tls [0; 0; 0; 0] 0 0 0 0 0.
Definition demo_cfg (uuid : Z) : sa_config_t := SaConfig uuid "service" 2048 0x8000 0 0 0.

(** The kernel before [global_init], on the reference heap. *)
Definition cold : kst bump_heap :=
  Kst empty_lheap ∅ ∅ ∅ ∅ (BumpHeap 4096 100000 ∅) ctx0 true 0 0 0 [].

(** Two services created, then started. *)
Definition the {A} (d : A) (m : res A) : A := match m with Ret a => a | _ => d end.
Definition demo0 : kst bump_heap := the cold (global_init cold).
Definition demo1 : kst bump_heap :=
  the cold (r ← create_task (demo_cfg OTZ_SVC_ECHO) junk_task junk_tls0 demo0; mret (snd r)).
Definition demo2 : kst bump_heap :=
  the cold (r ← create_task (demo_cfg OTZ_SVC_CRYPT) junk_task junk_tls0 demo1; mret (snd r)).
Definition demo3 : kst bump_heap := the cold (r ← start_task TASK_ID_START None demo2; mret (snd r)).
Definition demo4 : kst bump_heap := the cold (r ← start_task (TASK_ID_START + 1) None demo3; mret (snd r)).

Lemma kernel_refines_virtual_cpus_witness :
  exists s, global_init cold = Ret s /\
    simulates [ECreate (demo_cfg OTZ_SVC_ECHO) junk_task junk_tls0; EStart TASK_ID_START None;
               ETick; ESuspend TASK_ID_START TASK_STATE_WAIT; ETick; EReady TASK_ID_START; ETick]
      s (v_boot true).
Proof.
  eexists. split; [reflexivity|]. apply (kernel_refines_virtual_cpus _ cold).
  - split; [by compute|]. intros p Hp. by apply not_elem_of_empty in Hp.
  - reflexivity.
Defined.

(** A creation whose outcome is known, followed along the relation. *)
Lemma create_demo_rel adr (s : kst bump_heap) g cfg s' id :
  sched_rel adr s g ->
  create_task cfg junk_task junk_tls0 s = Ret (OTZ_OK, id, s') ->
  exec_mode s = 0 -> next_task_id s < 2 ^ 31 -> stack_size cfg = 2048 ->
  bool_decide (map_Forall (fun a t => data cfg ∉ [a; tls t; task_sp t] /\
     task_sp junk_task ∉ [a; tls t; task_sp t]) (tasks s)) = true ->
  exists adr' g', sched_rel adr' s' g' /\ ids g' = ids g ++ [id] /\ rdy g' = rdy g /\ cur g' = cur g.
Proof.
  intros R E He Hn Hs Hf%bool_decide_eq_true.
  assert (Hok : ev_ok s g (ECreate cfg junk_task junk_tls0)).
  { split; [by rewrite He|]. rewrite (rel_next _ _ _ R) in Hn. rewrite Hs. split; [done|].
    split; [by compute|]. split; [by compute|]. exact Hf. }
  destruct (create_task_rel adr cfg junk_task junk_tls0 s g R Hok) as
    [E'|(r & id' & s'' & adr' & g' & E' & V & R' & [(-> & -> & Hids & _ & _)|(-> & _)])]; rewrite E in E'; try done.
  simplify_eq. exists adr', g'. split; [done|]. split; [done|]. inversion V; by subst.
Qed.

Lemma demo2_rel :
  exists adr g, sched_rel adr demo2 g /\ ids g = [TASK_ID_START; TASK_ID_START + 1] /\
    rdy g = [] /\ cur g = 0.
Proof.
  assert (R0 : sched_rel (fun x => x) demo0 (v_boot true)).
  { apply (global_init_rel _ cold); [|by vm_compute]. split; [by compute|].
    intros p Hp. by apply not_elem_of_empty in Hp. }
  destruct (create_demo_rel _ demo0 _ (demo_cfg OTZ_SVC_ECHO) demo1 TASK_ID_START R0)
    as (adr1 & g1 & R1 & I1 & Q1 & C1); [by vm_compute..|].
  destruct (create_demo_rel _ demo1 _ (demo_cfg OTZ_SVC_CRYPT) demo2 (TASK_ID_START + 1) R1)
    as (adr2 & g2 & R2 & I2 & Q2 & C2); [by vm_compute..|].
  rewrite Q1 in Q2. rewrite C1 in C2. rewrite I1 in I2. cbn in Q2, C2, I2.
  by exists adr2, g2.
Qed.

Lemma demo_rel :
  exists adr g, sched_rel adr demo4 g /\ rdy g = [TASK_ID_START; TASK_ID_START + 1] /\
    ids g = [TASK_ID_START; TASK_ID_START + 1] /\ cur g = 0.
Proof.
  destruct demo2_rel as (adr2 & g2 & R2 & I2 & Q2 & C2).
  assert (Hst : forall adr s g i s', sched_rel adr s g -> start_task i None s = Ret (OTZ_OK, s') ->
    u32 i = i -> i ∈ ids g -> i ∉ rdy g -> i <> cur g ->
    exists g', sched_rel adr s' g' /\ ids g' = ids g /\ rdy g' = rdy g ++ [i] /\ cur g' = cur g).
  { intros adr s g i s' R E Hu Hi Hq Hc.
    destruct (start_task_rel adr s g i None R) as (r & s'' & E' & R' & _); [by rewrite Hu..|].
    rewrite E in E'. simplify_eq. exists (v_start i g). rewrite Hu in R'. split; [done|].
    unfold v_start. by rewrite decide_True. }
  destruct (Hst adr2 demo2 g2 TASK_ID_START demo3 R2) as (g3 & R3 & I3 & Q3 & C3);
    [by vm_compute|by vm_compute|rewrite I2; set_solver|rewrite Q2; apply not_elem_of_nil|by rewrite C2|].
  rewrite I2 in I3. rewrite Q2 in Q3. rewrite C2 in C3.
  destruct (Hst adr2 demo3 g3 (TASK_ID_START + 1) demo4 R3) as (g4 & R4 & I4 & Q4 & C4);
    [by vm_compute|by vm_compute|rewrite I3; set_solver|rewrite Q3; set_solver|by rewrite C3|].
  exists adr2, g4. split; [done|]. by rewrite Q4, Q3, I4, C4.
Qed.

Lemma ready_task_runs_witness :
  exists s', ticks 2 demo4 = Ret s' /\ current_task_id s' = TASK_ID_START + 1.
Proof.
  destruct demo_rel as (adr & g & R & Q & _).
  destruct (ready_task_runs adr demo4 g 1 (TASK_ID_START + 1) R) as (s' & E & C & _); [by rewrite Q|].
  exists s'. split; [exact E|exact C].
Defined.

(** Starting the service that is already queued drops the other one. *)
Lemma double_schedule_corrupts_witness :
  exists adr s', schedule_task (adr TASK_ID_START) demo4 = Ret s' /\
    list_for_each NReadyList (lists s') = Ret [NReadyHead (adr TASK_ID_START)].
Proof.
  destruct demo_rel as (adr & g & R & Q & _). exists adr.
  destruct (double_schedule_corrupts adr demo4 g [] [TASK_ID_START + 1] TASK_ID_START R Q) as (s' & E & W).
  exists s'. split; [exact E|exact W].
Defined.
