(* ===== verification/Wait.v ===== *)
(** [lib/sw_wait.c]: wait queues and their wake-up functions.

    A wait queue head at an address [hd] is the node [NWqList hd] with its
    [elements_count]; an element at [wq] is the node [NWq wq] with the task it
    wakes and its wake function.  The head inside a task has the task's
    address. *)
From stdpp Require Import prelude gmap strings.
From S2P Require Import Prelude DList HeapIface Acl Task Sched.
#[local] Open Scope Z_scope.

Definition WAKE_UP : Z := 0.
Definition WAKE_UP_IMMEDIATE : Z := 1.

(** The wake function pointers; 0 is [sw_default_wake_function]. *)
Definition DEFAULT_WAKE : Z := 0.

Section wait.
Context {H : Type} `{PrivateHeap H}.

Definition add_count (hd d : Z) (s : kst H) : res (kst H) :=
  c ← of_opt (wq_counts s !! hd);
  mret (set_wq_counts (<[hd := s32 (c + d)]> (wq_counts s)) s).

(** The initialisation of a head and of an element, as the macros and the
    callers write it. *)
Definition init_wq_head (hd : Z) (s : kst H) : kst H :=
  set_lists (INIT_LIST_HEAD (NWqList hd) (lists s)) (set_wq_counts (<[hd := 0]> (wq_counts s)) s).

Definition init_wq (wq : Z) (s : kst H) : kst H := set_lists (INIT_LIST_HEAD (NWq wq) (lists s)) s.

Definition __add_to_waitqueue (hd wq : Z) (s : kst H) : res (kst H) :=
  l ← list_add (NWqList hd) (NWq wq) (lists s);
  add_count hd 1 (set_lists l s).

Definition sw_add_to_waitqueue : Z -> Z -> kst H -> res (kst H) := __add_to_waitqueue.

Definition sw_remove_from_waitqueue (hd wq : Z) (s : kst H) : res (kst H) :=
  l ← list_del (NWq wq) (lists s);
  add_count hd (-1) (set_lists l s).

Definition sw_init_waitqueue_entry_func (wq func : Z) (s : kst H) : res (kst H) :=
  if wq =? 0 then mret s else
  c ← get_current_task s;
  mret (set_wqs (<[wq := WaitQueue (default 0 c) func]> (wqs s)) s).

Definition sw_init_waitqueue_entry (wq : Z) (s : kst H) : res (kst H) :=
  sw_init_waitqueue_entry_func wq DEFAULT_WAKE s.

Definition sw_set_task_state (st : Z) (s : kst H) : res (kst H) :=
  suspend_task (get_current_task_id s) st s.

Definition sw_prepare_for_wait (hd wq st : Z) (s : kst H) : res (kst H) :=
  e ← list_empty (NWq wq) (lists s);
  s ← (if (e : bool) then __add_to_waitqueue hd wq s else mret s);
  suspend_task (get_current_task_id s) st s.

Definition sw_complete_wait (hd wq : Z) (s : kst H) : res (kst H) :=
  e ← list_empty (NWq wq) (lists s);
  if (e : bool) then mret s else
  l ← list_del (NWq wq) (lists s);
  add_count hd (-1) (set_lists (INIT_LIST_HEAD (NWq wq) l) s).

(** ** Waiting *)

Context `{!PrivateHeapLaws H}.

(** The elements [ws] wait on the queue at [hd]. *)
Definition wq_rel (s : kst H) (hd : Z) (ws : list Z) : Prop :=
  dlist (lists s) (NWqList hd) (NWq <$> ws) /\ wq_counts s !! hd = Some (Z.of_nat (length ws)).

(** An element that waits nowhere is linked to itself. *)
Definition wq_idle (s : kst H) (w : Z) : Prop := dlist (lists s) (NWq w) [].

Lemma wq_lists_rel adr s g l :
  sched_rel adr s g ->
  (forall n, match n with NTaskList | NReadyList | NHead _ | NReadyHead _ =>
     nx l !! n = nx (lists s) !! n /\ pv l !! n = pv (lists s) !! n | _ => True end) ->
  forall c, sched_rel adr (set_wq_counts c (set_lists l s)) g.
Proof.
  intros R Hn c.
  assert (D1 : dlist l NTaskList ((fun i => NHead (adr i)) <$> ids g)).
  { eapply dlist_frame; [|apply R]. intros k [->|(i & -> & _)%list_elem_of_fmap]%elem_of_cons;
      [apply (Hn NTaskList)|apply (Hn (NHead _))]. }
  assert (D2 : dlist l NReadyList ((fun i => NReadyHead (adr i)) <$> rdy g)).
  { eapply dlist_frame; [|apply R]. intros k [->|(i & -> & _)%list_elem_of_fmap]%elem_of_cons;
      [apply (Hn NReadyList)|apply (Hn (NReadyHead _))]. }
  constructor; try done; try apply R.
  intros i Hi. destruct (rel_task_at _ _ _ _ R Hi) as (t & Et & Ht). exists t. split; [done|].
  by apply (task_rel_ext s _ g).
Qed.

(** The list nodes of wait queues. *)
Definition is_wq (n : node) : Prop := match n with NWqList _ | NWq _ => True | _ => False end.

(** [l'] differs from [l] on the wait queue [hd :: ws] only. *)
Lemma wq_same_off_rel adr s g hd ws l c :
  sched_rel adr s g -> same_off (NWqList hd :: (NWq <$> ws)) (lists s) l ->
  sched_rel adr (set_wq_counts c (set_lists l s)) g.
Proof.
  intros R S. apply (wq_lists_rel adr s g l R). intros n.
  destruct n; try done; apply S; rewrite not_elem_of_cons; (split; [done|]);
    by intros (? & ? & _)%list_elem_of_fmap.
Qed.

Lemma add_count_ok hd d (s : kst H) n :
  wq_counts s !! hd = Some n -> in_s32 (n + d) ->
  add_count hd d s = Ret (set_wq_counts (<[hd := n + d]> (wq_counts s)) s).
Proof. intros E Hr. unfold add_count. rewrite E. cbn. by rewrite s32_id. Qed.

Lemma NWq_notin (w hd : Z) ws : w ∉ ws -> NWq w ∉ NWqList hd :: (NWq <$> ws).
Proof.
  intros Hw. rewrite not_elem_of_cons. split; [done|]. intros (v & E & Hv)%list_elem_of_fmap.
  by simplify_eq.
Qed.

Lemma add_to_waitqueue_rel adr s g hd ws w :
  sched_rel adr s g -> wq_rel s hd ws -> w ∉ ws -> Z.of_nat (length ws) + 1 < 2 ^ 31 ->
  exists l c, __add_to_waitqueue hd w s = Ret (set_wq_counts c (set_lists l s)) /\
    sched_rel adr (set_wq_counts c (set_lists l s)) g /\
    wq_rel (set_wq_counts c (set_lists l s)) hd (w :: ws) /\
    same_off (NWqList hd :: (NWq <$> w :: ws)) (lists s) l.
Proof.
  intros R [D C] Hw Hlen. unfold __add_to_waitqueue.
  destruct (list_add_head _ _ _ _ D (NWq_notin w hd ws Hw)) as (l & -> & D' & S). cbn [mbind res_bind].
  rewrite (add_count_ok hd 1 (set_lists l s) _ C) by (unfold in_s32; lia).
  eexists l, _. split; [done|]. split; [by apply (wq_same_off_rel adr s g hd (w :: ws))|]. split; [|done].
  split; [done|]. cbn. rewrite lookup_insert_eq. f_equal. cbn. lia.
Qed.

(** Unlinking an element of the queue. *)
Lemma list_del_wq adr s g hd ws w :
  sched_rel adr s g -> wq_rel s hd ws -> w ∈ ws ->
  exists l, list_del (NWq w) (lists s) = Ret l /\
    dlist l (NWqList hd) (NWq <$> filter (fun v => v <> w) ws) /\
    same_off (NWqList hd :: (NWq <$> ws)) (lists s) l /\
    Z.of_nat (length (filter (fun v => v <> w) ws)) = Z.of_nat (length ws) + -1.
Proof.
  intros R [D C] Hw. pose proof (dlist_nodup _ _ _ D) as N. apply NoDup_cons in N as [_ N].
  apply NoDup_fmap_1 in N. apply list_elem_of_split in Hw as (l1 & l2 & ->).
  rewrite fmap_app in D. cbn [fmap list_fmap] in D.
  destruct (dlist_remove _ _ _ _ _ D) as (l & E & D' & _ & _ & S). exists l.
  rewrite filter_remove by done. rewrite !fmap_app. split; [done|]. split; [done|]. split; [done|].
  rewrite !length_app. cbn. lia.
Qed.

Lemma idle_empty (s : kst H) w : wq_idle s w -> list_empty (NWq w) (lists s) = Ret true.
Proof. intros D. rewrite (list_empty_spec _ _ _ D). by rewrite bool_decide_eq_true_2. Qed.

Lemma queued_not_empty (s : kst H) hd ws w :
  wq_rel s hd ws -> w ∈ ws -> list_empty (NWq w) (lists s) = Ret false.
Proof.
  intros [D _] (l1 & l2 & ->)%list_elem_of_split. rewrite fmap_app in D. cbn [fmap list_fmap] in D.
  pose proof (dlist_nodup _ _ _ D) as N.
  assert (D2 : dlist (lists s) (NWqList hd) (((NWq <$> l1) ++ [NWq w]) ++ (NWq <$> l2))) by (by rewrite <-app_assoc).
  pose proof (dlist_edge _ _ _ _ D2) as [E _]. rewrite before_snoc in E.
  unfold list_empty. rewrite E. cbn. rewrite bool_decide_eq_false_2; [done|].
  intros [= Ew]. pose proof (after_elem (NWqList hd) (NWq <$> l2)) as Ha. rewrite Ew in Ha.
  rewrite elem_of_cons in Ha. destruct Ha as [|Ha]; [done|].
  rewrite app_comm_cons in N. apply NoDup_app in N as (_ & _ & N). by apply NoDup_cons in N as [? _].
Qed.

(** *** Sequences of operations on one queue *)

Inductive wq_op : Type :=
  | WAdd (w : Z)
  | WRemove (w : Z)
  | WPrepare (w st : Z)
  | WComplete (w : Z).

Definition run_wop (hd : Z) (op : wq_op) (s : kst H) : res (kst H) :=
  match op with
  | WAdd w => sw_add_to_waitqueue hd w s
  | WRemove w => sw_remove_from_waitqueue hd w s
  | WPrepare w st => sw_prepare_for_wait hd w st s
  | WComplete w => sw_complete_wait hd w s
  end.

Fixpoint run_wops (hd : Z) (ops : list wq_op) (s : kst H) : res (kst H) :=
  match ops with [] => mret s | op :: ops' => s ← run_wop hd op s; run_wops hd ops' s end.

(** The contract: the waiting elements, newest first, the elements that wait
    nowhere, and the scheduler's machine. *)
Definition abs_wop (op : wq_op) (a : list Z * list Z * vk) : option (list Z * list Z * vk) :=
  let '(ws, idle, g) := a in
  let suspended st := v_suspend (u32 (s32 (cur g))) (u32 st) g in
  match op with
  | WAdd w => if decide (w ∈ ws) then None else Some (w :: ws, filter (fun v => v <> w) idle, g)
  | WRemove w => if decide (w ∈ ws) then Some (filter (fun v => v <> w) ws, idle, g) else None
  | WPrepare w st =>
      if decide (w ∈ ws) then Some (ws, idle, suspended st)
      else if decide (w ∈ idle) then Some (w :: ws, filter (fun v => v <> w) idle, suspended st) else None
  | WComplete w =>
      if decide (w ∈ ws) then Some (filter (fun v => v <> w) ws, w :: idle, g)
      else if decide (w ∈ idle) then Some (ws, idle, g) else None
  end.

Fixpoint abs_wops (ops : list wq_op) (a : list Z * list Z * vk) : option (list Z * list Z * vk) :=
  match ops with [] => Some a | op :: ops' => a ← abs_wop op a; abs_wops ops' a end.

Definition wq_inv (hd : Z) (adr : Z -> Z) (s : kst H) (a : list Z * list Z * vk) : Prop :=
  let '(ws, idle, g) := a in
  sched_rel adr s g /\ wq_rel s hd ws /\ (forall w, w ∈ idle -> w ∉ ws /\ wq_idle s w).

Lemma suspend_task_frame i st (s s' : kst H) :
  suspend_task i st s = Ret s' ->
  lists s' = lists s /\ wq_counts s' = wq_counts s /\ wqs s' = wqs s.
Proof.
  unfold suspend_task. intros E. apply res_bind_Ret in E as ([a|] & _ & E); [|by injection E as <-].
  apply res_bind_Ret in E as (s1 & E1 & E). unfold upd_task in E1. apply res_bind_Ret in E1 as (t & _ & E1).
  injection E1 as <-. injection E as <-. by destruct (_ && _).
Qed.

Lemma wq_rel_ext (s s' : kst H) hd ws :
  lists s' = lists s -> wq_counts s' = wq_counts s -> wq_rel s hd ws -> wq_rel s' hd ws.
Proof. intros E1 E2 [D C]. split; by rewrite ?E1, ?E2. Qed.

Lemma wq_idle_ext (s s' : kst H) w : lists s' = lists s -> wq_idle s w -> wq_idle s' w.
Proof. unfold wq_idle. by intros ->. Qed.

Lemma idle_off (s : kst H) l c hd ws w :
  same_off (NWqList hd :: (NWq <$> ws)) (lists s) l -> w ∉ ws -> wq_idle s w ->
  wq_idle (set_wq_counts c (set_lists l s)) w.
Proof.
  intros S Hw D. unfold wq_idle. cbn. eapply dlist_same_off; [exact S| |exact D].
  intros k ->%list_elem_of_singleton. by apply NWq_notin.
Qed.

(** Adding an element, with the invariant. *)
Lemma wq_inv_add hd adr s ws idle g w :
  wq_inv hd adr s (ws, idle, g) -> w ∉ ws -> Z.of_nat (length ws) + 1 < 2 ^ 31 ->
  exists s', __add_to_waitqueue hd w s = Ret s' /\
    wq_inv hd adr s' (w :: ws, filter (fun v => v <> w) idle, g).
Proof.
  intros (R & W & I) Hw Hlen.
  destruct (add_to_waitqueue_rel adr s g hd ws w R W Hw Hlen) as (l & c & -> & R' & W' & S).
  eexists. split; [done|]. split; [done|]. split; [done|].
  intros v [Hne Hv]%list_elem_of_filter. apply I in Hv as [Hv Di].
  assert (v ∉ w :: ws) by (rewrite not_elem_of_cons; done). split; [done|]. by apply (idle_off s l c hd (w :: ws)).
Qed.

Lemma wq_inv_suspend hd adr s ws idle g i st :
  wq_inv hd adr s (ws, idle, g) ->
  exists s', suspend_task i st s = Ret s' /\ wq_inv hd adr s' (ws, idle, v_suspend (u32 i) (u32 st) g).
Proof.
  intros (R & W & I). destruct (suspend_task_rel adr s g i st R) as (s' & E & R').
  destruct (suspend_task_frame _ _ _ _ E) as (E1 & E2 & _). exists s'. split; [done|]. split; [done|].
  split; [by apply (wq_rel_ext s)|]. intros v Hv. apply I in Hv as [? ?]. split; [done|].
  by apply (wq_idle_ext s).
Qed.

Lemma current_id_rel adr s g : sched_rel adr s g -> get_current_task_id s = s32 (cur g).
Proof. intros R. unfold get_current_task_id. by rewrite (rel_cur _ _ _ R). Qed.

(** Removing an element: [init] says whether it is linked to itself again. *)
Lemma wq_inv_del hd adr s ws idle g w (init : bool) :
  wq_inv hd adr s (ws, idle, g) -> w ∈ ws -> Z.of_nat (length ws) < 2 ^ 31 ->
  exists s', (l ← list_del (NWq w) (lists s);
              add_count hd (-1) (set_lists (if init then INIT_LIST_HEAD (NWq w) l else l) s)) = Ret s' /\
    wq_inv hd adr s' (filter (fun v => v <> w) ws, if init then w :: idle else idle, g).
Proof.
  intros (R & W & I) Hw Hlen.
  destruct (list_del_wq adr s g hd ws w R W Hw) as (l & -> & D & S & Hl). cbn [mbind res_bind].
  destruct W as [D0 C]. set (l' := if init then _ else _).
  assert (S' : same_off (NWqList hd :: (NWq <$> ws)) (lists s) l').
  { unfold l'. destruct init; [|done]. eapply same_off_trans; [exact S|].
    apply (same_off_weaken [NWq w]); [|apply init_same_off].
    intros k ->%list_elem_of_singleton. apply elem_of_cons. right. by apply list_elem_of_fmap_2. }
  assert (D' : dlist l' (NWqList hd) (NWq <$> filter (fun v => v <> w) ws)).
  { unfold l'. destruct init; [|done]. eapply dlist_same_off; [apply init_same_off| |exact D].
    intros k Hk Ek%list_elem_of_singleton. revert Hk. rewrite Ek.
    apply NWq_notin. by intros [? ?]%list_elem_of_filter. }
  rewrite (add_count_ok hd (-1) (set_lists l' s) _ C) by (unfold in_s32; lia).
  eexists. split; [done|]. split; [by apply (wq_same_off_rel adr s g hd ws)|]. split.
  { split; [done|]. cbn. rewrite lookup_insert_eq. f_equal. by rewrite Hl. }
  assert (Hold : forall v, v ∈ idle -> v ∉ filter (fun v => v <> w) ws /\
    wq_idle (set_wq_counts (<[hd:=Z.of_nat (length ws) + -1]> (wq_counts (set_lists l' s))) (set_lists l' s)) v).
  { intros v Hv. apply I in Hv as [Hv Di]. split; [by intros [_ ?]%list_elem_of_filter|].
    by apply (idle_off s l' _ hd ws). }
  intros v Hv. destruct init; [|by apply Hold]. apply elem_of_cons in Hv as [->|Hv]; [|by apply Hold].
  split; [by intros [? _]%list_elem_of_filter|]. apply dlist_init.
Qed.

Lemma run_wop_spec hd adr op s a a' :
  wq_inv hd adr s a -> abs_wop op a = Some a' -> Z.of_nat (length (fst (fst a))) + 1 < 2 ^ 31 ->
  exists s', run_wop hd op s = Ret s' /\ wq_inv hd adr s' a'.
Proof.
  destruct a as [[ws idle] g]. intros Inv A Hlen. cbn [fst] in Hlen.
  pose proof Inv as (R & W & I). destruct op as [w|w|w st|w]; cbn [run_wop abs_wop] in *.
  - destruct (decide (w ∈ ws)); [done|]. injection A as <-. by apply (wq_inv_add hd adr s ws).
  - destruct (decide (w ∈ ws)); [|done]. injection A as <-.
    apply (wq_inv_del hd adr s ws idle g w false); [done|done|lia].
  - unfold sw_prepare_for_wait. destruct (decide (w ∈ ws)) as [Hw|Hw].
    + injection A as <-. rewrite (queued_not_empty s hd ws w W Hw). cbn [mbind res_bind mret res_ret].
      rewrite (current_id_rel adr s g R). by apply wq_inv_suspend.
    + destruct (decide (w ∈ idle)) as [Hi|]; [|done]. injection A as <-.
      rewrite idle_empty by (by apply I). cbn [mbind res_bind].
      destruct (wq_inv_add hd adr s ws idle g w Inv Hw Hlen) as (s1 & -> & Inv1). cbn [mbind res_bind].
      rewrite (current_id_rel adr s1 g) by apply Inv1. by apply wq_inv_suspend.
  - unfold sw_complete_wait. destruct (decide (w ∈ ws)) as [Hw|Hw].
    + injection A as <-. rewrite (queued_not_empty s hd ws w W Hw). cbn [mbind res_bind].
      apply (wq_inv_del hd adr s ws idle g w true); [done|done|lia].
    + destruct (decide (w ∈ idle)) as [Hi|]; [|done]. injection A as <-.
      rewrite idle_empty by (by apply I). eexists. split; [done|]. exact Inv.
Qed.

(** C22: a wait queue is a stack of waiting elements with a correct count.  Any
    allowed sequence of additions, removals, preparations and completions
    runs without a fault: the queue holds exactly the elements the contract
    computes, newest first, [elements_count] is their number, preparing twice
    queues an element once, completing is idempotent, and each preparation
    puts the current task to sleep without disturbing the scheduler. *)
Theorem wait_queue_refinement hd adr ops s a ws' idle' g'
    (Hinv : wq_inv hd adr s a) (Habs : abs_wops ops a = Some (ws', idle', g'))
    (Hlen : Z.of_nat (length (fst (fst a)) + length ops) < 2 ^ 31) :
  exists s', run_wops hd ops s = Ret s' /\ sched_rel adr s' g' /\
    list_for_each (NWqList hd) (lists s') = Ret (NWq <$> ws') /\
    wq_counts s' !! hd = Some (Z.of_nat (length ws')).
Proof.
  revert s a Hinv Habs Hlen. induction ops as [|op ops IH]; intros s a Hinv Habs Hlen.
  - injection Habs as ->. destruct Hinv as (R & [D C] & _). exists s. split; [done|]. split; [done|].
    split; [by apply list_for_each_spec|done].
  - cbn [abs_wops] in Habs. apply bind_Some in Habs as (a1 & A1 & A). cbn [length] in Hlen.
    destruct (run_wop_spec hd adr op s a a1 Hinv A1) as (s1 & E & Inv1); [lia|].
    cbn [run_wops]. rewrite E. cbn [mbind res_bind]. apply (IH s1 a1); [done|done|].
    assert (length (fst (fst a1)) <= S (length (fst (fst a))))%nat; [|lia].
    revert A1. destruct a as [[ws idle] g]. clear.
    destruct op; cbn [abs_wop]; repeat case_decide; intros [= <-]; cbn; try lia;
      pose proof (length_filter (fun v => v <> w) ws); lia.
Qed.

(** *** Initialisation *)

Lemma init_wq_head_rel adr s g hd :
  sched_rel adr s g -> sched_rel adr (init_wq_head hd s) g /\ wq_rel (init_wq_head hd s) hd [].
Proof.
  intros R. split.
  - apply (wq_same_off_rel adr s g hd []); [done|]. apply init_same_off.
  - split; [apply dlist_init|]. apply lookup_insert_eq.
Qed.

Lemma init_wq_rel adr s g w hd ws :
  sched_rel adr s g -> wq_rel s hd ws -> w ∉ ws ->
  sched_rel adr (init_wq w s) g /\ wq_rel (init_wq w s) hd ws /\ wq_idle (init_wq w s) w.
Proof.
  intros R [D C] Hw. assert (S : same_off [NWq w] (lists s) (lists (init_wq w s))) by apply init_same_off.
  split; [|split; [split; [|done]|apply dlist_init]].
  - replace (init_wq w s) with (set_wq_counts (wq_counts s) (init_wq w s)) by (by destruct s).
    apply (wq_same_off_rel adr s g hd [w]); [done|]. apply (same_off_weaken [NWq w]); [|done].
    intros k ?. set_solver.
  - eapply dlist_same_off; [exact S| |exact D].
    intros k Hk Ek%list_elem_of_singleton. revert Hk. rewrite Ek. by apply NWq_notin.
Qed.

Lemma set_wqs_rel adr s g m : sched_rel adr s g -> sched_rel adr (set_wqs m s) g.
Proof.
  intros R. constructor; try done; try apply R.
  intros i Hi. destruct (rel_task_at _ _ _ _ R Hi) as (t & Et & Ht). exists t. split; [done|].
  by apply (task_rel_ext s _ g).
Qed.

End wait.

(** ** Waking *)

Section waking.
Context {H : Type} `{PrivateHeap H}.

(** The other wake functions a caller may install, and what happens from a
    call of [schedule] in the middle of a function until the caller is
    resumed. *)
Context (wake_fun : Z -> Z -> Z -> kst H -> res (kst H)).
Context (resumed : kst H -> res (kst H)).

(** [immediate] is what follows the [schedule] call at its end: the scheduler
    when it is the last act of the caller too. *)
Definition sw_default_wake_function (immediate : kst H -> res (kst H)) (wq flag : Z) (s : kst H) : res (kst H) :=
  w ← of_opt (wqs s !! wq);
  s ← upd_task (wq_data w) (set_state TASK_STATE_READY_TO_RUN) s;
  if flag =? WAKE_UP_IMMEDIATE then
    s ← schedule_task_next (wq_data w) s;
    immediate s
  else schedule_task (wq_data w) s.

Definition wake (immediate : kst H -> res (kst H)) (wq flag : Z) (s : kst H) : res (kst H) :=
  w ← of_opt (wqs s !! wq);
  if wq_func w =? DEFAULT_WAKE then sw_default_wake_function immediate wq flag s
  else wake_fun (wq_func w) wq flag s.

Definition wq_entry (n : node) : res Z := match n with NWq w => Ret w | _ => Fault end.

(** The loop reads the next pointer after the element's wake function ran. *)
Fixpoint wakeup_loop (fuel : nat) (hd : Z) (curr : node) (flag : Z) (s : kst H) : res (kst H) :=
  if decide (curr = NWqList hd) then mret s else
  match fuel with
  | O => Fault
  | S f =>
      w ← wq_entry curr;
      s ← wake resumed w flag s;
      next ← get_next (lists s) curr;
      wakeup_loop f hd next flag s
  end.

Definition sw_wakeup_all (hd flag : Z) (s : kst H) : res (kst H) :=
  first ← get_next (lists s) (NWqList hd);
  wakeup_loop (size (nx (lists s))) hd first flag s.

(** Only the first element is woken. *)
Definition sw_wakeup (hd flag : Z) (s : kst H) : res (kst H) :=
  first ← get_next (lists s) (NWqList hd);
  if decide (first = NWqList hd) then mret s else
  w ← wq_entry first;
  wake scheduler w flag s.

(** [core/task.c]: a task that does not exist is a null pointer. *)
Definition resume_async_task (id : Z) (s : kst H) : res (kst H) :=
  o ← get_task id s;
  match o with
  | Some a => sw_wakeup a WAKE_UP_IMMEDIATE s
  | None => Fault
  end.

Context `{!PrivateHeapLaws H}.

(** [schedule_task] writes to ready nodes only. *)
Lemma schedule_task_frame adr s g i :
  sched_rel adr s g -> i ∈ ids g -> i ∉ rdy g ->
  exists l, schedule_task (adr i) s = Ret (set_lists l s) /\
    sched_rel adr (set_lists l s) (set_rdy (rdy g ++ [i]) g) /\
    (forall n, is_wq n -> nx l !! n = nx (lists s) !! n /\ pv l !! n = pv (lists s) !! n).
Proof.
  intros R Hi Hq. destruct (schedule_task_rel adr s g i R Hi Hq) as (s' & E & R').
  pose proof E as E'. unfold schedule_task in E'.
  destruct (list_add_tail_head (lists s) NReadyList _ (NReadyHead (adr i)) (rel_rdy _ _ _ R))
    as (l & El & _ & S).
  { rewrite not_elem_of_cons. split; [done|]. intros (j & Ej & Hj)%list_elem_of_fmap. simplify_eq.
    apply Hq. rewrite (adr_inj adr s g i j); [done|done|done|by apply R|done]. }
  rewrite El in E'. injection E' as <-. exists l. split; [done|]. split; [done|].
  intros n Hn. apply S. rewrite !not_elem_of_cons.
  split; [by destruct n|]. split; [by destruct n|]. intros (j & -> & _)%list_elem_of_fmap. done.
Qed.

(** The element wakes the task [i] with the default function. *)
Definition waits_for (adr : Z -> Z) (s : kst H) (w i : Z) : Prop :=
  wqs s !! w = Some (WaitQueue (adr i) DEFAULT_WAKE).

Lemma default_wake_rel imm adr s g w i :
  sched_rel adr s g -> waits_for adr s w i -> i ∈ ids g -> i ∉ rdy g ->
  exists s', wake imm w WAKE_UP s = Ret s' /\ sched_rel adr s' (v_ready i g) /\
    (forall n, is_wq n -> nx (lists s') !! n = nx (lists s) !! n /\ pv (lists s') !! n = pv (lists s) !! n) /\
    wq_counts s' = wq_counts s /\ wqs s' = wqs s.
Proof.
  intros R Hw Hi Hq. unfold waits_for in Hw. unfold wake, sw_default_wake_function.
  rewrite Hw. cbn [of_opt mbind res_bind wq_func wq_data]. change (DEFAULT_WAKE =? DEFAULT_WAKE) with true. cbv iota.
  destruct (set_state_rel adr s g i TASK_STATE_READY_TO_RUN R Hi) as (s1 & E1 & R1 & L1).
  rewrite E1. cbn [mbind res_bind]. change (WAKE_UP =? WAKE_UP_IMMEDIATE) with false. cbv iota.
  destruct (schedule_task_frame adr s1 _ i R1 Hi Hq) as (l & E2 & R2 & F). rewrite E2.
  unfold upd_task in E1. apply res_bind_Ret in E1 as (t & _ & E1). injection E1 as <-.
  eexists. split; [done|]. split; [|done]. unfold v_ready. by rewrite decide_True.
Qed.

Lemma wq_rel_frame (s s' : kst H) hd ws :
  (forall n, is_wq n -> nx (lists s') !! n = nx (lists s) !! n /\ pv (lists s') !! n = pv (lists s) !! n) ->
  wq_counts s' = wq_counts s -> wq_rel s hd ws -> wq_rel s' hd ws.
Proof.
  intros F E [D C]. split; [|by rewrite E]. eapply dlist_frame; [|exact D].
  intros k [->|(v & -> & _)%list_elem_of_fmap]%elem_of_cons; by apply F.
Qed.

Lemma v_ready_rdy i g : i ∈ ids g -> rdy (v_ready i g) = rdy g ++ [i] /\ ids (v_ready i g) = ids g.
Proof. intros Hi. unfold v_ready. by rewrite decide_True. Qed.

Lemma wakeup_loop_rel adr hd l1 l2 ts fuel s g :
  sched_rel adr s g -> wq_rel s hd (l1 ++ l2) -> Forall2 (waits_for adr s) l2 ts ->
  NoDup ts -> (forall i, i ∈ ts -> i ∈ ids g /\ i ∉ rdy g) -> (length l2 <= fuel)%nat ->
  exists s', wakeup_loop fuel hd (after (NWqList hd) (NWq <$> l2)) WAKE_UP s = Ret s' /\
    sched_rel adr s' (foldl (fun g i => v_ready i g) g ts) /\ wq_rel s' hd (l1 ++ l2).
Proof.
  revert l1 ts fuel s g. induction l2 as [|w l2 IH]; intros l1 ts fuel s g R W Hf N Hin Hlen.
  - apply Forall2_nil_inv_l in Hf as ->. exists s. split; [|done]. unfold after. cbn [fmap list_fmap head default id].
    destruct fuel; cbn [wakeup_loop]; by rewrite decide_True.
  - apply Forall2_cons_inv_l in Hf as (i & ts' & Hw & Hf & ->). apply NoDup_cons in N as [Ni N].
    destruct fuel as [|fuel]; cbn in Hlen; [lia|]. unfold after. cbn [fmap list_fmap head default id wakeup_loop].
    rewrite decide_False by done. cbn [wq_entry mbind res_bind].
    destruct (Hin i) as [Hi Hq]; [set_solver|].
    destruct (default_wake_rel resumed adr s g w i R Hw Hi Hq) as (s1 & -> & R1 & F & C & Q).
    cbn [mbind res_bind]. pose proof (wq_rel_frame s s1 hd _ F C W) as W1.
    destruct (v_ready_rdy i g Hi) as [Erdy Eids].
    assert (W2 : wq_rel s1 hd ((l1 ++ [w]) ++ l2)) by (by rewrite <-app_assoc).
    pose proof (proj1 W2) as D. rewrite !fmap_app in D. pose proof (dlist_edge _ _ _ _ D) as Ed.
    cbn [fmap list_fmap] in Ed. rewrite before_snoc in Ed. rewrite (get_next_edge _ _ _ Ed). cbn [mbind res_bind].
    destruct (IH (l1 ++ [w]) ts' fuel s1 (v_ready i g) R1 W2) as (s' & E & R' & W'); [|done| |lia|].
    + eapply Forall2_impl; [exact Hf|]. unfold waits_for. by rewrite Q.
    + intros j Hj. destruct (Hin j) as [? ?]; [set_solver|]. rewrite Erdy, Eids. split; [done|].
      rewrite elem_of_app, list_elem_of_singleton. intros [?|Eji]; [done|]. by rewrite Eji in Hj.
    + exists s'. split; [exact E|]. split; [exact R'|]. by rewrite <-app_assoc in W'.
Qed.


Lemma wakeup_first_rel adr hd w ws i s g :
  sched_rel adr s g -> wq_rel s hd (w :: ws) -> waits_for adr s w i -> i ∈ ids g -> i ∉ rdy g ->
  exists s', sw_wakeup hd WAKE_UP s = Ret s' /\ sched_rel adr s' (v_ready i g) /\ wq_rel s' hd (w :: ws) /\
    waits_for adr s' w i.
Proof.
  intros R W Hw Hi Hq. unfold sw_wakeup. pose proof (proj1 W) as D. rewrite (get_next_head _ _ _ D).
  cbn [fmap list_fmap after head default id mbind res_bind]. unfold after. cbn [head default id].
  rewrite decide_False by done. cbn [wq_entry mbind res_bind].
  destruct (default_wake_rel scheduler adr s g w i R Hw Hi Hq) as (s1 & -> & R1 & F & C & Q).
  exists s1. split; [done|]. split; [done|]. split; [by apply (wq_rel_frame s)|]. unfold waits_for. by rewrite Q.
Qed.

(** Waking twice corrupts the scheduler.  [sw_wakeup] leaves the woken
    element at the front of the wait queue until its task runs, so a second
    [sw_wakeup] before that wakes the same task again instead of the next one;
    the task is then queued twice and the ready list is closed onto itself:
    no traversal of it ends. *)
Theorem double_wakeup_corrupts adr hd w ws i s g
    (Hrel : sched_rel adr s g) (Hwq : wq_rel s hd (w :: ws)) (Hfor : waits_for adr s w i)
    (Hlive : i ∈ ids g) (Hasleep : i ∉ rdy g) :
  exists s1 s2, sw_wakeup hd WAKE_UP s = Ret s1 /\ sched_rel adr s1 (v_ready i g) /\
    sw_wakeup hd WAKE_UP s1 = Ret s2 /\ list_for_each NReadyList (lists s2) = Fault.
Proof.
  destruct (wakeup_first_rel adr hd w ws i s g Hrel Hwq Hfor Hlive Hasleep) as (s1 & E1 & R1 & W1 & F1).
  exists s1. destruct (v_ready_rdy i g Hlive) as [Erdy Eids].
  assert (Hi1 : i ∈ ids (v_ready i g)) by (by rewrite Eids).
  destruct (set_state_rel adr s1 _ i TASK_STATE_READY_TO_RUN R1 Hi1) as (s1' & E1' & R1' & L1').
  pose proof (rel_rdy _ _ _ R1') as D. cbn [rdy set_vst] in D. rewrite Erdy, fmap_app in D. cbn [fmap list_fmap] in D.
  destruct (list_add_tail_again _ _ _ _ _ D) as (l & El & Hl).
  exists (set_lists l s1'). split; [done|]. split; [done|]. split; [|done].
  unfold sw_wakeup. rewrite (get_next_head _ _ _ (proj1 W1)). cbn [fmap list_fmap mbind res_bind].
  unfold after. cbn [head default id]. rewrite decide_False by done. cbn [wq_entry mbind res_bind].
  unfold waits_for in F1. unfold wake, sw_default_wake_function. rewrite F1. cbn [of_opt mbind res_bind wq_func wq_data].
  change (DEFAULT_WAKE =? DEFAULT_WAKE) with true. cbv iota.
  rewrite E1'. cbn [mbind res_bind]. change (WAKE_UP =? WAKE_UP_IMMEDIATE) with false. cbv iota.
  unfold schedule_task. by rewrite El.
Qed.
End waking.

(** Two tasks of the concrete run sleep on a queue. *)
Lemma demo_waiting :
  exists adr (s : kst bump_heap) g, sched_rel adr s g /\ wq_rel s 800 [901; 900] /\
    waits_for adr s 900 TASK_ID_START /\ waits_for adr s 901 (TASK_ID_START + 1) /\
    ids g = [TASK_ID_START; TASK_ID_START + 1] /\ rdy g = [].
Proof.
  destruct demo2_rel as (adr & g & R & I & Q & _). revert R. generalize demo2. intros s0 R.
  apply (set_wqs_rel adr s0 g (<[900 := WaitQueue (adr TASK_ID_START) DEFAULT_WAKE]>
    (<[901 := WaitQueue (adr (TASK_ID_START + 1)) DEFAULT_WAKE]> ∅))) in R. set (s1 := set_wqs _ s0) in *.
  apply (init_wq_head_rel adr s1 g 800) in R as [R W]. set (s2 := init_wq_head 800 s1) in *.
  destruct (add_to_waitqueue_rel adr s2 g 800 [] 900 R W) as (l3 & c3 & _ & R3 & W3 & _);
    [apply not_elem_of_nil|by compute|].
  set (s3 := set_wq_counts c3 _) in *.
  destruct (add_to_waitqueue_rel adr s3 g 800 [900] 901 R3 W3) as (l4 & c4 & _ & R4 & W4 & _);
    [by intros ?%list_elem_of_singleton|by compute|].
  eexists adr, _, g. split; [exact R4|]. split; [exact W4|]. split; [apply lookup_insert_eq|].
  split; [|done]. unfold waits_for. cbn. rewrite lookup_insert_ne by done. apply lookup_insert_eq.
Qed.

Definition no_wake (f w flag : Z) (s : kst bump_heap) : res (kst bump_heap) := Fault.
Definition no_resume (s : kst bump_heap) : res (kst bump_heap) := mret s.

Lemma wait_queue_refinement_witness :
  exists s s' : kst bump_heap, run_wops 800 [WPrepare 910 TASK_STATE_WAIT; WPrepare 910 TASK_STATE_WAIT; WAdd 911;
                             WComplete 910; WComplete 910; WRemove 911] s = Ret s' /\
    list_for_each (NWqList 800) (lists s) = Ret [] /\
    list_for_each (NWqList 800) (lists s') = Ret [] /\ wq_counts s' !! 800 = Some 0.
Proof.
  destruct demo2_rel as (adr & g & R & _). revert R. generalize demo2. intros s0 R.
  destruct (init_wq_head_rel adr s0 g 800 R) as [R1 W1].
  destruct (init_wq_rel adr _ g 910 800 [] R1 W1) as (R2 & W2 & D2); [apply not_elem_of_nil|].
  set (s1 := init_wq 910 _) in *.
  assert (Inv : wq_inv 800 adr s1 ([], [910], g)).
  { split; [done|]. split; [done|]. intros w ->%list_elem_of_singleton. split; [apply not_elem_of_nil|done]. }
  destruct (wait_queue_refinement 800 adr [WPrepare 910 TASK_STATE_WAIT; WPrepare 910 TASK_STATE_WAIT; WAdd 911;
      WComplete 910; WComplete 910; WRemove 911] s1 _ [] [910]
      (v_suspend (u32 (s32 (cur (v_suspend (u32 (s32 (cur g))) (u32 TASK_STATE_WAIT) g)))) (u32 TASK_STATE_WAIT)
         (v_suspend (u32 (s32 (cur g))) (u32 TASK_STATE_WAIT) g)) Inv)
    as (s' & E & _ & L & C); [reflexivity|by compute|].
  exists s1, s'. split; [exact E|]. split; [|split; [exact L|exact C]].
  apply list_for_each_spec. apply Inv.
Defined.


Lemma double_wakeup_corrupts_witness :
  exists s s1 s2 : kst bump_heap, sw_wakeup no_wake 800 WAKE_UP s = Ret s1 /\
    sw_wakeup no_wake 800 WAKE_UP s1 = Ret s2 /\ list_for_each NReadyList (lists s2) = Fault.
Proof.
  destruct demo_waiting as (adr & s & g & R & W & F1 & F2 & I & Q).
  destruct (double_wakeup_corrupts no_wake adr 800 901 [900] (TASK_ID_START + 1) s g R W F2)
    as (s1 & s2 & E1 & _ & E2 & L); [rewrite I; set_solver|rewrite Q; apply not_elem_of_nil|].
  exists s, s1, s2. split; [exact E1|]. split; [exact E2|exact L].
Defined.
