(* ===== verification/Div.v ===== *)
(** [lib/sw_div.c]: the division routines of the ARM run-time ABI.

    The 32-bit and the 64-bit routines repeat the same loop at two widths; it
    is written once here, with the width as a parameter. *)
From stdpp Require Import prelude.
From S2P Require Import Prelude.
#[local] Open Scope Z_scope.

(** [n] is converted to [u32] at the call, whatever its type there. *)
Definition is_power_of2 (n : Z) : bool :=
  let n := u32 n in negb (n =? 0) && (Z.land n (u32 (n - 1)) =? 0).

Fixpoint get_power_of2_loop (fuel : nat) (i n : Z) : Z :=
  match fuel with
  | O => -1
  | S f => if Z.testbit n 0 then i else get_power_of2_loop f (i + 1) (Z.shiftr n 1)
  end.

Definition get_power_of2 (n : Z) : Z := get_power_of2_loop 32 0 (u32 n).

(** [while (dividend > tmp)]: doubles [tmp] and [r] while [tmp] fits. *)
Fixpoint align_loop (w : Z) (fuel : nat) (dividend tmp r : Z) : res (Z * Z) :=
  if dividend >? tmp then
    match fuel with
    | O => Fault
    | S f =>
        if negb (Z.land tmp (Z.shiftl 1 (w - 1)) =? 0) then mret (tmp, r) else
        let tmp := uw w (Z.shiftl tmp 1) in
        if tmp >? dividend then mret (Z.shiftr tmp 1, r)
        else align_loop w f dividend tmp (uw w (r * 2))
    end
  else mret (tmp, r).

(** The recursive case; [last] makes the result of the final arguments. *)
Fixpoint div_recursive (w : Z) (last : Z -> Z -> Z) (fuel : nat) (dividend divisor acc : Z) : res Z :=
  if dividend <? divisor then mret (last dividend acc) else
  match fuel with
  | O => Fault
  | S f =>
      '(tmp, r) ← align_loop w (Z.to_nat w) dividend divisor 1;
      div_recursive w last f (uw w (dividend - tmp)) divisor (uw w (acc + r))
  end.

Definition __aeabi_uidiv_recursive : Z -> Z -> Z -> res Z := div_recursive 32 (fun _ acc => acc) 32.
Definition __aeabi_uldivmod_recursive : Z -> Z -> Z -> res Z := div_recursive 64 (fun _ acc => acc) 64.
Definition __aeabi_idivmod_recursive : Z -> Z -> Z -> res Z := div_recursive 32 (fun dividend _ => dividend) 32.

Definition __aeabi_uidiv (dividend divisor : Z) : res Z :=
  if divisor =? 0 then Panic
  else if dividend <? divisor then mret 0
  else if is_power_of2 divisor then mret (Z.shiftr dividend (get_power_of2 divisor))
  else __aeabi_uidiv_recursive dividend divisor 0.

(** [ulldiv_t]: the quotient and the remainder. *)
Record ulldiv_t : Type := UllDiv { quot : Z; rem : Z }.

Definition __aeabi_uldivmod (dividend divisor : Z) : res ulldiv_t :=
  if divisor =? 0 then Panic
  else if dividend <? divisor then mret (UllDiv 0 dividend)
  else if is_power_of2 divisor then
    let q := Z.shiftr dividend (get_power_of2 divisor) in
    mret (UllDiv q (u64 (dividend - u64 (q * divisor))))
  else
    q ← __aeabi_uldivmod_recursive dividend divisor 0;
    mret (UllDiv q (u64 (dividend - u64 (q * divisor)))).

Definition __aeabi_idivmod (dividend divisor : Z) : res Z :=
  if divisor =? 0 then Panic
  else if dividend <? divisor then mret dividend
  else if is_power_of2 divisor then mret (Z.land dividend (u32 (divisor - 1)))
  else __aeabi_idivmod_recursive dividend divisor 0.

(** ** Powers of two *)

Lemma testbit_top k x : 0 <= k -> 0 <= x < 2 ^ k -> Z.testbit (2 ^ k + x) k = true.
Proof.
  intros Hk Hx. apply Z.testbit_true; [done|].
  replace (2 ^ k + x) with (1 * 2 ^ k + x) by lia. rewrite Z.div_add_l by lia.
  by rewrite Z.div_small by lia.
Qed.

Lemma is_power_of2_spec n :
  in_u32 n -> is_power_of2 n = true -> exists k, 0 <= k < 32 /\ n = 2 ^ k.
Proof.
  intros Hn. unfold is_power_of2. rewrite (u32_id n Hn). rewrite andb_true_iff, negb_true_iff, Z.eqb_neq, Z.eqb_eq.
  intros [H0 Hl]. unfold in_u32 in Hn. rewrite u32_id in Hl by (unfold in_u32; lia).
  exists (Z.log2 n). pose proof (Z.log2_nonneg n).
  assert (Z.log2 n < 32) by (apply Z.log2_lt_pow2; lia). split; [lia|].
  pose proof (Z.log2_spec n ltac:(lia)) as [L1 L2]. set (k := Z.log2 n) in *.
  rewrite Z.pow_succ_r in L2 by done.
  destruct (Z.eq_dec n (2 ^ k)) as [|Hne]; [done|exfalso].
  assert (Z.testbit (Z.land n (n - 1)) k = true) as Hb; [|by rewrite Hl, Z.bits_0 in Hb].
  rewrite Z.land_spec. apply andb_true_iff. split.
  - replace n with (2 ^ k + (n - 2 ^ k)) by lia. apply testbit_top; lia.
  - replace (n - 1) with (2 ^ k + (n - 1 - 2 ^ k)) by lia. apply testbit_top; lia.
Qed.

Lemma get_power_of2_loop_spec fuel i k :
  0 <= k < Z.of_nat fuel -> get_power_of2_loop fuel i (2 ^ k) = i + k.
Proof.
  revert i k. induction fuel as [|fuel IH]; intros i k Hk; [lia|]. cbn [get_power_of2_loop].
  destruct (Z.eq_dec k 0) as [->|Hne]; [change (Z.testbit (2 ^ 0) 0) with true; cbv iota; lia|].
  rewrite Z.pow2_bits_false by lia. rewrite Z.shiftr_div_pow2 by lia.
  replace (2 ^ k / 2 ^ 1) with (2 ^ (k - 1)).
  - rewrite IH; lia.
  - rewrite Z.pow_sub_r by lia. done.
Qed.

Lemma get_power_of2_spec k : 0 <= k < 32 -> get_power_of2 (2 ^ k) = k.
Proof.
  intros Hk. unfold get_power_of2. rewrite u32_id.
  - by rewrite get_power_of2_loop_spec.
  - unfold in_u32. split; [lia|]. apply Z.pow_lt_mono_r; lia.
Qed.

(** ** The loops *)

Section width.
Context (w : Z) (Hw : 1 <= w).

Lemma top_bit tmp : 0 <= tmp < 2 ^ w ->
  Z.land tmp (Z.shiftl 1 (w - 1)) =? 0 = (tmp <? 2 ^ (w - 1)).
Proof.
  intros Ht. rewrite Z.shiftl_1_l.
  assert (E2 : 2 ^ w = 2 * 2 ^ (w - 1)) by (rewrite <-Z.pow_succ_r by lia; f_equal; lia).
  destruct (Z.ltb_spec tmp (2 ^ (w - 1))) as [Hlt|Hge].
  - apply Z.eqb_eq, Z.bits_inj'. intros n Hn. rewrite Z.bits_0, Z.land_spec.
    destruct (Z.eq_dec n (w - 1)) as [->|Hne].
    + rewrite (testbit_high (w - 1) tmp) by lia. done.
    + rewrite Z.pow2_bits_false by lia. apply andb_false_r.
  - apply Z.eqb_neq. intros E.
    assert (Z.testbit (Z.land tmp (2 ^ (w - 1))) (w - 1) = true) as Hb; [|by rewrite E, Z.bits_0 in Hb].
    rewrite Z.land_spec, Z.pow2_bits_true by lia. rewrite andb_true_r.
    replace tmp with (2 ^ (w - 1) + (tmp - 2 ^ (w - 1))) by lia. apply testbit_top; lia.
Qed.

(** The loop finds the largest shifted divisor below the dividend. *)
Lemma align_loop_spec fuel dividend divisor tmp r :
  1 <= divisor -> 1 <= r -> tmp = divisor * r -> tmp <= dividend < 2 ^ w ->
  dividend < tmp * 2 ^ Z.of_nat fuel ->
  exists r', align_loop w fuel dividend tmp r = Ret (divisor * r', r') /\
    1 <= r' /\ divisor * r' <= dividend < 2 * (divisor * r').
Proof.
  revert tmp r. induction fuel as [|fuel IH]; intros tmp r Hd Hr -> Ht Hf; cbn [align_loop].
  - rewrite Z.pow_0_r in Hf. lia.
  - assert (E2 : 2 ^ w = 2 * 2 ^ (w - 1)) by (rewrite <-Z.pow_succ_r by lia; f_equal; lia).
    destruct (Z.gtb_spec dividend (divisor * r)) as [Hgt|Hle].
    2: { exists r. split; [done|]. split; [done|]. nia. }
    rewrite top_bit by nia. destruct (Z.ltb_spec (divisor * r) (2 ^ (w - 1))) as [Hlt|Hge]; cbn [negb].
    2: { exists r. split; [done|]. split; [done|]. lia. }
    rewrite Z.shiftl_mul_pow2 by lia. unfold uw. rewrite Z.mod_small by nia.
    destruct (Z.gtb_spec (divisor * r * 2 ^ 1) dividend) as [Hgt2|Hle2].
    + rewrite Z.shiftr_div_pow2, Z.div_mul by lia. exists r. split; [done|]. split; [done|]. lia.
    + rewrite (Z.mod_small (r * 2)) by nia.
      apply (IH (divisor * r * 2 ^ 1) (r * 2)); try lia.
      rewrite Nat2Z.inj_succ, Z.pow_succ_r in Hf by lia. lia.
Qed.

(** Enough fuel for a dividend below [2 ^ fuel], and the result. *)
Lemma div_recursive_spec last fuel dividend divisor acc :
  1 <= divisor -> 0 <= dividend < 2 ^ Z.of_nat fuel -> Z.of_nat fuel <= w -> 0 <= acc ->
  acc + dividend / divisor < 2 ^ w ->
  div_recursive w last fuel dividend divisor acc =
    Ret (last (dividend mod divisor) (acc + dividend / divisor)).
Proof.
  revert dividend acc. induction fuel as [|fuel IH]; intros dividend acc Hd Hn Hf Ha Hq; cbn [div_recursive];
    destruct (Z.ltb_spec dividend divisor) as [Hlt|Hge].
  - rewrite Z.mod_small, Z.div_small by lia. by rewrite Z.add_0_r.
  - rewrite Z.pow_0_r in Hn. lia.
  - rewrite Z.mod_small, Z.div_small by lia. by rewrite Z.add_0_r.
  - assert (Hw2 : 2 ^ Z.of_nat (S fuel) <= 2 ^ w) by (apply Z.pow_le_mono_r; lia).
    rewrite Nat2Z.inj_succ, Z.pow_succ_r in Hn, Hw2 by lia.
    destruct (align_loop_spec (Z.to_nat w) dividend divisor divisor 1) as (r & -> & Hr & Hlo);
      [lia|lia|lia|lia|rewrite Z2Nat.id by lia; nia|].
    cbn [mbind res_bind].
    assert (Hdiv : dividend / divisor = r + (dividend - divisor * r) / divisor).
    { replace dividend with (r * divisor + (dividend - divisor * r)) at 1 by lia.
      by rewrite Z.div_add_l by lia. }
    assert (Hmod : dividend mod divisor = (dividend - divisor * r) mod divisor).
    { replace dividend with ((dividend - divisor * r) + r * divisor) at 1 by lia. by rewrite Z.mod_add by lia. }
    pose proof (Z.div_pos (dividend - divisor * r) divisor ltac:(lia) ltac:(lia)).
    unfold uw. rewrite (Z.mod_small (dividend - divisor * r)), (Z.mod_small (acc + r)) by lia.
    rewrite IH; [|lia|lia|lia|lia|lia]. rewrite Hdiv, Hmod, Z.add_assoc. done.
Qed.
End width.

(** ** The routines *)

Lemma u32_fuel n : in_u32 n -> 0 <= n < 2 ^ Z.of_nat 32.
Proof. done. Qed.

Lemma div_bound n d : 0 <= n -> 1 <= d -> 0 <= n / d <= n.
Proof. intros. split; [by apply Z.div_pos; lia|]. apply Z.div_le_upper_bound; nia. Qed.

(** The shift and the mask for a power of two. *)
Lemma pow2_div n d k : 0 <= k -> d = 2 ^ k -> Z.shiftr n k = n / d.
Proof. intros Hk ->. by rewrite Z.shiftr_div_pow2. Qed.

(** C36: 32-bit unsigned division is correct: for every dividend and every
    divisor but 0 the routine returns the quotient (its loops end within the
    width of the integers), and a division by 0 stops in [DIE_NOW]. *)
Theorem uidiv_correct (n d : Z) (Hn : in_u32 n) (Hd : in_u32 d) :
  __aeabi_uidiv n d = if d =? 0 then Panic else Ret (n / d).
Proof.
  unfold __aeabi_uidiv. destruct (Z.eqb_spec d 0) as [|Hd0]; [done|]. pose proof Hn as [? ?]. pose proof Hd as [? ?].
  destruct (Z.ltb_spec n d) as [Hlt|Hge]; [by rewrite Z.div_small by lia|].
  destruct (is_power_of2 d) eqn:Hp.
  - apply (is_power_of2_spec d Hd) in Hp as (k & Hk & ->). by rewrite get_power_of2_spec, Z.shiftr_div_pow2 by lia.
  - unfold __aeabi_uidiv_recursive. pose proof (div_bound n d ltac:(lia) ltac:(lia)).
    rewrite div_recursive_spec; try lia; by rewrite ?Z.add_0_l.
Qed.

(** [__aeabi_idivmod] returns the unsigned remainder alone: for every
    dividend and every divisor but 0 the value is [n mod d], the operands
    being read as unsigned words. *)
Theorem idivmod_remainder (n d : Z) (Hn : in_u32 n) (Hd : in_u32 d) :
  __aeabi_idivmod n d = if d =? 0 then Panic else Ret (n mod d).
Proof.
  unfold __aeabi_idivmod. destruct (Z.eqb_spec d 0) as [|Hd0]; [done|]. pose proof Hn as [? ?]. pose proof Hd as [? ?].
  destruct (Z.ltb_spec n d) as [Hlt|Hge]; [by rewrite Z.mod_small by lia|].
  destruct (is_power_of2 d) eqn:Hp.
  - apply (is_power_of2_spec d Hd) in Hp as (k & Hk & ->).
    rewrite u32_id by (unfold in_u32; lia). rewrite <-(Z.land_ones n k), Z.ones_equiv by lia. done.
  - unfold __aeabi_idivmod_recursive. pose proof (div_bound n d ltac:(lia) ltac:(lia)).
    by rewrite div_recursive_spec by lia.
Qed.

Lemma uldivmod_rem n d q : in_u64 n -> in_u64 d -> q = n / d -> d <> 0 ->
  u64 (n - u64 (q * d)) = n mod d.
Proof.
  intros [? ?] [? ?] -> Hd0. pose proof (Z.div_mod n d Hd0). pose proof (Z.mod_pos_bound n d ltac:(lia)).
  pose proof (Z.div_pos n d ltac:(lia) ltac:(lia)).
  unfold u64, uw. rewrite (Z.mod_small (n / d * d)) by lia. rewrite Z.mod_small by lia. lia.
Qed.

(** C37: 64-bit unsigned division returns the quotient and the remainder for
    every divisor that fits in 32 bits or whose low word is not a power of
    two; a division by 0 stops in [DIE_NOW]. *)
Theorem uldivmod_correct (n d : Z) (Hn : in_u64 n) (Hd : in_u64 d)
    (Hlow : d < 2 ^ 32 \/ is_power_of2 d = false) :
  __aeabi_uldivmod n d = if d =? 0 then Panic else Ret (UllDiv (n / d) (n mod d)).
Proof.
  unfold __aeabi_uldivmod. destruct (Z.eqb_spec d 0) as [|Hd0]; [done|]. pose proof Hn as [? ?]. pose proof Hd as [? ?].
  destruct (Z.ltb_spec n d) as [Hlt|Hge]; [by rewrite Z.mod_small, Z.div_small by lia|].
  destruct (is_power_of2 d) eqn:Hp.
  - destruct Hlow as [Hlow|]; [|done]. assert (Hd32 : in_u32 d) by (unfold in_u32; lia).
    apply (is_power_of2_spec d Hd32) in Hp as (k & Hk & Ek). rewrite Ek at 1. rewrite get_power_of2_spec by done.
    rewrite (pow2_div n d k) by (done || lia). cbv zeta. rewrite Ek at 2. rewrite get_power_of2_spec by done.
    rewrite (pow2_div n d k) by (done || lia). by rewrite (uldivmod_rem n d (n / d)).
  - unfold __aeabi_uldivmod_recursive. pose proof (div_bound n d ltac:(lia) ltac:(lia)).
    change (2 ^ 64) with (2 ^ Z.of_nat 64) in *. rewrite div_recursive_spec by lia.
    cbn [mbind res_bind]. rewrite Z.add_0_l. by rewrite (uldivmod_rem n d (n / d)).
Qed.

(** The power-of-two shortcut of the 64-bit division tests only the low
    word of the divisor: when that word is a power of two although the divisor
    needs more than 32 bits, the quotient returned is that of the division by
    the low word, which is wrong for every dividend not below the divisor. *)
Theorem uldivmod_low_word (n d : Z) (Hn : in_u64 n) (Hd : 2 ^ 32 <= d <= n)
    (Hlow : is_power_of2 d = true) :
  exists k, 0 <= k < 32 /\ u32 d = 2 ^ k /\
    (exists r, __aeabi_uldivmod n d = Ret (UllDiv (n / 2 ^ k) r)) /\ n / 2 ^ k <> n / d.
Proof.
  assert (Hp : is_power_of2 (u32 d) = true) by (unfold is_power_of2 in *; by rewrite u32_mod).
  apply (is_power_of2_spec _ (u32_range d)) in Hp as (k & Hk & Ek). exists k. split; [done|]. split; [done|].
  split.
  - unfold __aeabi_uldivmod. destruct (Z.eqb_spec d 0) as [|_]; [lia|].
    destruct (Z.ltb_spec n d) as [|_]; [lia|]. rewrite Hlow.
    assert (Eg : get_power_of2 d = k).
    { unfold get_power_of2. rewrite Ek. pose proof (get_power_of2_spec k Hk) as G. unfold get_power_of2 in G.
      rewrite u32_id in G; [done|]. rewrite <-Ek. apply u32_range. }
    rewrite Eg, Z.shiftr_div_pow2 by lia. by eexists.
  - assert (0 < 2 ^ k) by lia. assert (2 ^ k <= 2 ^ 31) by (apply Z.pow_le_mono_r; lia).
    change (2 ^ 32) with (2 * 2 ^ 31) in Hd.
    assert (1 <= n / d) by (apply Z.div_le_lower_bound; lia).
    assert (2 * (n / d) <= n / 2 ^ k); [|lia].
    apply Z.div_le_lower_bound; [lia|]. pose proof (Z.mul_div_le n d ltac:(lia)). nia.
Qed.

Lemma uidiv_correct_witness : __aeabi_uidiv 4294967295 7 = Ret 613566756.
Proof. rewrite (uidiv_correct 4294967295 7); [reflexivity|by compute|by compute]. Defined.

Lemma idivmod_remainder_witness : __aeabi_idivmod 1000 7 = Ret 6.
Proof. rewrite (idivmod_remainder 1000 7); [reflexivity|by compute|by compute]. Defined.

Lemma uldivmod_correct_witness :
  __aeabi_uldivmod 1000000000000 10 = Ret (UllDiv 100000000000 0).
Proof.
  rewrite (uldivmod_correct 1000000000000 10); [reflexivity|by compute|by compute|by left].
Defined.

(** Dividing by [2 ^ 32 + 2] halves. *)
Lemma uldivmod_low_word_witness :
  exists k, u32 4294967298 = 2 ^ k /\ 8589934596 / 2 ^ k <> 8589934596 / 4294967298.
Proof.
  destruct (uldivmod_low_word 8589934596 4294967298) as (k & _ & E & _ & Hne);
    [by compute|by compute|reflexivity|]. exists k. split; [exact E|exact Hne].
Defined.
