(* ===== verification/MemFn.v ===== *)
(** [lib/sw_mem_functions.c]: the byte-wise memory routines.

    Memory is a finite map from addresses to bytes; touching an address that is
    not in it faults.  The routines are the source's loops, one byte or one
    word at a time, and are compared with [write_bytes], the simultaneous
    assignment of a list of bytes. *)
From stdpp Require Import prelude gmap.
From S2P Require Import Prelude.
#[local] Open Scope Z_scope.

Abbreviation mem := (gmap Z Z).

Definition load8 (a : Z) (m : mem) : res Z := of_opt (m !! a).
Definition store8 (a v : Z) (m : mem) : res mem :=
  _ ← of_opt (m !! a); mret (<[a := u8 v]> m).

(** [while (count--) *tmp++ = *s++] and its downward twin. *)
Fixpoint copy_up (count : nat) (d s : Z) (m : mem) : res mem :=
  match count with
  | O => mret m
  | S n => v ← load8 s m; m ← store8 d v m; copy_up n (d + 1) (s + 1) m
  end.

Fixpoint copy_down (count : nat) (d s : Z) (m : mem) : res mem :=
  match count with
  | O => mret m
  | S n => v ← load8 (s - 1) m; m ← store8 (d - 1) v m; copy_down n (d - 1) (s - 1) m
  end.

Definition sw_memmove (dest src count : Z) (m : mem) : res (Z * mem) :=
  m ← (if dest <=? src then copy_up (Z.to_nat count) dest src m
       else copy_down (Z.to_nat count) (dest + count) (src + count) m);
  mret (dest, m).

Fixpoint fill (count : nat) (d c : Z) (m : mem) : res mem :=
  match count with
  | O => mret m
  | S n => m ← store8 d c m; fill n (d + 1) c m
  end.

Definition sw_memset (dest c count : Z) (m : mem) : res (Z * mem) :=
  m ← fill (Z.to_nat count) dest c m; mret (dest, m).

(** [*(u32 * )dst = *(u32 * )src]: the whole word is read before it is written. *)
Definition copy_word (d s : Z) (m : mem) : res mem :=
  b0 ← load8 s m; b1 ← load8 (s + 1) m; b2 ← load8 (s + 2) m; b3 ← load8 (s + 3) m;
  m ← store8 d b0 m; m ← store8 (d + 1) b1 m; m ← store8 (d + 2) b2 m; store8 (d + 3) b3 m.

(** The word loop: the number of bytes copied and the memory.  [i] counts up
    to [count] in steps of four; it needs at most [count] rounds. *)
Fixpoint copy_words (fuel : nat) (i count d s : Z) (m : mem) : res (Z * mem) :=
  if i <? count then
    match fuel with
    | O => Fault
    | S f =>
        if i + 3 >? u32 (count - 1) then mret (i, m) else
        m ← copy_word (d + i) (s + i) m;
        copy_words f (i + 4) count d s m
    end
  else mret (i, m).

Definition sw_memcpy (dst src count : Z) (m : mem) : res (Z * mem) :=
  m ← (if (Z.land src 0xC =? 0) && (Z.land dst 0xC =? 0) then
         '(i, m) ← copy_words (Z.to_nat count) 0 count dst src m;
         if i <=? u32 (count - 1) then copy_up (Z.to_nat (count - i)) (dst + i) (src + i) m
         else mret m
       else copy_up (Z.to_nat count) dst src m);
  mret (dst, m).

(** The loop of [sw_memcmp]: the final value of [counter]. *)
Fixpoint cmp_loop (fuel : nat) (counter length src dest : Z) (m : mem) : res Z :=
  if counter <? length then
    match fuel with
    | O => Fault
    | S f =>
        a ← load8 (src + counter) m; b ← load8 (dest + counter) m;
        if a - b =? 0 then cmp_loop f (counter + 1) length src dest m else mret counter
    end
  else mret counter.

Definition sw_memcmp (src dest length : Z) (m : mem) : res Z :=
  counter ← cmp_loop (Z.to_nat length) 0 length src dest m;
  let counter := if counter =? length then counter - 1 else counter in
  a ← load8 (src + counter) m; b ← load8 (dest + counter) m;
  mret (a - b).

(** 0 is the null pointer. *)
Definition sw_memncpy (dst src count dstLen srcLen : Z) (m : mem) : res (Z * mem) :=
  if (count <=? dstLen) || (count <=? srcLen) then sw_memcpy dst src count m
  else mret (0, m).

(** ** Reading and assigning lists of bytes *)

Fixpoint read_bytes (n : nat) (a : Z) (m : mem) : option (list Z) :=
  match n with
  | O => Some []
  | S n => v ← m !! a; l ← read_bytes n (a + 1) m; Some (v :: l)
  end.

Fixpoint write_bytes (a : Z) (l : list Z) (m : mem) : mem :=
  match l with [] => m | v :: l => write_bytes (a + 1) l (<[a := v]> m) end.

(** Every byte of the range is there. *)
Definition mapped (a n : Z) (m : mem) : Prop := forall x, a <= x < a + n -> is_Some (m !! x).

Definition is_byte (v : Z) : Prop := 0 <= v < 256.
Definition bytes_ok (m : mem) : Prop := map_Forall (fun _ v => is_byte v) m.

Lemma write_bytes_lookup a l m x :
  write_bytes a l m !! x =
    if decide (a <= x < a + Z.of_nat (length l)) then l !! Z.to_nat (x - a) else m !! x.
Proof.
  revert a m. induction l as [|v l IH]; intros a m; cbn [write_bytes length].
  - by rewrite decide_False by lia.
  - rewrite IH. destruct (decide (a + 1 <= x < a + 1 + Z.of_nat (length l))) as [Hin|Hout].
    + rewrite decide_True by lia. replace (Z.to_nat (x - a)) with (S (Z.to_nat (x - (a + 1)))) by lia. done.
    + destruct (decide (x = a)) as [->|Hne].
      * rewrite lookup_insert_eq, decide_True by lia. by rewrite Z.sub_diag.
      * rewrite lookup_insert_ne by done. by rewrite decide_False by lia.
Qed.

Lemma read_bytes_length n a m l : read_bytes n a m = Some l -> length l = n.
Proof.
  revert a l. induction n as [|n IH]; intros a l; cbn; [by intros [= <-]|].
  intros (v & _ & (l' & E & [= <-])%bind_Some)%bind_Some. cbn. f_equal. by eapply IH.
Qed.

Lemma read_bytes_lookup n a m l i :
  read_bytes n a m = Some l -> (i < n)%nat -> l !! i = m !! (a + Z.of_nat i).
Proof.
  revert a l i. induction n as [|n IH]; intros a l i; cbn; [lia|].
  intros (v & Ev & (l' & E & [= <-])%bind_Some)%bind_Some Hi. destruct i as [|i].
  - by rewrite Z.add_0_r, Ev.
  - cbn. rewrite (IH _ _ _ E) by lia. f_equal. lia.
Qed.

(** Memories with the same bytes are the same. *)
Lemma read_bytes_snoc n a m :
  read_bytes (S n) a m = l ← read_bytes n a m; v ← m !! (a + Z.of_nat n); Some (l ++ [v]).
Proof.
  revert a. induction n as [|n IH]; intros a.
  - cbn. rewrite Z.add_0_r. by destruct (m !! a).
  - cbn [read_bytes] in IH |- *. rewrite IH. destruct (m !! a) as [v|]; [cbn|done].
    destruct (read_bytes n (a + 1) m) as [l|]; [cbn|done].
    replace (a + 1 + Z.of_nat n) with (a + Z.of_nat (S n)) by lia. by destruct (m !! _).
Qed.

Lemma read_bytes_frame n a m m' :
  (forall x, a <= x < a + Z.of_nat n -> m' !! x = m !! x) -> read_bytes n a m' = read_bytes n a m.
Proof.
  revert a. induction n as [|n IH]; intros a Hx; [done|]. cbn [read_bytes].
  rewrite Hx by lia. destruct (m !! a); [cbn|done]. rewrite IH; [done|]. intros x ?. apply Hx. lia.
Qed.

Lemma mapped_insert a n m x v : mapped a n m -> mapped a n (<[x := v]> m).
Proof.
  intros Hm y Hy. destruct (decide (x = y)) as [->|]; [rewrite lookup_insert_eq; by eexists|].
  rewrite lookup_insert_ne by done. by apply Hm.
Qed.

Lemma u8_id v : is_byte v -> u8 v = v.
Proof. intros Hv. apply Z.mod_small. exact Hv. Qed.

Lemma store8_ok a v m : is_Some (m !! a) -> is_byte v -> store8 a v m = Ret (<[a := v]> m).
Proof. intros [w E] Hv. unfold store8. rewrite E. cbn. by rewrite u8_id. Qed.

Lemma read_bytes_ok n a m l : bytes_ok m -> read_bytes n a m = Some l -> Forall is_byte l.
Proof.
  intros Hb. revert a l. induction n as [|n IH]; intros a l; cbn; [by intros [= <-]|].
  intros (v & Ev & (l' & E & [= <-])%bind_Some)%bind_Some. constructor; [by eapply Hb|by eapply IH].
Qed.

(** ** The loops *)

(** Copying upwards is right when the destination does not overtake the
    source. *)
Lemma copy_up_spec n d s m l :
  read_bytes n s m = Some l -> Forall is_byte l -> mapped d (Z.of_nat n) m ->
  (d <= s \/ s + Z.of_nat n <= d) ->
  copy_up n d s m = Ret (write_bytes d l m).
Proof.
  revert d s m l. induction n as [|n IH]; intros d s m l Hr Hb Hm Hov; cbn in Hr.
  { injection Hr as <-. done. }
  apply bind_Some in Hr as (v & Ev & (l' & E & [= <-])%bind_Some).
  apply Forall_cons in Hb as [Hv Hb]. cbn [copy_up write_bytes]. unfold load8. rewrite Ev. cbn [of_opt mbind res_bind].
  rewrite store8_ok by (done || apply Hm; lia). cbn [mbind res_bind].
  apply IH; [|done| |lia].
  - rewrite (read_bytes_frame n (s + 1) m); [done|]. intros x Hx. rewrite lookup_insert_ne; [done|]. lia.
  - intros x Hx. apply (mapped_insert d (Z.of_nat (S n))); [done|]. lia.
Qed.

Lemma write_bytes_snoc a l v m :
  write_bytes a (l ++ [v]) m = <[a + Z.of_nat (length l) := v]> (write_bytes a l m).
Proof.
  revert a m. induction l as [|w l IH]; intros a m; cbn.
  - by rewrite Z.add_0_r.
  - rewrite IH. f_equal. lia.
Qed.

Lemma write_bytes_insert a l v x m :
  x < a -> write_bytes a l (<[x := v]> m) = <[x := v]> (write_bytes a l m).
Proof.
  revert a m. induction l as [|w l IH]; intros a m Hx; cbn; [done|].
  rewrite <-IH by lia. by rewrite insert_insert_ne by lia.
Qed.

Lemma write_bytes_insert_high a l v x m :
  a + Z.of_nat (length l) <= x -> write_bytes a l (<[x := v]> m) = <[x := v]> (write_bytes a l m).
Proof.
  revert a m. induction l as [|w l IH]; intros a m Hx; cbn in *; [done|].
  rewrite <-IH by lia. by rewrite insert_insert_ne by lia.
Qed.

Lemma copy_down_spec n d s m l :
  read_bytes n s m = Some l -> Forall is_byte l -> mapped d (Z.of_nat n) m ->
  (s <= d \/ d + Z.of_nat n <= s) ->
  copy_down n (d + Z.of_nat n) (s + Z.of_nat n) m = Ret (write_bytes d l m).
Proof.
  revert m l. induction n as [|n IH]; intros m l Hr Hb Hm Hov.
  { injection Hr as <-. done. }
  rewrite read_bytes_snoc in Hr. apply bind_Some in Hr as (l' & E & (v & Ev & [= <-])%bind_Some).
  apply Forall_app in Hb as [Hb Hv]. apply (proj1 (Forall_singleton _ _)) in Hv. cbn [copy_down].
  replace (s + Z.of_nat (S n) - 1) with (s + Z.of_nat n) by lia.
  replace (d + Z.of_nat (S n) - 1) with (d + Z.of_nat n) by lia.
  unfold load8. rewrite Ev. cbn [of_opt mbind res_bind].
  rewrite store8_ok by (done || apply Hm; lia). cbn [mbind res_bind].
  rewrite (IH (<[d + Z.of_nat n := v]> m) l'); [|rewrite <-E|done| |lia].
  - rewrite write_bytes_snoc, (read_bytes_length _ _ _ _ E). f_equal.
    apply write_bytes_insert_high. rewrite (read_bytes_length _ _ _ _ E). lia.
  - apply read_bytes_frame. intros x Hx. rewrite lookup_insert_ne; [done|]. lia.
  - intros x Hx. apply (mapped_insert d (Z.of_nat (S n))); [done|]. lia.
Qed.

(** [sw_memmove] is a simultaneous assignment: on any two mapped ranges,
    overlapping or not, it returns the destination and leaves there the bytes
    the source held before the call, changing nothing else. *)
Theorem memmove_correct (dest src : Z) (n : nat) (l : list Z) (m : mem)
    (Hsrc : read_bytes n src m = Some l) (Hok : bytes_ok m) (Hdst : mapped dest (Z.of_nat n) m) :
  sw_memmove dest src (Z.of_nat n) m = Ret (dest, write_bytes dest l m).
Proof.
  pose proof (read_bytes_ok _ _ _ _ Hok Hsrc) as Hb. unfold sw_memmove. rewrite Nat2Z.id.
  destruct (Z.leb_spec dest src).
  - rewrite (copy_up_spec n dest src m l); [done|done|done|done|lia].
  - rewrite (copy_down_spec n dest src m l); [done|done|done|done|lia].
Qed.

Lemma fill_spec n d c m :
  mapped d (Z.of_nat n) m -> fill n d c m = Ret (write_bytes d (replicate n (u8 c)) m).
Proof.
  revert d m. induction n as [|n IH]; intros d m Hm; [done|]. cbn [fill replicate write_bytes].
  unfold store8. destruct (Hm d) as [w Ew]; [lia|]. rewrite Ew. cbn. apply IH.
  intros x Hx. apply (mapped_insert d (Z.of_nat (S n))); [done|]. lia.
Qed.

(** [sw_memset] stores the low byte of its argument in exactly the
    [count] bytes of the destination. *)
Theorem memset_correct (dest c : Z) (n : nat) (m : mem) (Hdst : mapped dest (Z.of_nat n) m) :
  sw_memset dest c (Z.of_nat n) m = Ret (dest, write_bytes dest (replicate n (u8 c)) m).
Proof. unfold sw_memset. by rewrite Nat2Z.id, fill_spec. Qed.

Lemma write_bytes_app a l1 l2 m :
  write_bytes a (l1 ++ l2) m = write_bytes (a + Z.of_nat (length l1)) l2 (write_bytes a l1 m).
Proof.
  revert a m. induction l1 as [|v l1 IH]; intros a m; cbn [app write_bytes length].
  - by rewrite Z.add_0_r.
  - rewrite IH. f_equal. lia.
Qed.

Lemma mapped_write a n d l m : mapped a n m -> mapped a n (write_bytes d l m).
Proof.
  revert d m. induction l as [|v l IH]; intros d m Hm; [done|]. cbn. apply IH. by apply mapped_insert.
Qed.

Lemma read_bytes_app n1 n2 a m :
  read_bytes (n1 + n2) a m =
    l1 ← read_bytes n1 a m; l2 ← read_bytes n2 (a + Z.of_nat n1) m; Some (l1 ++ l2).
Proof.
  revert a. induction n1 as [|n1 IH]; intros a; cbn [read_bytes Nat.add].
  - rewrite Z.add_0_r. by destruct (read_bytes n2 a m).
  - destruct (m !! a) as [v|]; [cbn|done]. rewrite IH. destruct (read_bytes n1 (a + 1) m) as [l|]; [cbn|done].
    replace (a + 1 + Z.of_nat n1) with (a + Z.of_nat (S n1)) by lia. by destruct (read_bytes n2 _ m).
Qed.

Lemma read_bytes_write n a d l m :
  a + Z.of_nat n <= d \/ d + Z.of_nat (length l) <= a -> read_bytes n a (write_bytes d l m) = read_bytes n a m.
Proof.
  intros Hd. apply read_bytes_frame. intros x Hx. rewrite write_bytes_lookup. rewrite decide_False by lia. done.
Qed.

Lemma read_bytes_write_same l a m : read_bytes (length l) a (write_bytes a l m) = Some l.
Proof.
  revert a m. induction l as [|v l IH]; intros a m; [done|]. cbn [read_bytes write_bytes length].
  rewrite write_bytes_insert by lia. rewrite lookup_insert_eq. cbn.
  rewrite (read_bytes_frame (length l) (a + 1) (write_bytes (a + 1) l m)).
  - by rewrite IH.
  - intros x Hx. rewrite lookup_insert_ne; [done|]. lia.
Qed.

Lemma copy_word_spec d s m l :
  read_bytes 4 s m = Some l -> Forall is_byte l -> mapped d 4 m ->
  copy_word d s m = Ret (write_bytes d l m).
Proof.
  cbn [read_bytes]. replace (s + 1 + 1) with (s + 2) by lia. replace (s + 2 + 1) with (s + 3) by lia.
  intros (b0 & E0 & (? & (b1 & E1 & (? & (b2 & E2 & (? & (b3 & E3 & [= <-])%bind_Some & [= <-])%bind_Some)
    %bind_Some & [= <-])%bind_Some)%bind_Some & [= <-])%bind_Some)%bind_Some Hb Hm.
  repeat (apply Forall_cons in Hb; destruct Hb as [? Hb]).
  unfold copy_word, load8. rewrite E0, E1, E2, E3. cbn [of_opt mbind res_bind].
  pose proof (mapped_insert d 4 m d b0 Hm) as M1.
  pose proof (mapped_insert d 4 _ (d + 1) b1 M1) as M2.
  pose proof (mapped_insert d 4 _ (d + 2) b2 M2) as M3.
  do 3 (rewrite store8_ok; [cbn [mbind res_bind]|(apply Hm || apply M1 || apply M2); lia|done]).
  rewrite store8_ok; [|apply M3; lia|done].
  cbn [write_bytes]. replace (d + 1 + 1) with (d + 2) by lia. by replace (d + 2 + 1) with (d + 3) by lia.
Qed.

(** The word loop copies a multiple of four bytes and leaves fewer than four. *)
Lemma copy_words_spec fuel i n d s m l :
  0 <= i -> Z.of_nat n < 2 ^ 31 -> i + Z.of_nat (length l) = Z.of_nat n -> (length l <= fuel)%nat ->
  read_bytes (length l) (s + i) m = Some l -> Forall is_byte l -> mapped d (Z.of_nat n) m ->
  d + Z.of_nat n <= s \/ s + Z.of_nat n <= d ->
  exists l1 l2, l = l1 ++ l2 /\ (length l2 < 4)%nat /\
    copy_words fuel i (Z.of_nat n) d s m = Ret (i + Z.of_nat (length l1), write_bytes (d + i) l1 m).
Proof.
  revert i m l. induction fuel as [|fuel IH]; intros i m l Hi Hn Hil Hf Hr Hb Hm Hov; cbn [copy_words];
    destruct (Z.ltb_spec i (Z.of_nat n)) as [Hlt|Hge].
  - lia.
  - exists [], l. cbn. rewrite Z.add_0_r. split; [done|]. split; [lia|done].
  - rewrite u32_id by (unfold in_u32; lia). destruct (Z.gtb_spec (i + 3) (Z.of_nat n - 1)) as [Hgt|Hle].
    { exists [], l. cbn. rewrite Z.add_0_r. split; [done|]. split; [lia|done]. }
    assert (Hlen : (4 <= length l)%nat) by lia.
    rewrite <-(take_drop 4 l) in Hr, Hb. rewrite length_app, length_take, Nat.min_l in Hr by done.
    rewrite read_bytes_app in Hr. apply bind_Some in Hr as (l1 & E1 & (l2 & E2 & E)%bind_Some).
    injection E as E. apply app_inj_1 in E as [-> ->].
    2: { rewrite (read_bytes_length _ _ _ _ E1), length_take. lia. }
    apply Forall_app in Hb as [Hb1 Hb2].
    rewrite (copy_word_spec (d + i) (s + i) m (take 4 l)); [|done|done|intros x ?; apply Hm; lia].
    cbn [mbind res_bind]. assert (L4 : length (take 4 l) = 4%nat) by (rewrite length_take; lia).
    destruct (IH (i + 4) (write_bytes (d + i) (take 4 l) m) (drop 4 l)) as (l1 & l2 & El & Hl2 & ->).
    + lia.
    + done.
    + rewrite length_drop. lia.
    + rewrite length_drop. lia.
    + rewrite read_bytes_write by (rewrite ?L4, ?length_drop; lia). rewrite <-E2. f_equal. lia.
    + done.
    + by apply mapped_write.
    + done.
    + exists (take 4 l ++ l1), l2. rewrite <-app_assoc, <-El, take_drop. split; [done|]. split; [done|].
      rewrite length_app, L4, write_bytes_app, L4. f_equal. f_equal; [lia|f_equal; lia].
  - exists [], l. cbn. rewrite Z.add_0_r. split; [done|]. split; [lia|done].
Qed.

Lemma memcpy_spec dst src n l m :
  read_bytes n src m = Some l -> bytes_ok m -> mapped dst (Z.of_nat n) m -> Z.of_nat n < 2 ^ 31 ->
  dst + Z.of_nat n <= src \/ src + Z.of_nat n <= dst ->
  sw_memcpy dst src (Z.of_nat n) m = Ret (dst, write_bytes dst l m).
Proof.
  intros Hr Hok Hm Hn Hov. pose proof (read_bytes_ok _ _ _ _ Hok Hr) as Hb.
  pose proof (read_bytes_length _ _ _ _ Hr) as Hl. unfold sw_memcpy. destruct (_ && _).
  2: { rewrite Nat2Z.id, (copy_up_spec n dst src m l) by (done || lia). done. }
  destruct (copy_words_spec (Z.to_nat (Z.of_nat n)) 0 n dst src m l) as (l1 & l2 & -> & Hl2 & ->);
    rewrite ?Z.add_0_r, ?Hl, ?Nat2Z.id; try done; try lia.
  cbn [mbind res_bind]. rewrite length_app in Hl. rewrite Z.add_0_l.
  destruct (Z.leb_spec (Z.of_nat (length l1)) (u32 (Z.of_nat n - 1))) as [Hle|Hgt].
  - replace (Z.to_nat (Z.of_nat n - Z.of_nat (length l1))) with (length l2) by lia.
    apply Forall_app in Hb as [_ Hb2]. rewrite <-Hl, read_bytes_app in Hr.
    apply bind_Some in Hr as (k1 & E1 & (k2 & E2 & E)%bind_Some). injection E as E.
    apply app_inj_1 in E as [-> ->]; [|by rewrite (read_bytes_length _ _ _ _ E1)].
    rewrite (copy_up_spec (length l2) _ _ _ l2); [|rewrite read_bytes_write; [done|lia]|done| |lia].
    + cbn. by rewrite write_bytes_app.
    + apply mapped_write. intros x Hx. apply Hm. lia.
  - assert (l2 = []) as ->; [|by rewrite app_nil_r].
    apply nil_length_inv. destruct n as [|n]; [lia|]. rewrite u32_id in Hgt by (unfold in_u32; lia). lia.
Qed.

(** [sw_memcpy], through its word loop or byte by byte, copies exactly the
    [count] bytes when the ranges do not overlap. *)
Theorem memcpy_correct (dst src : Z) (n : nat) (l : list Z) (m : mem)
    (Hsrc : read_bytes n src m = Some l) (Hok : bytes_ok m) (Hdst : mapped dst (Z.of_nat n) m)
    (Hn : Z.of_nat n < 2 ^ 31) (Hdisj : dst + Z.of_nat n <= src \/ src + Z.of_nat n <= dst) :
  sw_memcpy dst src (Z.of_nat n) m = Ret (dst, write_bytes dst l m).
Proof. by apply memcpy_spec. Qed.

(** [sw_memncpy] does not protect the destination: a count that exceeds
    the destination's length but not the source's is copied in full, past the
    destination; it is refused only when it exceeds both. *)
Theorem memncpy_overruns (dst src dstLen srcLen : Z) (n : nat) (l : list Z) (m : mem)
    (Hsrc : read_bytes n src m = Some l) (Hok : bytes_ok m) (Hdst : mapped dst (Z.of_nat n) m)
    (Hn : Z.of_nat n < 2 ^ 31) (Hdisj : dst + Z.of_nat n <= src \/ src + Z.of_nat n <= dst)
    (Hlen : dstLen < Z.of_nat n) :
  sw_memncpy dst src (Z.of_nat n) dstLen srcLen m =
    if Z.of_nat n <=? srcLen then Ret (dst, write_bytes dst l m) else Ret (0, m).
Proof.
  unfold sw_memncpy. destruct (Z.leb_spec (Z.of_nat n) dstLen); [lia|]. cbn [orb].
  destruct (Z.of_nat n <=? srcLen); [|done]. by apply memcpy_spec.
Qed.

(** The difference at the first place two lists differ. *)
Fixpoint first_diff (l1 l2 : list Z) : Z :=
  match l1, l2 with
  | a :: l1', b :: l2' => if a - b =? 0 then first_diff l1' l2' else a - b
  | _, _ => 0
  end.

Lemma first_diff_0 l1 l2 : length l1 = length l2 -> first_diff l1 l2 = 0 <-> l1 = l2.
Proof.
  revert l2. induction l1 as [|a l1 IH]; intros [|b l2] Hl; try done. cbn in *.
  destruct (Z.eqb_spec (a - b) 0) as [E|E].
  - rewrite IH by lia. assert (a = b) as -> by lia. split; [by intros ->|by intros [= ->]].
  - split; [lia|]. intros [= -> ->]. lia.
Qed.

Lemma cmp_loop_spec fuel i n src dest m l1 l2 :
  0 <= i -> i + Z.of_nat (length l1) = n -> (length l1 <= fuel)%nat -> length l2 = length l1 ->
  read_bytes (length l1) (src + i) m = Some l1 -> read_bytes (length l1) (dest + i) m = Some l2 ->
  exists k, cmp_loop fuel i n src dest m = Ret k /\ i <= k <= n /\
    (k = n -> l1 = l2) /\
    (k < n -> exists a b, m !! (src + k) = Some a /\ m !! (dest + k) = Some b /\ a - b <> 0 /\
                first_diff l1 l2 = a - b).
Proof.
  revert i l1 l2. induction fuel as [|fuel IH]; intros i l1 l2 Hi Hn Hf Hl H1 H2; cbn [cmp_loop];
    destruct (Z.ltb_spec i n) as [Hlt|Hge]; try lia.
  - exists i. split; [done|]. split; [lia|]. split; [|lia]. intros _. destruct l1, l2; cbn in *; done || lia.
  - destruct l1 as [|a l1]; cbn [length] in *; [lia|]. destruct l2 as [|b l2]; [done|]. cbn [length] in Hl.
    cbn [read_bytes] in H1, H2.
    apply bind_Some in H1 as (a' & Ea & (k1 & E1 & [= -> ->])%bind_Some).
    apply bind_Some in H2 as (b' & Eb & (k2 & E2 & [= -> ->])%bind_Some).
    unfold load8. rewrite Ea, Eb. cbn [of_opt mbind res_bind]. cbn [first_diff].
    destruct (Z.eqb_spec (a - b) 0) as [E|E].
    + destruct (IH (i + 1) l1 l2) as (k & -> & Hk & Heq & Hne); try lia.
      { rewrite <-E1. f_equal. lia. } { rewrite <-E2. f_equal. lia. }
      exists k. split; [done|]. split; [lia|]. split; [|done]. intros Hkn. f_equal; [lia|by apply Heq].
    + exists i. split; [done|]. split; [lia|]. split; [lia|]. intros _. exists a, b. done.
  - exists i. split; [done|]. split; [lia|]. split; [|lia]. intros _. destruct l1, l2; cbn in *; done || lia.
Qed.

(** [sw_memcmp] on a positive length returns the difference of the first
    differing bytes, so 0 exactly when the ranges are equal; on length 0 it
    compares the bytes just before the two buffers. *)
Theorem memcmp_correct (src dest : Z) (n : nat) (l1 l2 : list Z) (m : mem)
    (H1 : read_bytes n src m = Some l1) (H2 : read_bytes n dest m = Some l2) :
  (n <> 0%nat -> sw_memcmp src dest (Z.of_nat n) m = Ret (first_diff l1 l2) /\
                 (first_diff l1 l2 = 0 <-> l1 = l2)) /\
  (n = 0%nat -> sw_memcmp src dest 0 m =
     (a ← load8 (src + -1) m; b ← load8 (dest + -1) m; mret (a - b))).
Proof.
  pose proof (read_bytes_length _ _ _ _ H1) as L1. pose proof (read_bytes_length _ _ _ _ H2) as L2.
  split; [|done]. intros Hn. split; [|apply first_diff_0; lia]. unfold sw_memcmp. rewrite Nat2Z.id.
  destruct (cmp_loop_spec n 0 (Z.of_nat n) src dest m l1 l2) as (k & -> & Hk & Heq & Hne);
    rewrite ?L1, ?Z.add_0_r; try done; try lia.
  cbn [mbind res_bind]. destruct (Z.eqb_spec k (Z.of_nat n)) as [->|Hkn].
  - rewrite (Heq eq_refl) in *. destruct n as [|n]; [done|].
    assert (E : forall a, read_bytes (S n) a m = Some l2 -> m !! (a + (Z.of_nat (S n) - 1)) = l2 !! n).
    { intros a Ha. rewrite (read_bytes_lookup _ _ _ _ n Ha) by lia. f_equal. lia. }
    unfold load8. rewrite (E src H1), (E dest H2).
    destruct (lookup_lt_is_Some_2 l2 n) as [v Ev]; [lia|]. rewrite Ev. cbn.
    rewrite Z.sub_diag. f_equal. symmetry. by apply first_diff_0.
  - destruct Hne as (a & b & Ea & Eb & _ & Hd); [lia|]. unfold load8. rewrite Ea, Eb. cbn. by rewrite Hd.
Qed.

(** ** Concrete memories *)

Lemma mapped_range a n b l m :
  b <= a -> a + n <= b + Z.of_nat (length l) -> mapped a n (write_bytes b l m).
Proof.
  intros Hb Hn x Hx. rewrite write_bytes_lookup, decide_True by lia. apply lookup_lt_is_Some_2. lia.
Qed.

(** Sixteen bytes at [0x1000]. *)
Definition mem16 : mem := write_bytes 0x1000 [1; 2; 3; 4; 5; 6; 7; 8; 0; 0; 0; 0; 0; 0; 0; 0] ∅.

Lemma mem16_ok : bytes_ok mem16.
Proof.
  unfold bytes_ok, is_byte. apply (bool_decide_unpack (map_Forall (fun _ v => 0 <= v < 256) mem16)). by vm_compute.
Qed.

(** Moving six bytes two places up, over themselves. *)
Lemma memmove_correct_witness :
  exists m', sw_memmove 0x1002 0x1000 6 mem16 = Ret (0x1002, m') /\
    read_bytes 10 0x1000 m' = Some [1; 2; 1; 2; 3; 4; 5; 6; 0; 0].
Proof.
  exists (write_bytes 0x1002 [1; 2; 3; 4; 5; 6] mem16). split; [|by vm_compute].
  apply (memmove_correct 0x1002 0x1000 6 [1; 2; 3; 4; 5; 6] mem16).
  - by vm_compute.
  - exact mem16_ok.
  - apply mapped_range; by compute.
Defined.

Lemma memset_correct_witness :
  sw_memset 0x1001 0x1FF 3 mem16 = Ret (0x1001, write_bytes 0x1001 [255; 255; 255] mem16).
Proof. apply (memset_correct 0x1001 0x1FF 3 mem16). apply mapped_range; by compute. Defined.

(** Seven bytes: a word and three more. *)
Lemma memcpy_correct_witness :
  exists m', sw_memcpy 0x1008 0x1000 7 mem16 = Ret (0x1008, m') /\
    read_bytes 16 0x1000 m' = Some [1; 2; 3; 4; 5; 6; 7; 8; 1; 2; 3; 4; 5; 6; 7; 0].
Proof.
  exists (write_bytes 0x1008 [1; 2; 3; 4; 5; 6; 7] mem16). split; [|by vm_compute].
  apply (memcpy_correct 0x1008 0x1000 7 [1; 2; 3; 4; 5; 6; 7] mem16).
  - by vm_compute.
  - exact mem16_ok.
  - apply mapped_range; by compute.
  - by compute.
  - right. by compute.
Defined.

(** Eight bytes into a destination of four. *)
Lemma memncpy_overruns_witness :
  sw_memncpy 0x1008 0x1000 8 4 8 mem16 = Ret (0x1008, write_bytes 0x1008 [1; 2; 3; 4; 5; 6; 7; 8] mem16).
Proof.
  apply (memncpy_overruns 0x1008 0x1000 4 8 8 [1; 2; 3; 4; 5; 6; 7; 8] mem16).
  - by vm_compute.
  - exact mem16_ok.
  - apply mapped_range; by compute.
  - by compute.
  - right. by compute.
  - by compute.
Defined.

Lemma memcmp_correct_witness : sw_memcmp 0x1000 0x1001 4 mem16 = Ret (-1).
Proof.
  destruct (memcmp_correct 0x1000 0x1001 4 [1; 2; 3; 4] [2; 3; 4; 5] mem16) as [Hn _];
    [by vm_compute|by vm_compute|].
  destruct Hn as [E _]; [done|]. exact E.
Defined.
