(* ===== verification/StrFn.v ===== *)
(** [lib/sw_string_functions.c]: null-terminated strings, over the memory of
    [MemFn].  A plain [char] is unsigned on the target.

    The loops that look for a terminator get one more step than there are
    bytes in memory: every step reads a further address, so a walk that runs
    out of fuel would have left the memory before. *)
From stdpp Require Import prelude gmap.
From S2P Require Import Prelude MemFn.
#[local] Open Scope Z_scope.

Definition str_fuel (m : mem) : nat := S (size m).

(** [for (sc = s; *sc; ++sc)]: the address of the terminator. *)
Fixpoint find_nul (fuel : nat) (a : Z) (m : mem) : res Z :=
  match fuel with
  | O => Fault
  | S f => v ← load8 a m; if v =? 0 then mret a else find_nul f (a + 1) m
  end.

Definition sw_strlen (s : Z) (m : mem) : res Z :=
  sc ← find_nul (str_fuel m) s m; mret (u32 (sc - s)).

(** The copying loop of [sw_strcpy]. *)
Fixpoint copy_nul (fuel : nat) (dest src : Z) (m : mem) : res mem :=
  match fuel with
  | O => Fault
  | S f =>
      v ← load8 src m; m ← store8 dest v m;
      if v =? 0 then mret m else copy_nul f (dest + 1) (src + 1) m
  end.

Definition sw_strcpy (dest src : Z) (m : mem) : res (Z * mem) :=
  m ← copy_nul (str_fuel m) dest src m; mret (dest, m).

(** The [do ... while (--n != 0)] of [sw_strncpy]. *)
Fixpoint copy_n_nul (n : nat) (d s : Z) (m : mem) : res mem :=
  match n with
  | O => mret m
  | S n' =>
      v ← load8 s m; m ← store8 d v m;
      if v =? 0 then fill n' (d + 1) 0 m else copy_n_nul n' (d + 1) (s + 1) m
  end.

Definition sw_strncpy (dest src n : Z) (m : mem) : res (Z * mem) :=
  m ← copy_n_nul (Z.to_nat n) dest src m; mret (dest, m).

Fixpoint strcmp_loop (fuel : nat) (s1 s2 : Z) (m : mem) : res Z :=
  match fuel with
  | O => Fault
  | S f =>
      a ← load8 s1 m; b ← load8 s2 m;
      if a =? b then if a =? 0 then mret 0 else strcmp_loop f (s1 + 1) (s2 + 1) m
      else mret (if a <? b then -1 else 1)
  end.

Definition sw_strcmp (s1 s2 : Z) (m : mem) : res Z := strcmp_loop (str_fuel m) s1 s2 m.

Definition sw_strcat (dest src : Z) (m : mem) : res (Z * mem) :=
  d ← find_nul (str_fuel m) dest m;
  m ← copy_nul (str_fuel m) d src m; mret (dest, m).

(** The bytes are appended, at most [n] of them, and the terminator last. *)
Fixpoint cat_n (n : nat) (d s : Z) (m : mem) : res mem :=
  match n with
  | O => store8 d 0 m
  | S n' =>
      v ← load8 s m; m ← store8 d v m;
      if v =? 0 then store8 d 0 m else cat_n n' (d + 1) (s + 1) m
  end.

Definition sw_strncat (dest src n : Z) (m : mem) : res (Z * mem) :=
  if n =? 0 then mret (dest, m) else
  d ← find_nul (str_fuel m) dest m;
  m ← cat_n (Z.to_nat n) d src m; mret (dest, m).

(** 0 is the null pointer. *)
Fixpoint strchr_loop (fuel : nat) (ptr c : Z) (m : mem) : res Z :=
  match fuel with
  | O => Fault
  | S f =>
      v ← load8 ptr m;
      if v =? u8 c then mret ptr
      else if v =? 0 then mret 0 else strchr_loop f (ptr + 1) c m
  end.

Definition sw_strchr (s c : Z) (m : mem) : res Z := strchr_loop (str_fuel m) s c m.

Fixpoint strncmp_loop (k : nat) (s1 s2 : Z) (m : mem) : res Z :=
  match k with
  | O => mret 0
  | S k' =>
      a ← load8 s1 m; b ← load8 s2 m;
      if a =? b then strncmp_loop k' (s1 + 1) (s2 + 1) m else mret (-1)
  end.

Definition sw_strncmp (str1 str2 n : Z) (m : mem) : res Z := strncmp_loop (Z.to_nat n) str1 str2 m.

(** [k] digits are left; [digit_int] is carried from one round to the next. *)
Fixpoint strtoi_loop (k : nat) (index a digit_int ret_val : Z) (m : mem) : res Z :=
  match k with
  | O => mret ret_val
  | S k' =>
      digit_char ← load8 (a + index) m;
      if (digit_char <? 0x30) || (digit_char >? 0x39) then mret (u32 (-1)) else
      let digit_int := Z.lor digit_int (digit_char - 0x30) in
      let digit_int := u32 (Z.shiftl digit_int (32 - (index + 1) * 4)) in
      strtoi_loop k' (index + 1) a digit_int (Z.lor ret_val digit_int) m
  end.

Definition sw_strtoi (str : Z) (m : mem) : res Z := strtoi_loop 8 0 str 0 0 m.

Definition sw_maxstrncpy (dest src n destLen srcLen : Z) (m : mem) : res (Z * mem) :=
  if (n <=? destLen) || (n <=? srcLen) then sw_strncpy dest src n m else mret (0, m).

(** ** Strings in memory *)

(** The bytes [s], none of them 0, and a terminator at [a]. *)
Definition cstr (m : mem) (a : Z) (s : list Z) : Prop :=
  read_bytes (S (length s)) a m = Some (s ++ [0]) /\ Forall (fun v => v <> 0) s.

Lemma cstr_cons m a v s :
  cstr m a (v :: s) <-> m !! a = Some v /\ v <> 0 /\ cstr m (a + 1) s.
Proof.
  unfold cstr. rewrite Forall_cons. cbn [length]. split.
  - intros [E [Hv Hs]]. cbn [read_bytes] in E. apply bind_Some in E as (v' & Ev & (l & El & [= -> ->])%bind_Some).
    done.
  - intros (Ev & Hv & E & Hs). split; [|done]. cbn [read_bytes] in E |- *. rewrite Ev. cbn. by rewrite E.
Qed.

Lemma cstr_nil m a : cstr m a [] <-> m !! a = Some 0.
Proof.
  unfold cstr. cbn. split.
  - intros [E _]. apply bind_Some in E as (v & Ev & [= ->]). done.
  - intros ->. by split.
Qed.

Lemma read_bytes_size n a m l : read_bytes n a m = Some l -> (n <= size m)%nat.
Proof.
  revert a m l. induction n as [|n IH]; intros a m l E; [lia|]. cbn [read_bytes] in E.
  apply bind_Some in E as (v & Ev & (l' & E & _)%bind_Some).
  rewrite <-(insert_delete_id m a v) by done. rewrite map_size_insert_None by apply lookup_delete_eq.
  assert (n <= size (delete a m))%nat; [|lia]. apply (IH (a + 1) _ l').
  rewrite <-E. apply read_bytes_frame. intros x Hx. rewrite lookup_delete_ne; [done|]. lia.
Qed.

Lemma cstr_fuel m a s : cstr m a s -> (length s < str_fuel m)%nat.
Proof. intros [E _]. apply read_bytes_size in E. unfold str_fuel. lia. Qed.

Lemma find_nul_spec fuel a m s :
  cstr m a s -> (length s < fuel)%nat -> find_nul fuel a m = Ret (a + Z.of_nat (length s)).
Proof.
  revert a s. induction fuel as [|fuel IH]; intros a s C Hf; [lia|]. cbn [find_nul]. unfold load8.
  destruct s as [|v s].
  - apply cstr_nil in C. rewrite C. cbn. by rewrite Z.add_0_r.
  - apply cstr_cons in C as (E & Hv & C). rewrite E. cbn [of_opt mbind res_bind].
    apply Z.eqb_neq in Hv. rewrite Hv. rewrite (IH _ s C) by (cbn in Hf; lia). f_equal. cbn. lia.
Qed.

(** [sw_strlen] terminates on every null-terminated string and returns
    its length. *)
Theorem strlen_correct (a : Z) (s : list Z) (m : mem)
    (Hs : cstr m a s) (Hlen : Z.of_nat (length s) < 2 ^ 32) :
  sw_strlen a m = Ret (Z.of_nat (length s)).
Proof.
  unfold sw_strlen. rewrite (find_nul_spec _ _ _ s) by (done || by eapply cstr_fuel). cbn.
  rewrite u32_id; [f_equal; lia|]. unfold in_u32. lia.
Qed.

Lemma copy_nul_spec fuel d a m s :
  cstr m a s -> Forall is_byte s -> (length s < fuel)%nat -> mapped d (Z.of_nat (S (length s))) m ->
  d + Z.of_nat (S (length s)) <= a \/ a + Z.of_nat (S (length s)) <= d ->
  copy_nul fuel d a m = Ret (write_bytes d (s ++ [0]) m).
Proof.
  revert d a m s. induction fuel as [|fuel IH]; intros d a m s C Hb Hf Hm Hov; [lia|]. cbn [copy_nul]. unfold load8.
  destruct s as [|v s].
  - apply cstr_nil in C. rewrite C. cbn [of_opt mbind res_bind]. rewrite store8_ok by (done || apply Hm; cbn; lia).
    done.
  - apply cstr_cons in C as (E & Hv & C). rewrite E. cbn [of_opt mbind res_bind length] in *.
    apply Forall_cons in Hb as [Hbv Hb]. rewrite store8_ok by (done || apply Hm; lia). cbn [mbind res_bind].
    apply Z.eqb_neq in Hv. rewrite Hv. rewrite (IH _ _ _ s); [done| |done|lia| |lia].
    + destruct C as [C ?]. split; [|done]. rewrite <-C. apply read_bytes_frame. intros x Hx.
      rewrite lookup_insert_ne; [done|]. lia.
    + intros x Hx. apply (mapped_insert d (Z.of_nat (S (S (length s))))); [done|]. lia.
Qed.

Lemma cstr_bytes m a s : bytes_ok m -> cstr m a s -> Forall is_byte s.
Proof. intros Hok [E _]. apply (read_bytes_ok _ _ _ _ Hok) in E. by apply Forall_app in E as [? _]. Qed.

(** [sw_strcpy] copies the string with its terminator to a disjoint
    destination with room for it, and nothing else. *)
Theorem strcpy_correct (dest src : Z) (s : list Z) (m : mem)
    (Hs : cstr m src s) (Hok : bytes_ok m) (Hdst : mapped dest (Z.of_nat (S (length s))) m)
    (Hdisj : dest + Z.of_nat (S (length s)) <= src \/ src + Z.of_nat (S (length s)) <= dest) :
  sw_strcpy dest src m = Ret (dest, write_bytes dest (s ++ [0]) m).
Proof.
  unfold sw_strcpy. rewrite (copy_nul_spec _ dest src m s); try done; [by eapply cstr_bytes|by eapply cstr_fuel].
Qed.

(** The order [sw_strcmp] decides: lexicographic on unsigned bytes. *)
Fixpoint lex_cmp (s t : list Z) : Z :=
  match s, t with
  | [], [] => 0
  | [], _ :: _ => -1
  | _ :: _, [] => 1
  | a :: s', b :: t' => if a =? b then lex_cmp s' t' else if a <? b then -1 else 1
  end.

Lemma lex_cmp_0 s t : lex_cmp s t = 0 <-> s = t.
Proof.
  revert t. induction s as [|a s IH]; intros [|b t]; cbn; try done.
  destruct (Z.eqb_spec a b) as [->|Hne]; [rewrite IH; split; [by intros ->|by intros [= ->]]|].
  split; [by destruct (a <? b)|]. by intros [= ? _].
Qed.

Lemma lex_cmp_antisym s t : lex_cmp t s = - lex_cmp s t.
Proof.
  revert t. induction s as [|a s IH]; intros [|b t]; cbn; try done.
  rewrite (Z.eqb_sym b a). destruct (Z.eqb_spec a b); [done|].
  destruct (Z.ltb_spec a b), (Z.ltb_spec b a); done || lia.
Qed.

Lemma strcmp_loop_spec fuel a b m s t :
  cstr m a s -> cstr m b t -> Forall is_byte s -> Forall is_byte t -> (length s < fuel)%nat ->
  strcmp_loop fuel a b m = Ret (lex_cmp s t).
Proof.
  revert a b s t. induction fuel as [|fuel IH]; intros a b s t Cs Ct Hs Ht Hf; [lia|].
  cbn [strcmp_loop]. unfold load8. destruct s as [|x s], t as [|y t]; cbn [lex_cmp].
  - apply cstr_nil in Cs, Ct. by rewrite Cs, Ct.
  - apply cstr_nil in Cs. apply cstr_cons in Ct as (E & Hy & _). rewrite Cs, E. cbn [of_opt mbind res_bind].
    apply Forall_cons in Ht as [[? _] _]. destruct (Z.eqb_spec 0 y); [lia|]. destruct (Z.ltb_spec 0 y); [done|lia].
  - apply cstr_nil in Ct. apply cstr_cons in Cs as (E & Hy & _). rewrite Ct, E. cbn [of_opt mbind res_bind].
    apply Forall_cons in Hs as [[? _] _]. destruct (Z.eqb_spec x 0); [lia|]. destruct (Z.ltb_spec x 0); [lia|done].
  - apply cstr_cons in Cs as (Ex & Hx & Cs), Ct as (Ey & Hy & Ct). rewrite Ex, Ey. cbn [of_opt mbind res_bind].
    apply Forall_cons in Hs as [_ Hs], Ht as [_ Ht]. destruct (Z.eqb_spec x y) as [->|]; [|done].
    apply Z.eqb_neq in Hy. rewrite Hy. apply IH; [done..|cbn in Hf; lia].
Qed.

(** [sw_strcmp] terminates on null-terminated strings and decides the
    lexicographic order of their unsigned bytes: 0 exactly for equal strings,
    and opposite signs when the arguments are exchanged. *)
Theorem strcmp_correct (a b : Z) (s t : list Z) (m : mem)
    (Hs : cstr m a s) (Ht : cstr m b t) (Hok : bytes_ok m) :
  sw_strcmp a b m = Ret (lex_cmp s t) /\ sw_strcmp b a m = Ret (- lex_cmp s t) /\
  (lex_cmp s t = 0 <-> s = t).
Proof.
  pose proof (cstr_bytes _ _ _ Hok Hs). pose proof (cstr_bytes _ _ _ Hok Ht).
  unfold sw_strcmp. rewrite (strcmp_loop_spec _ a b m s t), (strcmp_loop_spec _ b a m t s);
    try done; try by eapply cstr_fuel.
  split; [done|]. split; [by rewrite lex_cmp_antisym|]. apply lex_cmp_0.
Qed.

(** What [sw_strncpy] writes: the first [n] bytes of the string padded with
    zeros; there is no terminator when the string is [n] bytes or longer. *)
Definition padded (n : nat) (s : list Z) : list Z := take n (s ++ replicate n 0).

Lemma copy_n_nul_spec n d a m s :
  cstr m a s -> Forall is_byte s -> mapped d (Z.of_nat n) m ->
  d + Z.of_nat n <= a \/ a + Z.of_nat (S (length s)) <= d ->
  copy_n_nul n d a m = Ret (write_bytes d (padded n s) m).
Proof.
  unfold padded. revert d a m s. induction n as [|n IH]; intros d a m s C Hb Hm Hov; [done|].
  cbn [copy_n_nul]. unfold load8. destruct s as [|v s].
  - apply cstr_nil in C. rewrite C. cbn [of_opt mbind res_bind]. rewrite store8_ok by (done || apply Hm; lia).
    cbn [mbind res_bind]. change (0 =? 0) with true. cbv iota. cbn [app].
    rewrite take_ge by (rewrite length_replicate; lia). rewrite fill_spec; [done|].
    intros x Hx. apply (mapped_insert d (Z.of_nat (S n))); [done|]. lia.
  - apply cstr_cons in C as (E & Hv & C). rewrite E. cbn [of_opt mbind res_bind length] in *.
    apply Forall_cons in Hb as [Hbv Hb]. rewrite store8_ok by (done || apply Hm; lia). cbn [mbind res_bind].
    apply Z.eqb_neq in Hv. rewrite Hv. rewrite (IH _ _ _ s); [|split|done| |lia].
    + cbn [app take write_bytes]. do 2 f_equal. rewrite !take_app. f_equal. rewrite !take_replicate. f_equal. lia.
    + rewrite <-(proj1 C). apply read_bytes_frame. intros x Hx. rewrite lookup_insert_ne; [done|]. lia.
    + apply C.
    + intros x Hx. apply (mapped_insert d (Z.of_nat (S n))); [done|]. lia.
Qed.

Lemma strncpy_spec dest src n s m :
  cstr m src s -> bytes_ok m -> mapped dest (Z.of_nat n) m ->
  dest + Z.of_nat n <= src \/ src + Z.of_nat (S (length s)) <= dest ->
  sw_strncpy dest src (Z.of_nat n) m = Ret (dest, write_bytes dest (padded n s) m).
Proof.
  intros C Hok Hm Hov. unfold sw_strncpy. rewrite Nat2Z.id.
  rewrite (copy_n_nul_spec n dest src m s); [done|done|by eapply cstr_bytes|done|done].
Qed.

(** [sw_strncpy] writes exactly [n] bytes: the string cut at [n], or
    padded with zeros; so the destination holds the string, terminated,
    exactly when the string is shorter than [n]. *)
Theorem strncpy_correct (dest src : Z) (n : nat) (s : list Z) (m : mem)
    (Hs : cstr m src s) (Hok : bytes_ok m) (Hdst : mapped dest (Z.of_nat n) m)
    (Hdisj : dest + Z.of_nat n <= src \/ src + Z.of_nat (S (length s)) <= dest) :
  exists m', sw_strncpy dest src (Z.of_nat n) m = Ret (dest, m') /\
    m' = write_bytes dest (padded n s) m /\ length (padded n s) = n /\
    ((length s < n)%nat -> cstr m' dest s) /\ ((n <= length s)%nat -> padded n s = take n s).
Proof.
  exists (write_bytes dest (padded n s) m). split; [by apply strncpy_spec|]. split; [done|].
  assert (Hl : length (padded n s) = n).
  { unfold padded. rewrite length_take, length_app, length_replicate. lia. }
  split; [done|]. split.
  - intros Hn. destruct Hs as [_ Hs]. split; [|done].
    assert (Hp : padded n s = (s ++ [0]) ++ replicate (n - S (length s)) 0).
    { unfold padded. rewrite take_app_ge by lia. rewrite <-app_assoc. f_equal.
      rewrite take_replicate. replace (n - length s)%nat with (S (n - S (length s))) by lia.
      rewrite Nat.min_l by lia. done. }
    rewrite Hp. rewrite write_bytes_app. rewrite read_bytes_write by (rewrite ?length_app, ?length_replicate; cbn; lia).
    replace (S (length s)) with (length (s ++ [0])) by (rewrite length_app; cbn; lia).
    apply read_bytes_write_same.
  - intros Hn. unfold padded. by rewrite take_app_le by lia.
Qed.

(** [sw_maxstrncpy] does not protect the destination: a count above the
    destination's length but not above the source's is copied, past the
    destination; it is refused only when it exceeds both lengths. *)
Theorem maxstrncpy_overruns (dest src destLen srcLen : Z) (n : nat) (s : list Z) (m : mem)
    (Hs : cstr m src s) (Hok : bytes_ok m) (Hdst : mapped dest (Z.of_nat n) m)
    (Hdisj : dest + Z.of_nat n <= src \/ src + Z.of_nat (S (length s)) <= dest)
    (Hlen : destLen < Z.of_nat n) :
  sw_maxstrncpy dest src (Z.of_nat n) destLen srcLen m =
    if Z.of_nat n <=? srcLen then Ret (dest, write_bytes dest (padded n s) m) else Ret (0, m).
Proof.
  unfold sw_maxstrncpy. destruct (Z.leb_spec (Z.of_nat n) destLen); [lia|]. cbn [orb].
  destruct (Z.of_nat n <=? srcLen); [|done]. by apply strncpy_spec.
Qed.

(** [sw_strcat] appends: with room after the destination's string and the
    source elsewhere, the destination then holds the concatenation. *)
Theorem strcat_correct (dest src : Z) (s t : list Z) (m : mem)
    (Ht : cstr m dest t) (Hs : cstr m src s) (Hok : bytes_ok m)
    (Hdst : mapped dest (Z.of_nat (length t + S (length s))) m)
    (Hdisj : dest + Z.of_nat (length t + S (length s)) <= src \/ src + Z.of_nat (S (length s)) <= dest) :
  exists m', sw_strcat dest src m = Ret (dest, m') /\
    m' = write_bytes (dest + Z.of_nat (length t)) (s ++ [0]) m /\ cstr m' dest (t ++ s).
Proof.
  eexists. split; [|split; [reflexivity|]].
  - unfold sw_strcat. rewrite (find_nul_spec _ _ _ t) by (done || by eapply cstr_fuel). cbn [mbind res_bind].
    rewrite (copy_nul_spec _ _ src m s); [done|done|by eapply cstr_bytes|by eapply cstr_fuel| |lia].
    intros x Hx. apply Hdst. lia.
  - destruct Ht as [Et Ht], Hs as [_ Hs]. split; [|by apply Forall_app].
    rewrite length_app, <-Nat.add_succ_r, read_bytes_app.
    rewrite (read_bytes_write (length t) dest (dest + Z.of_nat (length t)) (s ++ [0]) m) by lia.
    assert (E1 : read_bytes (length t) dest m = Some t).
    { rewrite read_bytes_snoc in Et. apply bind_Some in Et as (l & El & (v & Ev & E)%bind_Some).
      injection E as E. apply app_inj_tail in E as [-> _]. done. }
    rewrite E1. cbn [mbind option_bind].
    replace (S (length s)) with (length (s ++ [0])) by (rewrite length_app; cbn; lia).
    rewrite read_bytes_write_same. cbn. by rewrite app_assoc.
Qed.

(** [sw_strncat] appends at most [n] bytes of the source and a terminator. *)
Lemma cat_n_spec n d a m s :
  cstr m a s -> Forall is_byte s -> mapped d (Z.of_nat (S n)) m ->
  d + Z.of_nat (S n) <= a \/ a + Z.of_nat (S (length s)) <= d ->
  cat_n n d a m = Ret (write_bytes d (take n s ++ [0]) m).
Proof.
  revert d a m s. induction n as [|n IH]; intros d a m s C Hb Hm Hov; cbn [cat_n].
  { rewrite store8_ok by (done || apply Hm; lia). done. }
  unfold load8. destruct s as [|v s].
  - apply cstr_nil in C. rewrite C. cbn [of_opt mbind res_bind]. rewrite store8_ok by (done || apply Hm; lia).
    cbn [mbind res_bind]. change (0 =? 0) with true. cbv iota. cbn [take app write_bytes].
    rewrite store8_ok; [by rewrite insert_insert_eq| |done]. rewrite lookup_insert_eq. by eexists.
  - apply cstr_cons in C as (E & Hv & C). rewrite E. cbn [of_opt mbind res_bind length] in *.
    apply Forall_cons in Hb as [Hbv Hb]. rewrite store8_ok by (done || apply Hm; lia). cbn [mbind res_bind].
    apply Z.eqb_neq in Hv. rewrite Hv. rewrite (IH _ _ _ s); [done|split|done| |lia].
    + rewrite <-(proj1 C). apply read_bytes_frame. intros x Hx. rewrite lookup_insert_ne; [done|]. lia.
    + apply C.
    + intros x Hx. apply (mapped_insert d (Z.of_nat (S (S n)))); [done|]. lia.
Qed.

Theorem strncat_correct (dest src : Z) (n : nat) (s t : list Z) (m : mem)
    (Ht : cstr m dest t) (Hs : cstr m src s) (Hok : bytes_ok m) (Hn : n <> 0%nat)
    (Hdst : mapped dest (Z.of_nat (length t + S n)) m)
    (Hdisj : dest + Z.of_nat (length t + S n) <= src \/ src + Z.of_nat (S (length s)) <= dest) :
  sw_strncat dest src (Z.of_nat n) m =
    Ret (dest, write_bytes (dest + Z.of_nat (length t)) (take n s ++ [0]) m).
Proof.
  unfold sw_strncat. destruct (Z.eqb_spec (Z.of_nat n) 0); [lia|]. rewrite Nat2Z.id.
  rewrite (find_nul_spec _ _ _ t) by (done || by eapply cstr_fuel). cbn [mbind res_bind].
  rewrite (cat_n_spec n _ src m s); [done|done|by eapply cstr_bytes| |lia].
  intros x Hx. apply Hdst. lia.
Qed.

(** The first occurrence of a byte, counted from the start. *)
Fixpoint index_of (c : Z) (s : list Z) : option nat :=
  match s with
  | [] => None
  | v :: s' => if v =? c then Some O else S <$> index_of c s'
  end.

Lemma strchr_loop_spec fuel a c m s :
  cstr m a s -> (length s < fuel)%nat ->
  strchr_loop fuel a c m =
    Ret (match index_of (u8 c) (s ++ [0]) with Some i => a + Z.of_nat i | None => 0 end).
Proof.
  revert a s. induction fuel as [|fuel IH]; intros a s C Hf; [lia|]. cbn [strchr_loop]. unfold load8.
  destruct s as [|v s].
  - apply cstr_nil in C. rewrite C. cbn [of_opt mbind res_bind app index_of fmap option_fmap option_map].
    destruct (0 =? u8 c); cbn; [by rewrite Z.add_0_r|done].
  - apply cstr_cons in C as (E & Hv & C). rewrite E. cbn [of_opt mbind res_bind app index_of].
    destruct (v =? u8 c); [cbn; by rewrite Z.add_0_r|]. apply Z.eqb_neq in Hv. rewrite Hv.
    rewrite (IH _ s C) by (cbn in Hf; lia). destruct (index_of (u8 c) (s ++ [0])) as [i|]; [|done]. cbn. f_equal. lia.
Qed.

(** [sw_strchr] finds the first occurrence, the terminator included. *)
Theorem strchr_correct (a c : Z) (s : list Z) (m : mem) (Hs : cstr m a s) :
  sw_strchr a c m =
    Ret (match index_of (u8 c) (s ++ [0]) with Some i => a + Z.of_nat i | None => 0 end).
Proof. apply strchr_loop_spec; [done|]. by eapply cstr_fuel. Qed.

(** [sw_strncmp] compares exactly [n] bytes, past the terminators: 0 when
    they are equal, -1 otherwise; so strings that are equal compare different
    when the bytes behind them differ. *)
Theorem strncmp_bytes (a b : Z) (n : nat) (l1 l2 : list Z) (m : mem)
    (H1 : read_bytes n a m = Some l1) (H2 : read_bytes n b m = Some l2) :
  sw_strncmp a b (Z.of_nat n) m = Ret (if decide (l1 = l2) then 0 else -1).
Proof.
  unfold sw_strncmp. rewrite Nat2Z.id. revert a b l1 l2 H1 H2.
  induction n as [|n IH]; intros a b l1 l2 H1 H2; cbn [read_bytes strncmp_loop] in *.
  { injection H1 as <-. injection H2 as <-. done. }
  apply bind_Some in H1 as (x & Ex & (l1' & E1 & [= <-])%bind_Some).
  apply bind_Some in H2 as (y & Ey & (l2' & E2 & [= <-])%bind_Some).
  unfold load8. rewrite Ex, Ey. cbn [of_opt mbind res_bind]. destruct (Z.eqb_spec x y) as [->|Hne].
  - rewrite (IH _ _ _ _ E1 E2). destruct (decide (l1' = l2')) as [->|]; [by rewrite decide_True|].
    rewrite decide_False by congruence. done.
  - rewrite decide_False by congruence. done.
Qed.

(** The conversion of a list of characters. *)
Fixpoint strtoi_list (l : list Z) (index digit_int ret_val : Z) : Z :=
  match l with
  | [] => ret_val
  | c :: l' =>
      if (c <? 0x30) || (c >? 0x39) then u32 (-1) else
      let digit_int := u32 (Z.shiftl (Z.lor digit_int (c - 0x30)) (32 - (index + 1) * 4)) in
      strtoi_list l' (index + 1) digit_int (Z.lor ret_val digit_int)
  end.

Lemma strtoi_loop_spec k index a di rv m l :
  read_bytes k (a + index) m = Some l ->
  strtoi_loop k index a di rv m = Ret (strtoi_list l index di rv).
Proof.
  revert index di rv l. induction k as [|k IH]; intros index di rv l E; cbn [read_bytes strtoi_loop] in *.
  { by injection E as <-. }
  apply bind_Some in E as (c & Ec & (l' & E & [= <-])%bind_Some). unfold load8. rewrite Ec.
  cbn [of_opt mbind res_bind strtoi_list]. destruct (_ || _); [done|]. apply IH. rewrite <-E. f_equal. lia.
Qed.

(** [sw_strtoi] carries each digit into the following rounds.  Of the
    eight decimal digits it packs four bits each, a digit in the fourth place
    appears in its own nibble and again in the most significant one. *)
Theorem strtoi_leaks_digit (a d : Z) (m : mem) (Hd : 1 <= d <= 9)
    (Hs : read_bytes 8 a m = Some [48; 48; 48; 48 + d; 48; 48; 48; 48]) :
  sw_strtoi a m = Ret (Z.lor (Z.shiftl d 16) (Z.shiftl d 28)).
Proof.
  unfold sw_strtoi. rewrite (strtoi_loop_spec 8 0 a 0 0 m _) by (rewrite Z.add_0_r; exact Hs).
  assert (d = 1 \/ d = 2 \/ d = 3 \/ d = 4 \/ d = 5 \/ d = 6 \/ d = 7 \/ d = 8 \/ d = 9) as Hc by lia.
  repeat destruct Hc as [->|Hc]; try reflexivity. by rewrite Hc.
Qed.

(** ** Concrete strings *)

(** "abc" at [0x1000] and "abd" at [0x1010], with room behind. *)
Definition mem_str : mem :=
  write_bytes 0x1000 ([97; 98; 99; 0] ++ replicate 12 7 ++ [97; 98; 100; 0] ++ replicate 28 9) ∅.

Lemma mem_str_ok : bytes_ok mem_str.
Proof.
  unfold bytes_ok, is_byte. apply (bool_decide_unpack (map_Forall (fun _ v => 0 <= v < 256) mem_str)). by vm_compute.
Qed.

Lemma mem_str_abc : cstr mem_str 0x1000 [97; 98; 99].
Proof. split; [by vm_compute|]. repeat constructor; done. Qed.

Lemma mem_str_abd : cstr mem_str 0x1010 [97; 98; 100].
Proof. split; [by vm_compute|]. repeat constructor; done. Qed.

Lemma strlen_correct_witness : sw_strlen 0x1000 mem_str = Ret 3.
Proof. apply (strlen_correct 0x1000 [97; 98; 99] mem_str); [exact mem_str_abc|by compute]. Defined.

Lemma strcmp_correct_witness : sw_strcmp 0x1000 0x1010 mem_str = Ret (-1).
Proof.
  destruct (strcmp_correct 0x1000 0x1010 [97; 98; 99] [97; 98; 100] mem_str) as [E _];
    [exact mem_str_abc|exact mem_str_abd|exact mem_str_ok|]. exact E.
Defined.

Lemma strncpy_correct_witness :
  exists m', sw_strncpy 0x1020 0x1000 6 mem_str = Ret (0x1020, m') /\ cstr m' 0x1020 [97; 98; 99].
Proof.
  destruct (strncpy_correct 0x1020 0x1000 6 [97; 98; 99] mem_str) as (m' & E & _ & _ & C & _).
  - exact mem_str_abc.
  - exact mem_str_ok.
  - apply mapped_range; by compute.
  - right. by compute.
  - exists m'. split; [exact E|]. apply C. cbn. lia.
Defined.

Lemma maxstrncpy_overruns_witness :
  sw_maxstrncpy 0x1020 0x1000 6 2 6 mem_str =
    Ret (0x1020, write_bytes 0x1020 [97; 98; 99; 0; 0; 0] mem_str).
Proof.
  apply (maxstrncpy_overruns 0x1020 0x1000 2 6 6 [97; 98; 99] mem_str).
  - exact mem_str_abc.
  - exact mem_str_ok.
  - apply mapped_range; by compute.
  - right. by compute.
  - by compute.
Defined.

Lemma strcat_correct_witness :
  exists m', sw_strcat 0x1010 0x1000 mem_str = Ret (0x1010, m') /\
    cstr m' 0x1010 [97; 98; 100; 97; 98; 99].
Proof.
  destruct (strcat_correct 0x1010 0x1000 [97; 98; 99] [97; 98; 100] mem_str) as (m' & E & _ & C).
  - exact mem_str_abd.
  - exact mem_str_abc.
  - exact mem_str_ok.
  - apply mapped_range; by compute.
  - right. by compute.
  - exists m'. split; [exact E|exact C].
Defined.

(** The two strings agree on two bytes only. *)
Lemma strncmp_bytes_witness :
  sw_strncmp 0x1000 0x1010 2 mem_str = Ret 0 /\ sw_strncmp 0x1000 0x1010 3 mem_str = Ret (-1).
Proof.
  split.
  - apply (strncmp_bytes 0x1000 0x1010 2 [97; 98] [97; 98] mem_str); by vm_compute.
  - apply (strncmp_bytes 0x1000 0x1010 3 [97; 98; 99] [97; 98; 100] mem_str); by vm_compute.
Defined.

(** "00010000". *)
Lemma strtoi_leaks_digit_witness :
  sw_strtoi 0x1000 (write_bytes 0x1000 [48; 48; 48; 49; 48; 48; 48; 48] ∅) = Ret 0x10010000.
Proof. apply (strtoi_leaks_digit 0x1000 1); [by compute|by vm_compute]. Defined.
