(* ===== verification/Timer.v ===== *)
(** [core/sw_timer.c] with the conversions of [arch/arm/armv7/cpu_api.c]: the
    kernel's clock and its queue of timer events.

    A [timeval_t] is its 64-bit member; the seconds are the high word and the
    nanoseconds the low one, both signed.  The free-running counter is the
    sequence of values its reads return, and programming the tick timer is
    recorded in the state.  Event handlers are functions of the state. *)
From Stdlib Require Import Sorting.Sorted.
From stdpp Require Import prelude gmap.
From S2P Require Import Prelude DList HeapIface.
#[local] Open Scope Z_scope.

(** ** Time values *)

Definition NSECS_PER_SEC : Z := 1000000000.
Definition TIMEVAL_MAX : Z := 0x7FFFFFFF00000000.
Definition TIMER_COUNT_MAX : Z := 0xFFFFFFFF.
Definition TIMER_PERIOD_US : Z := 1.

Definition tv_sec (t : Z) : Z := s32 (Z.shiftr t 32).
Definition tv_nsec (t : Z) : Z := s32 t.

(** The union with its two words written. *)
Definition tv (sec nsec : Z) : Z := s64 (sec * 2 ^ 32 + u32 nsec).

Definition timeval_add (v1 v2 : Z) : Z :=
  let sum := s64 (v1 + v2) in
  if tv_nsec sum >? NSECS_PER_SEC - 1
  then tv (tv_sec sum + 1) (tv_nsec sum - NSECS_PER_SEC) else sum.

Definition timeval_sub (v1 v2 : Z) : Z :=
  let diff := s64 (v1 - v2) in
  if tv_nsec diff <? 0 then tv (tv_sec diff) (tv_nsec diff + NSECS_PER_SEC) else diff.

Definition timeval_after (v1 v2 : Z) : Z :=
  let diff := timeval_sub v1 v2 in
  if (tv_sec diff >? 0) || ((tv_sec diff =? 0) && (tv_nsec diff >? 1000)) then 1 else 0.

Definition timeval_before (v1 v2 : Z) : Z := if timeval_after v1 v2 =? 0 then 1 else 0.

Definition get_clock_period_us : Z := TIMER_PERIOD_US.

(** [x / 1000] and [x * 1000] by shifts and additions. *)
Definition div1000 (x : Z) : Z :=
  let y := Z.shiftr x 10 in y + Z.shiftr (3 * y) 7 + Z.shiftr (9 * y) 14.
Definition mul1000 (x : Z) : Z := Z.shiftl x 10 + Z.shiftl x 3 - Z.shiftl x 5.

Definition clockcycles_to_timeval (clockcycles : Z) : Z :=
  let usecs := u32 (u32 clockcycles * get_clock_period_us) in
  let tmp_secs := div1000 (div1000 usecs) in
  let tmp_usecs := u64 (usecs - mul1000 (mul1000 tmp_secs)) in
  tv (s32 tmp_secs) (s32 (mul1000 tmp_usecs)).

Definition timeval_to_clockcycles (time : Z) : Z :=
  if (tv_sec time <? 0) || (tv_nsec time <? 0) then 0 else
  let tmp_sec := if tv_sec time >? 0 then mul1000 (mul1000 (tv_sec time)) else tv_sec time in
  let useconds := div1000 (tv_nsec time) + tmp_sec in
  let clockcycles := u32 useconds / get_clock_period_us in
  if clockcycles =? 0 then get_clock_period_us else clockcycles.

(** ** Events *)

Definition TIMER_STATE_INACTIVE : Z := 0.
Definition TIMER_STATE_ACTIVE : Z := 1.
Definition TIMER_STATE_PENDING : Z := 2.
Definition TIMER_STATE_EXECUTING : Z := 4.

Definition TIMER_CALLBACK_HARDIRQ : Z := 1.
Definition sizeof_timer_event : Z := 48.

(** [THead] is the list of active events of the tick timer. *)
Inductive tnode : Type := THead | TNode (event : Z).

#[export] Instance tnode_eq_dec : EqDecision tnode.
Proof. solve_decision. Defined.

#[export] Instance tnode_countable : Countable tnode.
Proof.
  apply (inj_countable (fun n => match n with THead => None | TNode a => Some a end)
    (fun o => match o with None => Some THead | Some a => Some (TNode a) end)).
  by intros [].
Defined.

Record timer_event : Type := TimerEvent {
  expires : Z; handler : Z; ev_state : Z; callback_mode : Z; ev_data : Z;
}.

Definition set_ev_state (st : Z) (e : timer_event) : timer_event :=
  TimerEvent (expires e) (handler e) st (callback_mode e) (ev_data e).
Definition set_expires (t : Z) (e : timer_event) : timer_event :=
  TimerEvent t (handler e) (ev_state e) (callback_mode e) (ev_data e).

Section timer.
Context {H : Type} `{PrivateHeap H}.

(** [timer_cpu_info] and [sw_timer_info]; [tick] is the count last given to
    the one-shot timer and [reads] the number of reads of the counter. *)
Record tst : Type := Tst {
  tlists : lheap tnode;
  events : gmap Z timer_event;
  expires_next : Z;
  num_events : Z;
  sw_timestamp : Z;
  abs_cycles_count : Z;
  cycles_count_old : Z;
  cycles_count_new : Z;
  tick : option Z;
  reads : nat;
  theap : H;
}.

(** The values [read_freerunning_cntr] returns, and the functions that event
    handlers point to. *)
Context (cntr : nat -> Z).
Context (run_handler : Z -> Z -> tst -> res tst).

Definition set_tlists (l : lheap tnode) (s : tst) : tst :=
  Tst l (events s) (expires_next s) (num_events s) (sw_timestamp s) (abs_cycles_count s)
    (cycles_count_old s) (cycles_count_new s) (tick s) (reads s) (theap s).
Definition set_events (m : gmap Z timer_event) (s : tst) : tst :=
  Tst (tlists s) m (expires_next s) (num_events s) (sw_timestamp s) (abs_cycles_count s)
    (cycles_count_old s) (cycles_count_new s) (tick s) (reads s) (theap s).
Definition set_expires_next (t : Z) (s : tst) : tst :=
  Tst (tlists s) (events s) t (num_events s) (sw_timestamp s) (abs_cycles_count s)
    (cycles_count_old s) (cycles_count_new s) (tick s) (reads s) (theap s).
Definition set_num_events (n : Z) (s : tst) : tst :=
  Tst (tlists s) (events s) (expires_next s) n (sw_timestamp s) (abs_cycles_count s)
    (cycles_count_old s) (cycles_count_new s) (tick s) (reads s) (theap s).
Definition set_tick (c : Z) (s : tst) : tst :=
  Tst (tlists s) (events s) (expires_next s) (num_events s) (sw_timestamp s) (abs_cycles_count s)
    (cycles_count_old s) (cycles_count_new s) (Some c) (reads s) (theap s).
Definition set_theap (h : H) (s : tst) : tst :=
  Tst (tlists s) (events s) (expires_next s) (num_events s) (sw_timestamp s) (abs_cycles_count s)
    (cycles_count_old s) (cycles_count_new s) (tick s) (reads s) h.

Definition upd_event (a : Z) (f : timer_event -> timer_event) (s : tst) : res tst :=
  e ← of_opt (events s !! a);
  mret (set_events (<[a := f e]> (events s)) s).

(** The fields of the clocks that never change afterwards are left out. *)
Definition init_sw_timer (s : tst) : tst :=
  Tst (INIT_LIST_HEAD THead (tlists s)) (events s) TIMEVAL_MAX 0 0 0 0 0 (tick s) (reads s) (theap s).

(** The common part of the two functions that advance the clock. *)
Definition advance_clock (new old : Z) (reads' : nat) (s : tst) : tst :=
  let tmp_cycles := u64 (new - cycles_count_old s) in
  Tst (tlists s) (events s) (expires_next s) (num_events s)
    (timeval_add (sw_timestamp s) (clockcycles_to_timeval tmp_cycles))
    (u64 (abs_cycles_count s + tmp_cycles)) old new (tick s) reads' (theap s).

Definition __free_running_cntr_intr (s : tst) : tst :=
  advance_clock TIMER_COUNT_MAX 0 (reads s) s.

Definition read_timestamp (s : tst) : Z * tst :=
  let new := u32 (cntr (reads s)) in
  let s := advance_clock new new (S (reads s)) s in
  (sw_timestamp s, s).

Definition tnode_entry (n : tnode) : res Z := match n with TNode a => Ret a | THead => Fault end.

(** The break of the loop: the first event that expires later. *)
Definition expires_after (t : Z) (s : tst) (n : tnode) : res bool :=
  a ← tnode_entry n; e ← of_opt (events s !! a); mret (t <? expires e).

Definition timer_queue_add (new : Z) (s : tst) : res tst :=
  ev ← of_opt (events s !! new);
  empty ← list_empty THead (tlists s);
  l ← (if (empty : bool) then list_add THead (TNode new) (tlists s)
       else
         temp ← list_search (expires_after (expires ev) s) THead (tlists s);
         match temp with
         | Some n => list_add_tail n (TNode new) (tlists s)
         | None => list_add_tail THead (TNode new) (tlists s)
         end);
  upd_event new (set_ev_state TIMER_STATE_ACTIVE) (set_tlists l s).

(** An event pointer of 0 is [NULL]. *)
Definition timer_queue_del (tevent : Z) (s : tst) : res tst :=
  if tevent =? 0 then mret s else
  l ← list_del (TNode tevent) (tlists s);
  upd_event tevent (set_ev_state TIMER_STATE_INACTIVE) (set_tlists l s).

Definition timer_queue_getnext (s : tst) : res (option tnode) :=
  e ← list_empty THead (tlists s);
  if (e : bool) then mret None else n ← get_next (tlists s) THead; mret (Some n).

Definition timer_event_create (hndl priv_data : Z) (s : tst) : res (Z * tst) :=
  '(p, h) ← heap_malloc COMMON_HEAP_ID sizeof_timer_event (theap s);
  let s := set_theap h s in
  if p =? 0 then mret (0, s) else
  let e := TimerEvent TIMEVAL_MAX hndl TIMER_STATE_INACTIVE TIMER_CALLBACK_HARDIRQ priv_data in
  mret (p, set_tlists (INIT_LIST_HEAD (TNode p) (tlists s)) (set_events (<[p := e]> (events s)) s)).

(** A freed event is gone. *)
Definition timer_event_destroy (tevent : Z) (s : tst) : res (Z * tst) :=
  if tevent =? 0 then mret (-1, s) else
  e ← of_opt (events s !! tevent);
  if ev_state e =? TIMER_STATE_INACTIVE then
    h ← heap_free COMMON_HEAP_ID tevent (theap s);
    mret (0, set_theap h (set_events (delete tevent (events s)) s))
  else mret (-1, s).

Definition trigger_tick (usecs : Z) (s : tst) : tst :=
  let usecs := if usecs >? TIMER_COUNT_MAX then TIMER_COUNT_MAX else usecs in
  set_tick (if usecs =? 0 then 1 else usecs) s.

Definition program_tick_for_event (expires_time : Z) (s : tst) : tst :=
  let '(now, s) := read_timestamp s in
  let left := timeval_sub expires_time now in
  let clockcycles :=
    if (tv_sec left <? 0) || (tv_nsec left <? 0) then 1 else timeval_to_clockcycles left in
  trigger_tick clockcycles (set_expires_next expires_time s).

(** The state and the new value of the caller's [*time]. *)
Definition timer_event_start (tevent time : Z) (s : tst) : res (Z * tst) :=
  if tevent =? 0 then mret (time, s) else
  let '(now, s) := read_timestamp s in
  let time := timeval_add now time in
  s ← upd_event tevent (set_expires time) s;
  s ← timer_queue_add tevent s;
  mret (time, if expires_next s >? time then program_tick_for_event time s else s).

Definition __run_timer_handler (tevent : Z) (s : tst) : res tst :=
  e ← of_opt (events s !! tevent);
  s ← timer_queue_del tevent (set_num_events (u32 (num_events s + 1)) s);
  if handler e =? 0 then mret s else run_handler (handler e) tevent s.

(** The loop of [timer_interrupt]; a handler may start events again, so the
    number of rounds is not bounded by the queue. *)
Fixpoint timer_interrupt_loop (fuel : nat) (s : tst) : res tst :=
  node ← timer_queue_getnext s;
  match node with
  | None => mret s
  | Some n =>
      match fuel with
      | O => Fault
      | S f =>
          a ← tnode_entry n;
          e ← of_opt (events s !! a);
          let '(now, s) := read_timestamp s in
          let diff := timeval_sub (expires e) now in
          if (tv_sec diff >? 0) || ((tv_sec diff =? 0) && (tv_nsec diff >? 1000)) then
            mret (program_tick_for_event
                    (if expires e <? TIMEVAL_MAX then expires e else TIMEVAL_MAX) s)
          else
            s ← upd_event a (set_ev_state TIMER_STATE_EXECUTING) s;
            s ← __run_timer_handler a s;
            timer_interrupt_loop f s
      end
  end.

Definition timer_interrupt (fuel : nat) (s : tst) : res tst :=
  s ← timer_interrupt_loop fuel s; mret (set_expires_next TIMEVAL_MAX s).

Definition is_timer_event_active (tevent : Z) (s : tst) : res bool :=
  if tevent =? 0 then mret false else
  e ← of_opt (events s !! tevent); mret (negb (Z.land (ev_state e) TIMER_STATE_ACTIVE =? 0)).

Definition is_timer_event_waiting_on_callback (tevent : Z) (s : tst) : res bool :=
  if tevent =? 0 then mret false else
  e ← of_opt (events s !! tevent); mret (negb (Z.land (ev_state e) TIMER_STATE_PENDING =? 0)).

Definition timer_event_stop (tevent : Z) (s : tst) : res tst :=
  waiting ← is_timer_event_waiting_on_callback tevent s;
  if (waiting : bool) then mret s else
  active ← is_timer_event_active tevent s;
  if negb active then mret s else
  first ← timer_queue_getnext s;
  s ← (if decide (first = Some (TNode tevent)) then
         e ← of_opt (events s !! tevent);
         if expires e =? expires_next s then
           nx ← get_next (tlists s) (TNode tevent);
           t ← (match nx with
                | THead => mret TIMEVAL_MAX
                | TNode a => e' ← of_opt (events s !! a); mret (expires e')
                end);
           mret (if t =? expires_next s then s else program_tick_for_event t s)
         else mret s
       else mret s);
  timer_queue_del tevent s.
End timer.
Arguments tst : clear implicits.

(** ** Arithmetic of time values *)

(** Nanoseconds since 0, and the values whose nanoseconds are below a second. *)
Definition ns (t : Z) : Z := tv_sec t * NSECS_PER_SEC + tv_nsec t.
Definition normal (t : Z) : Prop :=
  exists sec nsec, t = sec * 2 ^ 32 + nsec /\ in_s32 sec /\ 0 <= nsec < NSECS_PER_SEC.

Lemma shiftr32 sec nsec : 0 <= nsec < 2 ^ 32 -> Z.shiftr (sec * 2 ^ 32 + nsec) 32 = sec.
Proof. intros Hn. rewrite Z.shiftr_div_pow2, Z.div_add_l, Z.div_small by lia. lia. Qed.

Lemma tv_nsec_low sec nsec : in_s32 nsec -> tv_nsec (sec * 2 ^ 32 + nsec) = nsec.
Proof.
  unfold in_s32, tv_nsec, s32, sw. intros Hn. change (32 - 1) with 31.
  replace (sec * 2 ^ 32 + nsec + 2 ^ 31) with ((nsec + 2 ^ 31) + sec * 2 ^ 32) by lia.
  rewrite Z.mod_add by lia. rewrite Z.mod_small by lia. lia.
Qed.

Lemma tv_fields sec nsec :
  in_s32 sec -> 0 <= nsec < 2 ^ 31 ->
  tv_sec (sec * 2 ^ 32 + nsec) = sec /\ tv_nsec (sec * 2 ^ 32 + nsec) = nsec.
Proof.
  intros Hs Hn. split; [|apply tv_nsec_low; unfold in_s32; lia].
  unfold tv_sec. rewrite shiftr32 by lia. by apply s32_id.
Qed.

Lemma s64_id x : - 2 ^ 63 <= x < 2 ^ 63 -> s64 x = x.
Proof. unfold s64, sw. intros Hx. change (64 - 1) with 63. rewrite Z.mod_small; lia. Qed.

Lemma tv_eq sec nsec : in_s32 sec -> 0 <= nsec < 2 ^ 32 -> tv sec nsec = sec * 2 ^ 32 + nsec.
Proof.
  unfold in_s32. intros Hs Hn. unfold tv. rewrite u32_id by done. apply s64_id. lia.
Qed.

Lemma normal_ns sec nsec :
  in_s32 sec -> 0 <= nsec < NSECS_PER_SEC ->
  normal (sec * 2 ^ 32 + nsec) /\ ns (sec * 2 ^ 32 + nsec) = sec * NSECS_PER_SEC + nsec.
Proof.
  intros Hs Hn. split; [by exists sec, nsec|]. unfold ns, NSECS_PER_SEC in *.
  destruct (tv_fields sec nsec) as [-> ->]; [done|lia|done].
Qed.

Lemma timeval_add_spec s1 n1 s2 n2 :
  in_s32 s1 -> in_s32 s2 -> in_s32 (s1 + s2) -> in_s32 (s1 + s2 + 1) ->
  0 <= n1 < NSECS_PER_SEC -> 0 <= n2 < NSECS_PER_SEC ->
  timeval_add (s1 * 2 ^ 32 + n1) (s2 * 2 ^ 32 + n2) =
    if n1 + n2 <? NSECS_PER_SEC then (s1 + s2) * 2 ^ 32 + (n1 + n2)
    else (s1 + s2 + 1) * 2 ^ 32 + (n1 + n2 - NSECS_PER_SEC).
Proof.
  unfold in_s32, NSECS_PER_SEC. intros H1 H2 H3 H4 Hn1 Hn2. unfold timeval_add, NSECS_PER_SEC.
  replace (s1 * 2 ^ 32 + n1 + (s2 * 2 ^ 32 + n2)) with ((s1 + s2) * 2 ^ 32 + (n1 + n2)) by lia.
  rewrite s64_id by lia. destruct (tv_fields (s1 + s2) (n1 + n2)) as [-> ->]; [done|lia|].
  destruct (Z.gtb_spec (n1 + n2) (1000000000 - 1)), (Z.ltb_spec (n1 + n2) 1000000000); try lia.
  apply tv_eq; [done|lia].
Qed.

Lemma timeval_sub_spec s1 n1 s2 n2 :
  in_s32 s1 -> in_s32 s2 -> in_s32 (s1 - s2) -> in_s32 (s1 - s2 - 1) ->
  0 <= n1 < NSECS_PER_SEC -> 0 <= n2 < NSECS_PER_SEC ->
  timeval_sub (s1 * 2 ^ 32 + n1) (s2 * 2 ^ 32 + n2) =
    if n1 <? n2 then (s1 - s2 - 1) * 2 ^ 32 + (n1 - n2 + NSECS_PER_SEC)
    else (s1 - s2) * 2 ^ 32 + (n1 - n2).
Proof.
  unfold in_s32, NSECS_PER_SEC. intros H1 H2 H3 H4 Hn1 Hn2. unfold timeval_sub, NSECS_PER_SEC.
  replace (s1 * 2 ^ 32 + n1 - (s2 * 2 ^ 32 + n2)) with ((s1 - s2) * 2 ^ 32 + (n1 - n2)) by lia.
  rewrite s64_id by lia. rewrite tv_nsec_low by (unfold in_s32; lia).
  destruct (Z.ltb_spec (n1 - n2) 0), (Z.ltb_spec n1 n2); try lia.
  replace ((s1 - s2) * 2 ^ 32 + (n1 - n2)) with ((s1 - s2 - 1) * 2 ^ 32 + (n1 - n2 + 2 ^ 32)) by lia.
  unfold tv_sec. rewrite shiftr32 by lia. rewrite s32_id by done. apply tv_eq; [done|lia].
Qed.

(** What fits: the sum or the difference and one more second. *)
Definition no_overflow (x : Z) : Prop := in_s32 (x - 1) /\ in_s32 (x + 1).

Lemma no_overflow_s32 x : no_overflow x -> in_s32 x /\ in_s32 (x + 1) /\ in_s32 (x - 1).
Proof. unfold no_overflow, in_s32. lia. Qed.

Lemma timeval_sub_ns a b :
  normal a -> normal b -> no_overflow (tv_sec a - tv_sec b) ->
  normal (timeval_sub a b) /\ ns (timeval_sub a b) = ns a - ns b.
Proof.
  intros (s1 & n1 & -> & H1 & Hn1) (s2 & n2 & -> & H2 & Hn2).
  assert (0 <= n1 < 2 ^ 31 /\ 0 <= n2 < 2 ^ 31) as [? ?] by (unfold NSECS_PER_SEC in *; lia).
  destruct (tv_fields s1 n1) as [E1 _]; [done|done|]. destruct (tv_fields s2 n2) as [E2 _]; [done|done|].
  rewrite E1, E2. intros (Hs & _ & Hs1)%no_overflow_s32.
  destruct (normal_ns s1 n1) as [_ ->]; [done|done|]. destruct (normal_ns s2 n2) as [_ ->]; [done|done|].
  rewrite timeval_sub_spec by done.
  destruct (Z.ltb_spec n1 n2).
  - destruct (normal_ns (s1 - s2 - 1) (n1 - n2 + NSECS_PER_SEC)) as [? ->]; [done|lia|]. split; [done|lia].
  - destruct (normal_ns (s1 - s2) (n1 - n2)) as [? ->]; [done|lia|]. split; [done|lia].
Qed.

Lemma timeval_add_ns a b :
  normal a -> normal b -> no_overflow (tv_sec a + tv_sec b) ->
  normal (timeval_add a b) /\ ns (timeval_add a b) = ns a + ns b.
Proof.
  intros (s1 & n1 & -> & H1 & Hn1) (s2 & n2 & -> & H2 & Hn2).
  assert (0 <= n1 < 2 ^ 31 /\ 0 <= n2 < 2 ^ 31) as [? ?] by (unfold NSECS_PER_SEC in *; lia).
  destruct (tv_fields s1 n1) as [E1 _]; [done|done|]. destruct (tv_fields s2 n2) as [E2 _]; [done|done|].
  rewrite E1, E2. intros (Hs & Hs1 & _)%no_overflow_s32.
  destruct (normal_ns s1 n1) as [_ ->]; [done|done|]. destruct (normal_ns s2 n2) as [_ ->]; [done|done|].
  rewrite timeval_add_spec by done.
  destruct (Z.ltb_spec (n1 + n2) NSECS_PER_SEC).
  - destruct (normal_ns (s1 + s2) (n1 + n2)) as [? ->]; [done|lia|]. split; [done|lia].
  - destruct (normal_ns (s1 + s2 + 1) (n1 + n2 - NSECS_PER_SEC)) as [? ->]; [done|lia|]. split; [done|lia].
Qed.

(** The order of normal values is the order of the 64-bit integers. *)
Lemma normal_le a b : normal a -> normal b -> (a <= b <-> ns a <= ns b).
Proof.
  intros (s1 & n1 & -> & H1 & Hn1) (s2 & n2 & -> & H2 & Hn2).
  destruct (normal_ns s1 n1) as [_ ->]; [done|done|]. destruct (normal_ns s2 n2) as [_ ->]; [done|done|].
  unfold NSECS_PER_SEC in *. split; intros; nia.
Qed.

Lemma after_1000 t : normal t ->
  (tv_sec t >? 0) || ((tv_sec t =? 0) && (tv_nsec t >? 1000)) = (ns t >? 1000).
Proof.
  intros (s & n & -> & H & Hn). destruct (normal_ns s n) as [_ ->]; [done|done|].
  destruct (tv_fields s n) as [-> ->]; [done|unfold NSECS_PER_SEC in *; lia|]. unfold NSECS_PER_SEC in *.
  destruct (Z.gtb_spec s 0), (Z.eqb_spec s 0), (Z.gtb_spec n 1000), (Z.gtb_spec (s * 1000000000 + n) 1000);
    cbn; done || lia.
Qed.

(** Time arithmetic is exact on normal values: sums and differences that
    fit are normal and are the sums and differences in nanoseconds, the 64-bit
    order is the order in time, and [timeval_after] holds from one microsecond
    on. *)
Theorem timeval_arith (a b : Z) (Ha : normal a) (Hb : normal b)
    (Hadd : no_overflow (tv_sec a + tv_sec b)) (Hsub : no_overflow (tv_sec a - tv_sec b)) :
  (normal (timeval_add a b) /\ ns (timeval_add a b) = ns a + ns b) /\
  (normal (timeval_sub a b) /\ ns (timeval_sub a b) = ns a - ns b) /\
  (a <= b <-> ns a <= ns b) /\
  timeval_after a b = (if ns a - ns b >? 1000 then 1 else 0) /\
  timeval_before a b = 1 - timeval_after a b.
Proof.
  split; [by apply timeval_add_ns|]. pose proof (timeval_sub_ns a b Ha Hb Hsub) as [Hn E].
  split; [done|]. split; [by apply normal_le|]. split.
  - unfold timeval_after. by rewrite after_1000, E.
  - unfold timeval_before, timeval_after. by destruct (_ || _).
Qed.

(** [div1000] divides by a little more than 1000. *)
Lemma div1000_bounds x : 0 <= x -> 0 <= 1000 * div1000 x <= x.
Proof.
  intros Hx. unfold div1000. rewrite !Z.shiftr_div_pow2 by lia. cbv zeta.
  pose proof (Z.div_mod x (2 ^ 10) ltac:(lia)). pose proof (Z.mod_pos_bound x (2 ^ 10) ltac:(lia)).
  set (y := x / 2 ^ 10) in *. assert (0 <= y) by (apply Z.div_pos; lia).
  pose proof (Z.div_mod (3 * y) (2 ^ 7) ltac:(lia)). pose proof (Z.mod_pos_bound (3 * y) (2 ^ 7) ltac:(lia)).
  pose proof (Z.div_mod (9 * y) (2 ^ 14) ltac:(lia)). pose proof (Z.mod_pos_bound (9 * y) (2 ^ 14) ltac:(lia)).
  lia.
Qed.

Lemma mul1000_eq x : 0 <= x -> mul1000 x = 1000 * x.
Proof. intros Hx. unfold mul1000. rewrite !Z.shiftl_mul_pow2 by lia. lia. Qed.

(** The conversion of counter cycles to a time value never loses a
    microsecond: the seconds it splits off and the rest add up to the cycles;
    but the rest can exceed a second, and when it reaches 2147484
    microseconds the nanosecond word overflows and is read as negative (305
    seconds without reading the clock are enough). *)
Theorem clockcycles_split (c : Z) (Hc : in_u32 c) :
  exists secs usecs, 0 <= secs /\ 0 <= usecs /\ secs * 1000000 + usecs = c /\
    (usecs < 2147484 -> tv_sec (clockcycles_to_timeval c) = secs /\
       tv_nsec (clockcycles_to_timeval c) = usecs * 1000) /\
    (2147484 <= usecs < 4294968 -> tv_nsec (clockcycles_to_timeval c) < 0).
Proof.
  pose proof Hc as [Hc0 Hc1]. set (secs := div1000 (div1000 c)).
  pose proof (div1000_bounds c Hc0). pose proof (div1000_bounds (div1000 c) ltac:(lia)).
  exists secs, (c - secs * 1000000). unfold secs in *. set (k := div1000 (div1000 c)) in *.
  split; [lia|]. split; [lia|]. split; [lia|].
  assert (E : clockcycles_to_timeval c = k * 2 ^ 32 + u32 ((c - k * 1000000) * 1000) \/ 4294968 <= c - k * 1000000).
  { destruct (Z.lt_ge_cases (c - k * 1000000) 4294968) as [Hlt|]; [left|by right].
    unfold clockcycles_to_timeval. unfold get_clock_period_us, TIMER_PERIOD_US. rewrite Z.mul_1_r, u32_mod, (u32_id c Hc).
    fold k. rewrite (mul1000_eq (mul1000 k)), (mul1000_eq k) by (rewrite ?mul1000_eq; lia).
    replace (u64 (c - 1000 * (1000 * k))) with (c - k * 1000000)
      by (unfold u64, uw; rewrite Z.mod_small by lia; lia).
    rewrite mul1000_eq by lia. rewrite (s32_id k) by (unfold in_s32; lia). unfold tv. rewrite s64_id.
    - f_equal. unfold s32, sw, u32, uw. change (32 - 1) with 31. rewrite Zminus_mod_idemp_l. f_equal. lia.
    - pose proof (u32_range (s32 (1000 * (c - k * 1000000)))) as [? ?]. lia. }
  split; intros Hu; destruct E as [->|]; try lia.
  - rewrite u32_id by (unfold in_u32; lia). destruct (tv_fields k ((c - k * 1000000) * 1000)) as [-> ->];
      [unfold in_s32; lia|lia|done].
  - rewrite u32_id by (unfold in_u32; lia).
    replace (k * 2 ^ 32 + (c - k * 1000000) * 1000) with ((k + 1) * 2 ^ 32 + ((c - k * 1000000) * 1000 - 2 ^ 32)) by lia.
    rewrite tv_nsec_low by (unfold in_s32; lia). lia.
Qed.

(** ** The queue of events *)

Section queue.
Context {H : Type} `{PrivateHeap H}.

(** When an event expires. *)
Definition exp (s : tst H) (a : Z) : Z := default 0 (expires <$> events s !! a).

(** The active events in the order of their expiry. *)
Record tq (s : tst H) (q : list Z) : Prop := {
  tq_list : dlist (tlists s) THead (TNode <$> q);
  tq_events : forall a, a ∈ q -> a <> 0 /\ is_Some (events s !! a);
  tq_sorted : StronglySorted (fun a b => exp s a <= exp s b) q;
}.

(** The contract of [timer_queue_add]: before the first later event. *)
Fixpoint insert_q (f : Z -> Z) (a : Z) (q : list Z) : list Z :=
  match q with
  | [] => [a]
  | b :: q' => if f a <? f b then a :: b :: q' else b :: insert_q f a q'
  end.

Lemma insert_q_elem f a q x : x ∈ insert_q f a q <-> x = a \/ x ∈ q.
Proof.
  induction q as [|b q IH]; cbn; [set_solver|]. destruct (f a <? f b); set_solver.
Qed.

Lemma insert_q_sorted f a q :
  StronglySorted (fun a b => f a <= f b) q -> StronglySorted (fun a b => f a <= f b) (insert_q f a q).
Proof.
  induction q as [|b q IH]; intros Hs; cbn; [by repeat constructor|].
  apply StronglySorted_inv in Hs as [Hs Hb]. rewrite Forall_forall in Hb.
  destruct (Z.ltb_spec (f a) (f b)).
  - constructor; [constructor; [done|by apply Forall_forall]|]. constructor; [lia|].
    apply Forall_forall. intros x Hx. specialize (Hb x Hx). lia.
  - constructor; [by apply IH|]. apply Forall_forall. intros x [->|Hx]%insert_q_elem; [lia|by apply Hb].
Qed.

Lemma insert_q_split f a l1 b l2 :
  (forall x, x ∈ l1 -> f x <= f a) -> f a < f b -> insert_q f a (l1 ++ b :: l2) = l1 ++ a :: b :: l2.
Proof.
  intros Hl Hb. induction l1 as [|x l1 IH]; cbn.
  - destruct (Z.ltb_spec (f a) (f b)); [done|lia].
  - destruct (Z.ltb_spec (f a) (f x)); [specialize (Hl x ltac:(set_solver)); lia|].
    rewrite IH; [done|]. intros y Hy. apply Hl. set_solver.
Qed.

Lemma insert_q_end f a q : (forall x, x ∈ q -> f x <= f a) -> insert_q f a q = q ++ [a].
Proof.
  intros Hl. induction q as [|x q IH]; cbn; [done|].
  destruct (Z.ltb_spec (f a) (f x)); [specialize (Hl x ltac:(set_solver)); lia|].
  rewrite IH; [done|]. intros y Hy. apply Hl. set_solver.
Qed.

(** The list after an insertion in the middle or at the end. *)
Lemma queue_insert (s : tst H) q a e :
  tq s q -> a ∉ q -> events s !! a = Some e ->
  exists l, (empty ← list_empty THead (tlists s);
             if (empty : bool) then list_add THead (TNode a) (tlists s)
             else
               temp ← list_search (expires_after (expires e) s) THead (tlists s);
               match temp with
               | Some n => list_add_tail n (TNode a) (tlists s)
               | None => list_add_tail THead (TNode a) (tlists s)
               end) = Ret l /\
    dlist l THead (TNode <$> insert_q (exp s) a q).
Proof.
  intros [D Hev Hs] Ha Ee. assert (Ea : exp s a = expires e) by (unfold exp; by rewrite Ee).
  assert (Hnew : TNode a ∉ THead :: (TNode <$> q)).
  { rewrite not_elem_of_cons. split; [done|]. intros (b & E & Hb)%list_elem_of_fmap. by simplify_eq. }
  rewrite (list_empty_spec _ _ _ D). cbn [mbind res_bind]. case_bool_decide as Eq.
  { apply fmap_nil_inv in Eq. subst q. destruct (list_add_head _ _ _ _ D Hnew) as (l & -> & D' & _). by exists l. }
  set (p := fun n => match n with TNode b => expires e <? exp s b | THead => false end).
  rewrite (list_search_spec _ p _ _ _ D).
  2: { intros k (b & -> & Hb)%list_elem_of_fmap. destruct (Hev b Hb) as [_ [eb Eb]].
       unfold expires_after, p, exp. cbn. by rewrite Eb. }
  cbn [mbind res_bind]. destruct (find_fst p (TNode <$> q)) as [n|] eqn:Ef.
  - apply find_fst_split in Ef as (k1 & k2 & Ek & Hp & Hk).
    apply fmap_app_inv in Ek as (l1 & l2' & -> & E2 & ->). destruct l2' as [|b l2]; [done|].
    cbn [fmap list_fmap] in E2. injection E2 as -> ->. rewrite fmap_app in D, Hnew. cbn [fmap list_fmap] in D, Hnew.
    destruct (list_add_before _ _ _ _ _ _ D Hnew) as (l & -> & D' & _). exists l. split; [done|].
    rewrite insert_q_split; [by rewrite fmap_app| |].
    + intros x Hx. specialize (Hk (TNode x) (list_elem_of_fmap_2 _ _ _ Hx)). cbn in Hk.
      apply Z.ltb_ge in Hk. lia.
    + cbn in Hp. apply Z.ltb_lt in Hp. lia.
  - destruct (list_add_tail_head _ _ _ _ D Hnew) as (l & -> & D' & _). exists l. split; [done|].
    rewrite insert_q_end; [by rewrite fmap_app|]. intros x Hx.
    pose proof (proj1 (find_fst_None p _) Ef (TNode x) (list_elem_of_fmap_2 _ _ _ Hx)) as Hk. cbn in Hk.
    apply Z.ltb_ge in Hk. lia.
Qed.

Lemma sorted_ext (f g : Z -> Z) q :
  (forall a, a ∈ q -> f a = g a) ->
  StronglySorted (fun a b => f a <= f b) q -> StronglySorted (fun a b => g a <= g b) q.
Proof.
  intros E Hs. induction Hs as [|a q Hs IH Ha]; constructor.
  - apply IH. intros b Hb. apply E. set_solver.
  - rewrite Forall_forall in Ha |- *. intros b Hb. rewrite <-!E by set_solver. by apply Ha.
Qed.

Lemma tq_ext (s s' : tst H) q :
  tlists s' = tlists s ->
  (forall a, a ∈ q -> exp s' a = exp s a /\ (is_Some (events s !! a) -> is_Some (events s' !! a))) ->
  tq s q -> tq s' q.
Proof.
  intros El Ee [D Hev Hs]. constructor; [by rewrite El| |].
  - intros a Ha. destruct (Hev a Ha). split; [done|]. by apply Ee.
  - eapply sorted_ext; [|exact Hs]. intros a Ha. by rewrite (proj1 (Ee a Ha)).
Qed.

(** A change of the clock or of the tick timer. *)
Lemma tq_frame (s s' : tst H) q :
  tq s q -> tlists s' = tlists s -> events s' = events s -> tq s' q.
Proof.
  intros Hq El Ee. apply (tq_ext s); [done| |done]. intros a _. unfold exp. by rewrite Ee.
Qed.

Lemma queue_add_spec (s : tst H) (q : list Z) (a : Z) (e : timer_event)
    (Hq : tq s q) (Hnew : a ∉ q) (Hev : events s !! a = Some e) (Ha : a <> 0) :
  exists s', timer_queue_add a s = Ret s' /\ tq s' (insert_q (exp s) a q) /\
    events s' = <[a := set_ev_state TIMER_STATE_ACTIVE e]> (events s) /\
    (forall b, exp s' b = exp s b) /\ theap s' = theap s.
Proof.
  unfold timer_queue_add. rewrite Hev. cbn [of_opt mbind res_bind].
  destruct (queue_insert s q a e Hq Hnew Hev) as (l & E & D).
  destruct (list_empty THead (tlists s)) as [b| |] eqn:Eb; cbn [mbind res_bind] in E |- *; try done.
  rewrite E. cbn [mbind res_bind]. unfold upd_event. cbn [events set_tlists]. rewrite Hev. cbn [of_opt mbind res_bind].
  eexists. split; [reflexivity|].
  assert (Hexp : forall b0, exp (set_events (<[a:=set_ev_state TIMER_STATE_ACTIVE e]> (events s)) (set_tlists l s)) b0
                            = exp s b0).
  { intros c. unfold exp. cbn. destruct (decide (a = c)) as [<-|]; [by rewrite lookup_insert_eq, Hev|].
    by rewrite lookup_insert_ne. }
  split; [|split; [done|split; [exact Hexp|done]]]. constructor; [done| |].
  - intros c Hc%insert_q_elem. cbn. destruct (decide (a = c)) as [<-|Hne].
    + rewrite lookup_insert_eq. split; [done|by eexists].
    + rewrite lookup_insert_ne by done. apply Hq. destruct Hc; [congruence|done].
  - eapply sorted_ext; [|apply insert_q_sorted, Hq]. intros c _. by rewrite Hexp.
Qed.

(** The clock is not touched. *)
Lemma queue_add_frame (s s' : tst H) a :
  timer_queue_add a s = Ret s' ->
  expires_next s' = expires_next s /\ sw_timestamp s' = sw_timestamp s /\ cycles_count_old s' = cycles_count_old s.
Proof.
  unfold timer_queue_add, upd_event. intros E.
  destruct (events s !! a) as [e|] eqn:Ee; [|done]. cbn [of_opt mbind res_bind] in E.
  destruct (list_empty THead (tlists s)) as [em| |]; try done. cbn [mbind res_bind] in E.
  match type of E with mbind _ ?m = _ => destruct m as [l| |]; try done end.
  cbn [mbind res_bind events set_tlists] in E. rewrite Ee in E. cbn in E. by injection E as <-.
Qed.

(** The active events are kept in the order of their expiry.  Adding an
    event that is not queued never faults, makes it active, puts it behind the
    events that expire no later and before the others, and changes no expiry. *)
Theorem queue_add_sorted (s : tst H) (q : list Z) (a : Z) (e : timer_event)
    (Hq : tq s q) (Hnew : a ∉ q) (Hev : events s !! a = Some e) (Ha : a <> 0) :
  exists s', timer_queue_add a s = Ret s' /\ tq s' (insert_q (exp s) a q) /\
    events s' = <[a := set_ev_state TIMER_STATE_ACTIVE e]> (events s) /\
    (forall b, exp s' b = exp s b) /\ theap s' = theap s.
Proof. by apply queue_add_spec. Qed.
End queue.

(** ** The interrupt *)

Section interrupt.
Context {H : Type} `{PrivateHeap H}.
Context (cntr : nat -> Z) (run_handler : Z -> Z -> tst H -> res (tst H)).

(** The counter stands still and the clock is up to date. *)
Definition still (s : tst H) : Prop :=
  normal (sw_timestamp s) /\ in_u32 (cycles_count_old s) /\ forall k, u32 (cntr k) = cycles_count_old s.

(** Reading the clock then changes nothing that matters. *)
Definition reread (s : tst H) : tst H :=
  Tst (tlists s) (events s) (expires_next s) (num_events s) (sw_timestamp s) (u64 (abs_cycles_count s))
    (cycles_count_old s) (cycles_count_old s) (tick s) (S (reads s)) (theap s).

Lemma timeval_add_0 t : normal t -> timeval_add t 0 = t.
Proof.
  intros (sec & n & -> & Hs & Hn). unfold NSECS_PER_SEC in Hn.
  unfold timeval_add. rewrite Z.add_0_r, s64_id by (unfold in_s32 in Hs; lia).
  destruct (tv_fields sec n) as [-> ->]; [done|lia|]. unfold NSECS_PER_SEC.
  destruct (Z.gtb_spec n (1000000000 - 1)); [lia|done].
Qed.

Lemma read_still s : still s -> read_timestamp cntr s = (sw_timestamp s, reread s).
Proof.
  intros (Hn & Hc & Hk). unfold read_timestamp, advance_clock. rewrite Hk, Z.sub_diag.
  change (u64 0) with 0. change (clockcycles_to_timeval 0) with 0. cbn [sw_timestamp].
  rewrite timeval_add_0 by done. by rewrite Z.add_0_r.
Qed.

Lemma still_reread s : still s -> still (reread s).
Proof. done. Qed.

(** The event is due at the time [now]: it expires in less than a
    microsecond. *)
Definition due (s : tst H) (now a : Z) : bool := ns (exp s a) - ns now <=? 1000.

(** What the interrupt may rely on of an event handler: it returns, and
    leaves the queue, the other events and the clock alone. *)
Definition handler_ok : Prop := forall h a s, exists s',
  run_handler h a s = Ret s' /\ tlists s' = tlists s /\
  (forall b, b <> a -> events s' !! b = events s !! b) /\
  sw_timestamp s' = sw_timestamp s /\ cycles_count_old s' = cycles_count_old s /\
  num_events s' = num_events s.

(** The effect of the handlers in the memory the events share with the rest
    of the kernel: each one leaves its mark behind the earlier ones. *)
Definition handler_log (log : H -> list Z) : Prop := forall h a s s',
  run_handler h a s = Ret s' -> log (theap s') = log (theap s) ++ [a].

(** Events whose time can be compared with [now] and that have a handler. *)
Definition timely (s : tst H) (now a : Z) : Prop :=
  normal (exp s a) /\ exp s a <= TIMEVAL_MAX /\ no_overflow (tv_sec (exp s a) - tv_sec now) /\
  forall e, events s !! a = Some e -> handler e <> 0.

(** Running the handler of the first event. *)
Lemma run_first s q a log :
  handler_ok -> handler_log log -> tq s (a :: q) -> still s -> (forall e, events s !! a = Some e -> handler e <> 0) ->
  exists s', (s0 ← upd_event a (set_ev_state TIMER_STATE_EXECUTING) s; __run_timer_handler run_handler a s0) = Ret s' /\
    tq s' q /\ still s' /\ sw_timestamp s' = sw_timestamp s /\
    (forall b, b ∈ q -> events s' !! b = events s !! b) /\
    num_events s' = u32 (num_events s + 1) /\ log (theap s') = log (theap s) ++ [a].
Proof.
  intros Hok Hlog [D Hev Hs] Hst Hh. destruct (Hev a) as [Ha [e Ee]]; [set_solver|].
  apply StronglySorted_inv in Hs as [Hs _]. pose proof (dlist_nodup _ _ _ D) as N.
  apply NoDup_cons in N as [_ N]. apply (NoDup_fmap_1 TNode (a :: q)), NoDup_cons in N as [Na _].
  unfold upd_event, __run_timer_handler. rewrite Ee. cbn [of_opt mbind res_bind mret res_ret events set_events].
  rewrite lookup_insert_eq. cbn [of_opt mbind res_bind]. unfold timer_queue_del.
  destruct (Z.eqb_spec a 0) as [|_]; [done|]. cbn [tlists set_num_events set_events].
  cbn [fmap list_fmap] in D. destruct (dlist_remove _ _ [] _ _ D) as (l & -> & D' & _). cbn [mbind res_bind].
  unfold upd_event. cbn [events set_tlists set_num_events set_events]. rewrite lookup_insert_eq.
  cbn [of_opt mbind res_bind mret res_ret handler set_ev_state].
  destruct (Z.eqb_spec (handler e) 0) as [E0|_]; [by apply Hh in Ee|].
  match goal with |- context [run_handler ?h ?b ?x] => destruct (Hok h b x) as (s' & Er & Hl & Ho & Ht & Hc & Hn) end.
  exists s'. split; [exact Er|]. cbn in Hl, Ho, Ht, Hc, Hn.
  assert (Hq : forall b, b ∈ q -> events s' !! b = events s !! b).
  { intros b Hb. assert (b <> a) by (by intros ->). rewrite Ho by done. rewrite insert_insert_eq.
    by rewrite lookup_insert_ne by congruence. }
  split; [|split; [|split; [done|split; [exact Hq|split; [done|]]]]].
  - constructor.
    + rewrite Hl. exact D'.
    + intros b Hb. rewrite Hq by done. apply Hev. set_solver.
    + eapply sorted_ext; [|exact Hs]. intros b Hb. unfold exp. by rewrite Hq.
  - destruct Hst as (S1 & S2 & S3). split; [by rewrite Ht|]. rewrite Hc. done.
  - apply Hlog in Er. exact Er.
Qed.

(** The count the one-shot timer gets for a positive delay. *)
Definition tick_count (left : Z) : Z :=
  let c := Z.min (timeval_to_clockcycles left) TIMER_COUNT_MAX in if c =? 0 then 1 else c.

Lemma program_tick_still s t :
  still s -> normal t -> no_overflow (tv_sec t - tv_sec (sw_timestamp s)) -> 1000 < ns t - ns (sw_timestamp s) ->
  program_tick_for_event cntr t s =
    set_tick (tick_count (timeval_sub t (sw_timestamp s))) (set_expires_next t (reread s)).
Proof.
  intros Hst Ht Ho Hd. unfold program_tick_for_event. rewrite read_still by done.
  destruct (timeval_sub_ns t (sw_timestamp s) Ht (proj1 Hst) Ho) as [Hn E].
  assert (Hpos : 0 <= tv_sec (timeval_sub t (sw_timestamp s)) /\ 0 <= tv_nsec (timeval_sub t (sw_timestamp s))).
  { destruct Hn as (sec & n & En & Hs & Hnn). rewrite En in E |- *.
    destruct (normal_ns sec n) as [_ Ens]; [done|done|]. rewrite Ens in E.
    destruct (tv_fields sec n) as [-> ->]; [done|unfold NSECS_PER_SEC in *; lia|].
    unfold NSECS_PER_SEC in *. lia. }
  destruct (Z.ltb_spec (tv_sec (timeval_sub t (sw_timestamp s))) 0); [lia|].
  destruct (Z.ltb_spec (tv_nsec (timeval_sub t (sw_timestamp s))) 0); [lia|]. cbn [orb].
  unfold trigger_tick, tick_count. f_equal.
  destruct (Z.gtb_spec (timeval_to_clockcycles (timeval_sub t (sw_timestamp s))) TIMER_COUNT_MAX);
    [rewrite Z.min_r by lia|rewrite Z.min_l by lia]; done.
Qed.

Lemma due_later s now a q :
  StronglySorted (fun a b => exp s a <= exp s b) (a :: q) ->
  (forall b, b ∈ a :: q -> normal (exp s b)) -> due s now a = false ->
  forall b, b ∈ a :: q -> due s now b = false.
Proof.
  intros Hs Hn Hd b Hb. unfold due in *. apply Z.leb_gt in Hd. apply Z.leb_gt.
  apply StronglySorted_inv in Hs as [_ Ha]. rewrite Forall_forall in Ha.
  apply elem_of_cons in Hb as [->|Hb]; [done|].
  pose proof (proj1 (normal_le (exp s a) (exp s b) (Hn a ltac:(set_solver)) (Hn b ltac:(set_solver))) (Ha b Hb)).
  lia.
Qed.

Lemma interrupt_loop_spec log fuel q s :
  handler_ok -> handler_log log -> tq s q -> still s ->
  (forall a, a ∈ q -> timely s (sw_timestamp s) a) -> (length q <= fuel)%nat ->
  exists q1 q2 s', timer_interrupt_loop cntr run_handler fuel s = Ret s' /\ q = q1 ++ q2 /\
    (forall a, a ∈ q1 -> due s (sw_timestamp s) a = true) /\
    (forall a, a ∈ q2 -> due s (sw_timestamp s) a = false) /\
    tq s' q2 /\ still s' /\ sw_timestamp s' = sw_timestamp s /\
    (forall a, a ∈ q2 -> exp s' a = exp s a) /\
    u32 (num_events s') = u32 (num_events s + Z.of_nat (length q1)) /\
    log (theap s') = log (theap s) ++ q1 /\
    (forall b q2', q2 = b :: q2' -> tick s' = Some (tick_count (timeval_sub (exp s b) (sw_timestamp s)))).
Proof.
  intros Hok Hlog. revert fuel s. induction q as [|a q IH]; intros fuel s Hq Hst Htm Hf.
  - exists [], [], s. assert (Hn : timer_queue_getnext s = Ret None).
    { unfold timer_queue_getnext. rewrite (list_empty_spec _ _ _ (tq_list _ _ Hq)). by rewrite bool_decide_eq_true_2. }
    split; [destruct fuel; cbn [timer_interrupt_loop]; by rewrite Hn|].
    split; [done|]. split; [by intros ? ?%elem_of_nil|]. split; [by intros ? ?%elem_of_nil|].
    split; [done|]. split; [done|]. split; [done|]. split; [done|]. split; [by rewrite Z.add_0_r|].
    split; [by rewrite app_nil_r|done].
  - destruct fuel as [|fuel]; cbn [length] in Hf; [lia|].
    destruct (Htm a) as (Hn & Hmax & Ho & Hh); [set_solver|].
    destruct (tq_events _ _ Hq a) as [Ha [e Ee]]; [set_solver|].
    assert (Ea : expires e = exp s a) by (unfold exp; by rewrite Ee).
    assert (Hnext : timer_queue_getnext s = Ret (Some (TNode a))).
    { unfold timer_queue_getnext. rewrite (list_empty_spec _ _ _ (tq_list _ _ Hq)).
      rewrite bool_decide_eq_false_2 by done. cbn [mbind res_bind].
      by rewrite (get_next_head _ _ _ (tq_list _ _ Hq)). }
    cbn [timer_interrupt_loop]. rewrite Hnext. cbn [mbind res_bind tnode_entry].
    rewrite Ee. cbn [of_opt mbind res_bind]. rewrite read_still by done. cbv zeta. rewrite Ea.
    destruct (timeval_sub_ns (exp s a) (sw_timestamp s) Hn (proj1 Hst) Ho) as [Hnd End].
    rewrite after_1000 by done. rewrite End.
    destruct (Z.gtb_spec (ns (exp s a) - ns (sw_timestamp s)) 1000) as [Hgt|Hle].
    + exists [], (a :: q).
      assert (Emin : (if exp s a <? TIMEVAL_MAX then exp s a else TIMEVAL_MAX) = exp s a)
        by (destruct (Z.ltb_spec (exp s a) TIMEVAL_MAX); lia).
      rewrite Emin, (program_tick_still (reread s)) by done. eexists. split; [reflexivity|].
      assert (Hd : due s (sw_timestamp s) a = false) by (apply Z.leb_gt; lia).
      split; [done|]. split; [by intros ? ?%elem_of_nil|].
      split; [apply due_later; [apply Hq|intros b Hb; by apply Htm|done]|].
      split; [by apply (tq_frame s)|]. split; [done|]. split; [done|]. split; [done|].
      split; [by rewrite Z.add_0_r|]. split; [by rewrite app_nil_r|]. by intros b q2' [= <- <-].
    + destruct (run_first (reread s) q a log Hok Hlog) as (s1 & E1 & Hq1 & Hst1 & Hts & Hev1 & Hnum & Hlg);
        [by apply (tq_frame s)|done|done|].
      destruct (upd_event a (set_ev_state TIMER_STATE_EXECUTING) (reread s)) as [s0| |] eqn:E0; try done.
      cbn [mbind res_bind] in E1 |- *. rewrite E1. cbn [mbind res_bind].
      assert (Hexp : forall b, b ∈ q -> exp s1 b = exp s b) by (intros b Hb; unfold exp; by rewrite Hev1).
      destruct (IH fuel s1 Hq1 Hst1) as (q1 & q2 & s' & El & -> & Hd1 & Hd2 & Hq2 & Hst2 & Hts2 & Hx2 & Hn2 & Hl2 & Htk).
      { intros b Hb. destruct (Htm b) as (B1 & B2 & B3 & B4); [set_solver|]. unfold timely.
        rewrite Hexp, Hts by done. split; [done|]. split; [done|]. split; [done|]. intros eb. rewrite Hev1 by done. apply B4. }
      { lia. }
      exists (a :: q1), q2, s'. split; [exact El|]. split; [done|].
      change (sw_timestamp (reread s)) with (sw_timestamp s) in Hts.
      assert (Hdd : forall b, b ∈ q1 ++ q2 -> due s1 (sw_timestamp s1) b = due s (sw_timestamp s) b).
      { intros b Hb. unfold due. by rewrite Hexp, Hts. }
      split; [|split; [|split; [done|split; [done|split; [by rewrite Hts2|split; [|split; [|split]]]]]]].
      * intros b [->|Hb]%elem_of_cons; [by apply Z.leb_le|]. rewrite <-Hdd by set_solver. by apply Hd1.
      * intros b Hb. rewrite <-Hdd by set_solver. by apply Hd2.
      * intros b Hb. rewrite Hx2 by done. apply Hexp. set_solver.
      * rewrite Hn2, Hnum. cbn [length num_events reread]. unfold u32, uw. rewrite Zplus_mod_idemp_l. f_equal. lia.
      * rewrite Hl2, Hlg. cbn [theap reread]. by rewrite <-app_assoc.
      * intros b q2' Eb. rewrite (Htk b q2' Eb), Hts, Hexp; [done|]. rewrite Eb. set_solver.
Qed.


End interrupt.

Section starting.
Context {H : Type} `{PrivateHeap H}.
Context (cntr : nat -> Z).
#[local] Abbreviation still := (still cntr).

(** An interrupt makes later events overtake earlier ones.  It resets
    [expires_next] to the largest time although events remain, so starting an
    event that expires after the first pending one programs the one-shot timer
    for the new event: the timer no longer fires when the first pending event
    expires. *)
Theorem start_after_interrupt_delays (q : list Z) (s : tst H) (a b time : Z) (e : timer_event)
    (Hq : tq s (b :: q)) (Hst : still s) (Hreset : expires_next s = TIMEVAL_MAX)
    (Ha : a <> 0) (Hnew : a ∉ b :: q) (Hev : events s !! a = Some e)
    (Htime : normal time) (Hfit : no_overflow (tv_sec (sw_timestamp s) + tv_sec time))
    (Hpos : 1000 < ns time) (Hsec : no_overflow (tv_sec (timeval_add (sw_timestamp s) time) - tv_sec (sw_timestamp s)))
    (Hlt : timeval_add (sw_timestamp s) time < TIMEVAL_MAX)
    (Hlater : exp s b < timeval_add (sw_timestamp s) time) :
  exists t s', timer_event_start cntr a time s = Ret (t, s') /\
    t = timeval_add (sw_timestamp s) time /\ exp s' b = exp s b /\ exp s' b < t /\
    (exists q', tq s' (b :: q')) /\ expires_next s' = t /\
    tick s' = Some (tick_count (timeval_sub t (sw_timestamp s))).
Proof.
  destruct (timeval_add_ns _ _ (proj1 Hst) Htime Hfit) as [Hnt Ent].
  set (t := timeval_add (sw_timestamp s) time) in *.
  unfold timer_event_start. destruct (Z.eqb_spec a 0) as [|_]; [done|]. rewrite read_still by done.
  fold t. unfold upd_event. change (events (reread s)) with (events s). rewrite Hev. cbn [of_opt mbind res_bind].
  set (s1 := set_events (<[a:=set_expires t e]> (events s)) (reread s)).
  assert (Eb : forall c, c ∈ b :: q -> exp s1 c = exp s c).
  { intros c Hc. unfold exp. cbn. rewrite lookup_insert_ne; [done|]. by intros ->. }
  assert (Ea : exp s1 a = t) by (unfold exp; cbn; by rewrite lookup_insert_eq).
  assert (Hq1 : tq s1 (b :: q)).
  { apply (tq_ext s); [done| |done]. intros c Hc. split; [by apply Eb|]. cbn.
    rewrite lookup_insert_ne; [done|]. by intros ->. }
  destruct (queue_add_spec s1 (b :: q) a (set_expires t e) Hq1 Hnew) as (s2 & E2 & Hq2 & Hev2 & Hexp2 & _);
    [cbn; by rewrite lookup_insert_eq|done|].
  cbn [insert_q] in Hq2. rewrite Ea, (Eb b) in Hq2 by set_solver.
  destruct (Z.ltb_spec t (exp s b)); [lia|].
  destruct (queue_add_frame _ _ _ E2) as (F1 & F2 & F3). cbn [mbind res_bind mret res_ret]. rewrite E2. cbn [mbind res_bind].
  assert (Hst2 : still s2) by (destruct Hst as (S1 & S2 & S3); split; [by rewrite F2|rewrite F3; done]).
  rewrite F1. change (expires_next s1) with (expires_next s). rewrite Hreset, (proj2 (Z.gtb_lt _ _)) by done.
  change (sw_timestamp s1) with (sw_timestamp s) in F2.
  rewrite program_tick_still by (rewrite ?F2; done || lia).
  eexists t, _. split; [reflexivity|]. split; [done|]. rewrite <-F2. unfold exp at 1 3. cbn -[timeval_sub tick_count].
  fold (exp s2 b). rewrite Hexp2, Eb by set_solver. split; [done|]. split; [done|]. split; [|done].
  eexists. by apply (tq_frame s2).
Qed.
End starting.

(** ** Concrete runs

    A heap with a log that the handlers write to, a counter that stands still,
    and the clock at ten seconds. *)

Definition log_heap : Type := (bump_heap * list Z)%type.

#[export] Instance log_heap_PrivateHeap : PrivateHeap log_heap := {
  heap_malloc := fun hid size h => '(p, b) ← heap_malloc hid size (fst h); mret (p, (b, snd h));
  heap_free := fun hid p h => b ← heap_free hid p (fst h); mret (b, snd h);
  heap_alloc_private := fun _ h => (0, h);
  heap_free_private := fun _ h => (0, h);
}.

Definition log_handler (h a : Z) (s : tst log_heap) : res (tst log_heap) :=
  mret (set_theap (fst (theap s), snd (theap s) ++ [a]) s).

Definition still_counter (_ : nat) : Z := 7.
Definition seconds (n : Z) : Z := n * 2 ^ 32.

Definition clock0 : tst log_heap :=
  Tst (INIT_LIST_HEAD THead empty_lheap)
    (<[100 := TimerEvent (seconds 15) 1 TIMER_STATE_INACTIVE TIMER_CALLBACK_HARDIRQ 0]>
     (<[200 := TimerEvent (seconds 10 + 200) 2 TIMER_STATE_INACTIVE TIMER_CALLBACK_HARDIRQ 0]>
      (<[300 := TimerEvent TIMEVAL_MAX 3 TIMER_STATE_INACTIVE TIMER_CALLBACK_HARDIRQ 0]> ∅)))
    TIMEVAL_MAX 0 (seconds 10) 0 7 7 None 0%nat (BumpHeap 0x1000 0x2000 ∅, []).

Lemma log_handler_ok : handler_ok log_handler /\ handler_log log_handler snd.
Proof.
  split; [intros h a s; by eexists|]. by intros h a s s' [= <-].
Qed.

Lemma seconds_normal n k : in_s32 n -> 0 <= k < NSECS_PER_SEC -> normal (seconds n + k).
Proof. intros Hn Hk. by exists n, k. Qed.

Lemma clock0_tq : tq clock0 [].
Proof.
  constructor; [apply dlist_init|by intros ? ?%elem_of_nil|constructor].
Qed.

(** Event 100 expires in five seconds and event 200 is due. *)
Lemma clock_demo :
  exists s : tst log_heap, tq s [200; 100] /\ still still_counter s /\ sw_timestamp s = seconds 10 /\
    (exists e, events s !! 200 = Some e /\ expires e = seconds 10 + 200 /\ handler e = 2) /\
    (exists e, events s !! 100 = Some e /\ expires e = seconds 15 /\ handler e = 1) /\
    (exists e, events s !! 300 = Some e) /\
    expires_next s = TIMEVAL_MAX /\ theap s = (BumpHeap 0x1000 0x2000 ∅, []).
Proof.
  destruct (queue_add_spec clock0 [] 100 _ clock0_tq ltac:(apply not_elem_of_nil) ltac:(reflexivity) ltac:(done))
    as (s1 & E1 & Q1 & V1 & X1 & H1).
  destruct (queue_add_frame _ _ _ E1) as (F1 & F2 & F3). cbn [insert_q] in Q1.
  destruct (queue_add_spec s1 [100] 200 (TimerEvent (seconds 10 + 200) 2 TIMER_STATE_INACTIVE TIMER_CALLBACK_HARDIRQ 0) Q1)
    as (s2 & E2 & Q2 & V2 & X2 & H2); [by intros ?%list_elem_of_singleton|by rewrite V1|done|].
  destruct (queue_add_frame _ _ _ E2) as (G1 & G2 & G3). cbn [insert_q] in Q2. rewrite !X1 in Q2.
  exists s2. split; [exact Q2|]. split; [|split; [by rewrite G2|]].
  { split; [rewrite G2, F2; exact (seconds_normal 10 0 ltac:(by compute) ltac:(by compute))|]. rewrite G3, F3. by compute. }
  rewrite V2, V1. split; [by eexists|]. split; [by eexists|]. split; [by eexists|].
  split; [by rewrite G1|by rewrite H2, H1].
Qed.

Lemma timeval_arith_witness :
  normal (seconds 3 + 999999999) /\ timeval_add (seconds 3 + 999999999) (seconds 1 + 2) = seconds 5 + 1 /\
  timeval_after (seconds 3 + 999999999) (seconds 1 + 2) = 1.
Proof.
  pose proof (seconds_normal 3 999999999 ltac:(by compute) ltac:(by compute)) as N1.
  pose proof (seconds_normal 1 2 ltac:(by compute) ltac:(by compute)) as N2.
  destruct (timeval_arith _ _ N1 N2) as (_ & _ & _ & A & _); [by compute|by compute|].
  split; [exact N1|]. split; [reflexivity|]. rewrite A. reflexivity.
Defined.

Lemma clockcycles_split_witness :
  in_u32 305000000 /\ exists secs usecs, secs * 1000000 + usecs = 305000000 /\ 0 <= usecs.
Proof.
  assert (C : in_u32 305000000) by (by compute). split; [exact C|].
  destruct (clockcycles_split 305000000 C) as (k & u & _ & P & E & _). exists k, u. split; [exact E|exact P].
Defined.

Lemma queue_add_sorted_witness :
  exists s s' : tst log_heap, timer_queue_add 100 s = Ret s' /\ tq s' [100].
Proof.
  destruct (queue_add_sorted clock0 [] 100 (TimerEvent (seconds 15) 1 TIMER_STATE_INACTIVE TIMER_CALLBACK_HARDIRQ 0)
      clock0_tq) as (s' & E & Q & _); [apply not_elem_of_nil|reflexivity|done|].
  exists clock0, s'. split; [exact E|exact Q].
Defined.


Lemma start_after_interrupt_delays_witness :
  exists (s s' : tst log_heap) t, timer_event_start still_counter 300 (seconds 9) s = Ret (t, s') /\
    exp s' 200 < t /\ expires_next s' = t.
Proof.
  destruct clock_demo as (s & Q & S & T & (e2 & V2 & X2 & D2) & _ & (e3 & V3) & N & Hp).
  assert (Exp2 : exp s 200 = seconds 10 + 200) by (unfold exp; by rewrite V2).
  destruct (start_after_interrupt_delays still_counter [100] s 300 200 (seconds 9) e3 Q S N)
    as (t & s' & E & _ & _ & Lt & _ & Nx & _).
  - done.
  - set_solver.
  - exact V3.
  - exact (seconds_normal 9 0 ltac:(by compute) ltac:(by compute)).
  - rewrite T. by compute.
  - by compute.
  - rewrite T. by compute.
  - rewrite T. by compute.
  - rewrite T, Exp2. by compute.
  - exists s, s', t. split; [exact E|]. split; [exact Lt|exact Nx].
Defined.
