(* ===== verification/Words.v ===== *)
(** 32-bit accesses to the byte memory of [MemFn]: the little-endian words
    that the parameter encoding writes with [*(u32 * )] stores, and the lemmas
    that relate them to lists of bytes. *)
From stdpp Require Import prelude gmap.
From S2P Require Import Prelude MemFn StrFn.
#[local] Open Scope Z_scope.

Definition load32 (a : Z) (m : mem) : res Z :=
  b0 ← load8 a m; b1 ← load8 (a + 1) m; b2 ← load8 (a + 2) m; b3 ← load8 (a + 3) m;
  mret (b0 + 2 ^ 8 * b1 + 2 ^ 16 * b2 + 2 ^ 24 * b3).

Definition store32 (a v : Z) (m : mem) : res mem :=
  m ← store8 a v m; m ← store8 (a + 1) (Z.shiftr v 8) m;
  m ← store8 (a + 2) (Z.shiftr v 16) m; store8 (a + 3) (Z.shiftr v 24) m.

(** The bytes of a word. *)
Definition le32 (v : Z) : list Z :=
  [u8 v; u8 (Z.shiftr v 8); u8 (Z.shiftr v 16); u8 (Z.shiftr v 24)].

Lemma le32_length v : length (le32 v) = 4%nat.
Proof. done. Qed.

Lemma le32_bytes v : Forall is_byte (le32 v).
Proof. unfold le32, is_byte, u8, uw. repeat constructor; apply Z.mod_pos_bound; lia. Qed.

Lemma le32_value v : in_u32 v ->
  u8 v + 2 ^ 8 * u8 (Z.shiftr v 8) + 2 ^ 16 * u8 (Z.shiftr v 16) + 2 ^ 24 * u8 (Z.shiftr v 24) = v.
Proof.
  unfold in_u32, u8, uw. intros Hv. rewrite !Z.shiftr_div_pow2 by lia.
  change (2 ^ 24) with (2 ^ 16 * 2 ^ 8). change (2 ^ 16) with (2 ^ 8 * 2 ^ 8).
  rewrite <-!Z.div_div by lia.
  set (a := v / 2 ^ 8). set (b := a / 2 ^ 8). set (c := b / 2 ^ 8).
  assert (0 <= c < 2 ^ 8).
  { unfold c, b, a. rewrite !Z.div_div by lia. split; [apply Z.div_pos; lia|].
    apply Z.div_lt_upper_bound; lia. }
  rewrite (Z.mod_small c) by done.
  pose proof (Z.div_mod v (2 ^ 8) ltac:(lia)). pose proof (Z.div_mod a (2 ^ 8) ltac:(lia)).
  pose proof (Z.div_mod b (2 ^ 8) ltac:(lia)). fold a in H0. fold b in H1. fold c in H2. lia.
Qed.

Lemma store32_ok a v m : mapped a 4 m -> store32 a v m = Ret (write_bytes a (le32 v) m).
Proof.
  intros Hm. unfold store32, store8, le32. cbn [write_bytes].
  destruct (Hm a) as [b0 E0]; [lia|]. rewrite E0. cbn [of_opt mbind res_bind mret res_ret].
  destruct (mapped_insert _ _ _ a (u8 v) Hm (a + 1)) as [b1 E1]; [lia|]. rewrite E1. cbn [of_opt mbind res_bind mret res_ret].
  rewrite !lookup_insert_ne by lia.
  destruct (Hm (a + 2)) as [b2 E2]; [lia|]. rewrite E2. cbn [of_opt mbind res_bind mret res_ret].
  rewrite !lookup_insert_ne by lia.
  destruct (Hm (a + 3)) as [b3 E3]; [lia|]. rewrite E3. cbn [of_opt mbind res_bind mret res_ret].
  replace (a + 1 + 1) with (a + 2) by lia. replace (a + 2 + 1) with (a + 3) by lia. done.
Qed.

Lemma load32_bytes a m b0 b1 b2 b3 :
  read_bytes 4 a m = Some [b0; b1; b2; b3] ->
  load32 a m = Ret (b0 + 2 ^ 8 * b1 + 2 ^ 16 * b2 + 2 ^ 24 * b3).
Proof.
  intros E. unfold load32, load8.
  pose proof (read_bytes_lookup _ _ _ _ 0 E ltac:(lia)) as E0. pose proof (read_bytes_lookup _ _ _ _ 1 E ltac:(lia)) as E1.
  pose proof (read_bytes_lookup _ _ _ _ 2 E ltac:(lia)) as E2. pose proof (read_bytes_lookup _ _ _ _ 3 E ltac:(lia)) as E3.
  cbn [lookup list_lookup] in E0, E1, E2, E3. rewrite Z.add_0_r in E0.
  rewrite <-E0. cbn [of_opt mbind res_bind]. change (Z.of_nat 1) with 1 in E1. rewrite <-E1.
  cbn [of_opt mbind res_bind]. change (Z.of_nat 2) with 2 in E2. rewrite <-E2. cbn [of_opt mbind res_bind].
  change (Z.of_nat 3) with 3 in E3. by rewrite <-E3.
Qed.

Lemma load32_le32 a v m : in_u32 v -> read_bytes 4 a m = Some (le32 v) -> load32 a m = Ret v.
Proof. intros Hv E. by rewrite (load32_bytes _ _ _ _ _ _ E), le32_value. Qed.

Lemma load32_write a d l m :
  a + 4 <= d \/ d + Z.of_nat (length l) <= a -> load32 a (write_bytes d l m) = load32 a m.
Proof. intros Hd. unfold load32, load8. by rewrite !write_bytes_lookup, !decide_False by lia. Qed.

(** A mapped range can be read. *)
Lemma read_bytes_mapped n a m : mapped a (Z.of_nat n) m -> exists l, read_bytes n a m = Some l.
Proof.
  revert a. induction n as [|n IH]; intros a Hm; [by exists []|]. cbn [read_bytes].
  destruct (Hm a) as [v E]; [lia|]. destruct (IH (a + 1)) as [l El]; [intros x Hx; apply Hm; lia|].
  exists (v :: l). rewrite E. cbn. by rewrite El.
Qed.

Lemma load32_mapped a m : mapped a 4 m -> exists v, load32 a m = Ret v.
Proof.
  intros Hm. destruct (read_bytes_mapped 4 a m Hm) as [l E]. pose proof (read_bytes_length _ _ _ _ E) as L.
  destruct l as [|b0 [|b1 [|b2 [|b3 [|]]]]]; try done. eexists. by apply load32_bytes.
Qed.

Lemma bytes_ok_write a l m : bytes_ok m -> Forall is_byte l -> bytes_ok (write_bytes a l m).
Proof.
  intros Hm Hl x v. rewrite write_bytes_lookup. case_decide; [|apply Hm].
  intros E. by apply (Forall_lookup_1 _ _ _ _ Hl E).
Qed.

(** A part of a range that was read. *)
Lemma read_bytes_slice a b m off n :
  read_bytes (length b) a m = Some b -> (off + n <= length b)%nat ->
  read_bytes n (a + Z.of_nat off) m = Some (take n (drop off b)).
Proof.
  intros Hr Hn. replace (length b) with (off + (n + (length b - off - n)))%nat in Hr by lia.
  rewrite read_bytes_app in Hr.
  destruct (read_bytes off _ _) as [l1|] eqn:E1; [|done]. cbn [mbind option_bind] in Hr.
  rewrite read_bytes_app in Hr. destruct (read_bytes n _ _) as [l2|] eqn:E2; [|done]. cbn [mbind option_bind] in Hr.
  destruct (read_bytes (length b - off - n) _ _) as [l3|] eqn:E3; [|done].
  pose proof (read_bytes_length _ _ _ _ E1) as L1. pose proof (read_bytes_length _ _ _ _ E2) as L2.
  cbn [mbind option_bind] in Hr. injection Hr as <-.
  rewrite drop_app_le, drop_ge by lia. cbn [app]. by rewrite take_app_le, take_ge by lia.
Qed.

(** A range after a write into it. *)
Lemma read_bytes_put a b l m off :
  read_bytes (length b) a m = Some b -> (off + length l <= length b)%nat ->
  read_bytes (length b) a (write_bytes (a + Z.of_nat off) l m) = Some (take off b ++ l ++ drop (off + length l) b).
Proof.
  intros Hr Hn. pose proof (read_bytes_slice a b m 0 off Hr ltac:(lia)) as R1.
  pose proof (read_bytes_slice a b m (off + length l) (length b - off - length l) Hr ltac:(lia)) as R3.
  rewrite Z.add_0_r, drop_0 in R1. rewrite take_ge in R3 by (rewrite length_drop; lia).
  replace (read_bytes (length b)) with (read_bytes (off + (length l + (length b - off - length l)))) by (f_equal; lia).
  rewrite read_bytes_app, (read_bytes_write off), R1 by lia. cbn [mbind option_bind].
  rewrite read_bytes_app, read_bytes_write_same. cbn [mbind option_bind].
  rewrite read_bytes_write by lia. replace (a + Z.of_nat off + Z.of_nat (length l)) with (a + Z.of_nat (off + length l)) by lia.
  by rewrite R3.
Qed.

Lemma mapped_sub a n b k m : mapped a n m -> a <= b -> b + k <= a + n -> mapped b k m.
Proof. intros Hm H1 H2 x Hx. apply Hm. lia. Qed.

(** Memory that a client got from an allocator can be accessed: it keeps the
    bytes that are there, and holds zeros where there were none. *)
Definition provide (a n : Z) (m : mem) : mem := m ∪ write_bytes a (replicate (Z.to_nat n) 0) ∅.

Lemma provide_mapped a n m : mapped a n (provide a n m).
Proof.
  intros x Hx. unfold provide. apply lookup_union_is_Some. right. rewrite write_bytes_lookup.
  rewrite length_replicate. rewrite decide_True by lia. rewrite lookup_replicate_2 by lia. by eexists.
Qed.

Lemma provide_keeps a n m x v : m !! x = Some v -> provide a n m !! x = Some v.
Proof. intros E. by apply lookup_union_Some_l. Qed.

Lemma provide_mapped_other a n b k m : mapped b k m -> mapped b k (provide a n m).
Proof. intros Hm x Hx. destruct (Hm x Hx) as [v E]. exists v. by apply provide_keeps. Qed.

Lemma provide_read a n k b m l : read_bytes k b m = Some l -> read_bytes k b (provide a n m) = Some l.
Proof.
  revert b l. induction k as [|k IH]; intros b l; cbn; [done|].
  intros (v & Ev & (l' & E & [= <-])%bind_Some)%bind_Some.
  rewrite (provide_keeps _ _ _ _ _ Ev). cbn. by rewrite (IH _ _ E).
Qed.

(** [l] put into the bytes [d] at [off]. *)
Definition put_at (off : Z) (l d : list Z) : list Z := take (Z.to_nat off) d ++ l ++ drop (Z.to_nat off + length l) d.

Lemma put_at_app_l off l b d : Z.of_nat (length l) <= Z.of_nat (length b) - off -> 0 <= off ->
  put_at off l (b ++ d) = put_at off l b ++ d.
Proof. intros Hl Ho. unfold put_at. rewrite take_app_le, drop_app_le by lia. by rewrite <-!app_assoc. Qed.

Lemma put_at_cross off l1 l2 b d : off + Z.of_nat (length l1) = Z.of_nat (length b) -> 0 <= off ->
  put_at off (l1 ++ l2) (b ++ d) = put_at off l1 b ++ put_at 0 l2 d.
Proof.
  intros Hl Ho. unfold put_at. change (Z.to_nat 0) with 0%nat. rewrite take_app_le by lia.
  rewrite (drop_ge b), take_0, app_nil_r, length_app by lia. rewrite drop_app_ge by lia.
  rewrite <-!app_assoc. cbn [app Nat.add]. do 4 f_equal. lia.
Qed.

Lemma put_at_app_r off l (b d : list Z) : Z.of_nat (length b) <= off ->
  put_at off l (b ++ d) = b ++ put_at (off - Z.of_nat (length b)) l d.
Proof.
  intros Hl. unfold put_at. rewrite take_app_ge, drop_app_ge by lia. rewrite <-app_assoc. do 3 f_equal; [f_equal; lia|].
  do 2 f_equal. lia.
Qed.

Lemma take_put_at off l (d : list Z) : off + Z.of_nat (length l) <= Z.of_nat (length d) -> 0 <= off ->
  take (length l) (drop (Z.to_nat off) (put_at off l d)) = l.
Proof.
  intros Hl Ho. unfold put_at. rewrite drop_app_ge by (rewrite length_take; lia).
  rewrite length_take, Nat.min_l, Nat.sub_diag, drop_0 by lia. by rewrite take_app_le, take_ge by lia.
Qed.

Lemma length_put_at off l (d : list Z) : off + Z.of_nat (length l) <= Z.of_nat (length d) -> 0 <= off ->
  length (put_at off l d) = length d.
Proof. intros Hl Ho. unfold put_at. rewrite !length_app, length_take, length_drop. lia. Qed.

Lemma put_at_lookup off l (b : list Z) n :
  0 <= off -> off + Z.of_nat (length l) <= Z.of_nat (length b) ->
  put_at off l b !! n = if decide (off <= Z.of_nat n < off + Z.of_nat (length l)) then l !! (n - Z.to_nat off)%nat else b !! n.
Proof.
  intros Ho Hl. unfold put_at. case_decide.
  - rewrite lookup_app_r by (rewrite length_take; lia). rewrite length_take, Nat.min_l by lia.
    by rewrite lookup_app_l by lia.
  - destruct (decide (Z.of_nat n < off)).
    + rewrite lookup_app_l by (rewrite length_take; lia). by rewrite lookup_take_lt by lia.
    + rewrite lookup_app_r by (rewrite length_take; lia). rewrite length_take, Nat.min_l by lia.
      rewrite lookup_app_r by lia. rewrite lookup_drop. f_equal. lia.
Qed.

(** What a write into a written range leaves there. *)
Lemma write_bytes_put a b l m off :
  0 <= off -> off + Z.of_nat (length l) <= Z.of_nat (length b) ->
  write_bytes (a + off) l (write_bytes a b m) = write_bytes a (put_at off l b) m.
Proof.
  intros Ho Hl. apply map_eq. intros x. rewrite !write_bytes_lookup, length_put_at by lia.
  destruct (decide (a + off <= x < a + off + Z.of_nat (length l))).
  - rewrite decide_True, put_at_lookup, decide_True by lia. f_equal. lia.
  - destruct (decide (a <= x < a + Z.of_nat (length b))); [|done]. by rewrite put_at_lookup, decide_False by lia.
Qed.

(** ** Reading a larger memory *)

Lemma load8_mono a v m m' : m ⊆ m' -> load8 a m = Ret v -> load8 a m' = Ret v.
Proof. unfold load8. intros Hs E. apply of_opt_Ret in E. by rewrite (lookup_weaken _ _ _ _ E Hs). Qed.

Lemma load32_mono a v m m' : m ⊆ m' -> load32 a m = Ret v -> load32 a m' = Ret v.
Proof.
  unfold load32. intros Hs E. apply res_bind_Ret in E as (b0 & E0 & (b1 & E1 & (b2 & E2 & (b3 & E3 & E)%res_bind_Ret)%res_bind_Ret)%res_bind_Ret).
  do 4 (erewrite load8_mono by eassumption; cbn [mbind res_bind]). exact E.
Qed.

Lemma read_bytes_mono n a m m' l : m ⊆ m' -> read_bytes n a m = Some l -> read_bytes n a m' = Some l.
Proof.
  intros Hs. revert a l. induction n as [|n IH]; intros a l; cbn; [done|].
  intros (v & Ev & (l' & E & [= <-])%bind_Some)%bind_Some. rewrite (lookup_weaken _ _ _ _ Ev Hs). cbn. by rewrite (IH _ _ E).
Qed.

Lemma cstr_mono a s m m' : m ⊆ m' -> cstr m a s -> cstr m' a s.
Proof. intros Hs [E Hn]. split; [by eapply read_bytes_mono|done]. Qed.

Lemma mapped_mono a n m m' : m ⊆ m' -> mapped a n m -> mapped a n m'.
Proof. intros Hs Hm x Hx. destruct (Hm x Hx) as [v E]. exists v. by eapply lookup_weaken. Qed.

Lemma write_bytes_above a l m : (forall x, a <= x < a + Z.of_nat (length l) -> m !! x = None) -> m ⊆ write_bytes a l m.
Proof.
  intros Hn. apply map_subseteq_spec. intros x v E. rewrite write_bytes_lookup.
  case_decide as Hx; [|done]. by rewrite Hn in E.
Qed.
