(* ===== verification/Printf.v ===== *)
(** [lib/sw_debug.c]: formatted output, for builds with [_OTZ_NO_LIBC_BUILD].

    The formatter reads the format, the arguments and the strings from the byte
    memory of [MemFn]; an argument list is the address of the next argument, as
    in [va_arg] of [sw_debug.h].  What is handed to the serial line is a list of
    bytes. *)
From Stdlib Require Import String Ascii.
From stdpp Require Import prelude gmap.
From S2P Require Import Prelude MemFn StrFn Words.
#[local] Open Scope Z_scope.

(** The format, the end of the text, the next argument, memory, and the bytes
    on the serial line. *)
Record pst : Type := Pst { p_fmt : Z; p_str : Z; p_ap : Z; p_mem : mem; p_con : list Z }.

Definition set_fmt (a : Z) (s : pst) : pst := Pst a (p_str s) (p_ap s) (p_mem s) (p_con s).
Definition set_str (a : Z) (m : mem) (s : pst) : pst := Pst (p_fmt s) a (p_ap s) m (p_con s).

(** Literals, and [serial_puts] of one of them. *)
Definition bytes_of (t : string) : list Z := (fun c => Z.of_nat (nat_of_ascii c)) <$> list_ascii_of_string t.
Definition serial_puts (l : list Z) (s : pst) : pst := Pst (p_fmt s) (p_str s) (p_ap s) (p_mem s) (p_con s ++ l).

(** A byte is stored at [str], which advances. *)
Definition emit (v : Z) (s : pst) : res pst :=
  m ← store8 (p_str s) v (p_mem s); mret (set_str (p_str s + 1) m s).

(** [va_arg] of an [int], a pointer or a [char]: all take four bytes. *)
Definition va_next (s : pst) : pst := Pst (p_fmt s) (p_str s) (p_ap s + 4) (p_mem s) (p_con s).
Definition va_arg (s : pst) : res (Z * pst) := v ← load32 (p_ap s) (p_mem s); mret (v, va_next s).
Definition va_arg_char (s : pst) : res (Z * pst) := v ← load8 (p_ap s) (p_mem s); mret (v, va_next s).

(** The loops over the digits; [k] are left. *)
Fixpoint hex_loop (k : nat) (i number zero_padding : Z) (keep_zeros : bool) (s : pst) : res pst :=
  match k with
  | O => mret s
  | S k =>
      let byte := Z.land (Z.shiftr number (32 - (i + 1) * 4)) 0xF in
      let keep_zeros := keep_zeros || negb (byte =? 0) in
      s ← (if keep_zeros || (i >=? u32 (7 - (zero_padding - 1))) then
             emit (if byte <=? 9 then byte + 0x30 else byte + 0x57) s
           else mret s);
      hex_loop k (i + 1) number zero_padding keep_zeros s
  end.

(** [while(number_u32 >= divisor_value_u32)]: the number is less than ten times
    the divisor. *)
Fixpoint sub_loop (fuel : nat) (number divisor_value q : Z) : res (Z * Z) :=
  if number >=? divisor_value then
    match fuel with
    | O => Fault
    | S fuel => sub_loop fuel (number - divisor_value) divisor_value (q + 1)
    end
  else mret (number, q).

(** [while(j < (max_num_zeros-1))]. *)
Fixpoint power_loop (n : nat) (d : Z) : Z := match n with O => d | S n => power_loop n (u32 (d * 10)) end.

Fixpoint dec_loop (k : nat) (i number divisor_value zero_padding : Z) (keep_zeros : bool) (s : pst) : res (Z * pst) :=
  match k with
  | O => mret (number, s)
  | S k =>
      '(number, q) ← sub_loop 10 number divisor_value 0;
      let keep_zeros := keep_zeros || negb (q =? 0) in
      s ← (if keep_zeros || (i >? u32 (8 - (zero_padding - 1))) then emit (q + 0x30) s else mret s);
      dec_loop k (i + 1) number (power_loop (Z.to_nat (8 - i)) 1) zero_padding keep_zeros s
  end.

Fixpoint oct_loop (k : nat) (i number zero_padding : Z) (keep_zeros : bool) (s : pst) : res pst :=
  match k with
  | O => mret s
  | S k =>
      let byte := Z.land (Z.shiftr number (32 - (i + 1) * 3)) 0x7 in
      let keep_zeros := keep_zeros || negb (byte =? 0) in
      s ← (if keep_zeros || (i >=? u32 (9 - (zero_padding - 1))) then emit (byte + 0x30) s else mret s);
      oct_loop k (i + 1) number zero_padding keep_zeros s
  end.

(** The bytes of a string are copied up to and with the terminator, which the
    text ends at. *)
Fixpoint str_loop (fuel : nat) (arg_string : Z) (s : pst) : res pst :=
  match fuel with
  | O => Fault
  | S fuel =>
      v ← load8 arg_string (p_mem s);
      m ← store8 (p_str s) v (p_mem s);
      if v =? 0 then mret (set_str (p_str s) m s) else str_loop fuel (arg_string + 1) (set_str (p_str s + 1) m s)
  end.

Definition put_hex (zero_padding : Z) (s : pst) : res pst :=
  '(number, s) ← va_arg s; hex_loop 8 0 number zero_padding false s.

(** The opposite of the least [int] is computed with wrap-around. *)
Definition put_dec (is_unsigned : bool) (zero_padding : Z) (s : pst) : res pst :=
  '(v, s) ← va_arg s;
  '(number, s) ← (if is_unsigned then mret (v, s) else
                  if s32 v <? 0 then s ← emit 0x2d s; mret (u32 (s32 (- s32 v)), s) else mret (u32 (s32 v), s));
  '(number, s) ← dec_loop 9 0 number 1000000000 zero_padding false s;
  emit (number + 0x30) s.

Definition put_oct (zero_padding : Z) (s : pst) : res pst :=
  '(number, s) ← va_arg s;
  let byte := Z.land (Z.shiftr number 30) 0x3 in
  let keep_zeros := negb (byte =? 0) in
  s ← (if keep_zeros || (zero_padding >? 10) then emit (byte + 0x30) s else mret s);
  oct_loop 10 0 (u32 (Z.shiftl number 2)) zero_padding keep_zeros s.

(** The second [switch], on the character at [fmt]. *)
Definition convert (c zero_padding : Z) (s : pst) : res pst :=
  if c =? 120 then put_hex zero_padding s
  else if c =? 117 then put_dec true zero_padding s
  else if (c =? 105) || (c =? 100) then put_dec false zero_padding s
  else if c =? 111 then put_oct zero_padding s
  else if c =? 115 then '(a, s) ← va_arg s; str_loop (str_fuel (p_mem s)) a s
  else if c =? 99 then '(v, s) ← va_arg_char s; emit v s
  else if c =? 37 then emit c s
  else if c =? 9 then s ← emit 37 s; emit c s
  else if c =? 10 then s ← emit 37 s; s ← emit 13 s; emit 10 s
  else mret (serial_puts (bytes_of "option after %: " ++ [c; 13; 10] ++ bytes_of "Unknown option after %") s).

(** From the [%] to the character of the conversion. *)
Definition percent (s : pst) : res pst :=
  let s := set_fmt (p_fmt s + 1) s in
  c ← load8 (p_fmt s) (p_mem s);
  '(zero_padding, s) ←
    (if c =? 48 then
       p ← load8 (p_fmt s + 1) (p_mem s);
       let s := set_fmt (p_fmt s + 2) s in
       mret (u32 (p - 0x30), if (p <? 0x31) || (p >? 0x38) then serial_puts (bytes_of "invalid padding bits.") s else s)
     else mret (1, s));
  c ← load8 (p_fmt s) (p_mem s);
  let s := if c =? 108 then set_fmt (p_fmt s + 1) s else s in
  c ← load8 (p_fmt s) (p_mem s);
  convert c zero_padding s.

(** The loop over the format: every round reads a further address. *)
Fixpoint format_loop (fuel : nat) (s : pst) : res pst :=
  c ← load8 (p_fmt s) (p_mem s);
  if c =? 0 then mret s else
  match fuel with
  | O => Fault
  | S fuel =>
      s ← (if negb (c =? 37) && negb (c =? 10) && negb (c =? 9) then emit c s else
           s ← (if c =? 37 then percent s else mret s);
           c ← load8 (p_fmt s) (p_mem s);
           s ← (if c =? 10 then s ← emit 13 s; emit 10 s else mret s);
           (if c =? 9 then emit c s else mret s));
      format_loop fuel (set_fmt (p_fmt s + 1) s)
  end.

(** The result is the length of what is behind the text. *)
Definition sw_vsprintf (buf fmt args : Z) (con : list Z) (m : mem) : res (Z * pst) :=
  s ← format_loop (str_fuel m) (Pst fmt buf args m con);
  m ← store8 (p_str s) 0 (p_mem s);
  n ← sw_strlen (p_str s) m;
  mret (n, set_str (p_str s) m s).

(** [sw_sprintf] of [lib/sw_string_functions.c]; [va_start] gives the address
    behind the format. *)
Definition sw_sprintf (print_buffer fmt args : Z) (con : list Z) (m : mem) : res (Z * pst) :=
  sw_vsprintf print_buffer fmt args con m.

(** The bytes of the string at [a], sent to the serial line. *)
Fixpoint puts_from (fuel : nat) (a : Z) (s : pst) : res pst :=
  match fuel with
  | O => Fault
  | S fuel => v ← load8 a (p_mem s); if v =? 0 then mret s else puts_from fuel (a + 1) (serial_puts [v] s)
  end.

(** [print_buffer] is an array of 256 bytes on the stack. *)
Definition sw_printk (print_buffer fmt args : Z) (con : list Z) (m : mem) : res (Z * pst) :=
  '(i, s) ← sw_vsprintf print_buffer fmt args con m;
  s ← puts_from (str_fuel (p_mem s)) print_buffer s;
  mret (i, s).

(** [sw_printf] hands the text to the device of the name through the system
    call [sw_write]. *)
Definition sw_printf (sw_write : Z -> pst -> res pst) (print_buffer fmt args : Z) (con : list Z) (m : mem) : res (Z * pst) :=
  '(i, s) ← sw_vsprintf print_buffer fmt args con m;
  s ← sw_write print_buffer s;
  mret (i, s).

Definition printable_char (c : Z) : Z :=
  if (c =? 0xA) || (c =? 0xD) then 1 else if (0x20 <=? c) && (c <=? 0x7E) then 1 else 0.
