(* ===== verification/PrintfSpec.v ===== *)
(** Formatted output: the digits of a number, and what a format with its
    arguments prints. *)
From stdpp Require Import prelude gmap.
From S2P Require Import Prelude MemFn StrFn Words Printf.
#[local] Open Scope Z_scope.

(** ** Digits *)

(** The last [k] digits of [n], the most significant one first. *)
Fixpoint digs (b : Z) (k : nat) (n : Z) : list Z :=
  match k with O => [] | S k => (n / b ^ Z.of_nat k) mod b :: digs b k n end.

(** Without the zeros at the front, but not less than [zp] digits. *)
Fixpoint strip (zp : Z) (ds : list Z) : list Z :=
  match ds with
  | 0 :: ds' => if zp <=? Z.of_nat (length ds') then strip zp ds' else ds
  | _ => ds
  end.

Definition digit_char (d : Z) : Z := if d <=? 9 then d + 0x30 else d + 0x57.
Definition numeral (b : Z) (k : nat) (zp n : Z) : list Z := digit_char <$> strip zp (digs b k n).

(** The number that digits stand for. *)
Definition value (b : Z) (ds : list Z) : Z := foldl (fun a d => a * b + d) 0 ds.

Lemma digs_length b k n : length (digs b k n) = k.
Proof. induction k as [|k IH]; cbn; [done|by rewrite IH]. Qed.

Lemma digs_mod b k n : 1 < b -> digs b k (n mod b ^ Z.of_nat k) = digs b k n.
Proof.
  intros Hb. assert (H : forall j, (j <= k)%nat -> digs b j (n mod b ^ Z.of_nat k) = digs b j n); [|by apply H].
  induction j as [|j IH]; intros Hj; cbn [digs]; [done|]. rewrite IH by lia. f_equal.
  assert (0 < b ^ Z.of_nat j) by (apply Z.pow_pos_nonneg; lia). assert (0 < b ^ Z.of_nat k) by (apply Z.pow_pos_nonneg; lia).
  pose proof (Z.div_mod n (b ^ Z.of_nat k) ltac:(lia)) as E.
  replace (b ^ Z.of_nat k) with (b ^ Z.of_nat j * (b * b ^ (Z.of_nat k - Z.of_nat j - 1))) in E at 1.
  - set (r := n mod b ^ Z.of_nat k) in *. set (q := n / b ^ Z.of_nat k) in *. set (c := b ^ (Z.of_nat k - Z.of_nat j - 1)) in *.
    replace n with (r + (q * c * b) * b ^ Z.of_nat j) by lia. rewrite Z.div_add by lia. by rewrite Z.mod_add by lia.
  - rewrite <-Z.pow_succ_r by lia. rewrite <-Z.pow_add_r by lia. f_equal. lia.
Qed.

Lemma foldl_value b ds a : foldl (fun a d => a * b + d) a ds = a * b ^ Z.of_nat (length ds) + value b ds.
Proof.
  revert a. induction ds as [|d ds IH]; intros a; cbn [foldl length].
  - unfold value. cbn. lia.
  - unfold value. cbn [foldl]. rewrite (IH (a * b + d)), (IH (0 * b + d)), Nat2Z.inj_succ, Z.pow_succ_r by lia. unfold value. lia.
Qed.

Lemma value_cons b d ds : value b (d :: ds) = d * b ^ Z.of_nat (length ds) + value b ds.
Proof. unfold value. cbn [foldl]. rewrite foldl_value. unfold value. lia. Qed.

Lemma value_digs b k n : 1 < b -> value b (digs b k n) = n mod b ^ Z.of_nat k.
Proof.
  intros Hb. induction k as [|k IH]; [cbn; by rewrite Z.mod_1_r|].
  cbn [digs]. rewrite value_cons, digs_length, IH.
  assert (0 < b ^ Z.of_nat k) by (apply Z.pow_pos_nonneg; lia). rewrite Nat2Z.inj_succ, Z.pow_succ_r, (Z.mul_comm b) by lia.
  rewrite Z.rem_mul_r by lia. lia.
Qed.

Lemma value_strip b zp ds : value b (strip zp ds) = value b ds.
Proof.
  induction ds as [|d ds IH]; [done|]. cbn [strip]. destruct d; try done. destruct (zp <=? _); [|done].
  by rewrite IH, value_cons.
Qed.

Lemma strip_length zp ds : zp <= Z.of_nat (length ds) -> zp <= Z.of_nat (length (strip zp ds)) <= Z.of_nat (length ds).
Proof.
  induction ds as [|d ds IH]; [done|]. cbn [strip]. destruct d; try (cbn; lia).
  destruct (Z.leb_spec zp (Z.of_nat (length ds))) as [Hz|]; [|cbn; lia]. apply IH in Hz. cbn. lia.
Qed.

Lemma strip_head zp ds : zp < Z.of_nat (length (strip zp ds)) -> head (strip zp ds) <> Some 0.
Proof.
  induction ds as [|d ds IH]; [done|]. cbn [strip]. destruct d; try done.
  destruct (Z.leb_spec zp (Z.of_nat (length ds))); [done|]. cbn [length]. lia.
Qed.

(** What [%x], [%u] and [%o] print is the number: its digits, as many as are
    asked for, and more only if the first one is not 0. *)
Lemma numeral_correct b k zp n : 1 < b -> 0 <= n < b ^ Z.of_nat k -> zp <= Z.of_nat k ->
  exists ds, numeral b k zp n = digit_char <$> ds /\ value b ds = n /\ zp <= Z.of_nat (length ds) /\
    (zp < Z.of_nat (length ds) -> head ds <> Some 0).
Proof.
  intros Hb Hn Hz. exists (strip zp (digs b k n)). split; [done|]. rewrite value_strip, value_digs, Z.mod_small by done.
  split; [done|]. split; [apply strip_length; by rewrite digs_length|apply strip_head].
Qed.

(** What the loops show of the digits that are left: all of them once one was
    not 0. *)
Definition shown (zp : Z) (keep : bool) (ds : list Z) : list Z := if keep then ds else strip zp ds.

Lemma strip_short zp ds : Z.of_nat (length ds) <= zp -> strip zp ds = ds.
Proof.
  destruct ds as [|[]]; try done. cbn [strip length]. intros. by destruct (Z.leb_spec zp (Z.of_nat (length ds))); [lia|].
Qed.

Lemma shown_cons zp keep d ds :
  shown zp keep (d :: ds) =
    (if keep || negb (d =? 0) || (Z.of_nat (length ds) <? zp) then [d] else []) ++ shown zp (keep || negb (d =? 0)) ds.
Proof.
  unfold shown. destruct keep; [done|]. cbn [orb]. destruct d; [|done..]. cbn [strip Z.eqb negb orb].
  rewrite Z.ltb_antisym. destruct (Z.leb_spec zp (Z.of_nat (length ds))); [done|]. cbn [negb app]. by rewrite strip_short by lia.
Qed.

Lemma digit_byte d : 0 <= d < 16 -> is_byte (digit_char d).
Proof. intros. unfold is_byte, digit_char. destruct (d <=? 9); lia. Qed.

(** ** Formats *)

(** [%], an optional [0] with a number of digits, an optional [l]. *)
Record fspec : Type := FSpec { fs_pad : option Z; fs_long : bool }.
Definition pad (f : fspec) : Z := default 1 (fs_pad f).
Definition spec_bytes (f : fspec) (c : Z) : list Z :=
  37 :: match fs_pad f with Some p => [48; 48 + p] | None => [] end ++ (if fs_long f then [108] else []) ++ [c].

(** The parts of a format with the arguments they are given. *)
Inductive item : Type :=
  | Lit (c : Z) | Newline | Tab | Percent
  | Hex (f : fspec) (v : Z) | Unsigned (f : fspec) (v : Z) | Decimal (f : fspec) (v : Z) | Octal (f : fspec) (v : Z)
  | Str (f : fspec) (a : Z) (l : list Z) | Chr (f : fspec) (c : Z).

(** How a part is written in the format. *)
Definition show (i : item) : list Z :=
  match i with
  | Lit c => [c] | Newline => [10] | Tab => [9] | Percent => [37; 37]
  | Hex f _ => spec_bytes f 120 | Unsigned f _ => spec_bytes f 117 | Decimal f _ => spec_bytes f 100
  | Octal f _ => spec_bytes f 111 | Str f _ _ => spec_bytes f 115 | Chr f _ => spec_bytes f 99
  end.

(** A sign, and the absolute value, also of the least [int]. *)
Definition signed (zp v : Z) : list Z := (if v <? 0 then [0x2d] else []) ++ numeral 10 10 zp (Z.abs v).

(** What it prints. *)
Definition render (i : item) : list Z :=
  match i with
  | Lit c => [c] | Newline => [13; 10] | Tab => [9] | Percent => [37]
  | Hex f v => numeral 16 8 (pad f) v | Unsigned f v => numeral 10 10 (pad f) v
  | Decimal f v => signed (pad f) v | Octal f v => numeral 8 11 (pad f) v
  | Str _ _ l => l | Chr _ c => [c]
  end.

Definition spec_ok (f : fspec) : Prop := match fs_pad f with Some p => 1 <= p <= 8 | None => True end.

(** The argument at [ap] is that of the part; the address of the next one. *)
Definition item_ok (m : mem) (ap : Z) (i : item) : Prop :=
  match i with
  | Lit c => is_byte c /\ c <> 0 /\ c <> 37 /\ c <> 10 /\ c <> 9
  | Hex f v | Unsigned f v | Octal f v => spec_ok f /\ in_u32 v /\ load32 ap m = Ret v
  | Decimal f v => spec_ok f /\ in_s32 v /\ load32 ap m = Ret (u32 v)
  | Str f a l => spec_ok f /\ load32 ap m = Ret a /\ cstr m a l
  | Chr f c => spec_ok f /\ is_byte c /\ load8 ap m = Ret c
  | _ => True
  end.
Definition next_arg (ap : Z) (i : item) : Z :=
  match i with Lit _ | Newline | Tab | Percent => ap | _ => ap + 4 end.
Fixpoint items_ok (m : mem) (ap : Z) (l : list item) : Prop :=
  match l with [] => True | i :: l => item_ok m ap i /\ items_ok m (next_arg ap i) l end.

(** Two comparisons that say the same. *)
Ltac bool_lia := apply Bool.eq_iff_eq_true; rewrite ?Z.geb_le, ?Z.gtb_lt, ?Z.ltb_lt, ?Z.leb_le; lia.

(** ** The text so far

    The buffer is at [buf], outside of [rest]: [out] is printed, and the bytes
    [tl] of it are left. *)
Section text.
Context (rest : mem) (buf : Z).

Definition text (ft ap : Z) (con out tl : list Z) : pst :=
  Pst ft (buf + Z.of_nat (length out)) ap (write_bytes buf (out ++ tl) rest) con.

(** [r] printed [out], and left [n] bytes of the buffer. *)
Definition printed (r : res pst) (ft ap : Z) (con out : list Z) (n : nat) : Prop :=
  exists tl, r = Ret (text ft ap con out tl) /\ length tl = n.

Lemma store_text v x ft ap con out tl : is_byte v ->
  store8 (p_str (text ft ap con out (x :: tl))) v (p_mem (text ft ap con out (x :: tl))) =
    Ret (write_bytes buf (out ++ v :: tl) rest).
Proof.
  intros Hv. cbn [p_str p_mem text].
  assert (Hm : forall y, write_bytes buf (out ++ y :: tl) rest = <[buf + Z.of_nat (length out) := y]> (write_bytes buf (out ++ x :: tl) rest)).
  { intros y. apply map_eq. intros z. rewrite !write_bytes_lookup, !length_app. cbn [length].
    destruct (decide (z = buf + Z.of_nat (length out))) as [->|Hz].
    - rewrite lookup_insert_eq, decide_True by lia.
      replace (Z.to_nat (buf + Z.of_nat (length out) - buf)) with (length out + 0)%nat by lia. by rewrite list_lookup_middle by lia.
    - rewrite lookup_insert_ne by done. rewrite write_bytes_lookup, length_app. cbn [length]. case_decide as Hd; [|done].
      destruct (decide (z < buf + Z.of_nat (length out))).
      + by rewrite !lookup_app_l by lia.
      + rewrite !lookup_app_r by lia. by replace (Z.to_nat (z - buf) - length out)%nat with (S (Z.to_nat (z - buf) - length out - 1)) by lia. }
  rewrite store8_ok; [by rewrite <-Hm| |done].
  rewrite write_bytes_lookup, length_app, decide_True by (cbn [length]; lia). apply lookup_lt_is_Some. rewrite length_app. cbn [length]. lia.
Qed.

Lemma emit_ok v ft ap con out tl : is_byte v -> (0 < length tl)%nat ->
  printed (emit v (text ft ap con out tl)) ft ap con (out ++ [v]) (length tl - 1).
Proof.
  intros Hv Hl. destruct tl as [|x tl]; [cbn in Hl; lia|]. exists tl. split; [|cbn; lia].
  unfold emit. rewrite store_text by done. cbn [mbind res_bind mret res_ret]. unfold set_str, text.
  cbn [p_fmt p_str p_ap p_con]. rewrite length_app, <-app_assoc. cbn [length app]. do 2 f_equal. lia.
Qed.

(** A sequence. *)
Lemma printed_bind r k ft ap con out n ft' ap' con' out' n' :
  printed r ft ap con out n ->
  (forall tl, length tl = n -> printed (k (text ft ap con out tl)) ft' ap' con' out' n') ->
  printed (r ≫= k) ft' ap' con' out' n'.
Proof. intros (tl & -> & Hl) Hk. by apply Hk. Qed.

Lemma printed_ret ft ap con out tl n : length tl = n -> printed (mret (text ft ap con out tl)) ft ap con out n.
Proof. intros Hl. by exists tl. Qed.

(** One digit, where it is shown. *)
Lemma show_digit (b : bool) d ft ap con out tl n :
  0 <= d < 16 -> (length (if b then [d] else []) + n)%nat = length tl ->
  printed (if b then emit (digit_char d) (text ft ap con out tl) else mret (text ft ap con out tl)) ft ap con
    (out ++ (digit_char <$> if b then [d] else [])) n.
Proof.
  intros Hd Hl. destruct b; cbn in Hl |- *.
  - replace n with (length tl - 1)%nat by lia. apply emit_ok; [by apply digit_byte|lia].
  - rewrite app_nil_r. by apply printed_ret.
Qed.

Lemma hex_loop_ok k : forall number zp keep ft ap con out tl n, (k <= 8)%nat -> 1 <= zp <= 8 ->
  (length (shown zp keep (digs 16 k number)) + n)%nat = length tl ->
  printed (hex_loop k (8 - Z.of_nat k) number zp keep (text ft ap con out tl)) ft ap con
    (out ++ (digit_char <$> shown zp keep (digs 16 k number))) n.
Proof.
  induction k as [|k IH]; intros number zp keep ft ap con out tl n Hk Hz Hl; cbn [hex_loop digs] in *.
  { assert (shown zp keep [] = []) as E by (by destruct keep). rewrite E in *. cbn in Hl |- *. rewrite app_nil_r. by apply printed_ret. }
  set (d := (number / 16 ^ Z.of_nat k) mod 16) in *.
  assert (Hd : 0 <= d < 16) by (apply Z.mod_pos_bound; lia).
  replace (Z.land (Z.shiftr number (32 - (8 - Z.of_nat (S k) + 1) * 4)) 0xF) with d.
  2: { change 0xF with (Z.ones 4). rewrite Z.land_ones, Z.shiftr_div_pow2 by lia. unfold d.
       change (2 ^ 4) with 16. do 2 f_equal. change 16 with (2 ^ 4). rewrite <-Z.pow_mul_r by lia. f_equal. lia. }
  rewrite shown_cons, digs_length in Hl |- *. cbv zeta. rewrite (u32_id (7 - (zp - 1))) by (unfold in_u32; lia).
  replace (8 - Z.of_nat (S k) >=? 7 - (zp - 1)) with (Z.of_nat k <? zp) by bool_lia.
  fold (digit_char d). rewrite length_app in Hl. rewrite fmap_app, app_assoc.
  eapply printed_bind; [apply show_digit; [done|]|].
  - rewrite <-Hl. rewrite <-Nat.add_assoc. reflexivity.
  - intros tl' Hl'. replace (8 - Z.of_nat (S k) + 1) with (8 - Z.of_nat k) by lia. apply IH; [lia|done|by rewrite Hl'].
Qed.

Lemma dec_char d : 0 <= d < 10 -> d + 0x30 = digit_char d.
Proof. intros. unfold digit_char. by destruct (Z.leb_spec d 9); [|lia]. Qed.

Lemma sub_loop_ok fuel number div q : 0 < div -> 0 <= number < (Z.of_nat fuel) * div ->
  sub_loop fuel number div q = Ret (number mod div, q + number / div).
Proof.
  intros Hdiv. revert number q. induction fuel as [|fuel IH]; intros number q Hn; [lia|]. cbn [sub_loop].
  rewrite Z.geb_leb. destruct (Z.leb_spec div number).
  - rewrite IH by lia. do 2 f_equal; [rewrite <-(Z_mod_plus_full number (-1)); f_equal; lia|].
    replace number with (number - div + 1 * div) at 2 by lia. rewrite Z.div_add by lia. lia.
  - by rewrite Z.mod_small, Z.div_small, Z.add_0_r by lia.
Qed.

Lemma power_loop_ok n : (n <= 9)%nat -> power_loop n 1 = 10 ^ Z.of_nat n.
Proof. intros Hn. do 10 (destruct n as [|n]; [done|]). lia. Qed.

Lemma dec_loop_ok k : forall number zp keep ft ap con out tl n, (k <= 9)%nat -> 1 <= zp <= 8 ->
  0 <= number < 10 ^ (Z.of_nat k + 1) ->
  (length (shown zp keep (digs 10 (S k) number)) + n)%nat = length tl ->
  printed ('(number, s) ← dec_loop k (9 - Z.of_nat k) number (10 ^ Z.of_nat k) zp keep (text ft ap con out tl); emit (number + 0x30) s)
    ft ap con (out ++ (digit_char <$> shown zp keep (digs 10 (S k) number))) n.
Proof.
  induction k as [|k IH]; intros number zp keep ft ap con out tl n Hk Hz Hn Hl.
  - cbn [dec_loop mbind res_bind mret res_ret]. change (10 ^ (Z.of_nat 0 + 1)) with 10 in Hn.
    assert (E : shown zp keep (digs 10 1 number) = [number]).
    { cbn [digs]. change (10 ^ Z.of_nat 0) with 1. rewrite Z.div_1_r, Z.mod_small by lia. rewrite shown_cons. cbn [length].
      destruct (Z.ltb_spec (Z.of_nat 0) zp); [|lia]. rewrite orb_true_r. by destruct (_ || _). }
    rewrite E in *. cbn [fmap list_fmap length] in Hl |- *. rewrite dec_char by done.
    replace n with (length tl - 1)%nat by lia. apply emit_ok; [apply digit_byte; lia|lia].
  - set (p := 10 ^ Z.of_nat (S k)) in *. assert (Hp : 0 < p) by (apply Z.pow_pos_nonneg; lia).
    assert (Hd : 0 <= number / p < 10).
    { split; [apply Z.div_pos; lia|]. apply Z.div_lt_upper_bound; [lia|]. rewrite Z.pow_add_r, Z.pow_1_r in Hn by lia. fold p in Hn. lia. }
    cbn [dec_loop]. rewrite sub_loop_ok; [|done|rewrite Z.pow_add_r, Z.pow_1_r in Hn by lia; fold p in Hn; lia].
    rewrite Z.add_0_l. cbn [mbind res_bind]. cbv zeta.
    rewrite (u32_id (8 - (zp - 1))) by (unfold in_u32; lia).
    replace (9 - Z.of_nat (S k) >? 8 - (zp - 1)) with (Z.of_nat (S k) <? zp) by bool_lia.
    change (digs 10 (S (S k)) number) with ((number / p) mod 10 :: digs 10 (S k) number) in *.
    rewrite (Z.mod_small (number / p)) in * by done. rewrite shown_cons, digs_length in Hl |- *.
    rewrite dec_char by done. rewrite length_app in Hl. rewrite fmap_app, app_assoc, res_bind_assoc.
    eapply printed_bind; [apply show_digit; [lia|]|].
    + rewrite <-Hl, <-Nat.add_assoc. reflexivity.
    + intros tl' Hl'. replace (9 - Z.of_nat (S k) + 1) with (9 - Z.of_nat k) by lia.
      replace (Z.to_nat (8 - (9 - Z.of_nat (S k)))) with k by lia. rewrite power_loop_ok by lia.
      rewrite <-(digs_mod 10 (S k) number) in Hl' |- * by lia. fold p in Hl' |- *. apply IH; [lia|done| |by rewrite Hl'].
      pose proof (Z.mod_pos_bound number p Hp). unfold p in *. by replace (Z.of_nat k + 1) with (Z.of_nat (S k)) by lia.
Qed.

Lemma oct_loop_ok k : forall number zp keep ft ap con out tl n, (k <= 10)%nat -> 1 <= zp <= 8 ->
  (length (shown zp keep (digs 8 k number)) + n)%nat = length tl ->
  printed (oct_loop k (10 - Z.of_nat k) (u32 (Z.shiftl number 2)) zp keep (text ft ap con out tl)) ft ap con
    (out ++ (digit_char <$> shown zp keep (digs 8 k number))) n.
Proof.
  induction k as [|k IH]; intros number zp keep ft ap con out tl n Hk Hz Hl; cbn [oct_loop digs] in *.
  { assert (shown zp keep [] = []) as E by (by destruct keep). rewrite E in *. cbn in Hl |- *. rewrite app_nil_r. by apply printed_ret. }
  set (d := (number / 8 ^ Z.of_nat k) mod 8) in *.
  assert (Hd : 0 <= d < 8) by (apply Z.mod_pos_bound; lia).
  replace (Z.land (Z.shiftr (u32 (Z.shiftl number 2)) (32 - (10 - Z.of_nat (S k) + 1) * 3)) 0x7) with d.
  2: { unfold d. change 0x7 with (Z.ones 3). change (Z.ones 3) with (Z.ones 3). rewrite Z.land_ones, Z.shiftr_div_pow2, Z.shiftl_mul_pow2 by lia.
       change (2 ^ 3) with 8. unfold u32, uw. replace (8 ^ Z.of_nat k) with (2 ^ (3 * Z.of_nat k)) by (by rewrite Z.pow_mul_r by lia).
       apply Z.bits_inj'. intros i Hi. change 8 with (2 ^ 3). destruct (decide (i < 3)).
       - rewrite !Z.mod_pow2_bits_low by lia. rewrite !Z.div_pow2_bits by lia. rewrite Z.mod_pow2_bits_low by lia.
         rewrite Z.mul_pow2_bits by lia. f_equal. lia.
       - by rewrite !Z.mod_pow2_bits_high by lia. }
  rewrite shown_cons, digs_length in Hl |- *. cbv zeta. rewrite (u32_id (9 - (zp - 1))) by (unfold in_u32; lia).
  replace (10 - Z.of_nat (S k) >=? 9 - (zp - 1)) with (Z.of_nat k <? zp) by bool_lia.
  rewrite dec_char by lia. rewrite length_app in Hl. rewrite fmap_app, app_assoc.
  eapply printed_bind; [apply show_digit; [lia|]|].
  - rewrite <-Hl. rewrite <-Nat.add_assoc. reflexivity.
  - intros tl' Hl'. replace (10 - Z.of_nat (S k) + 1) with (10 - Z.of_nat k) by lia. apply IH; [lia|done|by rewrite Hl'].
Qed.

(** ** Conversions *)
Context (N : nat) (Hbuf : forall x, buf <= x < buf + Z.of_nat N -> rest !! x = None) (Hok : bytes_ok rest).

Lemma in_text out tl : (length out + length tl)%nat = N -> rest ⊆ write_bytes buf (out ++ tl) rest.
Proof. intros Hl. apply write_bytes_above. rewrite length_app, Hl. exact Hbuf. Qed.

Lemma va_arg_ok v ft ap con out tl : load32 ap rest = Ret v -> (length out + length tl)%nat = N ->
  va_arg (text ft ap con out tl) = Ret (v, text ft (ap + 4) con out tl).
Proof.
  intros E Hl. unfold va_arg. cbn [p_ap p_mem text]. rewrite (load32_mono _ _ _ _ (in_text _ _ Hl) E). done.
Qed.

Lemma put_hex_ok v zp ft ap con out tl n : load32 ap rest = Ret v -> 1 <= zp <= 8 ->
  (length out + length tl)%nat = N -> (length (numeral 16 8 zp v) + n)%nat = length tl ->
  printed (put_hex zp (text ft ap con out tl)) ft (ap + 4) con (out ++ numeral 16 8 zp v) n.
Proof.
  intros E Hz Hl Hn. unfold put_hex. rewrite (va_arg_ok v) by done. cbn [mbind res_bind].
  unfold numeral in *. rewrite length_fmap in Hn. apply (hex_loop_ok 8 v zp false); [lia|done|exact Hn].
Qed.

Lemma put_digits v zp ft ap con out tl n : in_u32 v -> 1 <= zp <= 8 ->
  (length (numeral 10 10 zp v) + n)%nat = length tl ->
  printed ('(number, s) ← dec_loop 9 0 v 1000000000 zp false (text ft ap con out tl); emit (number + 0x30) s)
    ft ap con (out ++ numeral 10 10 zp v) n.
Proof.
  intros Hv Hz Hn. unfold numeral in *. rewrite length_fmap in Hn. unfold in_u32 in Hv.
  apply (dec_loop_ok 9 v zp false); [lia|done|lia|exact Hn].
Qed.

Lemma put_unsigned_ok v zp ft ap con out tl n : load32 ap rest = Ret v -> in_u32 v -> 1 <= zp <= 8 ->
  (length out + length tl)%nat = N -> (length (numeral 10 10 zp v) + n)%nat = length tl ->
  printed (put_dec true zp (text ft ap con out tl)) ft (ap + 4) con (out ++ numeral 10 10 zp v) n.
Proof.
  intros E Hv Hz Hl Hn. unfold put_dec. rewrite (va_arg_ok v) by done. cbn [mbind res_bind mret res_ret].
  by apply put_digits.
Qed.

Lemma s32_of_u32 v : in_s32 v -> s32 (u32 v) = v.
Proof.
  unfold in_s32. intros Hv. destruct (decide (0 <= v)).
  - rewrite u32_id by (unfold in_u32; lia). apply s32_id. unfold in_s32. lia.
  - unfold u32, uw. rewrite <-(Z_mod_plus_full v 1), Z.mod_small by lia. unfold s32, sw. change (32 - 1) with 31.
    rewrite <-(Z_mod_plus_full (v + 1 * 2 ^ 32 + 2 ^ 31) (-1)), Z.mod_small by lia. lia.
Qed.

Lemma negated v : in_s32 v -> v < 0 -> u32 (s32 (- v)) = - v.
Proof.
  unfold in_s32. intros Hv Hneg. destruct (decide (v = - 2 ^ 31)) as [->|]; [done|].
  rewrite s32_id by (unfold in_s32; lia). apply u32_id. unfold in_u32. lia.
Qed.

Lemma put_signed_ok v zp ft ap con out tl n : load32 ap rest = Ret (u32 v) -> in_s32 v -> 1 <= zp <= 8 ->
  (length out + length tl)%nat = N -> (length (signed zp v) + n)%nat = length tl ->
  printed (put_dec false zp (text ft ap con out tl)) ft (ap + 4) con (out ++ signed zp v) n.
Proof.
  intros E Hv Hz Hl Hn. unfold put_dec. rewrite (va_arg_ok (u32 v)) by done. cbn [mbind res_bind].
  rewrite s32_of_u32 by done. unfold signed in *. unfold in_s32 in Hv. destruct (Z.ltb_spec v 0).
  - rewrite Z.abs_neq in * by lia. rewrite length_app in Hn. cbn [length] in Hn.
    rewrite negated by (unfold in_s32; lia). rewrite res_bind_assoc, app_assoc.
    eapply printed_bind; [apply emit_ok; [done|lia]|]. intros tl' Hl'. cbn [mbind res_bind mret res_ret].
    apply put_digits; [unfold in_u32; lia|done|lia].
  - rewrite Z.abs_eq in * by lia. cbn [mbind res_bind mret res_ret app]. rewrite u32_id by (unfold in_u32; lia).
    apply put_digits; [unfold in_u32; lia|done|exact Hn].
Qed.

Lemma put_oct_ok v zp ft ap con out tl n : load32 ap rest = Ret v -> in_u32 v -> 1 <= zp <= 8 ->
  (length out + length tl)%nat = N -> (length (numeral 8 11 zp v) + n)%nat = length tl ->
  printed (put_oct zp (text ft ap con out tl)) ft (ap + 4) con (out ++ numeral 8 11 zp v) n.
Proof.
  intros E Hv Hz Hl Hn. unfold put_oct. rewrite (va_arg_ok v) by done. cbn [mbind res_bind]. cbv zeta.
  unfold numeral in *. rewrite length_fmap in Hn. change (digs 8 11 v) with ((v / 8 ^ 10) mod 8 :: digs 8 10 v) in *.
  assert (Hd : 0 <= v / 8 ^ 10 < 4).
  { unfold in_u32 in Hv. split; [apply Z.div_pos; lia|apply Z.div_lt_upper_bound; lia]. }
  rewrite (Z.mod_small (v / 8 ^ 10)) in * by lia.
  replace (Z.land (Z.shiftr v 30) 0x3) with (v / 8 ^ 10).
  2: { change 0x3 with (Z.ones 2). rewrite Z.land_ones, Z.shiftr_div_pow2 by lia. by rewrite Z.mod_small. }
  change (strip zp ?l) with (shown zp false l) in *. rewrite shown_cons, digs_length in Hn |- *. cbn [orb] in *.
  replace (zp >? 10) with (Z.of_nat 10 <? zp) by bool_lia. rewrite length_app in Hn. rewrite dec_char by lia.
  rewrite fmap_app, app_assoc. eapply printed_bind; [apply show_digit; [lia|]|].
  - rewrite <-Hn, <-Nat.add_assoc. reflexivity.
  - intros tl' Hl'. apply (oct_loop_ok 10 v zp); [lia|done|by rewrite Hl'].
Qed.

Lemma str_loop_ok l : forall fuel a ft ap con out tl n, cstr rest a l -> (length l < fuel)%nat ->
  (length out + length tl)%nat = N -> (length l + n)%nat = length tl -> (0 < n)%nat ->
  printed (str_loop fuel a (text ft ap con out tl)) ft ap con (out ++ l) n.
Proof.
  induction l as [|v l IH]; intros fuel a ft ap con out tl n Hc Hf Hl Hn Hpos; (destruct fuel as [|fuel]; [lia|]);
    (destruct tl as [|x tl]; [cbn in Hn; lia|]); cbn [str_loop].
  - apply cstr_nil in Hc. unfold load8 at 1. cbn [p_mem text]. rewrite (lookup_weaken _ _ _ _ Hc (in_text _ _ Hl)).
    cbn [of_opt mbind res_bind]. rewrite (store_text 0 x ft ap con) by done. cbn [mbind res_bind]. rewrite app_nil_r.
    exists (0 :: tl). by split.
  - pose proof (cstr_bytes _ _ _ Hok Hc) as Hb. apply Forall_cons in Hb as [Hv _]. apply cstr_cons in Hc as (E & Hv0 & Hc).
    unfold load8 at 1. cbn [p_mem text]. rewrite (lookup_weaken _ _ _ _ E (in_text _ _ Hl)). cbn [of_opt mbind res_bind].
    rewrite (store_text v x ft ap con) by done. cbn [mbind res_bind]. rewrite (proj2 (Z.eqb_neq v 0) Hv0).
    cbn [length] in *. destruct (IH fuel (a + 1) ft ap con (out ++ [v]) tl n) as (tl' & Er & El'); [done|lia|rewrite length_app; cbn; lia|lia|done|].
    exists tl'. split; [|done]. rewrite <-app_assoc in Er. cbn [app] in Er. rewrite <-Er. unfold set_str, text. cbn [p_fmt p_str p_ap p_con].
    rewrite length_app, <-app_assoc. cbn [length app]. do 2 f_equal. lia.
Qed.

(** A character of the format. *)
Lemma load_fmt ft l i v m : rest ⊆ m -> read_bytes (length l) ft rest = Some l ->
  0 <= i -> l !! Z.to_nat i = Some v -> load8 (ft + i) m = Ret v.
Proof.
  intros Hs E H0 Hi. eapply load8_mono; [done|]. unfold load8.
  pose proof (lookup_lt_Some _ _ _ Hi). replace i with (Z.of_nat (Z.to_nat i)) by lia.
  by rewrite <-(read_bytes_lookup _ _ _ _ (Z.to_nat i) E), Hi.
Qed.

(** What the formatter does behind a [%]. *)
Lemma percent_ok f c ft ap con out tl : spec_ok f -> c ∉ [48; 108] ->
  read_bytes (length (spec_bytes f c)) ft rest = Some (spec_bytes f c) -> (length out + length tl)%nat = N ->
  percent (text ft ap con out tl) =
    convert c (pad f) (text (ft + Z.of_nat (length (spec_bytes f c)) - 1) ap con out tl).
Proof.
  intros Hf Hc E Hl. rewrite !not_elem_of_cons in Hc. destruct Hc as (H48 & H108 & _).
  pose proof (fun i v => load_fmt ft _ i v _ (in_text _ _ Hl) E) as Hload. unfold percent, set_fmt. cbn [p_fmt p_str p_ap p_mem p_con text].
  destruct f as [[p|] long]; unfold spec_ok, spec_bytes, pad in *; cbn [fs_pad fs_long default from_option app] in *; unfold id.
  - rewrite (Hload 1 48) by done. cbn [mbind res_bind Z.eqb Pos.eqb]. replace (ft + 1 + 1) with (ft + 2) by lia.
    rewrite (Hload 2 (48 + p)) by done. cbn [mbind res_bind mret res_ret].
    destruct (Z.ltb_spec (48 + p) 0x31); [lia|]. rewrite Z.gtb_ltb. destruct (Z.ltb_spec 0x38 (48 + p)); [lia|]. cbn [orb].
    replace (48 + p - 0x30) with p by lia. rewrite u32_id by (unfold in_u32; lia). cbn [p_fmt p_str p_ap p_mem p_con].
    replace (ft + 1 + 2) with (ft + 3) by lia. destruct long; cbn [app length] in *.
    + rewrite (Hload 3 108) by done. cbn [mbind res_bind Z.eqb Pos.eqb p_fmt p_mem p_str p_ap p_con].
      replace (ft + 3 + 1) with (ft + 4) by lia.
      rewrite (Hload 4 c) by done. cbn [mbind res_bind]. unfold text. do 2 f_equal. lia.
    + rewrite (Hload 3 c) by done. cbn [mbind res_bind]. rewrite (proj2 (Z.eqb_neq c 108) H108). cbn [p_fmt p_mem].
      rewrite (Hload 3 c) by done. cbn [mbind res_bind]. unfold text. do 2 f_equal. lia.
  - destruct long; cbn [app length] in *.
    + rewrite (Hload 1 108) by done. cbn [mbind res_bind mret res_ret Z.eqb Pos.eqb p_fmt p_mem p_str p_ap p_con].
      rewrite (Hload 1 108) by done. cbn [mbind res_bind mret res_ret Z.eqb Pos.eqb p_fmt p_mem p_str p_ap p_con].
      replace (ft + 1 + 1) with (ft + 2) by lia. rewrite (Hload 2 c) by done. cbn [mbind res_bind].
      unfold text. do 2 f_equal. lia.
    + rewrite (Hload 1 c) by done. cbn [mbind res_bind mret res_ret]. rewrite (proj2 (Z.eqb_neq c 48) H48).
      cbn [mbind res_bind mret res_ret p_fmt p_mem p_str p_ap p_con]. rewrite (Hload 1 c) by done. cbn [mbind res_bind mret res_ret].
      rewrite (proj2 (Z.eqb_neq c 108) H108). cbn [p_fmt p_mem]. rewrite (Hload 1 c) by done. cbn [mbind res_bind].
      unfold text. do 2 f_equal. lia.
Qed.

Lemma pad_range f : spec_ok f -> 1 <= pad f <= 8.
Proof. unfold spec_ok, pad. destruct (fs_pad f); cbn; unfold id; lia. Qed.

(** One round of the loop that prints [o] and stops at the last character of a
    part of the format. *)
Definition round (fuel : nat) (ft ap : Z) (con out tl : list Z) (k ap' : Z) (o : list Z) : Prop :=
  exists tl', length tl' = (length tl - length o)%nat /\
    format_loop (S fuel) (text ft ap con out tl) = format_loop fuel (text (ft + k) ap' con (out ++ o) tl').

Lemma emit_text v ft ap con out tl : is_byte v -> (0 < length tl)%nat ->
  exists tl', length tl' = (length tl - 1)%nat /\ emit v (text ft ap con out tl) = Ret (text ft ap con (out ++ [v]) tl').
Proof. intros Hv Hl. destruct (emit_ok v ft ap con out tl Hv Hl) as (tl' & E & El). by exists tl'. Qed.

Lemma next_fmt ft ap con out tl k : set_fmt (p_fmt (text (ft + k - 1) ap con out tl) + 1) (text (ft + k - 1) ap con out tl) = text (ft + k) ap con out tl.
Proof. unfold set_fmt, text. cbn. f_equal. lia. Qed.

Lemma conversion_round fuel f c ft ap con out tl o :
  spec_ok f -> c ∉ [48; 108; 10; 9] -> read_bytes (length (spec_bytes f c)) ft rest = Some (spec_bytes f c) ->
  (length out + length tl)%nat = N -> (length o <= length tl)%nat ->
  (forall ft, printed (convert c (pad f) (text ft ap con out tl)) ft (ap + 4) con (out ++ o) (length tl - length o)) ->
  round fuel ft ap con out tl (Z.of_nat (length (spec_bytes f c))) (ap + 4) o.
Proof.
  intros Hf Hc E Hl Ho Hp. rewrite !not_elem_of_cons in Hc. destruct Hc as (H48 & H108 & H10 & H9 & _).
  destruct (Hp (ft + Z.of_nat (length (spec_bytes f c)) - 1)) as (tl' & Ec & El). exists tl'. split; [done|].
  cbn [format_loop]. cbn [p_fmt p_mem text]. replace ft with (ft + 0) at 1 by lia.
  rewrite (load_fmt ft _ 0 37 _ (in_text _ _ Hl) E) by done. cbn [mbind res_bind Z.eqb Pos.eqb negb andb].
  rewrite (percent_ok f c) by (done || rewrite !not_elem_of_cons; split_and!; try done; apply not_elem_of_nil). rewrite Ec. cbn [mbind res_bind p_fmt p_mem text].
  assert (Hl' : (length (out ++ o) + length tl')%nat = N) by (rewrite length_app; lia).
  replace (ft + Z.of_nat (length (spec_bytes f c)) - 1) with (ft + (Z.of_nat (length (spec_bytes f c)) - 1)) at 1 by lia.
  rewrite (load_fmt ft _ _ c _ (in_text _ _ Hl') E).
  - cbn [mbind res_bind]. rewrite (proj2 (Z.eqb_neq c 10) H10), (proj2 (Z.eqb_neq c 9) H9). cbn [mbind res_bind mret res_ret].
    by rewrite next_fmt.
  - unfold spec_bytes. cbn [length]. lia.
  - unfold spec_bytes. destruct f as [[p|] []]; reflexivity.
Qed.

Lemma first_char l c ft ap con out tl :
  read_bytes (length l) ft rest = Some l -> l !! 0%nat = Some c -> (length out + length tl)%nat = N ->
  load8 (p_fmt (text ft ap con out tl)) (p_mem (text ft ap con out tl)) = Ret c.
Proof. intros E Hc Hl. cbn [p_fmt p_mem text]. rewrite <-(Z.add_0_r ft). by apply (load_fmt ft l 0 c _ (in_text _ _ Hl) E). Qed.

Lemma convert_chr v f ft ap con out tl : load8 ap rest = Ret v -> is_byte v -> (length out + length tl)%nat = N ->
  (1 <= length tl)%nat -> printed (convert 99 (pad f) (text ft ap con out tl)) ft (ap + 4) con (out ++ [v]) (length tl - 1).
Proof.
  intros E Hv Hl H1. unfold convert, va_arg_char. cbn [Z.eqb Pos.eqb orb p_ap p_mem text].
  rewrite (load8_mono _ _ _ _ (in_text _ _ Hl) E). cbn [mbind res_bind mret res_ret]. by apply (emit_ok v ft (ap + 4)).
Qed.

Lemma round_ok i fuel ft ap con out tl :
  item_ok rest ap i -> read_bytes (length (show i)) ft rest = Some (show i) -> (length out + length tl)%nat = N ->
  (length (render i) < length tl)%nat ->
  round fuel ft ap con out tl (Z.of_nat (length (show i))) (next_arg ap i) (render i).
Proof.
  intros Hi E Hl Ho. destruct i as [c| | | |f v|f v|f v|f v|f a l|f c]; cbn [show render next_arg item_ok] in *.
  - destruct Hi as (Hb & H0 & H37 & H10 & H9). destruct (emit_text c ft ap con out tl Hb) as (tl' & El & Ee); [cbn in Ho; lia|].
    exists tl'. split; [done|]. cbn [format_loop]. rewrite (first_char _ c _ _ _ _ _ E) by done. cbn [mbind res_bind].
    rewrite (proj2 (Z.eqb_neq c 0) H0), (proj2 (Z.eqb_neq c 37) H37), (proj2 (Z.eqb_neq c 10) H10), (proj2 (Z.eqb_neq c 9) H9).
    cbn [negb andb]. by rewrite Ee.
  - destruct (emit_text 13 ft ap con out tl) as (t1 & El1 & Ee1); [done|cbn in Ho; lia|].
    destruct (emit_text 10 ft ap con (out ++ [13]) t1) as (t2 & El2 & Ee2); [done|cbn in Ho; lia|].
    exists t2. split; [cbn; lia|]. cbn [format_loop].
    do 2 (rewrite (first_char _ 10 _ _ _ _ _ E) by done; cbn [mbind res_bind mret res_ret Z.eqb Pos.eqb negb andb]).
    rewrite Ee1. cbn [mbind res_bind]. rewrite Ee2. cbn [mbind res_bind]. by rewrite <-app_assoc.
  - destruct (emit_text 9 ft ap con out tl) as (t1 & El1 & Ee1); [done|cbn in Ho; lia|].
    exists t1. split; [done|]. cbn [format_loop].
    do 2 (rewrite (first_char _ 9 _ _ _ _ _ E) by done; cbn [mbind res_bind mret res_ret Z.eqb Pos.eqb negb andb]).
    by rewrite Ee1.
  - destruct (emit_text 37 (ft + 1) ap con out tl) as (t1 & El1 & Ee1); [done|cbn in Ho; lia|].
    exists t1. split; [done|]. cbn [format_loop]. rewrite (first_char _ 37 _ _ _ _ _ E) by done.
    cbn [mbind res_bind Z.eqb Pos.eqb negb andb].
    assert (H1 : forall o t, (length o + length t)%nat = N -> load8 (ft + 1) (write_bytes buf (o ++ t) rest) = Ret 37).
    { intros o t Hlen. by apply (load_fmt ft _ 1 37 _ (in_text _ _ Hlen) E). }
    unfold percent. change (set_fmt _ (text ft ap con out tl)) with (text (ft + 1) ap con out tl). cbn [p_fmt p_mem text].
    do 3 (rewrite H1 by done; cbn [mbind res_bind mret res_ret Z.eqb Pos.eqb p_fmt p_mem text]). unfold convert. cbn [Z.eqb Pos.eqb orb].
    fold (text (ft + 1) ap con out tl). rewrite Ee1. cbn [mbind res_bind p_fmt p_mem text].
    rewrite H1 by (rewrite length_app; cbn in *; lia). cbn [mbind res_bind mret res_ret Z.eqb Pos.eqb]. f_equal.
    unfold set_fmt, text. cbn. f_equal. lia.
  - destruct Hi as (Hf & Hv & Ea). apply (conversion_round fuel f 120); [done|set_solver|done|done|lia|].
    intros ft'. apply put_hex_ok; [done|by apply pad_range|done|lia].
  - destruct Hi as (Hf & Hv & Ea). apply (conversion_round fuel f 117); [done|set_solver|done|done|lia|].
    intros ft'. apply put_unsigned_ok; [done|done|by apply pad_range|done|lia].
  - destruct Hi as (Hf & Hv & Ea). apply (conversion_round fuel f 100); [done|set_solver|done|done|lia|].
    intros ft'. apply put_signed_ok; [done|done|by apply pad_range|done|lia].
  - destruct Hi as (Hf & Hv & Ea). apply (conversion_round fuel f 111); [done|set_solver|done|done|lia|].
    intros ft'. apply put_oct_ok; [done|done|by apply pad_range|done|lia].
  - destruct Hi as (Hf & Ea & Hc). apply (conversion_round fuel f 115); [done|set_solver|done|done|lia|].
    intros ft'. unfold convert. cbn [Z.eqb Pos.eqb orb]. rewrite (va_arg_ok a) by done. cbn [mbind res_bind].
    apply str_loop_ok; [done| |done|lia|lia]. eapply cstr_fuel, cstr_mono; [by apply in_text|done].
  - destruct Hi as (Hf & Hv & Ea). apply (conversion_round fuel f 99); [done|set_solver|done|done|lia|].
    intros ft'. by apply convert_chr; [..|cbn in Ho; lia].
Qed.

Lemma format_ok l : forall fuel ft ap con out tl,
  items_ok rest ap l -> read_bytes (S (length (l ≫= show))) ft rest = Some ((l ≫= show) ++ [0]) ->
  (length out + length tl)%nat = N -> (length (l ≫= render) < length tl)%nat -> (length l <= fuel)%nat ->
  exists ft' ap' tl', length tl' = (length tl - length (l ≫= render))%nat /\
    format_loop fuel (text ft ap con out tl) = Ret (text ft' ap' con (out ++ (l ≫= render)) tl').
Proof.
  induction l as [|i l IH]; intros fuel ft ap con out tl Hi E Hl Ho Hf.
  - exists ft, ap, tl. split; [cbn; lia|]. cbn [mbind list_bind app length] in *. rewrite app_nil_r.
    destruct fuel; cbn [format_loop]; (rewrite (first_char [0] 0) by done); done.
  - destruct fuel as [|fuel]; [cbn in Hf; lia|]. destruct Hi as [Hi His].
    change ((i :: l) ≫= show) with (show i ++ (l ≫= show)) in E. change ((i :: l) ≫= render) with (render i ++ (l ≫= render)) in *.
    rewrite length_app in *. rewrite <-app_assoc, <-Nat.add_succ_r, read_bytes_app in E.
    apply bind_Some in E as (s1 & E1 & (s2 & E2 & E)%bind_Some). injection E as E.
    apply app_inj_1 in E as [-> ->]; [|by rewrite (read_bytes_length _ _ _ _ E1)].
    destruct (round_ok i fuel ft ap con out tl) as (t1 & El1 & ->); [done|done|done|lia|].
    destruct (IH fuel (ft + Z.of_nat (length (show i))) (next_arg ap i) con (out ++ render i) t1) as (ft' & ap' & t2 & El2 & ->);
      [done|done|rewrite length_app; lia|lia|cbn in Hf; lia|].
    exists ft', ap', t2. split; [lia|]. by rewrite <-app_assoc.
Qed.
End text.

Lemma show_nonzero m ap l : items_ok m ap l -> Forall (fun v => v <> 0) (l ≫= show).
Proof.
  assert (Hs : forall f c, spec_ok f -> c <> 0 -> Forall (fun v => v <> 0) (spec_bytes f c)).
  { intros [[p|] []] c Hf Hc; unfold spec_ok, spec_bytes in *; cbn in *; repeat constructor; lia. }
  revert ap. induction l as [|i l IH]; intros ap; [constructor|]. intros [Hi Hl].
  change ((i :: l) ≫= show) with (show i ++ (l ≫= show)). apply Forall_app. split; [|by eapply IH].
  destruct i; cbn in Hi |- *; try (apply Hs; [apply Hi|done]); repeat constructor; try done. apply Hi.
Qed.

Lemma items_short l : (length l <= length (l ≫= show))%nat.
Proof.
  induction l as [|i l IH]; [done|]. change ((i :: l) ≫= show) with (show i ++ (l ≫= show)). rewrite length_app. cbn [length].
  assert (0 < length (show i))%nat; [|lia]. destruct i; cbn; lia.
Qed.

(** C38: [sw_vsprintf] terminates and prints what the format says: for every
    format that is put together from text, newlines, tabs and conversions with
    an optional zero padding and [l], the buffer holds the text with a carriage
    return before every newline and numbers in the form of [numeral], followed
    by the terminator; nothing outside of the buffer changes.  The result is 0,
    not the number of characters. *)
Theorem vsprintf_renders (buf fmt args : Z) (con b : list Z) (l : list item) (rest : mem)
    (Hbuf : forall x, buf <= x < buf + Z.of_nat (length b) -> rest !! x = None) (Hok : bytes_ok rest)
    (Hfmt : read_bytes (S (length (l ≫= show))) fmt rest = Some ((l ≫= show) ++ [0])) (Hargs : items_ok rest args l)
    (Hroom : (length (l ≫= render) < length b)%nat) :
  exists s tl, sw_vsprintf buf fmt args con (write_bytes buf b rest) = Ret (0, s) /\ p_con s = con /\
    p_mem s = write_bytes buf ((l ≫= render) ++ [0] ++ tl) rest /\ (length (l ≫= render) + S (length tl))%nat = length b.
Proof.
  assert (Hs : rest ⊆ write_bytes buf b rest) by (by apply write_bytes_above).
  assert (Hc : cstr (write_bytes buf b rest) fmt (l ≫= show)).
  { eapply cstr_mono; [done|]. split; [exact Hfmt|]. by eapply show_nonzero. }
  pose proof (cstr_fuel _ _ _ Hc). pose proof (items_short l).
  destruct (format_ok rest buf (length b) Hbuf Hok l (str_fuel (write_bytes buf b rest)) fmt args con [] b)
    as (ft' & ap' & tl & El & Ef); [done|done|done|done|lia|].
  unfold sw_vsprintf. replace (Pst fmt buf args (write_bytes buf b rest) con) with (text rest buf fmt args con [] b)
    by (unfold text; cbn; f_equal; lia).
  rewrite Ef. cbn [mbind res_bind app]. destruct tl as [|x tl]; [cbn in El; lia|].
  rewrite (store_text rest buf 0 x) by done. cbn [mbind res_bind].
  set (m := write_bytes buf ((l ≫= render) ++ 0 :: tl) rest). set (e := p_str (text rest buf ft' ap' con (l ≫= render) (x :: tl))).
  assert (E0 : load8 e m = Ret 0).
  { unfold load8, m, e. cbn [p_str text]. rewrite write_bytes_lookup, length_app, decide_True by (cbn [length]; lia).
    replace (Z.to_nat (buf + Z.of_nat (length (l ≫= render)) - buf)) with (length (l ≫= render)) by lia.
    by rewrite list_lookup_middle. }
  assert (En : sw_strlen e m = Ret 0).
  { unfold sw_strlen, str_fuel. cbn [find_nul]. rewrite E0. cbn [mbind res_bind Z.eqb mret res_ret]. by rewrite Z.sub_diag. }
  rewrite En. cbn [mbind res_bind mret res_ret]. eexists _, tl. split; [reflexivity|]. split; [done|]. split; [done|].
  cbn [length] in El. lia.
Qed.

(** ** Examples *)

(** The format ["%d %04lx: %s%c\n"]. *)
Definition demo_format : list item :=
  [Decimal (FSpec None false) (-120); Lit 32; Hex (FSpec (Some 4) true) 0xab; Lit 58; Lit 32;
   Str (FSpec None false) 0x3000 [111; 107]; Chr (FSpec None false) 33; Newline].
Definition demo_print : mem :=
  write_bytes 0x1000 ((demo_format ≫= show) ++ [0]) $
  write_bytes 0x2000 (le32 (u32 (-120)) ++ le32 0xab ++ le32 0x3000 ++ le32 33) $ write_bytes 0x3000 [111; 107; 0] ∅.

(** It prints ["-120 00ab: ok!"]. *)
Lemma vsprintf_renders_witness : exists s tl,
  sw_vsprintf 0x4000 0x1000 0x2000 [] (write_bytes 0x4000 (replicate 32 7) demo_print) = Ret (0, s) /\ p_con s = [] /\
  p_mem s = write_bytes 0x4000
    ([45; 49; 50; 48; 32; 48; 48; 97; 98; 58; 32; 111; 107; 33; 13; 10] ++ [0] ++ tl) demo_print /\ (16 + S (length tl))%nat = 32%nat.
Proof.
  apply (vsprintf_renders 0x4000 0x1000 0x2000 [] (replicate 32 7) demo_format demo_print).
  - intros x Hx. unfold demo_print. rewrite !write_bytes_lookup. rewrite !decide_False; [done|..];
      match goal with |- ~ (_ <= x < _ + Z.of_nat ?n) => let k := eval vm_compute in n in change n with k; cbn in Hx; lia end.
  - unfold demo_print. repeat (apply bytes_ok_write; [|vm_compute; repeat constructor; congruence]). by intros ? ? ?.
  - by vm_compute.
  - cbn [items_ok demo_format item_ok next_arg]. split; [split; [done|split; [done|by vm_compute]]|]. split; [done|].
    split; [split; [done|split; [done|by vm_compute]]|]. split; [done|]. split; [done|].
    split; [split; [done|split; [by vm_compute|split; [by vm_compute|repeat constructor; done]]]|].
    split; [split; [done|split; [done|by vm_compute]]|]. done.
  - vm_compute. lia.
Defined.

(** A format that is used without arguments, and what is printed. *)
Definition plain (f : list Z) (m : mem) : res (list Z) :=
  '(_, s) ← sw_vsprintf 0x4000 0x1000 0x2000 [] (write_bytes 0x1000 f m);
  of_opt (read_bytes (Z.to_nat (p_str s - 0x4000)) 0x4000 (p_mem s)).
Definition plain_mem : mem := write_bytes 0x4000 (replicate 32 7) ∅.

(** A newline behind a percent sign is printed twice, and a percent sign at the
    end of the format makes the formatter go on behind it: here there is an
    [x] before the next terminator. *)
Lemma percent_before_newline : plain [37; 10; 0] plain_mem = Ret [37; 13; 10; 13; 10].
Proof. by vm_compute. Qed.

Lemma percent_at_end : plain [37; 0; 120; 0] plain_mem = Ret [120] /\ plain [37; 0] plain_mem = Fault.
Proof. by vm_compute. Qed.
