(* ===== verification/Encode.v ===== *)
(** The encoding of service parameters, secure side: [decode_data],
    [decode_ipi_out_data], [update_response_len], [otz_encode_data] and
    [otz_release_data] of [core/secure_api.c], with the structures of
    [include/otz_common.h].

    A request is a buffer of one kilobyte and a table of sixteen entries, one
    per parameter: twelve for the request, four for the response.  Buffers are
    bytes of [MemFn]'s memory; the tables and the contexts of the encoder are
    kept by address. *)
From stdpp Require Import prelude gmap.
From S2P Require Import Prelude HeapIface PageTable MemFn Words.
#[local] Open Scope Z_scope.

Definition OTZ_MAX_REQ_PARAMS : Z := 12.
Definition OTZ_MAX_RES_PARAMS : Z := 4.
Definition OTZ_1K_SIZE : Z := 1024.

Definition OTZ_ENC_UINT32 : Z := 1.
Definition OTZ_ENC_ARRAY : Z := 2.
Definition OTZ_MEM_REF : Z := 3.
Definition OTZ_SECURE_MEM_REF : Z := 4.

Definition OTZC_PARAM_IN : Z := 0.
Definition OTZC_PARAM_OUT : Z := 1.

Record otzc_encode_meta : Type := EncMeta {
  m_type : Z; m_len : Z; m_usr_addr : Z; m_ret_len : Z;
}.

Definition set_type_len (t l : Z) (e : otzc_encode_meta) : otzc_encode_meta :=
  EncMeta t l (m_usr_addr e) (m_ret_len e).
Definition set_usr_addr (a : Z) (e : otzc_encode_meta) : otzc_encode_meta :=
  EncMeta (m_type e) (m_len e) a (m_ret_len e).
Definition set_ret_len (l : Z) (e : otzc_encode_meta) : otzc_encode_meta :=
  EncMeta (m_type e) (m_len e) (m_usr_addr e) l.

(** [meta_data[pos]]; an index outside the table faults. *)
Definition meta_get (l : list otzc_encode_meta) (pos : Z) : res otzc_encode_meta :=
  if pos <? 0 then Fault else of_opt (l !! Z.to_nat pos).
Definition meta_upd (f : otzc_encode_meta -> otzc_encode_meta) (pos : Z)
    (l : list otzc_encode_meta) : res (list otzc_encode_meta) :=
  e ← meta_get l pos; mret (<[Z.to_nat pos := f e]> l).

(** What the decoder asks of the page table: to make the section of an
    address of the normal world accessible, and to withdraw it. *)
Class NsMemory (P : Type) : Type := {
  ns_map : Z -> P -> res (Z * option Z * P);
  ns_unmap : Z -> P -> res (Z * P);
}.

(** The address of a section that was made accessible is its physical one. *)
Class NsMemoryLaws (P : Type) `{NsMemory P} : Prop := {
  ns_map_identity a st v st' : ns_map a st = Ret (0, Some v, st') -> v = a;
  ns_map_error a st r st' : ns_map a st = Ret (r, None, st') -> r <> 0;
}.

#[export] Instance pt_NsMemory (multicore : bool) (base : Z) (H : Type) `{PrivateHeap H} :
  NsMemory (pt_state (H := H)) := {
  ns_map := map_to_ns multicore base;
  ns_unmap := unmap_from_ns base;
}.

#[export] Instance pt_NsMemoryLaws (multicore : bool) (base : Z) (H : Type) `{PrivateHeap H} :
  @NsMemoryLaws (pt_state (H := H)) (pt_NsMemory multicore base H).
Proof.
  split; intros a st; [intros v st'|intros r st']; unfold ns_map, pt_NsMemory, map_to_ns, __map_to_ns; cbv zeta;
    destruct (map_ns_section_entry _ _ _) as [[w s1]| |]; cbn [mbind res_bind mret res_ret]; try done;
    destruct (w =? 0); intros E; injection E as; congruence || done.
Qed.

(** The in and out parameters of the decoders. *)
Record dec_out : Type := DecOut {
  d_type : Z; d_offset : Z; d_pos : Z; d_mapped : Z; d_data : Z; d_len : Z;
}.

Definition set_mapped (v : Z) (o : dec_out) : dec_out :=
  DecOut (d_type o) (d_offset o) (d_pos o) v (d_data o) (d_len o).
Definition set_data (v : Z) (o : dec_out) : dec_out :=
  DecOut (d_type o) (d_offset o) (d_pos o) (d_mapped o) v (d_len o).

Section decode.
Context {P : Type} `{NsMemory P}.

(** [(u32 * )data + offset] counts words where [data + offset] counts bytes. *)
Definition decode_data (data : Z) (meta : list otzc_encode_meta) (o : dec_out) (m : mem) (st : P)
    : res (Z * dec_out * P) :=
  let off := d_offset o in
  let pos := d_pos o in
  let o := set_mapped 0 o in
  e ← meta_get meta pos;
  if m_type e =? OTZ_ENC_UINT32 then
    mret (0, DecOut OTZ_ENC_UINT32 (s32 (off + 4)) (s32 (pos + 1)) 0 (data + off) (m_len e), st)
  else if m_type e =? OTZ_ENC_ARRAY then
    mret (0, DecOut OTZ_ENC_ARRAY (s32 (off + m_len e)) (s32 (pos + 1)) 0 (data + off) (m_len e), st)
  else if m_type e =? OTZ_MEM_REF then
    pa ← load32 (data + 4 * off) m;
    '(r, va, st) ← ns_map pa st;
    let o := set_data (default (d_data o) va) o in
    if negb (r =? 0) then mret (-1, o, st)
    else mret (0, DecOut OTZ_MEM_REF (s32 (off + 4)) (s32 (pos + 1)) 1 (d_data o) (m_len e), st)
  else if m_type e =? OTZ_SECURE_MEM_REF then
    a ← load32 (data + 4 * off) m;
    mret (0, DecOut OTZ_MEM_REF (s32 (off + 4)) (s32 (pos + 1)) 0 a (m_len e), st)
  else mret (-1, o, st).

Definition decode_ipi_out_data (data : Z) (meta : list otzc_encode_meta) (o : dec_out) (m : mem)
    : res (Z * dec_out) :=
  let off := d_offset o in
  let pos := d_pos o in
  e ← meta_get meta pos;
  if m_type e =? OTZ_ENC_UINT32 then
    mret (0, DecOut OTZ_ENC_UINT32 (s32 (off + 4)) (s32 (pos + 1)) (d_mapped o) (data + off) (m_len e))
  else if m_type e =? OTZ_SECURE_MEM_REF then
    a ← load32 (data + 4 * off) m;
    mret (0, DecOut OTZ_MEM_REF (s32 (off + 4)) (s32 (pos + 1)) (d_mapped o) a (m_ret_len e))
  else mret (-1, o).
End decode.

Definition update_response_len (meta : list otzc_encode_meta) (pos len : Z)
    : res (Z * list otzc_encode_meta) :=
  if pos <=? OTZ_MAX_REQ_PARAMS + OTZ_MAX_RES_PARAMS then
    meta ← meta_upd (set_ret_len len) (pos - 1) meta; mret (0, meta)
  else mret (-1, meta).

(** ** The encoder of secure tasks *)

Record otz_secure_encode_cmd : Type := SecCmd { c_len : Z; c_data : Z; c_param_type : Z }.

Record otz_secure_encode_ctx : Type := EncCtx {
  req_addr : Z; req_len : Z; res_addr : Z; res_len : Z;
  enc_req_offset : Z; enc_res_offset : Z; enc_req_pos : Z; enc_res_pos : Z;
}.

Definition start_req (a : Z) (c : otz_secure_encode_ctx) : otz_secure_encode_ctx :=
  EncCtx a (req_len c) (res_addr c) (res_len c) 0 (enc_res_offset c) 0 (enc_res_pos c).
Definition start_res (a : Z) (c : otz_secure_encode_ctx) : otz_secure_encode_ctx :=
  EncCtx (req_addr c) (req_len c) a (res_len c) (enc_req_offset c) 0 (enc_req_pos c) OTZ_MAX_REQ_PARAMS.
Definition next_req (c : otz_secure_encode_ctx) : otz_secure_encode_ctx :=
  EncCtx (req_addr c) (req_len c) (res_addr c) (res_len c)
    (u32 (enc_req_offset c + 4)) (enc_res_offset c) (u32 (enc_req_pos c + 1)) (enc_res_pos c).
Definition next_res (c : otz_secure_encode_ctx) : otz_secure_encode_ctx :=
  EncCtx (req_addr c) (req_len c) (res_addr c) (res_len c)
    (enc_req_offset c) (u32 (enc_res_offset c + 4)) (enc_req_pos c) (u32 (enc_res_pos c + 1)).

Definition sizeof_encode_ctx : Z := 32.
Definition sizeof_encode_meta : Z := 16.
Definition zero_ctx : otz_secure_encode_ctx := EncCtx 0 0 0 0 0 0 0 0.
Definition zero_meta : list otzc_encode_meta :=
  replicate (Z.to_nat (OTZ_MAX_RES_PARAMS + OTZ_MAX_REQ_PARAMS)) (EncMeta 0 0 0 0).

Section encode.
Context {H : Type} `{PrivateHeap H}.
(** The task that runs: [sw_malloc] allocates from its heap. *)
Context (task : Z).

Record est : Type := Est {
  eheap : H;
  ectxs : gmap Z otz_secure_encode_ctx;
  emetas : gmap Z (list otzc_encode_meta);
  emem : mem;
}.

Definition set_eheap (h : H) (s : est) : est := Est h (ectxs s) (emetas s) (emem s).
Definition set_ectxs (c : gmap Z otz_secure_encode_ctx) (s : est) : est := Est (eheap s) c (emetas s) (emem s).
Definition set_emetas (t : gmap Z (list otzc_encode_meta)) (s : est) : est := Est (eheap s) (ectxs s) t (emem s).
Definition set_emem (m : mem) (s : est) : est := Est (eheap s) (ectxs s) (emetas s) m.

Definition e_malloc (size : Z) (s : est) : res (Z * est) :=
  '(p, h) ← heap_malloc task size (eheap s); mret (p, set_eheap h s).
Definition e_free (p : Z) (s : est) : res est :=
  h ← heap_free task p (eheap s); mret (set_eheap h s).

(** A buffer of a context: 0 is [NULL]. *)
Definition e_free_buf (p : Z) (s : est) : res est := if p =? 0 then mret s else e_free p s.

(** A freed context or table is gone. *)
Definition otz_release_data (ctx meta : Z) (s : est) : res est :=
  s ← (if ctx =? 0 then mret s else
         c ← of_opt (ectxs s !! ctx);
         s ← e_free_buf (req_addr c) s;
         s ← e_free_buf (res_addr c) s;
         s ← e_free ctx s;
         mret (set_ectxs (delete ctx (ectxs s)) s));
  if meta =? 0 then mret s else
  s ← e_free meta s; mret (set_emetas (delete meta (emetas s)) s).

Definition new_ctx (s : est) : res (Z * est) :=
  '(p, s) ← e_malloc sizeof_encode_ctx s;
  mret (p, if p =? 0 then s else set_ectxs (<[p := zero_ctx]> (ectxs s)) s).

Definition new_meta (s : est) : res (Z * est) :=
  '(p, s) ← e_malloc (sizeof_encode_meta * (OTZ_MAX_RES_PARAMS + OTZ_MAX_REQ_PARAMS)) s;
  mret (p, if p =? 0 then s else set_emetas (<[p := zero_meta]> (emetas s)) s).

(** The buffer of one direction, allocated at its first parameter; the result
    tells whether there is one. *)
Definition new_buf (start : Z -> otz_secure_encode_ctx -> otz_secure_encode_ctx) (addr ctx : Z)
    (s : est) : res (bool * est) :=
  if negb (addr =? 0) then mret (true, s) else
  '(p, s) ← e_malloc OTZ_1K_SIZE s;
  if p =? 0 then mret (false, s) else
  c ← of_opt (ectxs s !! ctx);
  mret (true, set_emem (provide p OTZ_1K_SIZE (emem s)) (set_ectxs (<[ctx := start p c]> (ectxs s)) s)).

(** One word is written at a word offset, and its entry filled. *)
Definition put_word (addr off pos ctx meta data len encode_type : Z)
    (next : otz_secure_encode_ctx -> otz_secure_encode_ctx) (s : est) : res est :=
  m ← store32 (addr + 4 * off) (u32 data) (emem s);
  c ← of_opt (ectxs s !! ctx);
  t ← of_opt (emetas s !! meta);
  t ← meta_upd (set_type_len encode_type len) pos t;
  mret (set_emem m (set_ectxs (<[ctx := next c]> (ectxs s)) (set_emetas (<[meta := t]> (emetas s)) s))).

Definition encode_in (enc : otz_secure_encode_cmd) (ctx meta encode_type : Z) (s : est) : res (bool * est) :=
  c ← of_opt (ectxs s !! ctx);
  '(ok, s) ← new_buf start_req (req_addr c) ctx s;
  if negb ok then mret (false, s) else
  c ← of_opt (ectxs s !! ctx);
  if (u32 (enc_req_offset c + 4) <=? OTZ_1K_SIZE) && (enc_req_pos c <? OTZ_MAX_REQ_PARAMS) then
    s ← put_word (req_addr c) (enc_req_offset c) (enc_req_pos c) ctx meta (c_data enc) (s32 (c_len enc)) encode_type next_req s;
    mret (true, s)
  else mret (false, s).

Definition encode_out (enc : otz_secure_encode_cmd) (ctx meta encode_type : Z) (s : est) : res (bool * est) :=
  c ← of_opt (ectxs s !! ctx);
  '(ok, s) ← new_buf start_res (res_addr c) ctx s;
  if negb ok then mret (false, s) else
  c ← of_opt (ectxs s !! ctx);
  if (u32 (enc_res_offset c + 4) <=? OTZ_1K_SIZE)
     && (enc_res_pos c <? OTZ_MAX_RES_PARAMS + OTZ_MAX_REQ_PARAMS) then
    s ← put_word (res_addr c) (enc_res_offset c) (enc_res_pos c) ctx meta (c_data enc) (s32 (c_len enc)) encode_type next_res s;
    mret (true, s)
  else mret (false, s).

(** The result, [*pmeta_data], [*penc_context] and the state.  A pointer the
    caller passed is kept even when what it points to was freed. *)
Definition otz_encode_data (enc : option otz_secure_encode_cmd) (pmeta pctx encode_type : Z) (s : est)
    : res (Z * Z * Z * est) :=
  let ret_func r meta ctx s :=
    mret (r, if pmeta =? 0 then meta else pmeta, if pctx =? 0 then ctx else pctx, s) in
  let ret_free_mem meta ctx s := s ← otz_release_data ctx meta s; ret_func OTZ_ENOMEM meta ctx s in
  match enc with
  | None => ret_func OTZ_ILLEGAL_ARGUMENT pmeta pctx s
  | Some enc =>
      if negb (encode_type =? OTZ_ENC_UINT32) && negb (encode_type =? OTZ_SECURE_MEM_REF)
      then ret_func OTZ_ILLEGAL_ARGUMENT pmeta pctx s else
      '(ctx, s) ← (if pctx =? 0 then new_ctx s else mret (pctx, s));
      if ctx =? 0 then ret_free_mem pmeta ctx s else
      '(meta, s) ← (if pmeta =? 0 then new_meta s else mret (pmeta, s));
      if meta =? 0 then ret_free_mem meta ctx s else
      if c_param_type enc =? OTZC_PARAM_IN then
        '(ok, s) ← encode_in enc ctx meta encode_type s;
        if ok : bool then ret_func OTZ_OK meta ctx s else ret_free_mem meta ctx s
      else if c_param_type enc =? OTZC_PARAM_OUT then
        '(ok, s) ← encode_out enc ctx meta encode_type s;
        if ok : bool then ret_func OTZ_OK meta ctx s else ret_free_mem meta ctx s
      else ret_func OTZ_ILLEGAL_ARGUMENT meta ctx s
  end.
End encode.
Arguments est : clear implicits.
