(* ===== verification/Share.v ===== *)
(** What the code that talks to the normal world may rely on: a mapping that
    was made can be undone, and undoing them all restores the page table.  The
    class is the interface between [PageTable] and the handlers of the secure
    API; the page table over a heap with enough room implements it. *)
From stdpp Require Import prelude gmap.
From S2P Require Import Prelude HeapIface PageTable Encode.
#[local] Open Scope Z_scope.

(** ** The interface

    [ns_ok n l st]: the addresses [l] are mapped, each as often as it occurs,
    and [n] more can be.  A mapping may fail, but then it changes nothing. *)
Class NsCounts (P : Type) `{NsMemory P} : Type := {
  ns_addr : Z -> Prop;
  ns_ok : nat -> list Z -> P -> Prop;
  ns_addr_nonzero a : ns_addr a -> a <> 0;
  ns_ok_perm n l l' st : l ≡ₚ l' -> ns_ok n l st -> ns_ok n l' st;
  ns_ok_le n l st : ns_ok (S n) l st -> ns_ok n l st;
  ns_map_ok n l st a : ns_ok (S n) l st -> ns_addr a ->
    (exists st', ns_map a st = Ret (0, Some a, st') /\ ns_ok n (a :: l) st') \/
    (exists r st', ns_map a st = Ret (r, None, st') /\ r <> 0 /\ ns_ok n l st');
  ns_unmap_ok n l st a : ns_ok n (a :: l) st -> exists st', ns_unmap a st = Ret (0, st') /\ ns_ok n l st';
}.

(** ** A heap with room

    [heap_has n h]: the next [n] page references can be allocated. *)
Class HeapCapacity (H : Type) `{PrivateHeap H} : Type := {
  heap_has : nat -> H -> Prop;
  heap_has_le n h : heap_has (S n) h -> heap_has n h;
  heap_has_malloc n h : heap_has (S n) h ->
    exists p h', heap_malloc COMMON_HEAP_ID sizeof_sw_page_ref h = Ret (p, h') /\ p <> 0 /\ heap_has n h';
  heap_has_free n p h h' : heap_has n h -> heap_free COMMON_HEAP_ID p h = Ret h' -> heap_has n h';
}.

#[export] Program Instance bump_HeapCapacity : HeapCapacity bump_heap := {
  heap_has n h := 0 < bump_next h /\ bump_next h + Z.of_nat n * sizeof_sw_page_ref <= bump_end h;
}.
Next Obligation. intros n h. unfold sizeof_sw_page_ref. lia. Qed.
Next Obligation.
  intros n h [Hp Hn]. unfold heap_malloc, bump_PrivateHeap, bump_malloc, sizeof_sw_page_ref in *.
  rewrite (proj2 (Z.leb_gt _ _)) by lia. eexists _, _. split; [done|]. cbn. lia.
Qed.
Next Obligation. intros n p h h' Hn [= <-]. exact Hn. Qed.

(** ** The page table implements the interface *)

(** How often each section is mapped. *)
Fixpoint sections (l : list Z) : gmap Z Z :=
  match l with
  | [] => ∅
  | a :: l => <[l1_index a := default 0 (sections l !! l1_index a) + 1]> (sections l)
  end.

Lemma sections_lookup l i :
  sections l !! i = let n := Z.of_nat (length (filter (fun a => l1_index a = i) l)) in
                    if n =? 0 then None else Some n.
Proof.
  induction l as [|a l IH]; [done|]. cbn [sections]. rewrite filter_cons.
  destruct (decide (l1_index a = i)) as [<-|Hi]; [rewrite lookup_insert_eq|by rewrite lookup_insert_ne].
  rewrite IH. cbn [length]. cbv zeta. destruct (Z.eqb_spec (Z.of_nat (length (filter (fun b => l1_index b = l1_index a) l))) 0);
    rewrite (proj2 (Z.eqb_neq _ 0)) by lia; cbn; f_equal; lia.
Qed.

Lemma sections_perm l l' : l ≡ₚ l' -> sections l = sections l'.
Proof.
  intros E. apply map_eq. intros i. rewrite !sections_lookup.
  by rewrite (Permutation_length (filter_Permutation (fun a => l1_index a = i) _ _ E)).
Qed.

Lemma sections_bound l i n : sections l !! i = Some n -> 0 < n <= Z.of_nat (length l).
Proof.
  rewrite sections_lookup. cbv zeta. destruct (Z.eqb_spec (Z.of_nat (length (filter (fun a => l1_index a = i) l))) 0); [done|].
  intros [= <-]. pose proof (length_filter (fun a => l1_index a = i) l). lia.
Qed.

Lemma sections_down a l n :
  sections (a :: l) !! l1_index a = Some n -> count_down (l1_index a) n (sections (a :: l)) = sections l.
Proof.
  cbn [sections]. rewrite lookup_insert_eq. intros [= <-]. apply map_eq. intros i.
  destruct (decide (l1_index a = i)) as [<-|Hi]; [|by rewrite count_down_other, lookup_insert_ne].
  rewrite count_down_same. destruct (sections l !! l1_index a) as [k|] eqn:E; cbn [default from_option id].
  - apply sections_bound in E. rewrite decide_False by lia. f_equal. lia.
  - by rewrite decide_True.
Qed.

Section share.
Context (multicore : bool) (secure_page_table : Z) {H : Type} `{PrivateHeap H, !PrivateHeapLaws H, !HeapCapacity H}.

Lemma page_ref_add_heap k (s s' : pt_state (H := H)) r :
  page_ref_add k s = Ret (r, s') ->
  pt_heap s' = pt_heap s \/ exists p, heap_malloc COMMON_HEAP_ID sizeof_sw_page_ref (pt_heap s) = Ret (p, pt_heap s').
Proof.
  unfold page_ref_add. destruct (find_upd _ _ _) as [[y refs]|]; [intros [= _ <-]; by left|].
  destruct (heap_malloc _ _ _) as [[p h]| |]; cbn [mbind res_bind mret res_ret]; [|done..].
  destruct (p =? 0); intros [= _ <-]; right; by exists p.
Qed.

Lemma page_ref_release_heap k (s s' : pt_state (H := H)) r :
  page_ref_release k s = Ret (r, s') ->
  pt_heap s' = pt_heap s \/ exists p, heap_free COMMON_HEAP_ID p (pt_heap s) = Ret (pt_heap s').
Proof.
  unfold page_ref_release. destruct (find_upd _ _ _) as [[y refs]|]; [|intros [= _ <-]; by left].
  destruct (pr_ref_cnt y =? 0); [|intros [= _ <-]; by left].
  destruct (find_del _ _) as [[z refs']|]; [|done].
  destruct (heap_free _ _ _) as [h| |] eqn:E; cbn [mbind res_bind mret res_ret]; [|done..].
  intros [= _ <-]. right. by exists (pr_ptr y).
Qed.

Lemma map_to_ns_heap a (s s' : pt_state (H := H)) r o :
  map_to_ns multicore secure_page_table a s = Ret (r, o, s') ->
  pt_heap s' = pt_heap s \/ exists p, heap_malloc COMMON_HEAP_ID sizeof_sw_page_ref (pt_heap s) = Ret (p, pt_heap s').
Proof.
  unfold map_to_ns, __map_to_ns, map_ns_section_entry. cbv zeta.
  destruct (_ =? L1_TYPE_FAULT); [|destruct (_ =? L1_TYPE_SECTION); [|intros [= _ _ <-]; by left]].
  all: destruct (page_ref_add _ _) as [[q s1]| |] eqn:E; cbn [mbind res_bind mret res_ret]; [|done..].
  all: intros [= _ _ <-]; by apply page_ref_add_heap in E.
Qed.

Lemma unmap_from_ns_heap a (s s' : pt_state (H := H)) r :
  unmap_from_ns secure_page_table a s = Ret (r, s') ->
  pt_heap s' = pt_heap s \/ exists p, heap_free COMMON_HEAP_ID p (pt_heap s) = Ret (pt_heap s').
Proof.
  unfold unmap_from_ns, __unmap_from_ns, unmap_ns_section_entry. cbv zeta.
  destruct (_ =? L1_TYPE_FAULT); [intros [= _ <-]; by left|].
  destruct (_ =? L1_TYPE_SECTION); [|intros [= _ <-]; by left].
  destruct (page_ref_release _ _) as [[q s1]| |] eqn:E; cbn [mbind res_bind mret res_ret]; [|done..].
  apply page_ref_release_heap in E.
  destruct (q =? 0); [destruct (_ =? 0)|]; intros [= _ <-]; exact E.
Qed.

Context (base : l1_table) (Hmax : sizeof_sw_page_ref <= heap_max (H := H)).

(** An address of the normal world's memory: the secure world does not use
    its section. *)
Definition pt_addr (a : Z) : Prop := in_u32 a /\ a <> 0 /\ l1_get base (l1_index a) = 0.

Definition pt_ok (n : nat) (l : list Z) (s : pt_state (H := H)) : Prop :=
  share_inv multicore secure_page_table base (sections l) s /\ heap_has n (pt_heap s) /\ Z.of_nat (length l + n) < 2 ^ 31.

Lemma heap_has_room n (s : pt_state (H := H)) : heap_has (S n) (pt_heap s) -> heap_room s = true.
Proof.
  intros (p & h & E & Hp & _)%heap_has_malloc. unfold heap_room. rewrite E. by apply negb_true_iff, Z.eqb_neq.
Qed.

Lemma pt_map_ok n l s a : pt_ok (S n) l s -> pt_addr a ->
  exists s', map_to_ns multicore secure_page_table a s = Ret (0, Some a, s') /\ pt_ok n (a :: l) s'.
Proof.
  intros (I & C & L) (Ha & _ & Hb).
  assert (Hd : default 0 (sections l !! l1_index a) <= Z.of_nat (length l)).
  { destruct (sections l !! l1_index a) as [k|] eqn:E; cbn; [apply sections_bound in E|]; lia. }
  destruct (share_inv_map multicore secure_page_table base (sections l) s a (sections (a :: l)))
    as (s' & E & I'); [exact I|exact Hmax|by eapply heap_has_room|exact Ha|done|lia|done|].
  exists s'. split; [exact E|]. split; [exact I'|]. split; [|cbn [length]; lia].
  destruct (map_to_ns_heap _ _ _ _ _ E) as [->|(p & Ep)]; [by apply heap_has_le|].
  destruct (heap_has_malloc _ _ C) as (p' & h' & E' & _ & C'). rewrite Ep in E'. by injection E' as _ ->.
Qed.

Lemma pt_unmap_ok n l s a : pt_ok n (a :: l) s ->
  exists s', unmap_from_ns secure_page_table a s = Ret (0, s') /\ pt_ok n l s'.
Proof.
  intros (I & C & L). destruct (sections (a :: l) !! l1_index a) as [k|] eqn:Ek.
  2:{ cbn [sections] in Ek. by rewrite lookup_insert_eq in Ek. }
  destruct (share_inv_unmap multicore secure_page_table base _ s a k I Ek) as (s' & E & I').
  exists s'. split; [exact E|]. rewrite sections_down in I' by done. split; [exact I'|].
  split; [|cbn [length] in L; lia].
  destruct (unmap_from_ns_heap _ _ _ _ E) as [->|(p & Ep)]; [exact C|by eapply heap_has_free].
Qed.

Lemma pt_ok_perm n l l' s : l ≡ₚ l' -> pt_ok n l s -> pt_ok n l' s.
Proof. intros E. unfold pt_ok. by rewrite (sections_perm _ _ E), (Permutation_length E). Qed.

Lemma pt_ok_le n l s : pt_ok (S n) l s -> pt_ok n l s.
Proof. intros (I & C & L). split; [exact I|]. split; [by apply heap_has_le|lia]. Qed.

(** Nothing mapped: the table is the one before any mapping. *)
Lemma pt_ok_nil n s i : pt_ok n [] s -> l1_get (pt s) i = l1_get base i.
Proof. intros (I & _). exact (share_base _ _ _ _ _ I i eq_refl). Qed.

#[local] Instance pt_ns : NsMemory (pt_state (H := H)) := pt_NsMemory multicore secure_page_table H.

Definition pt_NsCounts : NsCounts (pt_state (H := H)) := {|
  ns_addr := pt_addr;
  ns_ok := pt_ok;
  ns_addr_nonzero a Ha := proj1 (proj2 Ha);
  ns_ok_perm := pt_ok_perm;
  ns_ok_le := pt_ok_le;
  ns_map_ok n l s a Hs Ha := or_introl (pt_map_ok n l s a Hs Ha);
  ns_unmap_ok := pt_unmap_ok;
|}.
End share.
