(* ===== verification/Driver.v ===== *)
(** [otz_driver/otz_client_main.c]: the driver of the normal world that
    forwards the requests of client programs to the secure kernel.

    The objects the driver allocates are kept by address; a [list_head] is the
    sequence of the addresses on it.  What the driver calls of the Linux kernel
    is an interface with an abstract state, and the secure world is a
    function: the [smc] instruction. *)
From stdpp Require Import prelude gmap.
From S2P Require Import Prelude MemFn Words Encode.
#[local] Open Scope Z_scope.

Definition EFAULT : Z := 14.
Definition ENOMEM : Z := 12.
Definition EINVAL : Z := 22.
Definition EAGAIN : Z := 11.
Definition ERESTARTSYS : Z := 512.

Definition SMC_PENDING : Z := 1.
Definition SMC_SUCCESS : Z := 0.

Definition OTZ_SVC_GLOBAL : Z := 1.
Definition OTZ_SVC_ECHO : Z := 2.
Definition OTZ_SVC_DRM : Z := 3.
Definition OTZ_SVC_CRYPT : Z := 4.
Definition OTZ_SVC_MUTEX_TEST : Z := 5.
Definition OTZ_SVC_VIRTUAL_KEYBOARD : Z := 6.

Definition OTZ_GLOBAL_CMD_ID_OPEN_SESSION : Z := 2.
Definition OTZ_GLOBAL_CMD_ID_CLOSE_SESSION : Z := 3.
Definition OTZ_GLOBAL_CMD_ID_REGISTER_NOTIFY_MEMORY : Z := 4.
Definition OTZ_GLOBAL_CMD_ID_UNREGISTER_NOTIFY_MEMORY : Z := 5.
Definition OTZ_GLOBAL_CMD_ID_RESUME_ASYNC_TASK : Z := 6.

Record otz_client_encode_cmd : Type := EncodeCmd {
  len : Z; data : Z; offset : Z; flags : Z; param_type : Z;
  encode_id : Z; service_id : Z; session_id : Z; cmd_id : Z;
}.
Definition set_encode_id (i : Z) (c : otz_client_encode_cmd) : otz_client_encode_cmd :=
  EncodeCmd (len c) (data c) (offset c) (flags c) (param_type c) i (service_id c) (session_id c) (cmd_id c).
Definition set_cmd_data (d : Z) (c : otz_client_encode_cmd) : otz_client_encode_cmd :=
  EncodeCmd (len c) d (offset c) (flags c) (param_type c) (encode_id c) (service_id c) (session_id c) (cmd_id c).
Definition set_cmd_len (n : Z) (c : otz_client_encode_cmd) : otz_client_encode_cmd :=
  EncodeCmd n (data c) (offset c) (flags c) (param_type c) (encode_id c) (service_id c) (session_id c) (cmd_id c).

Record ser_ses_id : Type := SerSesId { ss_service : Z; ss_session : Z }.
Record otz_session_shared_mem_info : Type := ShmInfo { si_service : Z; si_session : Z; si_user_addr : Z }.

Record otz_smc_cmd : Type := SmcCmd {
  sc_id : Z; sc_context : Z; sc_enc_id : Z; sc_src_id : Z; sc_src_context : Z;
  sc_req_buf_len : Z; sc_resp_buf_len : Z; sc_ret_resp_buf_len : Z; sc_cmd_status : Z;
  sc_req_buf_phys : Z; sc_resp_buf_phys : Z; sc_meta_data_phys : Z; sc_dev_file_id : Z;
}.
Definition set_sc_ids (i : Z) (c : otz_smc_cmd) : otz_smc_cmd :=
  SmcCmd i (sc_context c) (sc_enc_id c) i (sc_src_context c) (sc_req_buf_len c) (sc_resp_buf_len c)
    (sc_ret_resp_buf_len c) (sc_cmd_status c) (sc_req_buf_phys c) (sc_resp_buf_phys c) (sc_meta_data_phys c)
    (sc_dev_file_id c).

(** What the driver uses of the Linux kernel: 0 is [NULL], and a failed copy
    from or to the memory of the calling program has no value. *)
Class Linux (K : Type) : Type := {
  kmalloc : Z -> K -> Z * K;
  kfree : Z -> K -> K;
  get_free_pages : Z -> K -> Z * K;
  free_pages : Z -> Z -> K -> K;
  remap_pfn_range : Z -> Z -> Z -> K -> Z * K;
  virt_to_phys : Z -> Z;
  task_tgid : K -> Z;
  copy_from_user : Z -> Z -> K -> option (list Z);
  copy_to_user : Z -> list Z -> K -> option K;
  read_user32 : Z -> K -> option Z;
  write_user32 : Z -> Z -> K -> option K;
  get_encode_cmd : Z -> K -> option otz_client_encode_cmd;
  put_encode_cmd : Z -> otz_client_encode_cmd -> K -> option K;
  get_ser_ses_id : Z -> K -> option ser_ses_id;
  put_ser_ses_id : Z -> ser_ses_id -> K -> option K;
  get_shm_info : Z -> K -> option otz_session_shared_mem_info;
  uninit_meta : Z -> list otzc_encode_meta;
  sizeof_wait_queue_head : Z;
}.

Record otzc_encode : Type := Encode {
  e_id : Z;
  ker_req_data_addr : Z; ker_res_data_addr : Z;
  enc_req_offset : Z; enc_res_offset : Z;
  enc_req_pos : Z; enc_res_pos : Z; dec_res_pos : Z;
  dec_offset : Z;
  send_wait_flag : Z;
  meta : Z;
}.

Definition set_req_addr (a : Z) (c : otzc_encode) : otzc_encode :=
  Encode (e_id c) a (ker_res_data_addr c) (enc_req_offset c) (enc_res_offset c) (enc_req_pos c)
    (enc_res_pos c) (dec_res_pos c) (dec_offset c) (send_wait_flag c) (meta c).
Definition set_res_addr (a : Z) (c : otzc_encode) : otzc_encode :=
  Encode (e_id c) (ker_req_data_addr c) a (enc_req_offset c) (enc_res_offset c) (enc_req_pos c)
    (enc_res_pos c) (dec_res_pos c) (dec_offset c) (send_wait_flag c) (meta c).
(** [enc_req_offset += n; enc_req_pos++], and for the response. *)
Definition next_req (n : Z) (c : otzc_encode) : otzc_encode :=
  Encode (e_id c) (ker_req_data_addr c) (ker_res_data_addr c) (u32 (enc_req_offset c + n)) (enc_res_offset c)
    (u32 (enc_req_pos c + 1)) (enc_res_pos c) (dec_res_pos c) (dec_offset c) (send_wait_flag c) (meta c).
Definition next_res (n : Z) (c : otzc_encode) : otzc_encode :=
  Encode (e_id c) (ker_req_data_addr c) (ker_res_data_addr c) (enc_req_offset c) (u32 (enc_res_offset c + n))
    (enc_req_pos c) (u32 (enc_res_pos c + 1)) (dec_res_pos c) (dec_offset c) (send_wait_flag c) (meta c).
(** [dec_offset += n; dec_res_pos++] *)
Definition next_dec (n : Z) (c : otzc_encode) : otzc_encode :=
  Encode (e_id c) (ker_req_data_addr c) (ker_res_data_addr c) (enc_req_offset c) (enc_res_offset c)
    (enc_req_pos c) (enc_res_pos c) (u32 (dec_res_pos c + 1)) (u32 (dec_offset c + n)) (send_wait_flag c) (meta c).
Definition set_wait_flag (f : Z) (c : otzc_encode) : otzc_encode :=
  Encode (e_id c) (ker_req_data_addr c) (ker_res_data_addr c) (enc_req_offset c) (enc_res_offset c)
    (enc_req_pos c) (enc_res_pos c) (dec_res_pos c) (dec_offset c) f (meta c).

Record otzc_session : Type := Session {
  s_id : Z; encode_list : list Z; s_shared_mem_list : list Z;
}.
Record otzc_service : Type := Service { v_id : Z; sessions_list : list Z }.
Record otzc_dev_file : Type := DevFile {
  dev_file_id : Z; service_cnt : Z; services_list : list Z;
  shared_mem_cnt : Z; shared_mem_list : list Z;
}.
Record otzc_shared_mem : Type := SharedMem { index : Z; k_addr : Z; u_addr : Z; sh_len : Z }.
Record otzc_notify_data : Type := NotifyData {
  n_dev_file_id : Z; n_service_id : Z; n_client_pid : Z; n_session_id : Z; n_enc_id : Z;
}.

Definition list_remove (a : Z) (l : list Z) : list Z := filter (fun b => b <> a) l.

Definition sizeof_otzc_session : Z := 28.
Definition sizeof_otzc_service : Z := 20.
Definition sizeof_otzc_dev_file : Z := 36.
Definition sizeof_otzc_shared_mem : Z := 32.
Definition sizeof_otzc_notify_data : Z := 20.
Definition sizeof_otz_smc_cmd : Z := 52.

Section driver.
Context {K : Type} `{Linux K}.

Definition sizeof_otzc_encode : Z := 52 + sizeof_wait_queue_head.

Record dst : Type := Dst {
  kstate : K;
  dmem : mem;
  metas : gmap Z (list otzc_encode_meta);
  encs : gmap Z otzc_encode;
  sess : gmap Z otzc_session;
  svcs : gmap Z otzc_service;
  devs : gmap Z otzc_dev_file;
  shms : gmap Z otzc_shared_mem;
  dev_file_list : list Z;
  dev_file_cnt : Z;
  device_file_cnt : Z;
  notify_data : Z;
}.

Definition set_k (k : K) (s : dst) : dst :=
  Dst k (dmem s) (metas s) (encs s) (sess s) (svcs s) (devs s) (shms s) (dev_file_list s) (dev_file_cnt s)
    (device_file_cnt s) (notify_data s).
Definition set_dmem (m : mem) (s : dst) : dst :=
  Dst (kstate s) m (metas s) (encs s) (sess s) (svcs s) (devs s) (shms s) (dev_file_list s) (dev_file_cnt s)
    (device_file_cnt s) (notify_data s).
Definition set_metas (t : gmap Z (list otzc_encode_meta)) (s : dst) : dst :=
  Dst (kstate s) (dmem s) t (encs s) (sess s) (svcs s) (devs s) (shms s) (dev_file_list s) (dev_file_cnt s)
    (device_file_cnt s) (notify_data s).
Definition set_encs (e : gmap Z otzc_encode) (s : dst) : dst :=
  Dst (kstate s) (dmem s) (metas s) e (sess s) (svcs s) (devs s) (shms s) (dev_file_list s) (dev_file_cnt s)
    (device_file_cnt s) (notify_data s).
Definition set_sess (e : gmap Z otzc_session) (s : dst) : dst :=
  Dst (kstate s) (dmem s) (metas s) (encs s) e (svcs s) (devs s) (shms s) (dev_file_list s) (dev_file_cnt s)
    (device_file_cnt s) (notify_data s).
Definition set_svcs (e : gmap Z otzc_service) (s : dst) : dst :=
  Dst (kstate s) (dmem s) (metas s) (encs s) (sess s) e (devs s) (shms s) (dev_file_list s) (dev_file_cnt s)
    (device_file_cnt s) (notify_data s).
Definition set_devs (e : gmap Z otzc_dev_file) (s : dst) : dst :=
  Dst (kstate s) (dmem s) (metas s) (encs s) (sess s) (svcs s) e (shms s) (dev_file_list s) (dev_file_cnt s)
    (device_file_cnt s) (notify_data s).
Definition set_shms (e : gmap Z otzc_shared_mem) (s : dst) : dst :=
  Dst (kstate s) (dmem s) (metas s) (encs s) (sess s) (svcs s) (devs s) e (dev_file_list s) (dev_file_cnt s)
    (device_file_cnt s) (notify_data s).
Definition set_dev_list (l : list Z) (n : Z) (s : dst) : dst :=
  Dst (kstate s) (dmem s) (metas s) (encs s) (sess s) (svcs s) (devs s) (shms s) l n
    (device_file_cnt s) (notify_data s).
Definition set_device_file_cnt (n : Z) (s : dst) : dst :=
  Dst (kstate s) (dmem s) (metas s) (encs s) (sess s) (svcs s) (devs s) (shms s) (dev_file_list s) (dev_file_cnt s)
    n (notify_data s).
Definition set_notify_ptr (a : Z) (s : dst) : dst :=
  Dst (kstate s) (dmem s) (metas s) (encs s) (sess s) (svcs s) (devs s) (shms s) (dev_file_list s) (dev_file_cnt s)
    (device_file_cnt s) a.

Definition d_kmalloc (size : Z) (s : dst) : Z * dst :=
  let '(p, k) := kmalloc size (kstate s) in (p, set_k k s).
Definition d_kfree (p : Z) (s : dst) : dst := set_k (kfree p (kstate s)) s.
Definition d_kfree_if (p : Z) (s : dst) : dst := if p =? 0 then s else d_kfree p s.

Definition upd_enc (a : Z) (f : otzc_encode -> otzc_encode) (s : dst) : res dst :=
  c ← of_opt (encs s !! a); mret (set_encs (<[a := f c]> (encs s)) s).
Definition upd_meta (t pos : Z) (f : otzc_encode_meta -> otzc_encode_meta) (s : dst) : res dst :=
  l ← of_opt (metas s !! t); l ← meta_upd f pos l; mret (set_metas (<[t := l]> (metas s)) s).

(** [list_for_each_entry] with a [break] at the first match. *)
Fixpoint find_entry {A} (p : A -> bool) (store : gmap Z A) (l : list Z) : res (option Z) :=
  match l with
  | [] => mret None
  | a :: l => e ← of_opt (store !! a); if p e then mret (Some a) else find_entry p store l
  end.

Definition find_dev (dev : Z) (s : dst) : res (option Z) :=
  find_entry (fun d => dev_file_id d =? dev) (devs s) (dev_file_list s).

Definition find_service (dev svc : Z) (s : dst) : res (option Z) :=
  d ← find_dev dev s;
  match d with
  | None => mret None
  | Some d => dv ← of_opt (devs s !! d); find_entry (fun v => v_id v =? svc) (svcs s) (services_list dv)
  end.

(** The three nested loops most operations start with: the device file, the
    service and the session. *)
Definition find_session (dev svc ses : Z) (s : dst) : res (option Z) :=
  v ← find_service dev svc s;
  match v with
  | None => mret None
  | Some v => sv ← of_opt (svcs s !! v); find_entry (fun x => s_id x =? ses) (sess s) (sessions_list sv)
  end.

Definition find_encode (ses eid : Z) (s : dst) : res (option Z) :=
  if eid =? -1 then mret None else
  x ← of_opt (sess s !! ses); find_entry (fun c => e_id c =? eid) (encs s) (encode_list x).

(** The new context of a request. *)
Definition new_encode (a t : Z) : otzc_encode :=
  Encode (s32 a) 0 0 0 0 0 OTZ_MAX_REQ_PARAMS OTZ_MAX_REQ_PARAMS 0 0 t.

(** The result, the command with its [encode_id], [*penc_context], [*psession]
    and the state. *)
Definition otz_client_prepare_encode (dev : Z) (enc : otz_client_encode_cmd) (s : dst)
    : res (Z * otz_client_encode_cmd * Z * Z * dst) :=
  ses ← find_session dev (service_id enc) (session_id enc) s;
  match ses with
  | None => mret (- EINVAL, enc, 0, 0, s)
  | Some ses =>
      found ← find_encode ses (encode_id enc) s;
      match found with
      | Some ctx => mret (0, enc, ctx, ses, s)
      | None =>
          let '(ctx, s) := d_kmalloc sizeof_otzc_encode s in
          if ctx =? 0 then mret (- ENOMEM, enc, 0, 0, s) else
          let '(t, s) := d_kmalloc (sizeof_encode_meta * (OTZ_MAX_RES_PARAMS + OTZ_MAX_REQ_PARAMS)) s in
          if t =? 0 then mret (- ENOMEM, enc, 0, 0, d_kfree ctx s) else
          x ← of_opt (sess s !! ses);
          let s := set_metas (<[t := uninit_meta t]> (metas s)) s in
          let s := set_encs (<[ctx := new_encode ctx t]> (encs s)) s in
          let s := set_sess (<[ses := Session (s_id x) (encode_list x ++ [ctx]) (s_shared_mem_list x)]> (sess s)) s in
          mret (0, set_encode_id (s32 ctx) enc, ctx, ses, s)
      end
  end.

(** [copy_to_user(argp, &enc, sizeof(enc))] at the end of a handler. *)
Definition put_back (argp : Z) (enc : otz_client_encode_cmd) (ret : Z) (s : dst) : res (Z * dst) :=
  match put_encode_cmd argp enc (kstate s) with
  | None => mret (- EFAULT, s)
  | Some k => mret (ret, set_k k s)
  end.

(** The buffers of a context, allocated at their first use. *)
Definition req_buffer (ctx : Z) (s : dst) : res (bool * dst) :=
  c ← of_opt (encs s !! ctx);
  if negb (ker_req_data_addr c =? 0) then mret (true, s) else
  let '(p, s) := d_kmalloc OTZ_1K_SIZE s in
  if p =? 0 then mret (false, s) else
  s ← upd_enc ctx (set_req_addr p) (set_dmem (provide p OTZ_1K_SIZE (dmem s)) s); mret (true, s).

Definition res_buffer (ctx : Z) (s : dst) : res (bool * dst) :=
  c ← of_opt (encs s !! ctx);
  if negb (ker_res_data_addr c =? 0) then mret (true, s) else
  let '(p, s) := d_kmalloc OTZ_1K_SIZE s in
  if p =? 0 then mret (false, s) else
  s ← upd_enc ctx (set_res_addr p) (set_dmem (provide p OTZ_1K_SIZE (dmem s)) s); mret (true, s).

(** The tests before a parameter of [n] bytes is added. *)
Definition req_fits (n : Z) (c : otzc_encode) : bool :=
  (u32 (enc_req_offset c + n) <=? OTZ_1K_SIZE) && (enc_req_pos c <? OTZ_MAX_REQ_PARAMS).
Definition res_fits (n : Z) (c : otzc_encode) : bool :=
  (u32 (enc_res_offset c + n) <=? OTZ_1K_SIZE) && (enc_res_pos c <? OTZ_MAX_RES_PARAMS + OTZ_MAX_REQ_PARAMS).

Fixpoint store_bytes (a : Z) (l : list Z) (m : mem) : res mem :=
  match l with [] => mret m | v :: l => m ← store8 a v m; store_bytes (a + 1) l m end.

Definition encode_uint32_in (enc : otz_client_encode_cmd) (ctx : Z) (s : dst) : res (Z * dst) :=
  '(ok, s) ← req_buffer ctx s;
  if negb ok then mret (- ENOMEM, s) else
  c ← of_opt (encs s !! ctx);
  if req_fits 4 c then
    v ← of_opt (read_user32 (data enc) (kstate s));
    m ← store32 (ker_req_data_addr c + enc_req_offset c) v (dmem s);
    s ← upd_meta (meta c) (enc_req_pos c) (set_type_len OTZ_ENC_UINT32 4) (set_dmem m s);
    s ← upd_enc ctx (next_req 4) s;
    mret (0, s)
  else mret (- ENOMEM, s).

Definition encode_uint32_out (enc : otz_client_encode_cmd) (ctx : Z) (s : dst) : res (Z * dst) :=
  '(ok, s) ← res_buffer ctx s;
  if negb ok then mret (- ENOMEM, s) else
  c ← of_opt (encs s !! ctx);
  if res_fits 4 c then
    s ← upd_meta (meta c) (enc_res_pos c) (fun e => set_type_len OTZ_ENC_UINT32 4 (set_usr_addr (data enc) e)) s;
    s ← upd_enc ctx (next_res 4) s;
    mret (0, s)
  else mret (- ENOMEM, s).

Definition otz_client_encode_uint32 (dev argp : Z) (s : dst) : res (Z * dst) :=
  match get_encode_cmd argp (kstate s) with
  | None => mret (- EFAULT, s)
  | Some enc =>
      '(ret, enc, ctx, _, s) ← otz_client_prepare_encode dev enc s;
      if negb (ret =? 0) then mret (ret, s) else
      '(ret, s) ← (if param_type enc =? OTZC_PARAM_IN then encode_uint32_in enc ctx s
                   else if param_type enc =? OTZC_PARAM_OUT then encode_uint32_out enc ctx s
                   else mret (0, s));
      put_back argp enc ret s
  end.

Definition encode_array_in (enc : otz_client_encode_cmd) (ctx : Z) (s : dst) : res (Z * dst) :=
  '(ok, s) ← req_buffer ctx s;
  if negb ok then mret (- ENOMEM, s) else
  c ← of_opt (encs s !! ctx);
  if req_fits (len enc) c then
    match copy_from_user (data enc) (len enc) (kstate s) with
    | None => mret (- EFAULT, s)
    | Some l =>
        m ← store_bytes (ker_req_data_addr c + enc_req_offset c) l (dmem s);
        s ← upd_meta (meta c) (enc_req_pos c) (set_type_len OTZ_ENC_ARRAY (s32 (len enc))) (set_dmem m s);
        s ← upd_enc ctx (next_req (len enc)) s;
        mret (0, s)
    end
  else mret (- ENOMEM, s).

Definition encode_array_out (enc : otz_client_encode_cmd) (ctx : Z) (s : dst) : res (Z * dst) :=
  '(ok, s) ← res_buffer ctx s;
  if negb ok then mret (- ENOMEM, s) else
  c ← of_opt (encs s !! ctx);
  if res_fits (len enc) c then
    s ← upd_meta (meta c) (enc_res_pos c)
          (fun e => set_type_len OTZ_ENC_ARRAY (s32 (len enc)) (set_usr_addr (data enc) e)) s;
    s ← upd_enc ctx (next_res (len enc)) s;
    mret (0, s)
  else mret (- ENOMEM, s).

Definition otz_client_encode_array (dev argp : Z) (s : dst) : res (Z * dst) :=
  match get_encode_cmd argp (kstate s) with
  | None => mret (- EFAULT, s)
  | Some enc =>
      '(ret, enc, ctx, _, s) ← otz_client_prepare_encode dev enc s;
      if negb (ret =? 0) then mret (ret, s) else
      '(ret, s) ← (if param_type enc =? OTZC_PARAM_IN then encode_array_in enc ctx s
                   else if param_type enc =? OTZC_PARAM_OUT then encode_array_out enc ctx s
                   else mret (0, s));
      put_back argp enc ret s
  end.

(** The shared memory of a session, or else of its device file; without such a
    device file [temp_dev_file] is the head of the list, which is no entry. *)
Definition find_shared_mem (dev ses d : Z) (s : dst) : res (option Z) :=
  x ← of_opt (sess s !! ses);
  sh ← find_entry (fun h => index h =? d) (shms s) (s_shared_mem_list x);
  match sh with
  | Some sh => mret (Some sh)
  | None =>
      dv ← find_dev dev s;
      dv ← of_opt dv; dv ← of_opt (devs s !! dv);
      find_entry (fun h => index h =? d) (shms s) (shared_mem_list dv)
  end.

Definition encode_mem_ref_in (enc : otz_client_encode_cmd) (ctx : Z) (h : otzc_shared_mem) (s : dst)
    : res (Z * dst) :=
  '(ok, s) ← req_buffer ctx s;
  if negb ok then mret (- ENOMEM, s) else
  c ← of_opt (encs s !! ctx);
  if req_fits 4 c then
    m ← store32 (ker_req_data_addr c + 4 * enc_req_offset c) (virt_to_phys (k_addr h + offset enc)) (dmem s);
    s ← upd_meta (meta c) (enc_req_pos c)
          (fun e => set_type_len OTZ_MEM_REF (s32 (len enc)) (set_usr_addr (u32 (u_addr h + offset enc)) e))
          (set_dmem m s);
    s ← upd_enc ctx (next_req 4) s;
    mret (0, s)
  else mret (- ENOMEM, s).

Definition encode_mem_ref_out (enc : otz_client_encode_cmd) (ctx : Z) (h : otzc_shared_mem) (s : dst)
    : res (Z * dst) :=
  '(ok, s) ← res_buffer ctx s;
  if negb ok then mret (- ENOMEM, s) else
  c ← of_opt (encs s !! ctx);
  if res_fits 4 c then
    m ← store32 (ker_res_data_addr c + 4 * enc_res_offset c) (virt_to_phys (k_addr h + offset enc)) (dmem s);
    s ← upd_meta (meta c) (enc_res_pos c)
          (fun e => set_type_len OTZ_MEM_REF (s32 (len enc)) (set_usr_addr (u32 (u_addr h + offset enc)) e))
          (set_dmem m s);
    s ← upd_enc ctx (next_res 4) s;
    mret (0, s)
  else mret (- ENOMEM, s).

Definition otz_client_encode_mem_ref (dev argp : Z) (s : dst) : res (Z * dst) :=
  match get_encode_cmd argp (kstate s) with
  | None => mret (- EFAULT, s)
  | Some enc =>
      '(ret, enc, ctx, ses, s) ← otz_client_prepare_encode dev enc s;
      if negb (ret =? 0) then mret (ret, s) else
      sh ← find_shared_mem dev ses (data enc) s;
      match sh with
      | None => mret (- EINVAL, s)
      | Some sh =>
          h ← of_opt (shms s !! sh);
          '(ret, s) ← (if param_type enc =? OTZC_PARAM_IN then encode_mem_ref_in enc ctx h s
                       else if param_type enc =? OTZC_PARAM_OUT then encode_mem_ref_out enc ctx h s
                       else mret (0, s));
          put_back argp enc ret s
      end
  end.
(** ** Decoding the response *)

Definition otz_client_prepare_decode (dev : Z) (dec : otz_client_encode_cmd) (s : dst) : res (Z * Z) :=
  ses ← find_session dev (service_id dec) (session_id dec) s;
  match ses with
  | None => mret (- EINVAL, 0)
  | Some ses =>
      found ← find_encode ses (encode_id dec) s;
      match found with None => mret (- EINVAL, 0) | Some ctx => mret (0, ctx) end
  end.

(** [dec_res_pos <= enc_res_pos], and the entry at [dec_res_pos] when it holds. *)
Definition dec_entry (c : otzc_encode) (s : dst) : res (option otzc_encode_meta) :=
  if dec_res_pos c <=? enc_res_pos c then
    t ← of_opt (metas s !! meta c); e ← meta_get t (dec_res_pos c); mret (Some e)
  else mret None.

(** The decoding of one value into the memory of the client: the result, the
    command as it goes back and the state. *)
Definition decode_uint32_value (dec : otz_client_encode_cmd) (ctx : Z) (s : dst)
    : res (Z * otz_client_encode_cmd * dst) :=
  c ← of_opt (encs s !! ctx);
  e ← dec_entry c s;
  match e with
  | Some e =>
      if m_type e =? OTZ_ENC_UINT32 then
        let dec := if m_usr_addr e =? 0 then dec else set_cmd_data (m_usr_addr e) dec in
        v ← load32 (ker_res_data_addr c + dec_offset c) (dmem s);
        k ← of_opt (write_user32 (data dec) v (kstate s));
        s ← upd_enc ctx (next_dec 4) (set_k k s);
        mret (0, dec, s)
      else mret (0, dec, s)
  | None => mret (0, dec, s)
  end.

Definition decode_array_value (dec : otz_client_encode_cmd) (ctx : Z) (s : dst)
    : res (Z * otz_client_encode_cmd * dst) :=
  c ← of_opt (encs s !! ctx);
  e ← dec_entry c s;
  match e with
  | None => mret (- EINVAL, dec, s)
  | Some e =>
      if m_type e =? OTZ_ENC_ARRAY then
        if m_len e >=? m_ret_len e then
          let dec := if m_usr_addr e =? 0 then dec else set_cmd_data (m_usr_addr e) dec in
          l ← of_opt (read_bytes (Z.to_nat (u32 (m_ret_len e))) (ker_res_data_addr c + dec_offset c) (dmem s));
          match copy_to_user (data dec) l (kstate s) with
          | None => mret (- EFAULT, dec, s)
          | Some k =>
              s ← upd_enc ctx (next_dec (m_len e)) (set_k k s);
              mret (0, set_cmd_len (u32 (m_ret_len e)) dec, s)
          end
        else mret (- EFAULT, dec, s)
      else if m_type e =? OTZ_MEM_REF then
        if m_len e >=? m_ret_len e then
          s ← upd_enc ctx (next_dec 4) s;
          mret (0, set_cmd_len (u32 (m_ret_len e)) (set_cmd_data (m_usr_addr e) dec), s)
        else mret (- EFAULT, dec, s)
      else mret (- EINVAL, dec, s)
  end.

Definition otz_client_decode_uint32 (dev argp : Z) (s : dst) : res (Z * dst) :=
  match get_encode_cmd argp (kstate s) with
  | None => mret (- EFAULT, s)
  | Some dec =>
      '(ret, ctx) ← otz_client_prepare_decode dev dec s;
      if negb (ret =? 0) then mret (ret, s) else
      '(ret, dec, s) ← decode_uint32_value dec ctx s;
      put_back argp dec ret s
  end.

Definition otz_client_decode_array_space (dev argp : Z) (s : dst) : res (Z * dst) :=
  match get_encode_cmd argp (kstate s) with
  | None => mret (- EFAULT, s)
  | Some dec =>
      '(ret, ctx) ← otz_client_prepare_decode dev dec s;
      if negb (ret =? 0) then mret (ret, s) else
      '(ret, dec, s) ← decode_array_value dec ctx s;
      if negb (ret =? 0) then mret (ret, s) else put_back argp dec ret s
  end.

Definition otz_client_get_decode_type (dev argp : Z) (s : dst) : res (Z * dst) :=
  match get_encode_cmd argp (kstate s) with
  | None => mret (- EFAULT, s)
  | Some dec =>
      '(ret, ctx) ← otz_client_prepare_decode dev dec s;
      if negb (ret =? 0) then mret (ret, s) else
      c ← of_opt (encs s !! ctx);
      e ← dec_entry c s;
      match e with
      | None => mret (- EINVAL, s)
      | Some e => put_back argp (set_cmd_data (m_type e) dec) 0 s
      end
  end.

(** A context leaves its session's list and is freed with its buffers. *)
Definition otz_client_operation_release (dev argp : Z) (s : dst) : res (Z * dst) :=
  match get_encode_cmd argp (kstate s) with
  | None => mret (- EFAULT, s)
  | Some enc =>
      ses ← find_session dev (service_id enc) (session_id enc) s;
      match ses with
      | None => mret (- EINVAL, s)
      | Some ses =>
          found ← find_encode ses (encode_id enc) s;
          match found with
          | None => mret (0, s)
          | Some ctx =>
              c ← of_opt (encs s !! ctx);
              x ← of_opt (sess s !! ses);
              let s := d_kfree_if (ker_res_data_addr c) (d_kfree_if (ker_req_data_addr c) s) in
              let s := set_sess (<[ses := Session (s_id x) (list_remove ctx (encode_list x)) (s_shared_mem_list x)]> (sess s)) s in
              let s := set_metas (delete (meta c) (metas s)) (d_kfree (meta c) s) in
              mret (0, set_encs (delete ctx (encs s)) (d_kfree ctx s))
          end
      end
  end.

(** ** Calls of the secure world

    [otz_smc] executes the command at a physical address: it returns the
    result, the command as the secure world leaves it, and the state with
    whatever it wrote to the buffers.  [wait_event] is what happens until a
    context's wait flag is set; it tells whether a signal ended the wait. *)
Context (otz_smc : otz_smc_cmd -> dst -> res (Z * otz_smc_cmd * dst)).
Context (wait_event : Z -> dst -> res (bool * dst)).

Definition phys (p : Z) : Z := if p =? 0 then 0 else virt_to_phys p.

Definition command (svc cmd : Z) : Z := Z.lor (u32 (Z.shiftl svc 10)) cmd.

(** The result, the length of the response and the state; [wq] is the context
    whose wait queue is given. *)
Definition otz_smc_call (dev svc cmd context eid cmd_buf cmd_len resp_buf resp_len meta_data : Z)
    (wq : option Z) (s : dst) : res (Z * Z * dst) :=
  let '(p, s) := d_kmalloc sizeof_otz_smc_cmd s in
  if p =? 0 then mret (- ENOMEM, 0, s) else
  let id := command svc cmd in
  let smc_cmd := SmcCmd id context eid id (task_tgid (kstate s)) cmd_len resp_len 0 0
                   (phys cmd_buf) (phys resp_buf) (phys meta_data) dev in
  let out ret len s := mret (ret, len, d_kfree p s) in
  '(ret, smc_cmd, s) ← otz_smc smc_cmd s;
  '(stop, ret, smc_cmd, s) ←
    (if ret =? SMC_PENDING then
       '(sig, s) ← (match wq with
                    | None => mret (false, s)
                    | Some ctx =>
                        '(sig, s) ← wait_event ctx s;
                        if sig : bool then mret (true, s)
                        else s ← upd_enc ctx (set_wait_flag 0) s; mret (false, s)
                    end);
       if sig : bool then mret (true, - ERESTARTSYS, smc_cmd, s) else
       '(ret, smc_cmd, s) ← otz_smc (set_sc_ids (command OTZ_SVC_GLOBAL OTZ_GLOBAL_CMD_ID_RESUME_ASYNC_TASK) smc_cmd) s;
       mret (false, ret, smc_cmd, s)
     else mret (false, ret, smc_cmd, s));
  if stop : bool then out ret 0 s else
  if negb (ret =? 0) then out ret 0 s else out ret (sc_ret_resp_buf_len smc_cmd) s.

(** The loop over the sessions of [otz_client_send_cmd] and
    [ipi_secure_notify]: its last statement leaves it after the first one. *)
Definition first_session (dev svc : Z) (s : dst) : res (option Z) :=
  v ← find_service dev svc s;
  match v with
  | None => mret None
  | Some v => sv ← of_opt (svcs s !! v); mret (head (sessions_list sv))
  end.

Definition otz_client_send_cmd (dev argp : Z) (s : dst) : res (Z * dst) :=
  match get_encode_cmd argp (kstate s) with
  | None => mret (- EFAULT, s)
  | Some enc =>
      ses ← first_session dev (service_id enc) s;
      '(found, enc, ctx, s) ←
        (match ses with
         | None => mret (false, enc, 0, s)
         | Some ses =>
             x ← of_opt (sess s !! ses);
             if negb (s_id x =? session_id enc) then mret (false, enc, 0, s) else
             if negb (encode_id enc =? -1) then
               c ← find_encode ses (encode_id enc) s;
               match c with Some c => mret (true, enc, c, s) | None => mret (false, enc, 0, s) end
             else
               '(ret, enc, ctx, _, s) ← otz_client_prepare_encode dev enc s;
               mret (ret =? 0, enc, ctx, s)
         end);
      if negb (found : bool) then mret (- EINVAL, s) else
      c ← of_opt (encs s !! ctx);
      '(ret, _, s) ← otz_smc_call dev (service_id enc) (cmd_id enc) (session_id enc) (encode_id enc)
                       (ker_req_data_addr c) (enc_req_offset c) (ker_res_data_addr c) (enc_res_offset c)
                       (meta c) (Some ctx) s;
      if negb (ret =? SMC_SUCCESS) then mret (ret, s) else put_back argp enc ret s
  end.

Definition ipi_secure_notify (n : option otzc_notify_data) (s : dst) : res dst :=
  match n with
  | None => mret s
  | Some n =>
      ses ← first_session (n_dev_file_id n) (n_service_id n) s;
      match ses with
      | None => mret s
      | Some ses =>
          x ← of_opt (sess s !! ses);
          if negb (s_id x =? n_session_id n) then mret s else
          c ← find_entry (fun c => e_id c =? n_enc_id n) (encs s) (encode_list x);
          match c with None => mret s | Some c => upd_enc c (set_wait_flag 1) s end
      end
  end.
(** ** Sessions *)

(** Passing the address of a word: its value is there for the secure world.
    A session and a service keep their identifiers behind a [list_head]; the
    command of [otz_client_session_open] is a variable on the stack. *)
Definition expose (p v : Z) (s : dst) : res dst :=
  m ← store32 p (u32 v) (provide p 4 (dmem s)); mret (set_dmem m s).
Definition id_field (a : Z) : Z := a + 8.

(** [free_pages] of a shared memory and [kfree] of its record. *)
Definition page_round (n : Z) : Z := Z.land (u32 (n + 4095)) (Z.lnot 4095).
Definition free_shared_mem (h : Z) (s : dst) : res dst :=
  sh ← of_opt (shms s !! h);
  let s := if k_addr sh =? 0 then s
           else set_k (free_pages (k_addr sh) (page_round (sh_len sh)) (kstate s)) s in
  mret (set_shms (delete h (shms s)) (d_kfree h s)).

Fixpoint free_each (free : Z -> dst -> res dst) (l : list Z) (s : dst) : res dst :=
  match l with [] => mret s | a :: l => s ← free a s; free_each free l s end.

(** An encoder context that is freed with its session keeps its buffers. *)
Definition free_encode (ctx : Z) (s : dst) : res dst :=
  _ ← of_opt (encs s !! ctx); mret (set_encs (delete ctx (encs s)) (d_kfree ctx s)).

Definition otz_client_close_session_for_service (dev svc ses : Z) (s : dst) : res dst :=
  if (svc =? 0) || (ses =? 0) then mret s else
  v ← of_opt (svcs s !! svc);
  x ← of_opt (sess s !! ses);
  s ← expose (id_field svc) (v_id v) s;
  s ← expose (id_field ses) (s_id x) s;
  '(_, _, s) ← otz_smc_call dev OTZ_SVC_GLOBAL OTZ_GLOBAL_CMD_ID_CLOSE_SESSION 0 0 (id_field svc) 4
                 (id_field ses) 4 0 None s;
  v ← of_opt (svcs s !! svc);
  x ← of_opt (sess s !! ses);
  let s := set_svcs (<[svc := Service (v_id v) (list_remove ses (sessions_list v))]> (svcs s)) s in
  s ← free_each free_encode (encode_list x) s;
  s ← free_each free_shared_mem (s_shared_mem_list x) s;
  mret (set_sess (delete ses (sess s)) (d_kfree ses s)).

(** On failure the services that are there are freed. *)
Definition free_service (v : Z) (s : dst) : res dst :=
  _ ← of_opt (svcs s !! v); mret (set_svcs (delete v (svcs s)) (d_kfree v s)).

Definition otz_client_service_init (d svc : Z) (s : dst) : res (Z * dst) :=
  let '(p, s) := d_kmalloc sizeof_otzc_service s in
  dv ← of_opt (devs s !! d);
  if p =? 0 then
    let s := set_devs (<[d := DevFile (dev_file_id dv) (service_cnt dv) [] (shared_mem_cnt dv) (shared_mem_list dv)]> (devs s)) s in
    s ← free_each free_service (services_list dv) s;
    mret (- ENOMEM, s)
  else
    let dv := DevFile (dev_file_id dv) (u32 (service_cnt dv + 1)) (p :: services_list dv)
                (shared_mem_cnt dv) (shared_mem_list dv) in
    mret (0, set_devs (<[d := dv]> (devs s)) (set_svcs (<[p := Service svc []]> (svcs s)) s)).

(** The services a new device file gets, until one fails. *)
Fixpoint init_services (d : Z) (l : list Z) (s : dst) : res (Z * dst) :=
  match l with
  | [] => mret (0, s)
  | svc :: l =>
      '(ret, s) ← otz_client_service_init d svc s;
      if negb (ret =? 0) then mret (ret, s) else init_services d l s
  end.

Definition otz_client_session_open (stack dev argp : Z) (s : dst) : res (Z * dst) :=
  match get_ser_ses_id argp (kstate s) with
  | None => mret (- EFAULT, s)
  | Some ses_open =>
      v ← find_service dev (ss_service ses_open) s;
      match v with
      | None => mret (- EINVAL, s)
      | Some v =>
          let '(p, s) := d_kmalloc sizeof_otzc_session s in
          if p =? 0 then mret (- ENOMEM, s) else
          s ← expose stack (ss_service ses_open) s;
          let s := set_dmem (provide (id_field p) 4 (dmem s)) s in
          '(ret, _, s) ← otz_smc_call dev OTZ_SVC_GLOBAL OTZ_GLOBAL_CMD_ID_OPEN_SESSION 0 0 stack 4
                           (id_field p) 4 0 None s;
          if negb (ret =? SMC_SUCCESS) then mret (ret, d_kfree p s) else
          id ← load32 (id_field p) (dmem s);
          if s32 id =? -1 then mret (- EINVAL, d_kfree p s) else
          sv ← of_opt (svcs s !! v);
          let s1 := set_svcs (<[v := Service (v_id sv) (sessions_list sv ++ [p])]> (svcs s))
                      (set_sess (<[p := Session (s32 id) [] []]> (sess s)) s) in
          match put_ser_ses_id argp (SerSesId (ss_service ses_open) (s32 id)) (kstate s1) with
          | None => mret (- EFAULT, d_kfree p s)
          | Some k => mret (0, set_k k s1)
          end
      end
  end.

Definition otz_client_session_close (dev argp : Z) (s : dst) : res (Z * dst) :=
  match get_ser_ses_id argp (kstate s) with
  | None => mret (- EFAULT, s)
  | Some c =>
      v ← find_service dev (ss_service c) s;
      ses ← find_session dev (ss_service c) (ss_session c) s;
      match v, ses with
      | Some v, Some ses => s ← otz_client_close_session_for_service dev v ses s; mret (0, s)
      | _, _ => mret (0, s)
      end
  end.

(** ** Device files *)

Fixpoint close_sessions (dev v : Z) (l : list Z) (s : dst) : res dst :=
  match l with
  | [] => mret s
  | x :: l => s ← otz_client_close_session_for_service dev v x s; close_sessions dev v l s
  end.

(** Every service: its sessions are closed, then it is freed. *)
Fixpoint exit_services (dev d : Z) (l : list Z) (s : dst) : res dst :=
  match l with
  | [] => mret s
  | v :: l =>
      sv ← of_opt (svcs s !! v);
      s ← close_sessions dev v (sessions_list sv) s;
      s ← free_service v s;
      exit_services dev d l s
  end.

Definition otz_client_service_exit (dev : Z) (s : dst) : res (Z * dst) :=
  d ← find_dev dev s;
  match d with
  | None => mret (0, s)
  | Some d =>
      dv ← of_opt (devs s !! d);
      s ← free_each free_shared_mem (shared_mem_list dv) s;
      s ← exit_services dev d (services_list dv) s;
      let s := set_dev_list (list_remove d (dev_file_list s)) (dev_file_cnt s) s in
      mret (0, set_devs (delete d (devs s)) (d_kfree d s))
  end.

(** The result, the [private_data] of the file and the state. *)
Definition otz_client_open (s : dst) : res (Z * Z * dst) :=
  let dev := u32 (device_file_cnt s + 1) in
  let s := set_device_file_cnt dev s in
  let '(d, s) := d_kmalloc sizeof_otzc_dev_file s in
  if d =? 0 then mret (- ENOMEM, dev, s) else
  let s := set_devs (<[d := DevFile dev 0 [] 0 []]> (devs s)) s in
  let s := set_dev_list (d :: dev_file_list s) (u32 (dev_file_cnt s + 1)) s in
  '(ret, s) ← init_services d [OTZ_SVC_GLOBAL; OTZ_SVC_ECHO; OTZ_SVC_CRYPT; OTZ_SVC_MUTEX_TEST;
                               OTZ_SVC_VIRTUAL_KEYBOARD; OTZ_SVC_DRM] s;
  if negb (ret =? 0) then mret (ret, dev, s) else
  let '(n, s) := if notify_data s =? 0
                 then let '(n, s) := d_kmalloc sizeof_otzc_notify_data s in (n, set_notify_ptr n s)
                 else (notify_data s, s) in
  if n =? 0 then mret (- ENOMEM, dev, s) else
  '(ret, _, s) ← otz_smc_call dev OTZ_SVC_GLOBAL OTZ_GLOBAL_CMD_ID_REGISTER_NOTIFY_MEMORY 0 0 n
                   sizeof_otzc_notify_data 0 0 0 None s;
  mret (ret, dev, s).

Definition otz_client_release (dev : Z) (s : dst) : res (Z * dst) :=
  '(_, _, s) ← otz_smc_call dev OTZ_SVC_GLOBAL OTZ_GLOBAL_CMD_ID_UNREGISTER_NOTIFY_MEMORY 0 0 0 0 0 0 0 None s;
  '(_, s) ← otz_client_service_exit dev s;
  mret (0, match dev_file_list s with
           | [] => set_notify_ptr 0 (d_kfree (notify_data s) s)
           | _ => s
           end).

(** ** Shared memory *)

Definition PAGE_SHIFT : Z := 12.

(** A file that is not on the list makes [temp_dev_file] the list's head. *)
Definition otz_client_mmap (dev vm_start vm_end : Z) (s : dst) : res (Z * dst) :=
  let length := vm_end - vm_start in
  let '(a, k) := get_free_pages (page_round length) (kstate s) in
  let s := set_k k s in
  if a =? 0 then mret (- ENOMEM, s) else
  let '(r, k) := remap_pfn_range vm_start (Z.shiftr (virt_to_phys a) PAGE_SHIFT) length (kstate s) in
  let s := set_k k s in
  if negb (r =? 0) then mret (- EAGAIN, s) else
  let '(h, s) := d_kmalloc sizeof_otzc_shared_mem s in
  if h =? 0 then mret (- ENOMEM, s) else
  let s := set_shms (<[h := SharedMem vm_start a vm_start length]> (shms s)) s in
  d ← find_dev dev s; d ← of_opt d; dv ← of_opt (devs s !! d);
  let dv := DevFile (dev_file_id dv) (service_cnt dv) (services_list dv) (s32 (shared_mem_cnt dv + 1))
              (shared_mem_list dv ++ [h]) in
  mret (0, set_devs (<[d := dv]> (devs s)) s).

(** The memory moves from the device file to the session. *)
Definition otz_client_shared_mem_alloc (dev argp : Z) (s : dst) : res (Z * dst) :=
  match get_shm_info argp (kstate s) with
  | None => mret (- EFAULT, s)
  | Some i =>
      ses ← find_session dev (si_service i) (si_session i) s;
      match ses with
      | None => mret (- EINVAL, s)
      | Some ses =>
          d ← find_dev dev s; d ← of_opt d; dv ← of_opt (devs s !! d);
          h ← find_entry (fun h => index h =? si_user_addr i) (shms s) (shared_mem_list dv);
          match h with
          | None => mret (0, s)
          | Some h =>
              let dv := DevFile (dev_file_id dv) (service_cnt dv) (services_list dv) (s32 (shared_mem_cnt dv - 1))
                          (list_remove h (shared_mem_list dv)) in
              x ← of_opt (sess s !! ses);
              let s := set_devs (<[d := dv]> (devs s)) s in
              mret (0, set_sess (<[ses := Session (s_id x) (encode_list x) (s_shared_mem_list x ++ [h])]> (sess s)) s)
          end
      end
  end.

Definition otz_client_shared_mem_free (dev argp : Z) (s : dst) : res (Z * dst) :=
  match get_shm_info argp (kstate s) with
  | None => mret (- EFAULT, s)
  | Some i =>
      ses ← find_session dev (si_service i) (si_session i) s;
      match ses with
      | None => mret (- EINVAL, s)
      | Some ses =>
          x ← of_opt (sess s !! ses);
          h ← find_entry (fun h => index h =? si_user_addr i) (shms s) (s_shared_mem_list x);
          match h with
          | None => mret (0, s)
          | Some h =>
              let s := set_sess (<[ses := Session (s_id x) (encode_list x) (list_remove h (s_shared_mem_list x))]> (sess s)) s in
              s ← free_shared_mem h s; mret (0, s)
          end
      end
  end.

(** ** The operations of the device *)

Inductive ioctl_cmd : Type :=
  | SEND_CMD_REQ | SES_OPEN_REQ | SES_CLOSE_REQ | SHR_MEM_FREE_REQ | ENC_UINT32 | ENC_ARRAY
  | ENC_ARRAY_SPACE | ENC_MEM_REF | DEC_UINT32 | DEC_ARRAY_SPACE | OPERATION_RELEASE
  | SHR_MEM_ALLOCATE_REQ | GET_DECODE_TYPE | UNKNOWN_REQ.

Definition otz_client_ioctl (stack dev : Z) (cmd : ioctl_cmd) (argp : Z) (s : dst) : res (Z * dst) :=
  match cmd with
  | SEND_CMD_REQ => otz_client_send_cmd dev argp s
  | ENC_UINT32 => otz_client_encode_uint32 dev argp s
  | DEC_UINT32 => otz_client_decode_uint32 dev argp s
  | ENC_ARRAY => otz_client_encode_array dev argp s
  | DEC_ARRAY_SPACE => otz_client_decode_array_space dev argp s
  | ENC_MEM_REF => otz_client_encode_mem_ref dev argp s
  | ENC_ARRAY_SPACE => otz_client_encode_mem_ref dev argp s
  | GET_DECODE_TYPE => otz_client_get_decode_type dev argp s
  | SES_OPEN_REQ => otz_client_session_open stack dev argp s
  | SES_CLOSE_REQ => otz_client_session_close dev argp s
  | SHR_MEM_ALLOCATE_REQ => otz_client_shared_mem_alloc dev argp s
  | SHR_MEM_FREE_REQ => otz_client_shared_mem_free dev argp s
  | OPERATION_RELEASE => otz_client_operation_release dev argp s
  | UNKNOWN_REQ => mret (- EINVAL, s)
  end.
End driver.
Arguments dst : clear implicits.

(** ** A reference kernel

    A small implementation of the interface, for concrete runs: memory is
    handed out in increasing addresses and never runs out, the client's memory
    is a map of bytes, and physical addresses are virtual ones. *)
Record ref_kernel : Type := RefKernel {
  rk_next : Z; rk_user : mem; rk_cmds : gmap Z otz_client_encode_cmd; rk_ids : gmap Z ser_ses_id;
}.

Definition ref_alloc (size : Z) (k : ref_kernel) : Z * ref_kernel :=
  (rk_next k, RefKernel (rk_next k + Z.max 4 size) (rk_user k) (rk_cmds k) (rk_ids k)).
Definition ref_user (m : mem) (k : ref_kernel) : ref_kernel := RefKernel (rk_next k) m (rk_cmds k) (rk_ids k).

#[export] Instance ref_linux : Linux ref_kernel := {
  kmalloc := ref_alloc;
  kfree _ k := k;
  get_free_pages := ref_alloc;
  free_pages _ _ k := k;
  remap_pfn_range _ _ _ k := (0, k);
  virt_to_phys a := a;
  task_tgid _ := 1;
  copy_from_user a n k := if (0 <=? n) && (n <=? 4096) then read_bytes (Z.to_nat n) a (rk_user k) else None;
  copy_to_user a l k := Some (ref_user (write_bytes a l (rk_user k)) k);
  read_user32 a k := match load32 a (rk_user k) with Ret v => Some v | _ => None end;
  write_user32 a v k := Some (ref_user (write_bytes a (le32 v) (rk_user k)) k);
  get_encode_cmd a k := rk_cmds k !! a;
  put_encode_cmd a c k := Some (RefKernel (rk_next k) (rk_user k) (<[a := c]> (rk_cmds k)) (rk_ids k));
  get_ser_ses_id a k := rk_ids k !! a;
  put_ser_ses_id a c k := Some (RefKernel (rk_next k) (rk_user k) (rk_cmds k) (<[a := c]> (rk_ids k)));
  get_shm_info _ _ := None;
  uninit_meta _ := replicate 16 (EncMeta 0 0 0 0);
  sizeof_wait_queue_head := 12;
}.
