(* ===== verification/Request.v ===== *)
(** The parameters of a request on their way from a client program to a
    service: what the driver ([Driver]) encodes against what [decode_data]
    ([Encode]) finds in the shared buffer. *)
From stdpp Require Import prelude gmap.
From S2P Require Import Prelude HeapIface PageTable MemFn Words Encode Driver.
#[local] Open Scope Z_scope.

(** ** The abstract request *)

Inductive param : Type :=
  | PUint (v : Z)
  | PArr (l : list Z)
  | PRef (pa n : Z).

Definition ptype (p : param) : Z :=
  match p with PUint _ => OTZ_ENC_UINT32 | PArr _ => OTZ_ENC_ARRAY | PRef _ _ => OTZ_MEM_REF end.
Definition plen (p : param) : Z :=
  match p with PUint _ => 4 | PArr l => Z.of_nat (length l) | PRef _ n => n end.

(** By how much a parameter advances the offset, and where its bytes go: the
    words of references are counted from the start of the buffer, not bytes. *)
Definition padvance (p : param) : Z := match p with PArr l => Z.of_nat (length l) | _ => 4 end.
Definition pslot (off : Z) (p : param) : Z * list Z :=
  match p with PUint v => (off, le32 v) | PArr l => (off, l) | PRef pa _ => (4 * off, le32 pa) end.

Fixpoint total (ps : list param) : Z := match ps with [] => 0 | p :: ps => padvance p + total ps end.
Fixpoint slots (off : Z) (ps : list param) : list (Z * list Z) :=
  match ps with [] => [] | p :: ps => pslot off p :: slots (off + padvance p) ps end.

Definition slot_end (x : Z * list Z) : Z := fst x + Z.of_nat (length (snd x)).
Definition apart (x y : Z * list Z) : bool := (slot_end x <=? fst y) || (slot_end y <=? fst x).
Fixpoint all_apart (l : list (Z * list Z)) : bool :=
  match l with [] => true | x :: l => forallb (apart x) l && all_apart l end.

(** The parameters have room in the buffer and do not overlap there. *)
Definition layout_ok (ps : list param) : bool :=
  (Z.of_nat (length ps) <=? OTZ_MAX_REQ_PARAMS) && (total ps <=? OTZ_1K_SIZE)
  && forallb (fun x => slot_end x <=? OTZ_1K_SIZE) (slots 0 ps) && all_apart (slots 0 ps).

Definition param_ok (p : param) : Prop :=
  match p with PUint v => in_u32 v | PArr l => Forall is_byte l | PRef pa n => in_u32 pa end.

(** What a service makes of a parameter. *)
Inductive value : Type :=
  | VInt (v : Z)
  | VBytes (l : list Z)
  | VRef (a n : Z).

Section receive.
Context {P : Type} `{NsMemory P}.

Definition read_value (o : dec_out) (m : mem) : res value :=
  if d_type o =? OTZ_ENC_UINT32 then v ← load32 (d_data o) m; mret (VInt v)
  else if d_type o =? OTZ_ENC_ARRAY then
    l ← of_opt (read_bytes (Z.to_nat (d_len o)) (d_data o) m); mret (VBytes l)
  else mret (VRef (d_data o) (d_len o)).

(** A service decodes its [n] parameters; none when decoding fails. *)
Fixpoint receive (n : nat) (data : Z) (meta : list otzc_encode_meta) (o : dec_out) (m : mem) (st : P)
    : res (option (list value) * P) :=
  match n with
  | O => mret (Some [], st)
  | S n =>
      '(r, o, st) ← decode_data data meta o m st;
      if negb (r =? 0) then mret (None, st) else
      v ← read_value o m;
      '(vs, st) ← receive n data meta o m st;
      mret (cons v <$> vs, st)
  end.

(** The contract: the values that were sent, where the memory of references
    is made accessible in their order. *)
Fixpoint delivered (ps : list param) (st : P) : res (option (list value) * P) :=
  match ps with
  | [] => mret (Some [], st)
  | p :: ps =>
      '(v, st) ← (match p with
                  | PUint v => mret (Some (VInt v), st)
                  | PArr l => mret (Some (VBytes l), st)
                  | PRef pa n => '(r, _, st) ← ns_map pa st; mret (if r =? 0 then Some (VRef pa n) else None, st)
                  end);
      match v with
      | None => mret (None, st)
      | Some v => '(vs, st) ← delivered ps st; mret (cons v <$> vs, st)
      end
  end.
End receive.

(** ** Slots *)

Lemma total_app ps qs : total (ps ++ qs) = total ps + total qs.
Proof. induction ps as [|p ps IH]; cbn; [done|]. rewrite IH. lia. Qed.

Lemma total_nonneg ps : 0 <= total ps.
Proof. induction ps as [|[] ps IH]; cbn; lia. Qed.

Lemma slots_app off ps qs : slots off (ps ++ qs) = slots off ps ++ slots (off + total ps) qs.
Proof.
  revert off. induction ps as [|p ps IH]; intros off; cbn; [by rewrite Z.add_0_r|].
  by rewrite IH, Z.add_assoc.
Qed.

Lemma slots_start off ps x : 0 <= off -> x ∈ slots off ps -> 0 <= fst x.
Proof.
  revert off. induction ps as [|p ps IH]; intros off Ho; cbn; [by intros ?%elem_of_nil|].
  intros [->|Hx]%elem_of_cons; [destruct p; cbn; lia|]. apply (IH (off + padvance p)); [destruct p; cbn; lia|done].
Qed.

Lemma all_apart_app l1 l2 : all_apart (l1 ++ l2) = true ->
  all_apart l1 = true /\ all_apart l2 = true /\ forall x y, x ∈ l1 -> y ∈ l2 -> apart x y = true.
Proof.
  induction l1 as [|z l1 IH]; cbn; [intros ->; split; [done|]; split; [done|]; by intros x y ?%elem_of_nil|].
  rewrite forallb_app, !andb_true_iff. intros [[H1 H2] (H3 & H4 & H5)%IH].
  split; [done|]. split; [done|]. intros x y [->|Hx]%elem_of_cons Hy; [|by apply H5].
  rewrite forallb_forall in H2. apply H2. by apply list_elem_of_In.
Qed.

(** A prefix of a good request is good. *)
Lemma layout_prefix ps qs : layout_ok (ps ++ qs) = true -> layout_ok ps = true.
Proof.
  unfold layout_ok. rewrite length_app, total_app, slots_app, forallb_app, !andb_true_iff.
  intros [[[H1 H2] [H3 _]] (H4 & _ & _)%all_apart_app]. apply Z.leb_le in H1, H2.
  pose proof (total_nonneg qs). split; [split; [split; apply Z.leb_le; lia|done]|done].
Qed.

Lemma layout_snoc ps p : layout_ok (ps ++ [p]) = true ->
  Z.of_nat (length ps) < OTZ_MAX_REQ_PARAMS /\ total ps + padvance p <= OTZ_1K_SIZE /\
  slot_end (pslot (total ps) p) <= OTZ_1K_SIZE /\
  forall x, x ∈ slots 0 ps -> apart x (pslot (total ps) p) = true.
Proof.
  unfold layout_ok. rewrite length_app, total_app, slots_app, forallb_app. cbn. rewrite !andb_true_iff.
  intros [[[H1 H2] [_ [H3 _]]] (_ & _ & H4)%all_apart_app]. apply Z.leb_le in H1, H2, H3.
  split; [lia|]. split; [lia|]. split; [done|]. intros x Hx. apply H4; [done|set_solver].
Qed.

(** Requests without references are good as soon as they fit. *)
Definition is_ref (p : param) : bool := match p with PRef _ _ => true | _ => false end.

Lemma slots_bounds off ps x : forallb (fun p => negb (is_ref p)) ps = true ->
  x ∈ slots off ps -> off <= fst x /\ slot_end x <= off + total ps.
Proof.
  revert off. induction ps as [|p ps IH]; intros off; cbn; [by intros _ ?%elem_of_nil|].
  intros [Hp Hps]%andb_true_iff. pose proof (total_nonneg ps).
  intros [->|Hx]%elem_of_cons.
  - destruct p; try done; unfold slot_end; cbn; lia.
  - destruct (IH _ Hps Hx). destruct p; cbn in *; lia.
Qed.

Lemma plain_layout ps : forallb (fun p => negb (is_ref p)) ps = true ->
  Z.of_nat (length ps) <= OTZ_MAX_REQ_PARAMS -> total ps <= OTZ_1K_SIZE -> layout_ok ps = true.
Proof.
  intros Hp Hn Ht. unfold layout_ok. rewrite !andb_true_iff. split; [split; [split; by apply Z.leb_le|]|].
  - apply forallb_forall. intros x Hx%list_elem_of_In. apply Z.leb_le.
    destruct (slots_bounds 0 ps x Hp Hx). lia.
  - clear Hn Ht. generalize 0 as off. induction ps as [|p ps IH]; intros off; cbn; [done|].
    cbn in Hp. apply andb_true_iff in Hp as [Hp Hps]. rewrite IH by done. rewrite andb_true_r.
    apply forallb_forall. intros x Hx%list_elem_of_In. destruct (slots_bounds _ _ _ Hps Hx) as [H1 _].
    unfold apart. apply orb_true_iff. left. apply Z.leb_le. destruct p; try done; unfold slot_end; cbn in *; lia.
Qed.

(** ** The encoder of the driver *)

(** What the encoder relies on of the Linux kernel: allocating memory changes
    nothing of the memory of the calling program, and a table of entries has
    its sixteen entries. *)
Class LinuxLaws (K : Type) `{Linux K} : Prop := {
  kmalloc_copy size k a n : copy_from_user a n (snd (kmalloc size k)) = copy_from_user a n k;
  kmalloc_read size k a : read_user32 a (snd (kmalloc size k)) = read_user32 a k;
  uninit_length p : length (uninit_meta p) = 16%nat;
}.

Section encoding.
Context {K : Type} `{LinuxLaws K}.

(** One encoding call: the command, and for a reference the registered memory. *)
Inductive add : Type :=
  | AUint (enc : otz_client_encode_cmd)
  | AArr (enc : otz_client_encode_cmd)
  | ARef (enc : otz_client_encode_cmd) (h : otzc_shared_mem).

Definition run_add (ctx : Z) (a : add) (s : dst K) : res (Z * dst K) :=
  match a with
  | AUint enc => encode_uint32_in enc ctx s
  | AArr enc => encode_array_in enc ctx s
  | ARef enc h => encode_mem_ref_in enc ctx h s
  end.

(** The calls of a request, as long as they succeed. *)
Fixpoint run_adds (ctx : Z) (l : list add) (s : dst K) : res (Z * dst K) :=
  match l with
  | [] => mret (0, s)
  | a :: l => '(ret, s) ← run_add ctx a s; if negb (ret =? 0) then mret (ret, s) else run_adds ctx l s
  end.

(** The parameter that a call adds, given the memory of the client. *)
Definition adds (k : K) (a : add) (p : param) : Prop :=
  match a, p with
  | AUint enc, PUint v => read_user32 (data enc) k = Some v
  | AArr enc, PArr l => copy_from_user (data enc) (len enc) k = Some l /\ len enc = Z.of_nat (length l)
  | ARef enc h, PRef pa n => virt_to_phys (k_addr h + offset enc) = pa /\ s32 (len enc) = n
  | _, _ => False
  end.

Definition slot_ok (base : Z) (m : mem) (x : Z * list Z) : Prop :=
  read_bytes (length (snd x)) (base + fst x) m = Some (snd x).

Definition entry_ok (p : param) (e : otzc_encode_meta) : Prop := m_type e = ptype p /\ m_len e = plen p.

(** The context [c] with the table [t] holds the request [ps]. *)
Record req_inv (ctx : Z) (ps : list param) (c : otzc_encode) (t : list otzc_encode_meta) (s : dst K) : Prop := {
  ri_ctx : encs s !! ctx = Some c;
  ri_meta : metas s !! meta c = Some t;
  ri_len : length t = 16%nat;
  ri_off : enc_req_offset c = total ps;
  ri_pos : enc_req_pos c = Z.of_nat (length ps);
  ri_entries : forall i p, ps !! i = Some p -> exists e, t !! i = Some e /\ entry_ok p e;
  ri_null : ker_req_data_addr c = 0 -> ps = [];
  ri_buf : ker_req_data_addr c <> 0 -> mapped (ker_req_data_addr c) OTZ_1K_SIZE (dmem s);
  ri_slots : Forall (slot_ok (ker_req_data_addr c) (dmem s)) (slots 0 ps);
}.

Definition same_user (k k' : K) : Prop :=
  (forall a n, copy_from_user a n k' = copy_from_user a n k) /\ (forall a, read_user32 a k' = read_user32 a k).

Lemma same_user_refl k : same_user k k.
Proof. done. Qed.
Lemma same_user_trans k1 k2 k3 : same_user k1 k2 -> same_user k2 k3 -> same_user k1 k3.
Proof. intros [A1 B1] [A2 B2]. split; intros; by rewrite ?A2, ?A1, ?B2, ?B1. Qed.
Lemma adds_same k k' a p : same_user k k' -> adds k a p -> adds k' a p.
Proof. intros [A B]. destruct a, p; cbn; try done; by rewrite ?A, ?B. Qed.

Lemma req_buffer_spec ctx ps c t s :
  req_inv ctx ps c t s -> (ker_req_data_addr c = 0 -> fst (kmalloc OTZ_1K_SIZE (kstate s)) <> 0) ->
  exists s' c', req_buffer ctx s = Ret (true, s') /\ req_inv ctx ps c' t s' /\
    ker_req_data_addr c' <> 0 /\ same_user (kstate s) (kstate s').
Proof.
  intros [] Hk. unfold req_buffer. rewrite ri_ctx0. cbn [of_opt mbind res_bind].
  destruct (Z.eqb_spec (ker_req_data_addr c) 0) as [E0|Hne]; cbn [negb].
  2: { exists s, c. split; [done|]. split; [by constructor|]. split; [done|apply same_user_refl]. }
  specialize (ri_null0 E0). specialize (Hk E0). subst ps. unfold d_kmalloc.
  pose proof (fun a n => kmalloc_copy OTZ_1K_SIZE (kstate s) a n) as Kc.
  pose proof (fun a => kmalloc_read OTZ_1K_SIZE (kstate s) a) as Kr.
  destruct (kmalloc OTZ_1K_SIZE (kstate s)) as [p k]. cbn [fst snd] in *.
  destruct (Z.eqb_spec p 0) as [|_]; [done|]. unfold upd_enc. cbn [encs set_dmem set_k]. rewrite ri_ctx0.
  cbn [of_opt mbind res_bind mret res_ret]. eexists _, (set_req_addr p c). split; [reflexivity|].
  split; [|done]. constructor; cbn; try done.
  - by rewrite lookup_insert_eq.
  - intros _. apply provide_mapped.
Qed.

(** A parameter is written behind the others and its entry filled. *)
Lemma add_spec ctx ps p c t s f :
  req_inv ctx ps c t s -> ker_req_data_addr c <> 0 -> layout_ok (ps ++ [p]) = true ->
  (forall e, entry_ok p (f e)) ->
  exists s' t', (s' ← upd_meta (meta c) (enc_req_pos c) f
                      (set_dmem (write_bytes (ker_req_data_addr c + fst (pslot (total ps) p)) (snd (pslot (total ps) p)) (dmem s)) s);
                    upd_enc ctx (next_req (padvance p)) s') = Ret s' /\
    req_inv ctx (ps ++ [p]) (next_req (padvance p) c) t' s' /\ kstate s' = kstate s.
Proof.
  intros [] Hne (L1 & L2 & L3 & L4)%layout_snoc Hf. unfold OTZ_MAX_REQ_PARAMS, OTZ_1K_SIZE in *.
  pose proof (total_nonneg ps).
  unfold upd_meta, upd_enc. cbn [metas set_dmem]. rewrite ri_meta0. cbn [of_opt mbind res_bind].
  unfold meta_upd, meta_get. rewrite ri_pos0. destruct (Z.ltb_spec (Z.of_nat (length ps)) 0); [lia|].
  rewrite Nat2Z.id. destruct (lookup_lt_is_Some_2 t (length ps)) as [e Ee]; [lia|]. rewrite Ee.
  cbn [of_opt mbind res_bind mret res_ret encs set_metas set_dmem]. rewrite ri_ctx0. cbn [of_opt mbind res_bind mret res_ret].
  eexists _, (<[length ps := f e]> t). split; [reflexivity|]. split; [|done].
  constructor; cbn; try done.
  - by rewrite lookup_insert_eq.
  - by rewrite lookup_insert_eq.
  - by rewrite length_insert.
  - rewrite ri_off0, total_app. cbn. rewrite Z.add_0_r. apply u32_id. unfold in_u32. destruct p; cbn in *; lia.
  - rewrite ri_pos0, length_app. cbn. rewrite u32_id by (unfold in_u32; lia). lia.
  - intros i q Hi. destruct (decide (i = length ps)) as [->|Hi'].
    + rewrite lookup_app_r, Nat.sub_diag in Hi by lia. injection Hi as <-. eexists.
      split; [by apply list_lookup_insert_eq; lia|apply Hf].
    + rewrite list_lookup_insert_ne by done. apply ri_entries0. rewrite lookup_app_l in Hi; [done|].
      apply lookup_lt_Some in Hi. rewrite length_app in Hi. cbn in Hi. lia.
  - intros _. apply mapped_write. by apply ri_buf0.
  - rewrite slots_app. apply Forall_app. split; [|repeat constructor].
    + rewrite Forall_forall in ri_slots0 |- *. intros x Hx. specialize (L4 x Hx). unfold slot_ok in *.
      unfold apart in L4. apply orb_true_iff in L4. rewrite !Z.leb_le in L4. unfold slot_end in L4.
      rewrite read_bytes_write by lia. by apply ri_slots0.
    + apply read_bytes_write_same.
Qed.

Lemma bind_pair {A B} (m : res A) (f : A -> res B) (b : B) (z : Z) :
  (m ≫= fun a => f a) = Ret b -> (m ≫= fun a => f a ≫= fun b => mret (z, b)) = Ret (z, b).
Proof. destruct m as [a| |]; cbn; try done. by intros ->. Qed.

Lemma store_bytes_ok a l m : mapped a (Z.of_nat (length l)) m -> Forall is_byte l ->
  store_bytes a l m = Ret (write_bytes a l m).
Proof.
  revert a m. induction l as [|v l IH]; intros a m Hm Hb; [done|].
  apply Forall_cons in Hb as [Hv Hb]. cbn [store_bytes write_bytes].
  rewrite store8_ok; [|apply Hm; cbn; lia|done]. cbn [mbind res_bind]. apply IH; [|done].
  intros x Hx. eapply mapped_insert; [exact Hm|]. cbn. lia.
Qed.

(** The slot of the next parameter lies in the buffer. *)
Lemma slot_mapped ctx ps p c t s :
  req_inv ctx ps c t s -> ker_req_data_addr c <> 0 -> layout_ok (ps ++ [p]) = true ->
  mapped (ker_req_data_addr c + fst (pslot (total ps) p)) (Z.of_nat (length (snd (pslot (total ps) p)))) (dmem s).
Proof.
  intros Hi Hne (_ & _ & L3 & _)%layout_snoc. eapply mapped_sub; [by apply Hi| |]; pose proof (total_nonneg ps).
  - destruct p; cbn; lia.
  - unfold slot_end in L3. destruct p; cbn in *; lia.
Qed.

Lemma req_fits_ok ctx ps p c t s :
  req_inv ctx ps c t s -> layout_ok (ps ++ [p]) = true -> req_fits (padvance p) c = true.
Proof.
  intros [] (L1 & L2 & _)%layout_snoc. unfold req_fits. rewrite ri_off0, ri_pos0.
  pose proof (total_nonneg ps). unfold OTZ_1K_SIZE in *. rewrite u32_id.
  - apply andb_true_iff. split; [by apply Z.leb_le|by apply Z.ltb_lt].
  - unfold in_u32. destruct p; cbn in *; lia.
Qed.

(** Each call that encodes a parameter that still has room succeeds. *)
Lemma run_add_spec ctx ps a p c t s :
  req_inv ctx ps c t s -> (ker_req_data_addr c = 0 -> fst (kmalloc OTZ_1K_SIZE (kstate s)) <> 0) ->
  adds (kstate s) a p -> param_ok p -> layout_ok (ps ++ [p]) = true ->
  exists s' c' t', run_add ctx a s = Ret (0, s') /\ req_inv ctx (ps ++ [p]) c' t' s' /\
    ker_req_data_addr c' <> 0 /\ same_user (kstate s) (kstate s').
Proof.
  intros Hi Hk Ha Hp Hl. destruct (req_buffer_spec ctx ps c t s Hi Hk) as (s1 & c1 & E1 & I1 & N1 & U1).
  apply (adds_same _ _ _ _ U1) in Ha. pose proof (req_fits_ok _ _ _ _ _ _ I1 Hl) as Hf.
  pose proof (slot_mapped _ _ _ _ _ _ I1 N1 Hl) as Hm. pose proof (ri_off _ _ _ _ _ I1) as Eo.
  pose proof (fun f => add_spec ctx ps p c1 t s1 f I1 N1 Hl) as Hd.
  assert (Hend : forall s' t', req_inv ctx (ps ++ [p]) (next_req (padvance p) c1) t' s' -> kstate s' = kstate s1 ->
    exists s'' c' t', Ret (0, s') = Ret (0, s'') /\ req_inv ctx (ps ++ [p]) c' t' s'' /\
      ker_req_data_addr c' <> 0 /\ same_user (kstate s) (kstate s'')).
  { intros s' t' I' U'. exists s', (next_req (padvance p) c1), t'. split; [done|]. split; [done|]. split; [done|].
    by rewrite U'. }
  destruct a as [enc|enc|enc h], p as [v|l|pa n]; try done; cbn [run_add adds padvance pslot fst snd] in *.
  - unfold encode_uint32_in. rewrite E1. cbn [mbind res_bind negb]. rewrite (ri_ctx _ _ _ _ _ I1).
    cbn [of_opt mbind res_bind]. rewrite Hf, Ha. cbn [of_opt mbind res_bind]. rewrite Eo, store32_ok by done.
    cbn [mbind res_bind]. destruct (Hd (set_type_len OTZ_ENC_UINT32 4)) as (s' & t' & E & I & U); [done|].
    rewrite (bind_pair _ _ _ _ E). by apply (Hend s' t').
  - destruct Ha as [Ha El]. unfold encode_array_in. rewrite E1. cbn [mbind res_bind negb]. rewrite (ri_ctx _ _ _ _ _ I1).
    cbn [of_opt mbind res_bind]. rewrite El, Hf, <-El, Ha, Eo, store_bytes_ok by done. cbn [mbind res_bind].
    destruct (Hd (set_type_len OTZ_ENC_ARRAY (s32 (len enc)))) as (s' & t' & E & I & U).
    { intros e. split; [done|]. cbn. rewrite El. apply s32_id. destruct (layout_snoc _ _ Hl) as (_ & L2 & _).
      pose proof (total_nonneg ps). unfold in_s32, OTZ_1K_SIZE in *. cbn in L2. lia. }
    rewrite <-El in E. rewrite (bind_pair _ _ _ _ E). by apply (Hend s' t').
  - destruct Ha as [Ha El]. unfold encode_mem_ref_in. rewrite E1. cbn [mbind res_bind negb]. rewrite (ri_ctx _ _ _ _ _ I1).
    cbn [of_opt mbind res_bind]. rewrite Hf, Ha. rewrite Eo, store32_ok by done. cbn [mbind res_bind].
    destruct (Hd (fun e => set_type_len OTZ_MEM_REF (s32 (len enc)) (set_usr_addr (u32 (u_addr h + offset enc)) e)))
      as (s' & t' & E & I & U).
    { intros e. split; [done|]. exact El. }
    rewrite (bind_pair _ _ _ _ E). by apply (Hend s' t').
Qed.

Lemma run_adds_spec ctx l qs ps c t s :
  req_inv ctx ps c t s -> (ker_req_data_addr c = 0 -> fst (kmalloc OTZ_1K_SIZE (kstate s)) <> 0) ->
  Forall2 (adds (kstate s)) l qs -> Forall param_ok qs -> layout_ok (ps ++ qs) = true ->
  exists s' c' t', run_adds ctx l s = Ret (0, s') /\ req_inv ctx (ps ++ qs) c' t' s' /\
    same_user (kstate s) (kstate s').
Proof.
  revert qs ps c t s. induction l as [|a l IH]; intros qs ps c t s Hi Hk Ha Hp Hl.
  - apply Forall2_nil_inv_l in Ha as ->. exists s, c, t. split; [done|]. by rewrite app_nil_r.
  - apply Forall2_cons_inv_l in Ha as (p & qs' & Ha & Has & ->). apply Forall_cons in Hp as [Hp Hps].
    rewrite (cons_middle p ps qs'), app_assoc in Hl.
    destruct (run_add_spec ctx ps a p c t s Hi Hk Ha Hp (layout_prefix _ _ Hl)) as (s1 & c1 & t1 & E1 & I1 & N1 & U1).
    destruct (IH qs' (ps ++ [p]) c1 t1 s1 I1) as (s' & c' & t' & E & I & U); [done| |done|done|].
    { eapply Forall2_impl; [exact Has|]. intros a' p'. by apply adds_same. }
    exists s', c', t'. cbn [run_adds]. rewrite E1. cbn [mbind res_bind]. split; [exact E|].
    rewrite <-app_assoc in I. split; [exact I|]. by eapply same_user_trans.
Qed.
End encoding.

(** ** The decoder of the service *)

Lemma read_bytes_shift n a b (m m' : mem) :
  (forall x, 0 <= x < Z.of_nat n -> m' !! (b + x) = m !! (a + x)) -> read_bytes n b m' = read_bytes n a m.
Proof.
  revert a b. induction n as [|n IH]; intros a b Hx; [done|]. cbn [read_bytes].
  pose proof (Hx 0 ltac:(lia)) as E0. rewrite !Z.add_0_r in E0. rewrite E0. destruct (m !! a); [cbn|done].
  rewrite (IH (a + 1) (b + 1)); [done|]. intros x ?. rewrite <-!Z.add_assoc. apply Hx. lia.
Qed.

Section decoding.
Context {K : Type} `{LinuxLaws K} {P : Type} `{NsMemoryLaws P}.

(** [data] is where the secure world sees the buffer of the context. *)
Definition sees_buffer (m : mem) (data : Z) (m' : mem) (base : Z) : Prop :=
  forall x, 0 <= x < OTZ_1K_SIZE -> m !! (data + x) = m' !! (base + x).

Lemma slot_seen ctx ps c t (s : dst K) m data x :
  req_inv ctx ps c t s -> layout_ok ps = true -> sees_buffer m data (dmem s) (ker_req_data_addr c) ->
  x ∈ slots 0 ps -> slot_ok data m x.
Proof.
  intros Hi Hl Hm Hx. pose proof (ri_slots _ _ _ _ _ Hi) as Hs. rewrite Forall_forall in Hs. specialize (Hs x Hx).
  pose proof (slots_start 0 ps x ltac:(lia) Hx). unfold layout_ok in Hl. rewrite !andb_true_iff in Hl.
  destruct Hl as [[_ Hl] _]. rewrite forallb_forall in Hl. specialize (Hl x (proj1 (list_elem_of_In _ _) Hx)).
  apply Z.leb_le in Hl. unfold slot_end in Hl. unfold slot_ok in *. rewrite <-Hs. apply read_bytes_shift.
  intros y Hy. rewrite <-!Z.add_assoc. apply Hm. lia.
Qed.

Lemma decode_spec ctx qs p ps c t (s : dst K) m data o st :
  req_inv ctx (qs ++ p :: ps) c t s -> layout_ok (qs ++ p :: ps) = true ->
  sees_buffer m data (dmem s) (ker_req_data_addr c) -> param_ok p ->
  d_offset o = total qs -> d_pos o = Z.of_nat (length qs) ->
  exists o', d_offset o' = total qs + padvance p /\ d_pos o' = Z.of_nat (length qs) + 1 /\
    match p with
    | PUint v => decode_data data t o m st = Ret (0, o', st) /\ read_value o' m = Ret (VInt v)
    | PArr l => decode_data data t o m st = Ret (0, o', st) /\ read_value o' m = Ret (VBytes l)
    | PRef pa n =>
        match ns_map pa st with
        | Ret (r, _, st') =>
            if r =? 0 then decode_data data t o m st = Ret (0, o', st') /\ read_value o' m = Ret (VRef pa n)
            else exists o'', decode_data data t o m st = Ret (-1, o'', st')
        | Panic => decode_data data t o m st = Panic
        | Fault => decode_data data t o m st = Fault
        end
    end.
Proof.
  intros Hi Hl Hm Hp Eo Ep.
  pose proof (slot_seen _ _ _ _ _ m data (pslot (total qs) p) Hi Hl Hm) as Hs.
  rewrite slots_app in Hs. specialize (Hs ltac:(set_solver)). unfold slot_ok in Hs.
  destruct (ri_entries _ _ _ _ _ Hi (length qs) p) as (e & Ee & Et & El);
    [by rewrite lookup_app_r, Nat.sub_diag by lia|].
  assert (Hg : meta_get t (d_pos o) = Ret e).
  { unfold meta_get. rewrite Ep. destruct (Z.ltb_spec (Z.of_nat (length qs)) 0); [lia|]. by rewrite Nat2Z.id, Ee. }
  assert (B : 0 <= total qs /\ total qs + padvance p <= OTZ_1K_SIZE /\ Z.of_nat (length qs) < OTZ_MAX_REQ_PARAMS).
  { pose proof (total_nonneg qs). rewrite (cons_middle p qs ps), app_assoc in Hl. apply layout_prefix, layout_snoc in Hl.
    destruct Hl as (? & ? & _). done. }
  destruct B as (B1 & B2 & B3). unfold OTZ_1K_SIZE, OTZ_MAX_REQ_PARAMS in *.
  exists (DecOut (ptype p) (s32 (total qs + padvance p)) (s32 (Z.of_nat (length qs) + 1))
            (if is_ref p then 1 else 0) (match p with PRef pa _ => pa | _ => data + total qs end) (plen p)).
  cbn [d_offset d_pos]. split; [apply s32_id; unfold in_s32; destruct p; cbn in *; lia|].
  split; [apply s32_id; unfold in_s32; lia|].
  destruct p as [v|l|pa n]; cbn [ptype plen padvance pslot is_ref param_ok fst snd] in *.
  - unfold decode_data. rewrite Hg. cbn [mbind res_bind]. rewrite Et, El, Ep, Eo. split; [done|].
    unfold read_value. cbn [d_type d_data]. change (OTZ_ENC_UINT32 =? OTZ_ENC_UINT32) with true. cbv iota.
    by rewrite (load32_le32 _ v).
  - unfold decode_data. rewrite Hg. cbn [mbind res_bind]. rewrite Et, El, Ep, Eo. split; [done|].
    unfold read_value. cbn [d_type d_data d_len]. change (OTZ_ENC_ARRAY =? OTZ_ENC_UINT32) with false.
    change (OTZ_ENC_ARRAY =? OTZ_ENC_ARRAY) with true. cbv iota. by rewrite Nat2Z.id, Hs.
  - unfold decode_data. rewrite Hg. cbn [mbind res_bind]. rewrite Et, El, Ep, Eo.
    change (OTZ_MEM_REF =? OTZ_ENC_UINT32) with false. change (OTZ_MEM_REF =? OTZ_ENC_ARRAY) with false.
    change (OTZ_MEM_REF =? OTZ_MEM_REF) with true. cbv iota. rewrite (load32_le32 _ pa) by done.
    cbn [mbind res_bind]. destruct (ns_map pa st) as [[[r va] st']| |] eqn:En; cbn [mbind res_bind]; [|done|done].
    destruct (Z.eqb_spec r 0) as [->|Hr]; cbn [negb].
    + destruct va as [va|]; [|by apply ns_map_error in En]. apply ns_map_identity in En as ->. done.
    + by eexists.
Qed.

Lemma receive_spec ctx ps qs c t (s : dst K) m data o st :
  req_inv ctx (qs ++ ps) c t s -> layout_ok (qs ++ ps) = true ->
  sees_buffer m data (dmem s) (ker_req_data_addr c) -> Forall param_ok ps ->
  d_offset o = total qs -> d_pos o = Z.of_nat (length qs) ->
  receive (length ps) data t o m st = delivered ps st.
Proof.
  intros Hi Hl Hm. revert qs o st Hi Hl. induction ps as [|p ps IH]; intros qs o st Hi Hl Hp Eo Ep; [done|].
  apply Forall_cons in Hp as [Hp Hps].
  destruct (decode_spec ctx qs p ps c t s m data o st Hi Hl Hm Hp Eo Ep) as (o' & Eo' & Ep' & Hd).
  assert (Hrest : forall st, receive (length ps) data t o' m st = delivered ps st).
  { intros st'. rewrite (cons_middle p qs ps), app_assoc in Hi, Hl. apply (IH (qs ++ [p])); [done|done|done| |].
    - rewrite total_app. cbn. lia.
    - rewrite length_app. cbn. lia. }
  cbn [receive delivered length]. destruct p as [v|l|pa n].
  - destruct Hd as [-> Hv]. cbn [mbind res_bind negb]. change (0 =? 0) with true. cbn [negb]. rewrite Hv.
    cbn [mbind res_bind mret res_ret]. by rewrite Hrest.
  - destruct Hd as [-> Hv]. cbn [mbind res_bind negb]. change (0 =? 0) with true. cbn [negb]. rewrite Hv.
    cbn [mbind res_bind mret res_ret]. by rewrite Hrest.
  - destruct (ns_map pa st) as [[[r va] st']| |]; cbn [mbind res_bind mret res_ret]; [|by rewrite Hd|by rewrite Hd].
    destruct (r =? 0).
    + destruct Hd as [-> Hv]. cbn [mbind res_bind]. change (0 =? 0) with true. cbn [negb]. rewrite Hv.
      cbn [mbind res_bind]. by rewrite Hrest.
    + by destruct Hd as [o'' ->].
Qed.

(** C2: requests survive the way from the client to the service.  Encoding
    parameters that have room in the buffer and do not overlap there always
    succeeds, and a service that sees the client's buffer decodes exactly
    these parameters, in their order: numbers and arrays by value, references
    after their memory has been made accessible. *)
Theorem request_roundtrip (ctx : Z) (l : list add) (ps : list param) (c : otzc_encode)
    (t : list otzc_encode_meta) (s : dst K) (st : P)
    (Hctx : req_inv ctx [] c t s) (Hk : fst (kmalloc OTZ_1K_SIZE (kstate s)) <> 0)
    (Hcalls : Forall2 (adds (kstate s)) l ps) (Hps : Forall param_ok ps) (Hlay : layout_ok ps = true) :
  exists s' c' t', run_adds ctx l s = Ret (0, s') /\ encs s' !! ctx = Some c' /\ metas s' !! meta c' = Some t' /\
    enc_req_offset c' = total ps /\ enc_req_pos c' = Z.of_nat (length ps) /\
    forall m data typ mapped dat n, sees_buffer m data (dmem s') (ker_req_data_addr c') ->
      receive (length ps) data t' (DecOut typ 0 0 mapped dat n) m st = delivered ps st.
Proof.
  destruct (run_adds_spec ctx l ps [] c t s Hctx (fun _ => Hk) Hcalls Hps Hlay) as (s' & c' & t' & E & I & _).
  exists s', c', t'. split; [exact E|]. split; [apply I|]. split; [apply I|]. split; [apply I|]. split; [apply I|].
  intros m data typ mp dat n Hm. by apply (receive_spec ctx ps [] c' t' s').
Qed.
End decoding.

(** ** Requests whose parameters overlap or leave the buffer *)

Section beyond.
Context {K : Type} `{LinuxLaws K}.

(** One more parameter in a buffer that exists; the entry and the offset are
    right wherever the bytes go. *)
Lemma add_entry ctx ps p c t (s : dst K) m f :
  req_inv ctx ps c t s -> Z.of_nat (length ps) < OTZ_MAX_REQ_PARAMS -> (forall e, entry_ok p (f e)) ->
  exists s', (s' ← upd_meta (meta c) (enc_req_pos c) f (set_dmem m s); upd_enc ctx (next_req (padvance p)) s') = Ret s' /\
    encs s' !! ctx = Some (next_req (padvance p) c) /\
    metas s' !! meta c = Some (<[length ps := f (default (EncMeta 0 0 0 0) (t !! length ps))]> t) /\
    dmem s' = m /\ kstate s' = kstate s.
Proof.
  intros [] L Hf. unfold OTZ_MAX_REQ_PARAMS in *.
  unfold upd_meta, upd_enc. cbn [metas set_dmem]. rewrite ri_meta0. cbn [of_opt mbind res_bind].
  unfold meta_upd, meta_get. rewrite ri_pos0. destruct (Z.ltb_spec (Z.of_nat (length ps)) 0); [lia|].
  rewrite Nat2Z.id. destruct (lookup_lt_is_Some_2 t (length ps)) as [e Ee]; [lia|]. rewrite Ee.
  cbn [of_opt mbind res_bind mret res_ret encs set_metas set_dmem]. rewrite ri_ctx0. cbn [of_opt mbind res_bind mret res_ret].
  eexists. split; [reflexivity|]. cbn. split; [by rewrite lookup_insert_eq|]. split; [by rewrite lookup_insert_eq|done].
Qed.

Lemma req_buffer_there ctx ps c t (s : dst K) :
  req_inv ctx ps c t s -> ker_req_data_addr c <> 0 -> req_buffer ctx s = Ret (true, s).
Proof.
  intros [] Hne. unfold req_buffer. rewrite ri_ctx0. cbn [of_opt mbind res_bind].
  by destruct (Z.eqb_spec (ker_req_data_addr c) 0).
Qed.

(** References are written outside the buffer.  The room is checked in bytes
    but the offset counts words, so a reference behind 256 bytes of other
    parameters is accepted and overwrites the memory behind the buffer of one
    kilobyte, or faults. *)
Theorem reference_outside_buffer (ctx : Z) (ps : list param) (c : otzc_encode) (t : list otzc_encode_meta)
    (s : dst K) (enc : otz_client_encode_cmd) (h : otzc_shared_mem)
    (Hinv : req_inv ctx ps c t s) (Hbuf : ker_req_data_addr c <> 0)
    (Hcnt : Z.of_nat (length ps) < OTZ_MAX_REQ_PARAMS) (Hoff : 256 <= total ps <= OTZ_1K_SIZE - 4) :
  let a := ker_req_data_addr c + 4 * total ps in
  ker_req_data_addr c + OTZ_1K_SIZE <= a /\
  (mapped a 4 (dmem s) -> exists s', encode_mem_ref_in enc ctx h s = Ret (0, s') /\
     dmem s' = write_bytes a (le32 (virt_to_phys (k_addr h + offset enc))) (dmem s)) /\
  (dmem s !! a = None -> encode_mem_ref_in enc ctx h s = Fault).
Proof.
  intros a. unfold OTZ_1K_SIZE in *. split; [lia|].
  assert (Hf : req_fits 4 c = true).
  { unfold req_fits. rewrite (ri_off _ _ _ _ _ Hinv), (ri_pos _ _ _ _ _ Hinv). unfold OTZ_1K_SIZE.
    rewrite u32_id by (unfold in_u32; lia). apply andb_true_iff. split; [apply Z.leb_le; lia|by apply Z.ltb_lt]. }
  unfold encode_mem_ref_in. rewrite (req_buffer_there _ _ _ _ _ Hinv Hbuf). cbn [mbind res_bind negb].
  rewrite (ri_ctx _ _ _ _ _ Hinv). cbn [of_opt mbind res_bind]. rewrite Hf, (ri_off _ _ _ _ _ Hinv). fold a. split.
  - intros Hm. rewrite store32_ok by done. cbn [mbind res_bind].
    destruct (add_entry ctx ps (PRef (virt_to_phys (k_addr h + offset enc)) (s32 (len enc))) c t s
      (write_bytes a (le32 (virt_to_phys (k_addr h + offset enc))) (dmem s))
      (fun e => set_type_len OTZ_MEM_REF (s32 (len enc)) (set_usr_addr (u32 (u_addr h + offset enc)) e)) Hinv Hcnt)
      as (s' & E & _ & _ & Em & _); [done|].
    exists s'. split; [|done]. cbn [padvance] in E. by rewrite (bind_pair _ _ _ _ E).
  - intros En. unfold store32, store8. by rewrite En.
Qed.

(** An array can overwrite a reference that was encoded before it.  After a
    number and a reference, an array of at least twelve bytes covers the word of
    the reference: every call succeeds, and the service makes the memory at an
    address accessible that is made of bytes of the array. *)
Theorem array_overwrites_reference (ctx : Z) (c : otzc_encode) (t : list otzc_encode_meta) (s : dst K)
    (eu er ea : otz_client_encode_cmd) (h : otzc_shared_mem) (v pa n a : Z) (l1 l2 : list Z)
    (Hctx : req_inv ctx [] c t s) (Hk : fst (kmalloc OTZ_1K_SIZE (kstate s)) <> 0)
    (Hu : adds (kstate s) (AUint eu) (PUint v)) (Hr : adds (kstate s) (ARef er h) (PRef pa n))
    (Ha : adds (kstate s) (AArr ea) (PArr (l1 ++ le32 a ++ l2))) (Hv : in_u32 v) (Hpa : in_u32 pa) (Hin : in_u32 a)
    (Hl1 : length l1 = 8%nat) (Hb : Forall is_byte (l1 ++ l2)) (Hl2 : Z.of_nat (length l2) <= 1000) :
  exists s' c' t', run_adds ctx [AUint eu; ARef er h; AArr ea] s = Ret (0, s') /\
    encs s' !! ctx = Some c' /\ metas s' !! meta c' = Some t' /\
    forall (P : Type) (N : NsMemory P) m data typ mp dat k (st : P),
      sees_buffer m data (dmem s') (ker_req_data_addr c') ->
      decode_data data t' (DecOut typ 4 1 mp dat k) m st =
        ('(r, va, st) ← ns_map a st;
         mret (if r =? 0 then (0, DecOut OTZ_MEM_REF 8 2 1 (default dat va) n, st)
               else (-1, DecOut typ 4 1 0 (default dat va) k, st))).
Proof.
  destruct (run_adds_spec ctx [AUint eu; ARef er h] [PUint v; PRef pa n] [] c t s Hctx (fun _ => Hk))
    as (s1 & c1 & t1 & E1 & I1 & U1);
    [by apply Forall2_cons_2; [|apply Forall2_cons_2]|by apply Forall_cons_2; [|apply Forall_cons_2]|reflexivity|].
  cbn [app] in I1. assert (N1 : ker_req_data_addr c1 <> 0).
  { intros E0. by pose proof (ri_null _ _ _ _ _ I1 E0). }
  apply (adds_same _ _ _ _ U1) in Ha. destruct Ha as [Ha El]. set (l := l1 ++ le32 a ++ l2) in *.
  assert (Hlen : Z.of_nat (length l) = 12 + Z.of_nat (length l2)).
  { unfold l. rewrite !length_app, Hl1. cbn. lia. }
  assert (Hbl : Forall is_byte l).
  { unfold l. apply Forall_app in Hb as [Hb1 Hb2]. repeat apply Forall_app_2; [done|apply le32_bytes|done]. }
  assert (Hm : mapped (ker_req_data_addr c1 + 8) (Z.of_nat (length l)) (dmem s1)).
  { eapply mapped_sub; [by apply (ri_buf _ _ _ _ _ I1)| |]; unfold OTZ_1K_SIZE; lia. }
  assert (Hf : req_fits (len ea) c1 = true).
  { unfold req_fits. rewrite (ri_off _ _ _ _ _ I1), (ri_pos _ _ _ _ _ I1), El, Hlen. cbn [total padvance].
    rewrite u32_id by (unfold in_u32; lia). apply andb_true_iff. split; [|reflexivity].
    apply Z.leb_le. unfold OTZ_1K_SIZE. lia. }
  destruct (add_entry ctx _ (PArr l) c1 t1 s1 (write_bytes (ker_req_data_addr c1 + 8) l (dmem s1))
    (set_type_len OTZ_ENC_ARRAY (s32 (len ea))) I1) as (s' & E2 & Ec & Em & Ed & _); [done| |].
  { intros e. split; [done|]. cbn. rewrite El, Hlen. apply s32_id. unfold in_s32. lia. }
  exists s', (next_req (padvance (PArr l)) c1), (<[2%nat := set_type_len OTZ_ENC_ARRAY (s32 (len ea)) (default (EncMeta 0 0 0 0) (t1 !! 2%nat))]> t1).
  split; [|split; [exact Ec|split; [exact Em|]]].
  - cbn [run_adds] in E1 |- *.
    destruct (run_add ctx (AUint eu) s) as [[r0 s0]| |]; cbn [mbind res_bind] in E1 |- *; try done.
    destruct (Z.eqb_spec r0 0) as [->|Hr0]; cbn [negb] in E1 |- *; [|by injection E1].
    destruct (run_add ctx (ARef er h) s0) as [[r2 s2]| |]; cbn [mbind res_bind] in E1 |- *; try done.
    destruct (Z.eqb_spec r2 0) as [->|Hr2]; cbn [negb] in E1 |- *; [|by injection E1].
    injection E1 as ->.
    cbn [run_add]. unfold encode_array_in. rewrite (req_buffer_there _ _ _ _ _ I1 N1). cbn [mbind res_bind negb].
    rewrite (ri_ctx _ _ _ _ _ I1). cbn [of_opt mbind res_bind]. rewrite Hf, Ha, (ri_off _ _ _ _ _ I1).
    change (total [PUint v; PRef pa n]) with 8. rewrite store_bytes_ok by done. cbn [mbind res_bind].
    cbn [padvance] in E2. rewrite <-El in E2. rewrite (bind_pair _ _ _ _ E2). done.
  - intros P NP m data typ mp dat k st Hsee. cbn [ker_req_data_addr next_req] in Hsee.
    destruct (ri_entries _ _ _ _ _ I1 1%nat (PRef pa n) eq_refl) as (e & Ee & Et & En).
    unfold decode_data. cbn [d_offset d_pos].
    assert (Hg : forall x, meta_get (<[2%nat:=x]> t1) 1 = Ret e).
    { intros x. unfold meta_get. change (1 <? 0) with false. cbv iota. change (Z.to_nat 1) with 1%nat.
      by rewrite list_lookup_insert_ne, Ee by done. }
    rewrite Hg. cbn [mbind res_bind]. rewrite Et, En. cbn [ptype plen].
    change (OTZ_MEM_REF =? OTZ_ENC_UINT32) with false. change (OTZ_MEM_REF =? OTZ_ENC_ARRAY) with false.
    change (OTZ_MEM_REF =? OTZ_MEM_REF) with true. cbv iota. rewrite (load32_le32 _ a); [|done|].
    + cbn [mbind res_bind]. destruct (ns_map a st) as [[[r va] st']| |]; cbn [mbind res_bind]; [|done|done].
      by destruct (r =? 0).
    + rewrite (read_bytes_shift 4 (ker_req_data_addr c1 + 16) (data + 4 * 4) (dmem s') m).
      2: { intros x Hx. rewrite <-!Z.add_assoc. apply Hsee. unfold OTZ_1K_SIZE. lia. }
      rewrite Ed. unfold l. rewrite write_bytes_app, Hl1. change (Z.of_nat 8) with 8.
      replace (ker_req_data_addr c1 + 8 + 8) with (ker_req_data_addr c1 + 16) by lia.
      rewrite write_bytes_app. rewrite read_bytes_write by (cbn; lia). apply (read_bytes_write_same (le32 a)).
Qed.
End beyond.

(** ** Concrete requests *)

#[export] Instance ref_linux_laws : LinuxLaws ref_kernel.
Proof. by split. Qed.

(** A context that [otz_client_prepare_encode] has just made. *)
Lemma req_inv_new {K} `{LinuxLaws K} (ctx a : Z) t (s : dst K) :
  encs s !! ctx = Some (new_encode a t) -> metas s !! t = Some (uninit_meta t) ->
  req_inv ctx [] (new_encode a t) (uninit_meta t) s.
Proof. intros. constructor; try done. apply uninit_length. Qed.

Definition client_memory : mem := write_bytes 0x100 (le32 7 ++ [104; 105] ++ replicate 300 65) ∅.
Definition demo_dst : dst ref_kernel :=
  Dst (RefKernel 0x1000 client_memory ∅ ∅) ∅ {[600 := uninit_meta 600]} {[500 := new_encode 500 600]} ∅ ∅ ∅ ∅ [] 0 0 0.
Definition enc_cmd (d n : Z) : otz_client_encode_cmd := EncodeCmd n d 0 0 OTZC_PARAM_IN 500 OTZ_SVC_ECHO 1 1.
Definition demo_shm : otzc_shared_mem := SharedMem 0x40000000 0x30000000 0x40000000 4096.

Lemma demo_inv : req_inv 500 [] (new_encode 500 600) (uninit_meta 600) demo_dst.
Proof. by apply req_inv_new. Qed.

Lemma request_roundtrip_witness :
  exists s' t' base (st st' : pt_state (H := bump_heap)),
    run_adds 500 [AUint (enc_cmd 0x100 0); AArr (enc_cmd 0x104 2); ARef (enc_cmd 0x40000000 64) demo_shm] demo_dst
      = Ret (0, s') /\
    forall m data, sees_buffer m data (dmem s') base ->
      receive (H := pt_NsMemory false 0x8000 bump_heap) 3 data t' (DecOut 0 0 0 0 0 0) m st
        = Ret (Some [VInt 7; VBytes [104; 105]; VRef 0x30000000 64], st').
Proof.
  destruct (request_roundtrip (H1 := pt_NsMemory false 0x8000 bump_heap) 500
    [AUint (enc_cmd 0x100 0); AArr (enc_cmd 0x104 2); ARef (enc_cmd 0x40000000 64) demo_shm]
    [PUint 7; PArr [104; 105]; PRef 0x30000000 64] _ _ demo_dst (PtState ∅ [] bump_test) demo_inv)
    as (s' & c' & t' & E & _ & _ & _ & _ & R).
  - done.
  - apply Forall2_cons_2; [by vm_compute|]. apply Forall2_cons_2; [by vm_compute|]. by apply Forall2_cons_2.
  - do 3 (apply Forall_cons_2; [cbn; first [by compute|repeat (apply Forall_cons_2; [by compute|]); constructor]|]).
    constructor.
  - reflexivity.
  - eexists s', t', (ker_req_data_addr c'), (PtState ∅ [] bump_test), _. split; [exact E|].
    intros m data Hm. etransitivity; [exact (R m data 0 0 0 0 Hm)|vm_compute; reflexivity].
Defined.

(** A reference behind 300 bytes lands behind the buffer. *)
Lemma reference_outside_buffer_witness :
  exists (s : dst ref_kernel) c a, encs s !! 500 = Some c /\ ker_req_data_addr c + OTZ_1K_SIZE <= a /\
    (mapped a 4 (dmem s) -> exists s', encode_mem_ref_in (enc_cmd 0x40000000 64) 500 demo_shm s = Ret (0, s') /\
       dmem s' = write_bytes a (le32 0x30000000) (dmem s)).
Proof.
  set (ps := [PArr (replicate 300 65)]).
  destruct (run_adds_spec 500 [AArr (enc_cmd 0x106 300)] ps [] _ _ demo_dst demo_inv) as (s & c & t & _ & I & _).
  - done.
  - apply Forall2_cons_2; [split; [vm_compute; reflexivity|done]|constructor].
  - apply Forall_cons_2; [apply Forall_replicate; by compute|constructor].
  - vm_compute. reflexivity.
  - destruct (reference_outside_buffer 500 ps c t s (enc_cmd 0x40000000 64) demo_shm I) as (A & B & _).
    + intros E0. by pose proof (ri_null _ _ _ _ _ I E0).
    + by compute.
    + by compute.
    + eexists s, c, _. split; [exact (ri_ctx _ _ _ _ _ I)|]. split; [exact A|exact B].
Defined.

Lemma array_overwrites_reference_witness :
  exists s' t' base, run_adds 500 [AUint (enc_cmd 0x100 0); ARef (enc_cmd 0x40000000 64) demo_shm; AArr (enc_cmd 0x106 16)]
      demo_dst = Ret (0, s') /\
    forall m data (st : pt_state (H := bump_heap)), sees_buffer m data (dmem s') base ->
      decode_data (H := pt_NsMemory false 0x8000 bump_heap) data t' (DecOut 0 4 1 0 0 0) m st =
        ('(r, va, st) ← map_to_ns false 0x8000 0x41414141 st;
         mret (if r =? 0 then (0, DecOut OTZ_MEM_REF 8 2 1 (default 0 va) 64, st)
               else (-1, DecOut 0 4 1 0 (default 0 va) 0, st))).
Proof.
  destruct (array_overwrites_reference 500 _ _ demo_dst (enc_cmd 0x100 0) (enc_cmd 0x40000000 64) (enc_cmd 0x106 16)
    demo_shm 7 0x30000000 64 0x41414141 (replicate 8 65) (replicate 4 65) demo_inv) as (s' & c' & t' & E & _ & _ & D).
  - done.
  - by vm_compute.
  - by vm_compute.
  - by vm_compute.
  - by compute.
  - by compute.
  - by compute.
  - done.
  - apply Forall_app_2; apply Forall_replicate; by compute.
  - by compute.
  - exists s', t', (ker_req_data_addr c'). split; [exact E|]. intros m data st Hm. exact (D _ (pt_NsMemory false 0x8000 bump_heap) m data 0 0 0 0 st Hm).
Defined.
