(* ===== verification/Response.v ===== *)
(** The response of a service on its way back to the client program: the room
    the driver reserves ([Driver]), what a service writes there with
    [decode_data] and [update_response_len] ([Encode]), and what the driver
    hands to the client. *)
From stdpp Require Import prelude gmap.
From S2P Require Import Prelude HeapIface PageTable MemFn Words Encode Driver Request.
#[local] Open Scope Z_scope.

(** ** The abstract response *)

(** Where the client wants a number or an array of at most [n] bytes. *)
Inductive oslot : Type :=
  | OUint (a : Z)
  | OArr (a n : Z).

Inductive reply : Type :=
  | RInt (v : Z)
  | RArr (l : list Z).

Definition otype (x : oslot) : Z := match x with OUint _ => OTZ_ENC_UINT32 | OArr _ _ => OTZ_ENC_ARRAY end.
Definition osize (x : oslot) : Z := match x with OUint _ => 4 | OArr _ n => n end.
Definition oaddr (x : oslot) : Z := match x with OUint a => a | OArr a _ => a end.
Definition rbytes (r : reply) : list Z := match r with RInt v => le32 v | RArr l => l end.

Fixpoint ototal (xs : list oslot) : Z := match xs with [] => 0 | x :: xs => osize x + ototal xs end.

Definition oslot_ok (x : oslot) : Prop := in_u32 (oaddr x) /\ oaddr x <> 0 /\ 0 <= osize x <= OTZ_1K_SIZE.

(** The reply answers the slot. *)
Definition answers (x : oslot) (r : reply) : Prop :=
  match x, r with
  | OUint _, RInt v => in_u32 v
  | OArr _ n, RArr l => Z.of_nat (length l) <= n /\ Forall is_byte l
  | _, _ => False
  end.

Section service.
Context {P : Type} `{NsMemory P}.

(** A service answers its parameters one after the other, as the echo service
    does: it asks [decode_data] for the place, writes there, and records the
    length of an array. *)
Fixpoint reply_all (rs : list reply) (data : Z) (t : list otzc_encode_meta) (o : dec_out) (m : mem) (st : P)
    : res (list otzc_encode_meta * mem) :=
  match rs with
  | [] => mret (t, m)
  | r :: rs =>
      '(ret, o, st) ← decode_data data t o m st;
      if negb (ret =? 0) then Fault else
      m ← store_bytes (d_data o) (rbytes r) m;
      t ← (match r with
           | RInt _ => mret t
           | RArr l => '(_, t) ← update_response_len t (d_pos o) (Z.of_nat (length l)); mret t
           end);
      reply_all rs data t o m st
  end.
End service.

Section client.
Context {K : Type} `{LinuxLaws K}.

Definition run_out (ctx : Z) (x : oslot) (enc : otz_client_encode_cmd) (s : dst K) : res (Z * dst K) :=
  match x with OUint _ => encode_uint32_out enc ctx s | OArr _ _ => encode_array_out enc ctx s end.

Fixpoint run_outs (ctx : Z) (l : list (oslot * otz_client_encode_cmd)) (s : dst K) : res (Z * dst K) :=
  match l with
  | [] => mret (0, s)
  | (x, enc) :: l =>
      '(ret, s) ← run_out ctx x enc s;
      if negb (ret =? 0) then mret (ret, s) else run_outs ctx l s
  end.

(** The command that reserves a slot. *)
Definition reserves (x : oslot) (enc : otz_client_encode_cmd) : Prop :=
  data enc = oaddr x /\ match x with OUint _ => True | OArr _ n => len enc = n end.

Definition run_dec (ctx : Z) (x : oslot) (dec : otz_client_encode_cmd) (s : dst K)
    : res (Z * otz_client_encode_cmd * dst K) :=
  match x with OUint _ => decode_uint32_value dec ctx s | OArr _ _ => decode_array_value dec ctx s end.

(** The calls that fetch the answers; the commands as they go back. *)
Fixpoint run_decs (ctx : Z) (l : list (oslot * otz_client_encode_cmd)) (s : dst K)
    : res (list otz_client_encode_cmd * dst K) :=
  match l with
  | [] => mret ([], s)
  | (x, dec) :: l =>
      '(ret, dec, s) ← run_dec ctx x dec s;
      if negb (ret =? 0) then Fault else
      '(ds, s) ← run_decs ctx l s; mret (dec :: ds, s)
  end.

(** The contract: the answers are written to the addresses the client gave. *)
Definition hand_over (x : oslot) (r : reply) (k : K) : option K :=
  match r with RInt v => write_user32 (oaddr x) v k | RArr l => copy_to_user (oaddr x) l k end.
Fixpoint client_receives (xs : list oslot) (rs : list reply) (k : K) : option K :=
  match xs, rs with
  | x :: xs, r :: rs => k ← hand_over x r k; client_receives xs rs k
  | _, _ => Some k
  end.

(** The command tells the client where its answer is, and how long an array is. *)
Definition answered (x : oslot) (r : reply) (dec : otz_client_encode_cmd) : Prop :=
  data dec = oaddr x /\ match r with RInt _ => True | RArr l => len dec = Z.of_nat (length l) end.

Definition out_entry (x : oslot) (e : otzc_encode_meta) : Prop :=
  m_type e = otype x /\ m_len e = osize x /\ m_usr_addr e = oaddr x.

(** The context [c] has reserved the slots [xs]. *)
Record out_inv (ctx : Z) (xs : list oslot) (c : otzc_encode) (t : list otzc_encode_meta) (s : dst K) : Prop := {
  oi_ctx : encs s !! ctx = Some c;
  oi_meta : metas s !! meta c = Some t;
  oi_len : length t = 16%nat;
  oi_off : enc_res_offset c = ototal xs;
  oi_pos : enc_res_pos c = OTZ_MAX_REQ_PARAMS + Z.of_nat (length xs);
  oi_dec : dec_res_pos c = OTZ_MAX_REQ_PARAMS /\ dec_offset c = 0;
  oi_entries : forall i x, xs !! i = Some x -> exists e, t !! (12 + i)%nat = Some e /\ out_entry x e;
  oi_buf : ker_res_data_addr c <> 0 -> mapped (ker_res_data_addr c) OTZ_1K_SIZE (dmem s);
  oi_null : ker_res_data_addr c = 0 -> xs = [];
}.

Definition room (xs : list oslot) : Prop :=
  Z.of_nat (length xs) <= OTZ_MAX_RES_PARAMS /\ ototal xs <= OTZ_1K_SIZE /\ Forall oslot_ok xs.

Lemma ototal_app xs ys : ototal (xs ++ ys) = ototal xs + ototal ys.
Proof. induction xs as [|x xs IH]; cbn; [done|]. rewrite IH. lia. Qed.

Lemma ototal_nonneg xs : Forall oslot_ok xs -> 0 <= ototal xs.
Proof. induction 1 as [|x xs (_ & _ & Hx) _ IH]; cbn; lia. Qed.

Lemma room_snoc xs x : room (xs ++ [x]) ->
  room xs /\ Z.of_nat (length xs) < OTZ_MAX_RES_PARAMS /\ oslot_ok x /\ 0 <= ototal xs /\
  ototal xs + osize x <= OTZ_1K_SIZE.
Proof.
  unfold room. rewrite length_app, ototal_app, Forall_app, Forall_singleton. cbn. intros (H1 & H2 & H3 & H4).
  pose proof (ototal_nonneg xs H3). pose proof (proj2 (proj2 H4)). split; [split; [lia|split; [lia|done]]|].
  split; [lia|]. split; [done|]. split; lia.
Qed.

Lemma room_app xs ys : room (xs ++ ys) -> room xs.
Proof.
  unfold room. rewrite length_app, ototal_app, Forall_app. intros (H1 & H2 & H3 & H4).
  pose proof (ototal_nonneg ys H4). split; [lia|]. split; [lia|done].
Qed.

(** ** Reserving *)

Lemma res_buffer_spec ctx xs c t (s : dst K) :
  out_inv ctx xs c t s -> (ker_res_data_addr c = 0 -> fst (kmalloc OTZ_1K_SIZE (kstate s)) <> 0) ->
  exists s' c', res_buffer ctx s = Ret (true, s') /\ out_inv ctx xs c' t s' /\ ker_res_data_addr c' <> 0.
Proof.
  intros [] Hk. unfold res_buffer. rewrite oi_ctx0. cbn [of_opt mbind res_bind].
  destruct (Z.eqb_spec (ker_res_data_addr c) 0) as [E0|Hne]; cbn [negb].
  2: { exists s, c. split; [done|]. split; [by constructor|done]. }
  specialize (oi_null0 E0). specialize (Hk E0). subst xs. unfold d_kmalloc.
  destruct (kmalloc OTZ_1K_SIZE (kstate s)) as [p k]. cbn [fst] in Hk.
  destruct (Z.eqb_spec p 0) as [|_]; [done|]. unfold upd_enc. cbn [encs set_dmem set_k]. rewrite oi_ctx0.
  cbn [of_opt mbind res_bind mret res_ret]. eexists _, (set_res_addr p c). split; [reflexivity|].
  split; [|done]. constructor; cbn; try done.
  - by rewrite lookup_insert_eq.
  - intros _. apply provide_mapped.
Qed.

Lemma reserve_spec ctx xs x c t (s : dst K) f :
  out_inv ctx xs c t s -> ker_res_data_addr c <> 0 -> room (xs ++ [x]) -> (forall e, out_entry x (f e)) ->
  exists s' t', (s' ← upd_meta (meta c) (enc_res_pos c) f s; upd_enc ctx (next_res (osize x)) s') = Ret s' /\
    out_inv ctx (xs ++ [x]) (next_res (osize x) c) t' s'.
Proof.
  intros [] Hne (_ & L1 & L2 & L3 & L4)%room_snoc Hf. unfold OTZ_MAX_RES_PARAMS, OTZ_MAX_REQ_PARAMS, OTZ_1K_SIZE in *.
  unfold upd_meta, upd_enc. rewrite oi_meta0. cbn [of_opt mbind res_bind].
  unfold meta_upd, meta_get. rewrite oi_pos0. destruct (Z.ltb_spec (12 + Z.of_nat (length xs)) 0); [lia|].
  replace (Z.to_nat (12 + Z.of_nat (length xs))) with (12 + length xs)%nat by lia.
  destruct (lookup_lt_is_Some_2 t (12 + length xs)) as [e Ee]; [lia|]. rewrite Ee.
  cbn [of_opt mbind res_bind mret res_ret encs set_metas]. rewrite oi_ctx0. cbn [of_opt mbind res_bind mret res_ret].
  eexists _, (<[(12 + length xs)%nat := f e]> t). split; [reflexivity|].
  destruct L2 as (_ & _ & L2).
  constructor; cbn -[Nat.add]; try done.
  - by rewrite lookup_insert_eq.
  - by rewrite lookup_insert_eq.
  - by rewrite length_insert.
  - rewrite oi_off0, ototal_app. cbn. rewrite Z.add_0_r. apply u32_id. unfold in_u32. lia.
  - rewrite oi_pos0, length_app. cbn. unfold OTZ_MAX_REQ_PARAMS. rewrite u32_id by (unfold in_u32; lia). lia.
  - intros i y Hi. destruct (decide (i = length xs)) as [->|Hi'].
    + rewrite lookup_app_r, Nat.sub_diag in Hi by lia. injection Hi as <-. eexists.
      split; [by apply list_lookup_insert_eq; lia|apply Hf].
    + rewrite list_lookup_insert_ne by lia. apply oi_entries0. rewrite lookup_app_l in Hi; [done|].
      apply lookup_lt_Some in Hi. rewrite length_app in Hi. cbn in Hi. lia.
Qed.

Lemma res_fits_ok ctx xs x c t (s : dst K) :
  out_inv ctx xs c t s -> room (xs ++ [x]) -> res_fits (osize x) c = true.
Proof.
  intros [] (_ & L1 & (_ & _ & L2) & L3 & L4)%room_snoc. unfold res_fits. rewrite oi_off0, oi_pos0.
  unfold OTZ_MAX_RES_PARAMS, OTZ_MAX_REQ_PARAMS, OTZ_1K_SIZE in *. rewrite u32_id by (unfold in_u32; lia).
  apply andb_true_iff. split; [apply Z.leb_le|apply Z.ltb_lt]; lia.
Qed.

Lemma run_out_spec ctx xs x enc c t (s : dst K) :
  out_inv ctx xs c t s -> (ker_res_data_addr c = 0 -> fst (kmalloc OTZ_1K_SIZE (kstate s)) <> 0) ->
  reserves x enc -> room (xs ++ [x]) ->
  exists s' c' t', run_out ctx x enc s = Ret (0, s') /\ out_inv ctx (xs ++ [x]) c' t' s' /\ ker_res_data_addr c' <> 0.
Proof.
  intros Hi Hk [Ed El] Hr. destruct (res_buffer_spec ctx xs c t s Hi Hk) as (s1 & c1 & E1 & I1 & N1).
  pose proof (res_fits_ok _ _ _ _ _ _ I1 Hr) as Hf.
  pose proof (fun f => reserve_spec ctx xs x c1 t s1 f I1 N1 Hr) as Hd.
  assert (Ho : 0 <= osize x <= OTZ_1K_SIZE) by (apply room_snoc in Hr as (_ & _ & (_ & _ & ?) & _); done).
  destruct x as [a|a n]; cbn [run_out osize oaddr] in *.
  - unfold encode_uint32_out. rewrite E1. cbn [mbind res_bind negb]. rewrite (oi_ctx _ _ _ _ _ I1).
    cbn [of_opt mbind res_bind]. rewrite Hf.
    destruct (Hd (fun e => set_type_len OTZ_ENC_UINT32 4 (set_usr_addr (data enc) e))) as (s' & t' & E & I); [done|].
    rewrite (bind_pair _ _ _ _ E). by exists s', (next_res 4 c1), t'.
  - unfold encode_array_out. rewrite E1. cbn [mbind res_bind negb]. rewrite (oi_ctx _ _ _ _ _ I1).
    cbn [of_opt mbind res_bind]. rewrite El, Hf.
    destruct (Hd (fun e => set_type_len OTZ_ENC_ARRAY (s32 n) (set_usr_addr (data enc) e))) as (s' & t' & E & I).
    { intros e. split; [done|]. split; [|done]. apply s32_id. unfold in_s32, OTZ_1K_SIZE in *. cbn. lia. }
    rewrite (bind_pair _ _ _ _ E). by exists s', (next_res n c1), t'.
Qed.

Lemma run_outs_spec ctx l xs c t (s : dst K) :
  out_inv ctx xs c t s -> (ker_res_data_addr c = 0 -> fst (kmalloc OTZ_1K_SIZE (kstate s)) <> 0) ->
  Forall (fun p => reserves (fst p) (snd p)) l -> room (xs ++ (fst <$> l)) ->
  exists s' c' t', run_outs ctx l s = Ret (0, s') /\ out_inv ctx (xs ++ (fst <$> l)) c' t' s' /\
    (l <> [] -> ker_res_data_addr c' <> 0).
Proof.
  revert xs c t s. induction l as [|[x enc] l IH]; intros xs c t s Hi Hk Hl Hr.
  - exists s, c, t. split; [done|]. cbn. by rewrite app_nil_r.
  - apply Forall_cons in Hl as [Hx Hl]. cbn [fst snd fmap list_fmap] in *.
    rewrite (cons_middle x xs), app_assoc in Hr.
    destruct (run_out_spec ctx xs x enc c t s Hi Hk Hx (room_app _ _ Hr)) as (s1 & c1 & t1 & E1 & I1 & N1).
    destruct (IH (xs ++ [x]) c1 t1 s1 I1) as (s' & c' & t' & E & I & N); [done|done|done|].
    exists s', c', t'. cbn [run_outs]. rewrite E1. cbn [mbind res_bind]. split; [exact E|].
    rewrite <-app_assoc in I. split; [exact I|]. intros _. destruct l as [|y l]; [|by apply N].
    cbn in E. injection E as <-. pose proof (oi_ctx _ _ _ _ _ I) as C. rewrite (oi_ctx _ _ _ _ _ I1) in C.
    by injection C as <-.
Qed.
End client.

(** ** Answering *)

(** The answers lie one behind the other. *)
Fixpoint holds (data off : Z) (xs : list oslot) (rs : list reply) (m : mem) : Prop :=
  match xs, rs with
  | x :: xs, r :: rs => read_bytes (length (rbytes r)) (data + off) m = Some (rbytes r) /\
                        holds data (off + osize x) xs rs m
  | _, _ => True
  end.

(** The table describes the slots from position [n] on, and the lengths of
    the arrays that answer them. *)
Definition described (n : nat) (xs : list oslot) (t : list otzc_encode_meta) : Prop :=
  forall i x, xs !! i = Some x -> exists e, t !! (n + i)%nat = Some e /\ out_entry x e.
Fixpoint replied (n : nat) (xs : list oslot) (rs : list reply) (t : list otzc_encode_meta) : Prop :=
  match xs, rs with
  | x :: xs, r :: rs =>
      (exists e, t !! n = Some e /\ out_entry x e /\
                 match r with RInt _ => True | RArr l => m_ret_len e = Z.of_nat (length l) end) /\
      replied (S n) xs rs t
  | _, _ => True
  end.

Lemma rbytes_ok x r : answers x r -> Forall is_byte (rbytes r) /\ Z.of_nat (length (rbytes r)) <= osize x.
Proof. destruct x, r; cbn; try done; [intros _; split; [apply le32_bytes|lia]|]. by intros []. Qed.

Section answering.
Context {P : Type} `{NsMemory P}.

(** Decoding the place of an answer. *)
Lemma decode_place n x e t data o m (st : P) :
  d_pos o = Z.of_nat n -> (n < 16)%nat -> t !! n = Some e -> out_entry x e -> 0 <= d_offset o ->
  d_offset o + osize x <= OTZ_1K_SIZE -> 0 <= osize x ->
  decode_data data t o m st =
    Ret (0, DecOut (otype x) (d_offset o + osize x) (Z.of_nat n + 1) 0 (data + d_offset o) (osize x), st).
Proof.
  intros Ep Hn Ee (Et & El & _) H0 H1 H2. unfold OTZ_1K_SIZE in *. unfold decode_data, meta_get. rewrite Ep.
  destruct (Z.ltb_spec (Z.of_nat n) 0); [lia|]. rewrite Nat2Z.id, Ee. cbn [of_opt mbind res_bind].
  rewrite Et, El. rewrite (s32_id (Z.of_nat n + 1)) by (unfold in_s32; lia).
  destruct x as [a|a k]; cbn [otype osize] in *; rewrite !s32_id by (unfold in_s32; lia); done.
Qed.

Lemma reply_spec xs rs n off t data o m (st : P) :
  Forall2 answers xs rs -> Forall oslot_ok xs -> described n xs t -> length t = 16%nat ->
  (n + length xs <= 16)%nat -> 0 <= off -> off + ototal xs <= OTZ_1K_SIZE ->
  mapped data OTZ_1K_SIZE m -> d_offset o = off -> d_pos o = Z.of_nat n ->
  exists t' m', reply_all rs data t o m st = Ret (t', m') /\ length t' = 16%nat /\
    (forall i, (i < n)%nat -> t' !! i = t !! i) /\ (forall x, x < data + off \/ data + off + ototal xs <= x -> m' !! x = m !! x) /\
    mapped data OTZ_1K_SIZE m' /\ holds data off xs rs m' /\ replied n xs rs t'.
Proof.
  intros Ha. revert n off t o m. induction Ha as [|x r xs rs Hx Ha IH]; intros n off t o m Hok Hd Hl Hn H0 H1 Hm Eo Ep.
  { exists t, m. done. }
  apply Forall_cons in Hok as [(_ & _ & Hx0) Hok]. cbn [ototal length] in *.
  destruct (Hd 0%nat x eq_refl) as (e & Ee & He). rewrite Nat.add_0_r in Ee.
  pose proof (ototal_nonneg xs Hok) as Ht. cbn [reply_all].
  rewrite (decode_place n x e t data o m st Ep) by (done || lia). cbn [mbind res_bind].
  change (negb (0 =? 0)) with false. cbv iota. rewrite Eo. cbn [d_data d_pos].
  destruct (rbytes_ok x r Hx) as [Hb Hlen].
  assert (Hmr : mapped (data + off) (Z.of_nat (length (rbytes r))) m) by (eapply mapped_sub; [exact Hm|lia|lia]).
  rewrite store_bytes_ok by done. cbn [mbind res_bind].
  set (m1 := write_bytes (data + off) (rbytes r) m). set (o1 := DecOut _ _ _ _ _ _).
  set (t1 := match r with RInt _ => t | RArr l => <[n := set_ret_len (Z.of_nat (length l)) e]> t end).
  assert (Et1 : (match r with
                 | RInt _ => mret t
                 | RArr l => '(_, t) ← update_response_len t (Z.of_nat n + 1) (Z.of_nat (length l)); mret t
                 end) = Ret t1).
  { destruct r as [v|l]; [done|]. unfold update_response_len. rewrite (proj2 (Z.leb_le _ _))
      by (unfold OTZ_MAX_REQ_PARAMS, OTZ_MAX_RES_PARAMS; lia).
    unfold meta_upd, meta_get. replace (Z.of_nat n + 1 - 1) with (Z.of_nat n) by lia.
    destruct (Z.ltb_spec (Z.of_nat n) 0); [lia|]. rewrite Nat2Z.id, Ee. done. }
  rewrite Et1. cbn [mbind res_bind].
  assert (Hl1 : length t1 = 16%nat) by (destruct r; [done|]; unfold t1; by rewrite length_insert).
  assert (Ht1 : forall i, i <> n -> t1 !! i = t !! i).
  { intros i Hi. destruct r; [done|]. unfold t1. by rewrite list_lookup_insert_ne. }
  destruct (IH (S n) (off + osize x) t1 o1 m1) as (t' & m' & E & L & Hpre & Hlow & Hmap & Hh & Hr).
  - done.
  - intros i y Hi. destruct (Hd (S i) y Hi) as (e' & Ee' & He'). exists e'. rewrite Ht1 by lia.
    by rewrite <-Nat.add_succ_comm in Ee'.
  - done.
  - lia.
  - lia.
  - lia.
  - by apply mapped_write.
  - done.
  - cbn. lia.
  - exists t', m'. split; [exact E|]. split; [done|]. split; [|split; [|split; [done|split]]].
    + intros i Hi. rewrite Hpre by lia. apply Ht1. lia.
    + intros y Hy. rewrite Hlow by lia. unfold m1. rewrite write_bytes_lookup, decide_False by lia. done.
    + split; [|done]. rewrite (read_bytes_frame _ _ m1); [apply read_bytes_write_same|].
      intros y Hy. apply Hlow. lia.
    + split; [|done]. rewrite Hpre by lia.
      destruct r as [v|l]; unfold t1; [by exists e|].
      exists (set_ret_len (Z.of_nat (length l)) e). split; [apply list_lookup_insert_eq; lia|]. done.
Qed.
End answering.

(** ** Fetching *)

Section fetching.
Context {K : Type} `{LinuxLaws K}.

Lemma fetch_one ctx x r n off c t e dec (s : dst K) k' :
  encs s !! ctx = Some c -> metas s !! meta c = Some t ->
  dec_res_pos c = Z.of_nat n -> dec_offset c = off -> Z.of_nat n <= enc_res_pos c ->
  t !! n = Some e -> out_entry x e -> oslot_ok x ->
  match r with RInt _ => True | RArr l => m_ret_len e = Z.of_nat (length l) end -> answers x r ->
  read_bytes (length (rbytes r)) (ker_res_data_addr c + off) (dmem s) = Some (rbytes r) ->
  hand_over x r (kstate s) = Some k' ->
  exists dec', run_dec ctx x dec s = Ret (0, dec', set_encs (<[ctx := next_dec (osize x) c]> (encs s)) (set_k k' s)) /\
    answered x r dec'.
Proof.
  intros Ec Em En Eo Hn Ee (Et & El & Eu) (Hu & Hu0 & Hx) Hr Ha Hb Hk.
  assert (Hd : dec_entry c s = Ret (Some e)).
  { unfold dec_entry. rewrite En. destruct (Z.leb_spec (Z.of_nat n) (enc_res_pos c)); [|lia]. rewrite Em.
    cbn [of_opt mbind res_bind]. unfold meta_get. destruct (Z.ltb_spec (Z.of_nat n) 0); [lia|]. by rewrite Nat2Z.id, Ee. }
  destruct x as [a|a k], r as [v|l]; try done; cbn [run_dec otype osize oaddr hand_over rbytes] in *.
  - unfold decode_uint32_value. rewrite Ec. cbn [of_opt mbind res_bind]. rewrite Hd. cbn [mbind res_bind].
    rewrite Et. change (OTZ_ENC_UINT32 =? OTZ_ENC_UINT32) with true. cbv iota. rewrite Eu.
    destruct (Z.eqb_spec a 0) as [|_]; [done|]. rewrite Eo, (load32_le32 _ v) by done. cbn [mbind res_bind data set_cmd_data].
    rewrite Hk. cbn [of_opt mbind res_bind]. unfold upd_enc. cbn [encs set_k]. rewrite Ec. cbn. eexists. by split.
  - destruct Ha as [Hlen Hby]. unfold decode_array_value. rewrite Ec. cbn [of_opt mbind res_bind]. rewrite Hd. cbn [mbind res_bind].
    rewrite Et. change (OTZ_ENC_ARRAY =? OTZ_ENC_ARRAY) with true. cbv iota. rewrite El, Hr.
    destruct (Z.geb_spec k (Z.of_nat (length l))); [|lia]. rewrite Eu. destruct (Z.eqb_spec a 0) as [|_]; [done|].
    rewrite u32_id by (unfold in_u32, OTZ_1K_SIZE in *; lia). rewrite Nat2Z.id, Eo, Hb. cbn [of_opt mbind res_bind data set_cmd_data].
    rewrite Hk. unfold upd_enc. cbn [encs set_k]. rewrite Ec. cbn. eexists. by split.
Qed.

Lemma fetch_all ctx l rs n off c t (s : dst K) k' :
  let xs := fst <$> l in
  encs s !! ctx = Some c -> metas s !! meta c = Some t ->
  dec_res_pos c = Z.of_nat n -> dec_offset c = off -> Z.of_nat (n + length xs) <= enc_res_pos c -> enc_res_pos c <= 16 ->
  0 <= off -> off + ototal xs <= OTZ_1K_SIZE ->
  replied n xs rs t -> Forall oslot_ok xs -> Forall2 answers xs rs ->
  holds (ker_res_data_addr c) off xs rs (dmem s) -> client_receives xs rs (kstate s) = Some k' ->
  exists ds s', run_decs ctx l s = Ret (ds, s') /\ kstate s' = k' /\
    Forall2 (fun p dec => answered (fst p) (snd p) dec) (zip xs rs) ds.
Proof.
  cbv zeta. revert rs n off c s. induction l as [|[x dec] l IH]; intros rs n off c s Ec Em En Eo Hn H16 L0 L1 Hr Hok Ha Hh Hk.
  { apply Forall2_nil_inv_l in Ha as ->. cbn in Hk. injection Hk as <-. exists [], s. split; [done|]. split; [done|constructor]. }
  cbn [fst fmap list_fmap ototal length] in *.
  apply Forall2_cons_inv_l in Ha as (r & rs' & Hx & Ha & ->). apply Forall_cons in Hok as [Hox Hok].
  destruct Hr as [(e & Ee & He & Hrl) Hr]. destruct Hh as [Hb Hh].
  cbn [client_receives] in Hk. apply bind_Some in Hk as (k1 & Hk1 & Hk).
  pose proof (ototal_nonneg _ Hok) as Ht. destruct (proj2 (proj2 Hox)) as [Hs0 Hs1]. unfold OTZ_1K_SIZE in *.
  destruct (fetch_one ctx x r n off c t e dec s k1 Ec Em En Eo ltac:(lia) Ee He Hox Hrl Hx Hb Hk1) as (dec' & E & Hans).
  destruct (IH rs' (S n) (off + osize x) (next_dec (osize x) c)
    (set_encs (<[ctx := next_dec (osize x) c]> (encs s)) (set_k k1 s))) as (ds & s' & Es & Ek & Hds).
  - apply lookup_insert_eq.
  - exact Em.
  - cbn. rewrite En, u32_id by (unfold in_u32; lia). lia.
  - cbn. rewrite Eo. apply u32_id. unfold in_u32. lia.
  - cbn. lia.
  - done.
  - lia.
  - lia.
  - done.
  - done.
  - done.
  - exact Hh.
  - exact Hk.
  - exists (dec' :: ds), s'. cbn [run_decs]. rewrite E. cbn [mbind res_bind]. change (negb (0 =? 0)) with false.
    cbv iota. rewrite Es. cbn [mbind res_bind]. split; [done|]. split; [done|]. cbn. by constructor.
Qed.

Lemma holds_shift data base off xs rs (m m' : mem) :
  sees_buffer m' base m data -> Forall2 answers xs rs -> Forall oslot_ok xs -> 0 <= off ->
  off + ototal xs <= OTZ_1K_SIZE -> holds data off xs rs m -> holds base off xs rs m'.
Proof.
  intros Hs Ha. revert off. induction Ha as [|x r xs rs Hx Ha IH]; intros off Hok L0 L1; [done|].
  apply Forall_cons in Hok as [(_ & _ & Hx0) Hok]. cbn [ototal holds] in *. pose proof (ototal_nonneg xs Hok).
  intros [Hb Hh]. split; [|apply IH; [done|lia|lia|done]].
  rewrite <-Hb. apply read_bytes_shift. intros y Hy. rewrite <-!Z.add_assoc. apply Hs.
  pose proof (proj2 (rbytes_ok x r Hx)). lia.
Qed.

(** C3: responses survive the way back.  The driver reserves room for the
    numbers and arrays a client asks for; a service that answers them in order,
    writing where [decode_data] tells it to and recording the lengths of the
    arrays, never leaves its room; and the driver then hands every answer to the
    address the client gave, with its length. *)
Theorem response_roundtrip (ctx : Z) (l : list (oslot * otz_client_encode_cmd)) (rs : list reply)
    (c : otzc_encode) (t : list otzc_encode_meta) (s : dst K) (P : Type) (N : NsMemory P) (st : P)
    (Hctx : out_inv ctx [] c t s) (Hk : fst (kmalloc OTZ_1K_SIZE (kstate s)) <> 0)
    (Hres : Forall (fun p => reserves (fst p) (snd p)) l) (Hroom : room (fst <$> l))
    (Hans : Forall2 answers (fst <$> l) rs) :
  exists s' c' t', run_outs ctx l s = Ret (0, s') /\ encs s' !! ctx = Some c' /\ metas s' !! meta c' = Some t' /\
    forall data m o, mapped data OTZ_1K_SIZE m -> d_offset o = 0 -> d_pos o = OTZ_MAX_REQ_PARAMS ->
      exists t2 m2, reply_all rs data t' o m st = Ret (t2, m2) /\
        (forall x, x < data \/ data + ototal (fst <$> l) <= x -> m2 !! x = m !! x) /\
        forall (s2 : dst K) k2 decs, encs s2 = encs s' -> metas s2 !! meta c' = Some t2 ->
          sees_buffer (dmem s2) (ker_res_data_addr c') m2 data -> length decs = length l ->
          client_receives (fst <$> l) rs (kstate s2) = Some k2 ->
          exists ds s3, run_decs ctx (zip (fst <$> l) decs) s2 = Ret (ds, s3) /\ kstate s3 = k2 /\
            Forall2 (fun p dec => answered (fst p) (snd p) dec) (zip (fst <$> l) rs) ds.
Proof.
  destruct (run_outs_spec ctx l [] c t s Hctx (fun _ => Hk) Hres Hroom) as (s' & c' & t' & E & I & _).
  cbn [app] in I. exists s', c', t'. split; [exact E|]. split; [apply I|]. split; [apply I|].
  intros data m o Hm Eo Ep. destruct Hroom as (R1 & R2 & R3). unfold OTZ_MAX_REQ_PARAMS, OTZ_MAX_RES_PARAMS in *.
  set (xs := fst <$> l) in *.
  destruct (reply_spec xs rs 12 0 t' data o m st Hans R3) as (t2 & m2 & Er & L2 & _ & Hlow & _ & Hh & Hr);
    [exact (oi_entries _ _ _ _ _ I)|apply I|lia|done|done|done|done|done|].
  exists t2, m2. split; [exact Er|]. split; [intros x Hx; apply Hlow; fold xs in Hx; lia|].
  intros s2 k2 decs Es Em Hsee Hlen Hrec.
  assert (Ez : fst <$> zip xs decs = xs) by (apply fst_zip; unfold xs; rewrite length_fmap; lia).
  destruct (fetch_all ctx (zip xs decs) rs 12 0 c' t2 s2 k2) as (ds & s3 & Ed & Ek & Hds); rewrite ?Ez.
  - rewrite Es. apply I.
  - exact Em.
  - apply (oi_dec _ _ _ _ _ I).
  - apply (oi_dec _ _ _ _ _ I).
  - rewrite (oi_pos _ _ _ _ _ I). unfold OTZ_MAX_REQ_PARAMS. lia.
  - rewrite (oi_pos _ _ _ _ _ I). unfold OTZ_MAX_REQ_PARAMS. lia.
  - done.
  - done.
  - done.
  - done.
  - done.
  - by apply (holds_shift data _ 0 xs rs m2 (dmem s2)).
  - exact Hrec.
  - exists ds, s3. rewrite Ez in Hds. done.
Qed.
End fetching.

(** ** A concrete response *)

Lemma out_inv_new {K} `{LinuxLaws K} (ctx a : Z) t (s : dst K) :
  encs s !! ctx = Some (new_encode a t) -> metas s !! t = Some (uninit_meta t) ->
  out_inv ctx [] (new_encode a t) (uninit_meta t) s.
Proof. intros. constructor; try done. apply uninit_length. Qed.

Definition out_cmd (d n : Z) : otz_client_encode_cmd := EncodeCmd n d 0 0 OTZC_PARAM_OUT 500 OTZ_SVC_ECHO 1 1.

(** A number and an array of at most eight bytes, answered by 9 and three
    bytes: the array's length comes back with it. *)
Lemma response_roundtrip_witness :
  exists (s1 s2 s3 : dst ref_kernel) d1 d2,
    run_outs 500 [(OUint 0x500, out_cmd 0x500 0); (OArr 0x600 8, out_cmd 0x600 8)] demo_dst = Ret (0, s1) /\
    run_decs 500 [(OUint 0x500, out_cmd 0 0); (OArr 0x600 8, out_cmd 0 0)] s2 = Ret ([d1; d2], s3) /\
    Some (kstate s3) = client_receives [OUint 0x500; OArr 0x600 8] [RInt 9; RArr [1; 2; 3]] (kstate s1) /\
    data d2 = 0x600 /\ len d2 = 3.
Proof.
  destruct (response_roundtrip 500 [(OUint 0x500, out_cmd 0x500 0); (OArr 0x600 8, out_cmd 0x600 8)]
    [RInt 9; RArr [1; 2; 3]] _ _ demo_dst (pt_state (H := bump_heap)) (pt_NsMemory false 0x8000 bump_heap)
    (PtState ∅ [] bump_test) (out_inv_new 500 500 600 demo_dst eq_refl eq_refl)) as (s' & c' & t' & E & Ec & Et & R).
  - done.
  - apply Forall_cons_2; [by vm_compute|]. apply Forall_cons_2; [by vm_compute|constructor].
  - split; [by compute|]. split; [by compute|].
    apply Forall_cons_2; [by compute|]. apply Forall_cons_2; [by compute|constructor].
  - apply Forall2_cons_2; [by compute|]. apply Forall2_cons_2; [|constructor].
    split; [by compute|]. do 3 (apply Forall_cons_2; [by compute|]). constructor.
  - destruct (R (ker_res_data_addr c') (provide (ker_res_data_addr c') OTZ_1K_SIZE ∅) (DecOut 0 0 12 0 0 0))
      as (t2 & m2 & Er & _ & G); [apply provide_mapped|done|done|].
    destruct (client_receives [OUint 0x500; OArr 0x600 8] [RInt 9; RArr [1; 2; 3]] (kstate s')) as [k2|] eqn:Ek; [|done].
    pose (sv := set_dmem m2 (set_metas (<[meta c' := t2]> (metas s')) s')).
    destruct (G sv k2 [out_cmd 0 0; out_cmd 0 0])
      as (ds & s3 & Ed & Ek3 & Hd); [done|apply lookup_insert_eq|done|done|exact Ek|].
    apply Forall2_cons_inv_l in Hd as (d1 & ds1 & H1 & Hd & ->).
    apply Forall2_cons_inv_l in Hd as (d2 & ds2 & H2 & Hd & ->). apply Forall2_nil_inv_l in Hd as ->.
    exists s', sv, s3, d1, d2. split; [exact E|]. split; [exact Ed|]. split; [by rewrite Ek3|exact H2].
Defined.
