(* ===== verification/DriverSes.v ===== *)
(** Sessions in the driver: which session a command reaches. *)
From stdpp Require Import prelude gmap.
From S2P Require Import Prelude MemFn Words Encode Driver.
#[local] Open Scope Z_scope.

Section sessions.
Context {K : Type} `{Linux K}.
Context (otz_smc : otz_smc_cmd -> dst K -> res (Z * otz_smc_cmd * dst K)).
Context (wait_event : Z -> dst K -> res (bool * dst K)).

(** C39: a command reaches only the first session of a service.  The loop over
    the sessions is left after its first round, so a command for another
    session that is open is refused without a call of the secure world, while
    [otz_client_session_close] and the encoders find it. *)
Theorem later_session_unreachable (dev argp v x y : Z) (enc : otz_client_encode_cmd) (sv : otzc_service)
    (first : otzc_session) (l : list Z) (s : dst K)
    (Hcmd : get_encode_cmd argp (kstate s) = Some enc)
    (Hsvc : find_service dev (service_id enc) s = Ret (Some v)) (Hv : svcs s !! v = Some sv)
    (Hses : sessions_list sv = y :: l) (Hy : sess s !! y = Some first)
    (Hother : s_id first <> session_id enc)
    (Hopen : find_session dev (service_id enc) (session_id enc) s = Ret (Some x)) :
  otz_client_send_cmd otz_smc wait_event dev argp s = Ret (- EINVAL, s) /\ x <> y /\
  exists ses, sess s !! x = Some ses /\ s_id ses = session_id enc.
Proof.
  split.
  - unfold otz_client_send_cmd. rewrite Hcmd. unfold first_session. rewrite Hsvc. cbn [mbind res_bind]. rewrite Hv.
    cbn [of_opt mbind res_bind]. rewrite Hses. cbn [head mret res_ret mbind res_bind]. rewrite Hy. cbn [of_opt mbind res_bind].
    destruct (Z.eqb_spec (s_id first) (session_id enc)); [done|]. done.
  - assert (Hx : exists ses, sess s !! x = Some ses /\ s_id ses = session_id enc).
    { unfold find_session in Hopen. rewrite Hsvc in Hopen. cbn [mbind res_bind] in Hopen. rewrite Hv in Hopen.
      cbn [of_opt mbind res_bind] in Hopen. revert Hopen. generalize (sessions_list sv). clear.
      induction l as [|a l IH]; cbn; [done|]. destruct (sess s !! a) as [ses|] eqn:E; cbn; [|done].
      destruct (Z.eqb_spec (s_id ses) (session_id enc)); [|done]. intros [= ->]. by exists ses. }
    split; [|done]. intros ->. destruct Hx as (ses & E & Eid). rewrite Hy in E. injection E as ->. done.
Qed.
End sessions.

(** Two sessions with the echo service; a command for the second. *)
Definition two_sessions : dst ref_kernel :=
  Dst (RefKernel 0x1000 ∅ {[0x80 := EncodeCmd 0 0 0 0 0 (-1) OTZ_SVC_ECHO 6 1]} ∅) ∅ ∅ ∅
    {[400 := Session 5 [] []; 401 := Session 6 [] []]} {[300 := Service OTZ_SVC_ECHO [400; 401]]}
    {[200 := DevFile 1 1 [300] 0 []]} ∅ [200] 1 1 0.

Definition no_smc (c : otz_smc_cmd) (s : dst ref_kernel) : res (Z * otz_smc_cmd * dst ref_kernel) := mret (0, c, s).
Definition no_wait (c : Z) (s : dst ref_kernel) : res (bool * dst ref_kernel) := mret (false, s).

Lemma later_session_unreachable_witness :
  otz_client_send_cmd no_smc no_wait 1 0x80 two_sessions = Ret (- EINVAL, two_sessions) /\
  find_session 1 OTZ_SVC_ECHO 6 two_sessions = Ret (Some 401).
Proof.
  split; [|reflexivity].
  apply (later_session_unreachable no_smc no_wait 1 0x80 300 401 400 (EncodeCmd 0 0 0 0 0 (-1) OTZ_SVC_ECHO 6 1)
    (Service OTZ_SVC_ECHO [400; 401]) (Session 5 [] []) [401] two_sessions); reflexivity || done.
Defined.
