(* ===== verification/Ipi.v ===== *)
(** Parameters between two secure tasks: what [otz_encode_data] stores against
    what [decode_data] and [decode_ipi_out_data] find ([core/secure_api.c]). *)
From stdpp Require Import prelude gmap.
From S2P Require Import Prelude HeapIface PageTable MemFn Words Encode.
#[local] Open Scope Z_scope.

(** A parameter of a call: the type, the word and the length. *)
Record item : Type := Item { it_type : Z; it_data : Z; it_len : Z }.

Definition item_cmd (out : bool) (x : item) : otz_secure_encode_cmd :=
  SecCmd (it_len x) (it_data x) (if out then OTZC_PARAM_OUT else OTZC_PARAM_IN).

Definition item_ok (x : item) : Prop :=
  (it_type x = OTZ_ENC_UINT32 \/ it_type x = OTZ_SECURE_MEM_REF) /\ in_u32 (it_data x) /\ in_s32 (it_len x).

(** The words lie sixteen bytes apart: the offset counts bytes, the store words. *)
Definition words_at (base : Z) (xs : list item) (m : mem) : Prop :=
  forall i x, xs !! i = Some x -> read_bytes 4 (base + 16 * Z.of_nat i) m = Some (le32 (it_data x)).
Definition entries_at (n : nat) (xs : list item) (t : list otzc_encode_meta) : Prop :=
  forall i x, xs !! i = Some x -> exists e, t !! (n + i)%nat = Some e /\ m_type e = it_type x /\ m_len e = it_len x.

Section ipi.
Context {H : Type} `{PrivateHeap H}.
Context (task : Z).

(** The context holds the parameters [ins] and [outs] in its two buffers. *)
Record sinv (ctx meta : Z) (ins outs : list item) (c : otz_secure_encode_ctx) (t : list otzc_encode_meta)
    (s : est H) : Prop := {
  si_ptr : ctx <> 0 /\ meta <> 0;
  si_ctx : ectxs s !! ctx = Some c;
  si_meta : emetas s !! meta = Some t;
  si_len : length t = 16%nat;
  si_req : req_addr c <> 0 /\ mapped (req_addr c) OTZ_1K_SIZE (emem s);
  si_res : res_addr c <> 0 /\ mapped (res_addr c) OTZ_1K_SIZE (emem s);
  si_apart : req_addr c + OTZ_1K_SIZE <= res_addr c \/ res_addr c + OTZ_1K_SIZE <= req_addr c;
  si_ins : Z.of_nat (length ins) <= OTZ_MAX_REQ_PARAMS /\
           enc_req_pos c = Z.of_nat (length ins) /\ enc_req_offset c = 4 * Z.of_nat (length ins);
  si_outs : Z.of_nat (length outs) <= OTZ_MAX_RES_PARAMS /\
            enc_res_pos c = OTZ_MAX_REQ_PARAMS + Z.of_nat (length outs) /\
            enc_res_offset c = 4 * Z.of_nat (length outs);
  si_in_words : words_at (req_addr c) ins (emem s);
  si_out_words : words_at (res_addr c) outs (emem s);
  si_in_entries : entries_at 0 ins t;
  si_out_entries : entries_at 12 outs t;
}.

Lemma words_write base xs m a l :
  words_at base xs m -> a + Z.of_nat (length l) <= base \/ base + 16 * Z.of_nat (length xs) <= a ->
  words_at base xs (write_bytes a l m).
Proof.
  intros Hw Ha i x Hi. pose proof (lookup_lt_Some _ _ _ Hi). rewrite read_bytes_write by lia. by apply Hw.
Qed.

Lemma words_snoc base xs x m :
  words_at base xs m -> in_u32 (it_data x) ->
  words_at base (xs ++ [x]) (write_bytes (base + 16 * Z.of_nat (length xs)) (le32 (it_data x)) m).
Proof.
  intros Hw Hx i y Hi. destruct (decide (i = length xs)) as [->|Hne].
  - rewrite lookup_app_r, Nat.sub_diag in Hi by lia. injection Hi as <-. apply (read_bytes_write_same (le32 _)).
  - assert (i < length xs)%nat by (apply lookup_lt_Some in Hi; rewrite length_app in Hi; cbn in Hi; lia).
    rewrite lookup_app_l in Hi by done. rewrite read_bytes_write by (cbn; lia). by apply Hw.
Qed.

Lemma entries_insert n xs t j e :
  entries_at n xs t -> (j < n \/ n + length xs <= j)%nat -> entries_at n xs (<[j := e]> t).
Proof.
  intros He Hj i x Hi. pose proof (lookup_lt_Some _ _ _ Hi). rewrite list_lookup_insert_ne by lia. by apply He.
Qed.

Lemma entries_snoc n xs x t e :
  entries_at n xs t -> (n + length xs < length t)%nat -> m_type e = it_type x -> m_len e = it_len x ->
  entries_at n (xs ++ [x]) (<[(n + length xs)%nat := e]> t).
Proof.
  intros He Hn Ht Hl i y Hi. destruct (decide (i = length xs)) as [->|Hne].
  - rewrite lookup_app_r, Nat.sub_diag in Hi by lia. injection Hi as <-. exists e.
    split; [by apply list_lookup_insert_eq|done].
  - assert (i < length xs)%nat by (apply lookup_lt_Some in Hi; rewrite length_app in Hi; cbn in Hi; lia).
    rewrite lookup_app_l in Hi by done. rewrite list_lookup_insert_ne by lia. by apply He.
Qed.

Lemma type_test x : item_ok x ->
  negb (it_type x =? OTZ_ENC_UINT32) && negb (it_type x =? OTZ_SECURE_MEM_REF) = false.
Proof. by intros [[->| ->] _]. Qed.

(** One more parameter of the request. *)
Lemma encode_in_spec ctx meta ins outs c t s x :
  sinv ctx meta ins outs c t s -> item_ok x -> Z.of_nat (length ins) < OTZ_MAX_REQ_PARAMS ->
  exists s' t', otz_encode_data task (Some (item_cmd false x)) meta ctx (it_type x) s = Ret (OTZ_OK, meta, ctx, s') /\
    eheap s' = eheap s /\ sinv ctx meta (ins ++ [x]) outs (next_req c) t' s'.
Proof.
  intros [] Hx Hn. destruct si_ptr0 as [Hc0 Hm0]. destruct si_req0 as [Hr0 Hrm], si_res0 as [Hs0 Hsm].
  destruct si_ins0 as (_ & Ep & Eo), si_outs0 as (Lo & Eop & Eoo). unfold OTZ_1K_SIZE, OTZ_MAX_REQ_PARAMS, OTZ_MAX_RES_PARAMS in *.
  unfold otz_encode_data. rewrite (type_test _ Hx). destruct (Z.eqb_spec ctx 0) as [|_]; [done|]. cbn [mbind res_bind mret res_ret].
  destruct (Z.eqb_spec ctx 0) as [|_]; [done|]. destruct (Z.eqb_spec meta 0) as [|_]; [done|]. cbn [mbind res_bind mret res_ret].
  destruct (Z.eqb_spec meta 0) as [|_]; [done|]. cbn [item_cmd c_param_type]. change (OTZC_PARAM_IN =? OTZC_PARAM_IN) with true.
  cbv iota. unfold encode_in. rewrite si_ctx0. cbn [of_opt mbind res_bind]. unfold new_buf.
  destruct (Z.eqb_spec (req_addr c) 0) as [|_]; [done|]. cbn [negb mbind res_bind mret res_ret]. rewrite si_ctx0.
  cbn [of_opt mbind res_bind]. rewrite Eo, Ep. unfold OTZ_1K_SIZE, OTZ_MAX_REQ_PARAMS. rewrite u32_id by (unfold in_u32; lia).
  rewrite (proj2 (Z.leb_le _ _)) by lia. rewrite (proj2 (Z.ltb_lt _ _)) by lia. cbn [andb]. unfold put_word.
  replace (4 * (4 * Z.of_nat (length ins))) with (16 * Z.of_nat (length ins)) by lia. cbn [item_cmd c_data c_len].
  destruct Hx as (Hxt & Hxd & Hxl). rewrite (u32_id _ Hxd), (s32_id _ Hxl).
  rewrite store32_ok by (eapply mapped_sub; [exact Hrm|lia|lia]). cbn [mbind res_bind]. rewrite si_ctx0. cbn [of_opt mbind res_bind].
  rewrite si_meta0. cbn [of_opt mbind res_bind]. unfold meta_upd, meta_get.
  destruct (Z.ltb_spec (Z.of_nat (length ins)) 0); [lia|]. rewrite Nat2Z.id.
  destruct (lookup_lt_is_Some_2 t (length ins)) as [e Ee]; [lia|]. rewrite Ee. cbn [of_opt mbind res_bind mret res_ret].
  destruct (Z.eqb_spec meta 0) as [|_]; [done|]. destruct (Z.eqb_spec ctx 0) as [|_]; [done|].
  eexists _, (<[length ins := set_type_len (it_type x) (it_len x) e]> t). split; [reflexivity|]. split; [reflexivity|].
  constructor; cbn -[Nat.add write_bytes le32]; try done.
  - by rewrite lookup_insert_eq.
  - by rewrite lookup_insert_eq.
  - by rewrite length_insert.
  - split; [done|]. by apply mapped_write.
  - split; [done|]. by apply mapped_write.
  - rewrite length_app. cbn. unfold OTZ_MAX_REQ_PARAMS. rewrite Ep, Eo, !u32_id by (unfold in_u32; lia). lia.
  - by apply words_snoc.
  - apply words_write; [done|]. cbn. lia.
  - apply (entries_snoc 0 ins x t); [done|cbn; lia|done|done].
  - apply entries_insert; [done|]. left. lia.
Qed.

(** One more parameter of the response. *)
Lemma encode_out_spec ctx meta ins outs c t s x :
  sinv ctx meta ins outs c t s -> item_ok x -> Z.of_nat (length outs) < OTZ_MAX_RES_PARAMS ->
  exists s' t', otz_encode_data task (Some (item_cmd true x)) meta ctx (it_type x) s = Ret (OTZ_OK, meta, ctx, s') /\
    eheap s' = eheap s /\ sinv ctx meta ins (outs ++ [x]) (next_res c) t' s'.
Proof.
  intros [] Hx Hn. destruct si_ptr0 as [Hc0 Hm0]. destruct si_req0 as [Hr0 Hrm], si_res0 as [Hs0 Hsm].
  destruct si_ins0 as (Li & Ep & Eo), si_outs0 as (_ & Eop & Eoo). unfold OTZ_1K_SIZE, OTZ_MAX_REQ_PARAMS, OTZ_MAX_RES_PARAMS in *.
  unfold otz_encode_data. rewrite (type_test _ Hx). destruct (Z.eqb_spec ctx 0) as [|_]; [done|]. cbn [mbind res_bind mret res_ret].
  destruct (Z.eqb_spec ctx 0) as [|_]; [done|]. destruct (Z.eqb_spec meta 0) as [|_]; [done|]. cbn [mbind res_bind mret res_ret].
  destruct (Z.eqb_spec meta 0) as [|_]; [done|]. cbn [item_cmd c_param_type]. change (OTZC_PARAM_OUT =? OTZC_PARAM_IN) with false.
  change (OTZC_PARAM_OUT =? OTZC_PARAM_OUT) with true.
  cbv iota. unfold encode_out. rewrite si_ctx0. cbn [of_opt mbind res_bind]. unfold new_buf.
  destruct (Z.eqb_spec (res_addr c) 0) as [|_]; [done|]. cbn [negb mbind res_bind mret res_ret]. rewrite si_ctx0.
  cbn [of_opt mbind res_bind]. rewrite Eoo, Eop. unfold OTZ_1K_SIZE, OTZ_MAX_REQ_PARAMS, OTZ_MAX_RES_PARAMS. rewrite u32_id by (unfold in_u32; lia).
  rewrite (proj2 (Z.leb_le _ _)) by lia. rewrite (proj2 (Z.ltb_lt _ _)) by lia. cbn [andb]. unfold put_word.
  replace (4 * (4 * Z.of_nat (length outs))) with (16 * Z.of_nat (length outs)) by lia. cbn [item_cmd c_data c_len].
  destruct Hx as (Hxt & Hxd & Hxl). rewrite (u32_id _ Hxd), (s32_id _ Hxl).
  rewrite store32_ok by (eapply mapped_sub; [exact Hsm|lia|lia]). cbn [mbind res_bind]. rewrite si_ctx0. cbn [of_opt mbind res_bind].
  rewrite si_meta0. cbn [of_opt mbind res_bind]. unfold meta_upd, meta_get.
  destruct (Z.ltb_spec (12 + Z.of_nat (length outs)) 0); [lia|].
  replace (Z.to_nat (12 + Z.of_nat (length outs))) with (12 + length outs)%nat by lia.
  destruct (lookup_lt_is_Some_2 t (12 + length outs)) as [e Ee]; [lia|]. rewrite Ee. cbn [of_opt mbind res_bind mret res_ret].
  destruct (Z.eqb_spec meta 0) as [|_]; [done|]. destruct (Z.eqb_spec ctx 0) as [|_]; [done|].
  eexists _, (<[(12 + length outs)%nat := set_type_len (it_type x) (it_len x) e]> t). split; [reflexivity|]. split; [reflexivity|].
  constructor; cbn -[Nat.add write_bytes le32]; try done.
  - by rewrite lookup_insert_eq.
  - by rewrite lookup_insert_eq.
  - by rewrite length_insert.
  - split; [done|]. by apply mapped_write.
  - split; [done|]. by apply mapped_write.
  - rewrite length_app. cbn. unfold OTZ_MAX_REQ_PARAMS, OTZ_MAX_RES_PARAMS. rewrite Eop, Eoo, !u32_id by (unfold in_u32; lia). lia.
  - apply words_write; [done|]. cbn. lia.
  - by apply words_snoc.
  - apply entries_insert; [done|]. right. cbn. lia.
  - apply (entries_snoc 12 outs x t); [done|lia|done|done].
Qed.
(** The calls of a task: [true] adds to the response. *)
Fixpoint run_calls (ctx meta : Z) (l : list (bool * item)) (s : est H) : res (Z * est H) :=
  match l with
  | [] => mret (OTZ_OK, s)
  | (out, x) :: l =>
      '(r, _, _, s) ← otz_encode_data task (Some (item_cmd out x)) meta ctx (it_type x) s;
      if negb (r =? OTZ_OK) then mret (r, s) else run_calls ctx meta l s
  end.

Definition items (out : bool) (l : list (bool * item)) : list item := snd <$> filter (fun p => fst p = out) l.

Lemma run_calls_spec ctx meta l ins outs c t s :
  sinv ctx meta ins outs c t s -> Forall (fun p => item_ok (snd p)) l ->
  Z.of_nat (length (ins ++ items false l)) <= OTZ_MAX_REQ_PARAMS ->
  Z.of_nat (length (outs ++ items true l)) <= OTZ_MAX_RES_PARAMS ->
  exists s' c' t', run_calls ctx meta l s = Ret (OTZ_OK, s') /\ eheap s' = eheap s /\
    sinv ctx meta (ins ++ items false l) (outs ++ items true l) c' t' s'.
Proof.
  revert ins outs c t s. induction l as [|[out x] l IH]; intros ins outs c t s Hi Hl H1 H2.
  { exists s, c, t. split; [done|]. split; [done|]. by rewrite !app_nil_r. }
  apply Forall_cons in Hl as [Hx Hl]. cbn [snd] in Hx. destruct out.
  - change (items false ((true, x) :: l)) with (items false l) in H1 |- *.
    change (items true ((true, x) :: l)) with (x :: items true l) in H2 |- *.
    assert (Z.of_nat (length outs) < OTZ_MAX_RES_PARAMS) by (rewrite length_app in H2; cbn in H2; lia).
    destruct (encode_out_spec ctx meta ins outs c t s x Hi Hx) as (s1 & t1 & E1 & B1 & I1); [done|].
    rewrite (cons_middle x outs), app_assoc in H2 |- *.
    destruct (IH ins (outs ++ [x]) _ t1 s1 I1 Hl H1 H2) as (s' & c' & t' & E & B & I). exists s', c', t'.
    cbn [run_calls]. rewrite E1. cbn [mbind res_bind]. split; [exact E|]. split; [by rewrite B|exact I].
  - change (items false ((false, x) :: l)) with (x :: items false l) in H1 |- *.
    change (items true ((false, x) :: l)) with (items true l) in H2 |- *.
    assert (Z.of_nat (length ins) < OTZ_MAX_REQ_PARAMS) by (rewrite length_app in H1; cbn in H1; lia).
    destruct (encode_in_spec ctx meta ins outs c t s x Hi Hx) as (s1 & t1 & E1 & B1 & I1); [done|].
    rewrite (cons_middle x ins), app_assoc in H1 |- *.
    destruct (IH (ins ++ [x]) outs _ t1 s1 I1 Hl H1 H2) as (s' & c' & t' & E & B & I). exists s', c', t'.
    cbn [run_calls]. rewrite E1. cbn [mbind res_bind]. split; [exact E|]. split; [by rewrite B|exact I].
Qed.

Lemma entry_get n xs t i x : entries_at n xs t -> xs !! i = Some x ->
  exists e, meta_get t (Z.of_nat (n + i)) = Ret e /\ m_type e = it_type x /\ m_len e = it_len x.
Proof.
  intros He Hi. destruct (He i x Hi) as (e & Ee & ?). exists e. split; [|done]. unfold meta_get.
  destruct (Z.ltb_spec (Z.of_nat (n + i)) 0); [lia|]. by rewrite Nat2Z.id, Ee.
Qed.

(** C6: references between secure tasks survive.  A task adds references to the
    request and the response in any order, within twelve and four; every call
    succeeds, the called task finds each reference of the request with its
    length, and once it has recorded a length for a reference of the response,
    the calling task finds that reference with this length. *)
Theorem secure_references_roundtrip (ctx meta : Z) (l : list (bool * item)) (ins outs : list item)
    (c : otz_secure_encode_ctx) (t : list otzc_encode_meta) (s : est H)
    (Hinv : sinv ctx meta ins outs c t s) (Hok : Forall (fun p => item_ok (snd p)) l)
    (Hins : Z.of_nat (length (ins ++ items false l)) <= OTZ_MAX_REQ_PARAMS)
    (Houts : Z.of_nat (length (outs ++ items true l)) <= OTZ_MAX_RES_PARAMS)
    (Hdata : Forall (fun x => in_u32 (it_data x)) (ins ++ outs)) :
  exists s' c' t', run_calls ctx meta l s = Ret (OTZ_OK, s') /\ ectxs s' !! ctx = Some c' /\
    emetas s' !! meta = Some t' /\
    (forall i x, (ins ++ items false l) !! i = Some x -> it_type x = OTZ_SECURE_MEM_REF ->
       forall (P : Type) (N : NsMemory P) o (st : P), d_offset o = 4 * Z.of_nat i -> d_pos o = Z.of_nat i ->
       decode_data (req_addr c') t' o (emem s') st =
         Ret (0, DecOut OTZ_MEM_REF (4 * Z.of_nat i + 4) (Z.of_nat i + 1) 0 (it_data x) (it_len x), st)) /\
    (forall j x n, (outs ++ items true l) !! j = Some x -> it_type x = OTZ_SECURE_MEM_REF ->
       exists t2, update_response_len t' (OTZ_MAX_REQ_PARAMS + Z.of_nat j + 1) n = Ret (0, t2) /\
       forall o, d_offset o = 4 * Z.of_nat j -> d_pos o = OTZ_MAX_REQ_PARAMS + Z.of_nat j ->
       decode_ipi_out_data (res_addr c') t2 o (emem s') =
         Ret (0, DecOut OTZ_MEM_REF (4 * Z.of_nat j + 4) (OTZ_MAX_REQ_PARAMS + Z.of_nat j + 1) (d_mapped o)
                   (it_data x) n)).
Proof.
  destruct (run_calls_spec ctx meta l ins outs c t s Hinv Hok Hins Houts) as (s' & c' & t' & E & _ & I).
  assert (Hd : forall out x, x ∈ (if out : bool then outs else ins) ++ items out l -> in_u32 (it_data x)).
  { intros out x Hx. apply Forall_app in Hdata as [D1 D2]. rewrite Forall_forall in D1, D2. rewrite Forall_forall in Hok.
    apply elem_of_app in Hx as [Hx|Hx]; [destruct out; [by apply D2|by apply D1]|].
    apply list_elem_of_fmap in Hx as (p & -> & Hp%list_elem_of_filter).
    by destruct (Hok p (proj2 Hp)) as (_ & ? & _). }
  exists s', c', t'. split; [exact E|]. split; [apply I|]. split; [apply I|].
  unfold OTZ_MAX_REQ_PARAMS, OTZ_MAX_RES_PARAMS in *. split.
  - intros i x Hi Ht P N o st Eo Ep. pose proof (lookup_lt_Some _ _ _ Hi).
    destruct (entry_get 0 _ t' i x (si_in_entries _ _ _ _ _ _ _ I) Hi) as (e & Ee & Et & El).
    unfold decode_data. rewrite Ep. cbn [Nat.add] in Ee. rewrite Ee. cbn [mbind res_bind]. rewrite Et, Ht, El.
    change (OTZ_SECURE_MEM_REF =? OTZ_ENC_UINT32) with false. change (OTZ_SECURE_MEM_REF =? OTZ_ENC_ARRAY) with false.
    change (OTZ_SECURE_MEM_REF =? OTZ_MEM_REF) with false. change (OTZ_SECURE_MEM_REF =? OTZ_SECURE_MEM_REF) with true.
    cbv iota. rewrite Eo. replace (4 * (4 * Z.of_nat i)) with (16 * Z.of_nat i) by lia.
    rewrite (load32_le32 _ (it_data x)); [|apply (Hd false); by eapply list_elem_of_lookup_2|by apply I].
    cbn [mbind res_bind]. rewrite !s32_id by (unfold in_s32; lia). done.
  - intros j x n Hj Ht. pose proof (lookup_lt_Some _ _ _ Hj).
    destruct (entry_get 12 _ t' j x (si_out_entries _ _ _ _ _ _ _ I) Hj) as (e & Ee & Et & El).
    assert (Ej : 12 + Z.of_nat j = Z.of_nat (12 + j)) by lia. rewrite Ej.
    unfold update_response_len. rewrite (proj2 (Z.leb_le _ _)) by (unfold OTZ_MAX_REQ_PARAMS, OTZ_MAX_RES_PARAMS; lia).
    unfold meta_upd. replace (Z.of_nat (12 + j) + 1 - 1) with (Z.of_nat (12 + j)) by lia. rewrite Ee.
    cbn [mbind res_bind mret res_ret]. eexists. split; [reflexivity|]. intros o Eo Ep.
    unfold decode_ipi_out_data. rewrite Ep, Nat2Z.id. unfold meta_get.
    destruct (Z.ltb_spec (Z.of_nat (12 + j)) 0); [lia|]. rewrite Nat2Z.id.
    rewrite list_lookup_insert_eq by (rewrite (si_len _ _ _ _ _ _ _ I); lia). cbn [of_opt mbind res_bind set_ret_len m_type m_ret_len].
    rewrite Et, Ht. change (OTZ_SECURE_MEM_REF =? OTZ_ENC_UINT32) with false.
    change (OTZ_SECURE_MEM_REF =? OTZ_SECURE_MEM_REF) with true. cbv iota. rewrite Eo.
    replace (4 * (4 * Z.of_nat j)) with (16 * Z.of_nat j) by lia.
    rewrite (load32_le32 _ (it_data x)); [|apply (Hd true); by eapply list_elem_of_lookup_2|by apply I].
    cbn [mbind res_bind]. rewrite !s32_id by (unfold in_s32; lia). done.
Qed.

(** Numbers between secure tasks are read from the wrong place.  The decoder
    points to a byte offset where the encoder stored at a word offset: of the
    parameters of a request, number [4 * j] is read as the word of parameter
    [j]. *)
Theorem number_read_as_other (ctx meta : Z) (ins outs : list item) (c : otz_secure_encode_ctx)
    (t : list otzc_encode_meta) (s : est H) (j : nat) (x y : item) (P : Type) (N : NsMemory P) (o : dec_out) (st : P)
    (Hinv : sinv ctx meta ins outs c t s) (Hx : ins !! (4 * j)%nat = Some x) (Hnum : it_type x = OTZ_ENC_UINT32)
    (Hy : ins !! j = Some y) (Hdata : in_u32 (it_data y))
    (Hoff : d_offset o = 4 * Z.of_nat (4 * j)) (Hpos : d_pos o = Z.of_nat (4 * j)) :
  exists o', decode_data (req_addr c) t o (emem s) st = Ret (0, o', st) /\ d_type o' = OTZ_ENC_UINT32 /\
    load32 (d_data o') (emem s) = Ret (it_data y).
Proof.
  destruct (entry_get 0 _ t _ x (si_in_entries _ _ _ _ _ _ _ Hinv) Hx) as (e & Ee & Et & El). cbn [Nat.add] in Ee.
  unfold decode_data. rewrite Hpos, Ee. cbn [mbind res_bind]. rewrite Et, Hnum.
  change (OTZ_ENC_UINT32 =? OTZ_ENC_UINT32) with true. cbv iota. eexists. split; [reflexivity|]. split; [done|].
  cbn [d_data]. rewrite Hoff. replace (4 * Z.of_nat (4 * j)) with (16 * Z.of_nat j) by lia.
  apply load32_le32; [done|]. by apply (si_in_words _ _ _ _ _ _ _ Hinv).
Qed.
End ipi.

Section limits.
Context {H : Type} `{PrivateHeapLaws H}.
Context (task : Z).

Lemma e_free_ok p (s : est H) : heap_wf (eheap s) ->
  exists s', e_free task p s = Ret s' /\ heap_wf (eheap s') /\ ectxs s' = ectxs s /\ emetas s' = emetas s /\ emem s' = emem s.
Proof.
  intros Hw. unfold e_free. destruct (heap_free_ok task p (eheap s) Hw) as (h & -> & Hw' & _).
  eexists. split; [reflexivity|]. done.
Qed.

Lemma e_free_buf_ok p (s : est H) : heap_wf (eheap s) ->
  exists s', e_free_buf task p s = Ret s' /\ heap_wf (eheap s') /\ ectxs s' = ectxs s /\ emetas s' = emetas s.
Proof.
  intros Hw. unfold e_free_buf. destruct (p =? 0); [by exists s|].
  destruct (e_free_ok p s Hw) as (s' & -> & ? & ? & ? & _). by exists s'.
Qed.

Lemma release_ok ctx meta c (s : est H) : heap_wf (eheap s) -> ctx <> 0 -> meta <> 0 -> ectxs s !! ctx = Some c ->
  exists s', otz_release_data task ctx meta s = Ret s' /\ heap_wf (eheap s') /\
    ectxs s' = delete ctx (ectxs s) /\ emetas s' = delete meta (emetas s).
Proof.
  intros Hw Hc Hm Ec. unfold otz_release_data. destruct (Z.eqb_spec ctx 0) as [|_]; [done|]. rewrite Ec. cbn [of_opt mbind res_bind].
  destruct (e_free_buf_ok (req_addr c) s Hw) as (s1 & -> & W1 & C1 & M1). cbn [mbind res_bind].
  destruct (e_free_buf_ok (res_addr c) s1 W1) as (s2 & -> & W2 & C2 & M2). cbn [mbind res_bind].
  destruct (e_free_ok ctx s2 W2) as (s3 & -> & W3 & C3 & M3 & _). cbn [mbind res_bind mret res_ret].
  destruct (Z.eqb_spec meta 0) as [|_]; [done|].
  destruct (e_free_ok meta (set_ectxs (delete ctx (ectxs s3)) s3) W3) as (s4 & -> & W4 & C4 & M4 & _). cbn [mbind res_bind].
  eexists. split; [reflexivity|]. split; [done|]. cbn. rewrite C4, M4. cbn. by rewrite C3, C2, C1, M3, M2, M1.
Qed.

(** One parameter too many leaves the caller with dangling pointers.  A
    thirteenth parameter of a request frees the context, its buffers and the
    table, but the caller keeps the pointers it passed: every later call with
    them, the one that releases them included, uses freed memory. *)
Theorem thirteenth_parameter_dangles (ctx meta ty : Z) (ins outs : list item) (c : otz_secure_encode_ctx)
    (t : list otzc_encode_meta) (s : est H) (enc enc' : otz_secure_encode_cmd)
    (Hinv : sinv ctx meta ins outs c t s) (Hwf : heap_wf (eheap s))
    (Hfull : Z.of_nat (length ins) = OTZ_MAX_REQ_PARAMS) (Hty : ty = OTZ_ENC_UINT32 \/ ty = OTZ_SECURE_MEM_REF)
    (Hin : c_param_type enc = OTZC_PARAM_IN)
    (Hdir : c_param_type enc' = OTZC_PARAM_IN \/ c_param_type enc' = OTZC_PARAM_OUT) :
  exists s', otz_encode_data task (Some enc) meta ctx ty s = Ret (OTZ_ENOMEM, meta, ctx, s') /\
    otz_encode_data task (Some enc') meta ctx ty s' = Fault /\ otz_release_data task ctx meta s' = Fault.
Proof.
  destruct Hinv as [[Hc Hm] Ec Em L [Hr _] _ _ (_ & Ep & Eo) _ _ _ _ _].
  destruct (release_ok ctx meta c s Hwf Hc Hm Ec) as (s' & Er & _ & C' & M'). exists s'.
  assert (Ht : negb (ty =? OTZ_ENC_UINT32) && negb (ty =? OTZ_SECURE_MEM_REF) = false) by (by destruct Hty as [->| ->]).
  assert (Hgone : ectxs s' !! ctx = None) by (by rewrite C', lookup_delete_eq).
  unfold otz_encode_data. rewrite Ht. destruct (Z.eqb_spec ctx 0) as [|_]; [done|]. cbn [mbind res_bind mret res_ret].
  destruct (Z.eqb_spec ctx 0) as [|_]; [done|]. destruct (Z.eqb_spec meta 0) as [|_]; [done|]. cbn [mbind res_bind mret res_ret].
  destruct (Z.eqb_spec meta 0) as [|_]; [done|]. rewrite Hin. change (OTZC_PARAM_IN =? OTZC_PARAM_IN) with true. cbv iota.
  split; [|split].
  - unfold encode_in. rewrite Ec. cbn [of_opt mbind res_bind]. unfold new_buf.
    destruct (Z.eqb_spec (req_addr c) 0) as [|_]; [done|]. cbn [negb mbind res_bind mret res_ret]. rewrite Ec.
    cbn [of_opt mbind res_bind]. rewrite Ep, Hfull. rewrite Z.ltb_irrefl, andb_false_r. cbn [mbind res_bind mret res_ret]. rewrite Er.
    cbn [mbind res_bind mret res_ret]. by destruct (Z.eqb_spec meta 0), (Z.eqb_spec ctx 0).
  - unfold encode_in, encode_out. rewrite Hgone. by destruct Hdir as [->| ->].
  - unfold otz_release_data. destruct (Z.eqb_spec ctx 0) as [|_]; [done|]. by rewrite Hgone.
Qed.
End limits.

(** A context with an empty request and an empty response. *)
Definition new_ipi : otz_secure_encode_ctx := EncCtx 0x1000 0 0x2000 0 0 0 0 OTZ_MAX_REQ_PARAMS.
Definition ipi_est : est bump_heap :=
  Est (BumpHeap 0x3000 0x8000 {[100; 200; 0x1000; 0x2000]}) {[100 := new_ipi]} {[200 := zero_meta]}
    (provide 0x1000 OTZ_1K_SIZE (provide 0x2000 OTZ_1K_SIZE ∅)).

Lemma ipi_sinv : sinv 100 200 [] [] new_ipi zero_meta ipi_est.
Proof.
  constructor; cbn -[provide zero_meta]; try done.
  - split; [done|]. apply provide_mapped.
  - split; [done|]. apply provide_mapped_other, provide_mapped.
  - left. by compute.
Qed.

Lemma ipi_heap : heap_wf (eheap ipi_est).
Proof. split; [done|]. intros p. cbn. set_solver by lia. Qed.

Lemma secure_references_roundtrip_witness : exists s' c' t',
  run_calls 3 100 200 [(false, Item OTZ_SECURE_MEM_REF 0x5000 64); (true, Item OTZ_SECURE_MEM_REF 0x6000 8)] ipi_est
    = Ret (OTZ_OK, s') /\ ectxs s' !! 100 = Some c' /\
  decode_data (H := pt_NsMemory false 0x8000 bump_heap) (req_addr c') t' (DecOut 0 0 0 0 0 0) (emem s') (PtState ∅ [] bump_test)
    = Ret (0, DecOut OTZ_MEM_REF 4 1 0 0x5000 64, PtState ∅ [] bump_test) /\
  exists t2, update_response_len t' 13 5 = Ret (0, t2) /\
    decode_ipi_out_data (res_addr c') t2 (DecOut 0 0 12 0 0 0) (emem s') = Ret (0, DecOut OTZ_MEM_REF 4 13 0 0x6000 5).
Proof.
  destruct (secure_references_roundtrip 3 100 200
    [(false, Item OTZ_SECURE_MEM_REF 0x5000 64); (true, Item OTZ_SECURE_MEM_REF 0x6000 8)] [] [] _ _ ipi_est ipi_sinv)
    as (s' & c' & t' & E & C & _ & A & B).
  - apply Forall_cons_2; [split; [by right|split; by compute]|].
    apply Forall_cons_2; [split; [by right|split; by compute]|constructor].
  - by compute.
  - by compute.
  - constructor.
  - exists s', c', t'. split; [exact E|]. split; [exact C|]. split.
    + exact (A 0%nat _ eq_refl eq_refl _ (pt_NsMemory false 0x8000 bump_heap) (DecOut 0 0 0 0 0 0) _ eq_refl eq_refl).
    + destruct (B 0%nat _ 5 eq_refl eq_refl) as (t2 & U & D). exists t2. split; [exact U|].
      exact (D (DecOut 0 0 12 0 0 0) eq_refl eq_refl).
Defined.

Lemma number_read_as_other_witness : exists s' c' t' o',
  run_calls 3 100 200 ((fun n => (false, Item OTZ_ENC_UINT32 n 4)) <$> [10; 11; 12; 13; 14]) ipi_est = Ret (OTZ_OK, s') /\
  decode_data (H := pt_NsMemory false 0x8000 bump_heap) (req_addr c') t' (DecOut 0 16 4 0 0 0) (emem s') (PtState ∅ [] bump_test)
    = Ret (0, o', PtState ∅ [] bump_test) /\ load32 (d_data o') (emem s') = Ret 11.
Proof.
  destruct (run_calls_spec 3 100 200 ((fun n => (false, Item OTZ_ENC_UINT32 n 4)) <$> [10; 11; 12; 13; 14]) [] [] _ _ ipi_est
    ipi_sinv) as (s' & c' & t' & E & _ & I).
  - repeat (apply Forall_cons_2; [split; [by left|split; by compute]|]). constructor.
  - by compute.
  - by compute.
  - edestruct (number_read_as_other 100 200 _ _ c' t' s' 1 (Item OTZ_ENC_UINT32 14 4) (Item OTZ_ENC_UINT32 11 4) _
      (pt_NsMemory false 0x8000 bump_heap) (DecOut 0 16 4 0 0 0) (PtState ∅ [] bump_test) I) as (o' & D & _ & R).
    1-3, 5-6: reflexivity.
    1: clear; by compute.
    exists s', c', t', o'. split; [exact E|]. split; [exact D|exact R].
Defined.

Lemma thirteenth_parameter_dangles_witness : exists s s',
  run_calls 3 100 200 ((fun n => (false, Item OTZ_ENC_UINT32 n 4)) <$> [1; 2; 3; 4; 5; 6; 7; 8; 9; 10; 11; 12]) ipi_est
    = Ret (OTZ_OK, s) /\
  otz_encode_data 3 (Some (SecCmd 4 13 OTZC_PARAM_IN)) 200 100 OTZ_ENC_UINT32 s = Ret (OTZ_ENOMEM, 200, 100, s') /\
  otz_release_data 3 100 200 s' = Fault.
Proof.
  destruct (run_calls_spec 3 100 200 ((fun n => (false, Item OTZ_ENC_UINT32 n 4)) <$> [1; 2; 3; 4; 5; 6; 7; 8; 9; 10; 11; 12])
    [] [] _ _ ipi_est ipi_sinv) as (s & c & t & E & B & I).
  - repeat (apply Forall_cons_2; [split; [by left|split; by compute]|]). constructor.
  - by compute.
  - by compute.
  - destruct (thirteenth_parameter_dangles 3 100 200 OTZ_ENC_UINT32 _ _ c t s (SecCmd 4 13 OTZC_PARAM_IN)
      (SecCmd 4 13 OTZC_PARAM_IN) I) as (s' & D & _ & R).
    + rewrite B. exact ipi_heap.
    + reflexivity.
    + by left.
    + reflexivity.
    + by left.
    + exists s, s'. split; [exact E|]. split; [exact D|exact R].
Defined.
