(* ===== verification/Sync.v ===== *)
(** Locks and semaphores ([arch/arm/armv7/sw_semaphores_asm.S],
    [lib/sw_semaphores.c]): the routines that use the exclusive monitor, run
    by any number of processors, and the C functions around them. *)
From stdpp Require Import prelude.
From S2P Require Import Prelude.
#[local] Open Scope Z_scope.

(** ** The instructions the routines are made of *)

Inductive reg : Type := R0 | R1 | R2.
Inductive cond : Type := AL | EQ | NE | MI.
Inductive instr : Type :=
  | MOVI (rd : reg) (z : Z)
  | MOVR (rd rs : reg)
  | LDREX (rd : reg)
  | STREX (c : cond) (rd rs : reg)
  | STR (rs : reg)
  | TEQ (c : cond) (rn : reg) (z : Z)
  | ADD (rd rn : reg) (z : Z)
  | SUBS (rd rn : reg) (z : Z)
  | WFE (c : cond)
  | B (c : cond) (target : nat)
  | DSB
  | SEV
  | BX.

Inductive routine : Type := spinlock_s | spinunlock_s | trylock_s | sem_wait_s | sem_post_s.

#[export] Instance routine_eq_dec : EqDecision routine.
Proof. solve_decision. Defined.

Definition sw_spinlock_s : list instr :=
  [MOVI R2 1; LDREX R1; TEQ AL R1 0; WFE NE; STREX EQ R1 R2; TEQ EQ R1 0; B NE 0; BX].
Definition sw_spinunlock_s : list instr :=
  [MOVI R1 0; STR R1; DSB; SEV; BX].
Definition sw_trylock_s : list instr :=
  [MOVI R2 1; LDREX R1; TEQ AL R1 0; STREX EQ R1 R2; MOVR R0 R1; BX].
Definition sw_sem_wait_s : list instr :=
  [LDREX R1; SUBS R2 R1 1; WFE MI; B MI 0; STREX AL R1 R2; TEQ AL R1 0; B NE 0; BX].
Definition sw_sem_post_s : list instr :=
  [LDREX R1; ADD R1 R1 1; STREX AL R2 R1; TEQ AL R2 0; B NE 0; DSB; SEV; BX].

Definition code (r : routine) : list instr :=
  match r with
  | spinlock_s => sw_spinlock_s
  | spinunlock_s => sw_spinunlock_s
  | trylock_s => sw_trylock_s
  | sem_wait_s => sw_sem_wait_s
  | sem_post_s => sw_sem_post_s
  end.

(** A processor: where it is in a routine, its registers and the flags Z and
    N, its exclusive monitor, its event register, and the calls that have
    returned, with the result in [R0], the latest first. *)
Record core : Type := Core {
  k_at : option (routine * nat);
  k_r0 : Z; k_r1 : Z; k_r2 : Z;
  k_z : bool; k_n : bool;
  k_excl : bool; k_ev : bool;
  k_done : list (routine * Z);
}.

(** The processors share the word at [addr]. *)
Record sys : Type := Sys { word : Z; cores : list core }.

Section machine.
Context (addr : Z).

Definition get (r : reg) (k : core) : Z := match r with R0 => k_r0 k | R1 => k_r1 k | R2 => k_r2 k end.
Definition set (r : reg) (v : Z) (k : core) : core :=
  match r with
  | R0 => Core (k_at k) v (k_r1 k) (k_r2 k) (k_z k) (k_n k) (k_excl k) (k_ev k) (k_done k)
  | R1 => Core (k_at k) (k_r0 k) v (k_r2 k) (k_z k) (k_n k) (k_excl k) (k_ev k) (k_done k)
  | R2 => Core (k_at k) (k_r0 k) (k_r1 k) v (k_z k) (k_n k) (k_excl k) (k_ev k) (k_done k)
  end.
Definition set_at (a : option (routine * nat)) (k : core) : core :=
  Core a (k_r0 k) (k_r1 k) (k_r2 k) (k_z k) (k_n k) (k_excl k) (k_ev k) (k_done k).
Definition set_flags (z n : bool) (k : core) : core :=
  Core (k_at k) (k_r0 k) (k_r1 k) (k_r2 k) z n (k_excl k) (k_ev k) (k_done k).
Definition set_excl (b : bool) (k : core) : core :=
  Core (k_at k) (k_r0 k) (k_r1 k) (k_r2 k) (k_z k) (k_n k) b (k_ev k) (k_done k).
Definition set_ev (b : bool) (k : core) : core :=
  Core (k_at k) (k_r0 k) (k_r1 k) (k_r2 k) (k_z k) (k_n k) (k_excl k) b (k_done k).
Definition set_done (d : list (routine * Z)) (k : core) : core :=
  Core (k_at k) (k_r0 k) (k_r1 k) (k_r2 k) (k_z k) (k_n k) (k_excl k) (k_ev k) d.

Definition holds (c : cond) (k : core) : bool :=
  match c with AL => true | EQ => k_z k | NE => negb (k_z k) | MI => k_n k end.

(** What an instruction does besides changing its processor: a store ends the
    reservations of all processors, [SEV] sets every event register. *)
Inductive effect : Type := Local | Stored (v : Z) | Event.

(** One instruction.  [b] is what the processor decides: whether a [STREX]
    with a valid reservation succeeds, and whether a [WFE] that no event ends
    is ended by something else. *)
Definition exec (b : bool) (w : Z) (k : core) (r : routine) (pc : nat) (i : instr) : option (core * effect) :=
  let next k := set_at (Some (r, S pc)) k in
  match i with
  | MOVI rd z => Some (next (set rd z k), Local)
  | MOVR rd rs => Some (next (set rd (get rs k) k), Local)
  | LDREX rd => if k_r0 k =? addr then Some (next (set_excl true (set rd w k)), Local) else None
  | STREX c rd rs =>
      if negb (holds c k) then Some (next k, Local) else
      if negb (k_r0 k =? addr) then None else
      if k_excl k && b then Some (next (set rd 0 k), Stored (get rs k))
      else Some (next (set_excl false (set rd 1 k)), Local)
  | STR rs => if k_r0 k =? addr then Some (next k, Stored (get rs k)) else None
  | TEQ c rn z =>
      if negb (holds c k) then Some (next k, Local)
      else let v := Z.lxor (get rn k) z in Some (next (set_flags (v =? 0) (Z.testbit v 31) k), Local)
  | ADD rd rn z => Some (next (set rd (u32 (get rn k + z)) k), Local)
  | SUBS rd rn z =>
      let v := u32 (get rn k - z) in Some (next (set_flags (v =? 0) (Z.testbit v 31) (set rd v k)), Local)
  | WFE c =>
      if negb (holds c k) then Some (next k, Local)
      else if k_ev k then Some (next (set_ev false k), Local)
      else if b then Some (next k, Local) else None
  | B c t => Some (if holds c k then set_at (Some (r, t)) k else next k, Local)
  | DSB => Some (next k, Local)
  | SEV => Some (next k, Event)
  | BX => Some (set_at None (set_done ((r, k_r0 k) :: k_done k) k), Local)
  end.

Definition spread (e : effect) : list core -> list core :=
  match e with
  | Local => id
  | Stored _ => fmap (set_excl false)
  | Event => fmap (set_ev true)
  end.
Definition after (e : effect) (w : Z) : Z := match e with Stored v => v | _ => w end.

(** A processor calls a routine on the word, or executes an instruction. *)
Inductive action : Type := Call (i : nat) (r : routine) | Exec (i : nat) (b : bool).

Definition enter (r : routine) (k : core) : core := set_at (Some (r, 0%nat)) (set R0 addr k).

(** [allowed] says which routine a processor may call. *)
Definition step (allowed : core -> routine -> bool) (a : action) (s : sys) : option sys :=
  match a with
  | Call i r =>
      k ← cores s !! i;
      match k_at k with
      | Some _ => None
      | None => if allowed k r then Some (Sys (word s) (<[i := enter r k]> (cores s))) else None
      end
  | Exec i b =>
      k ← cores s !! i;
      '(r, pc) ← k_at k;
      ins ← code r !! pc;
      '(k', e) ← exec b (word s) k r pc ins;
      Some (Sys (after e (word s)) (spread e (<[i := k']> (cores s))))
  end.

Fixpoint run (allowed : core -> routine -> bool) (l : list action) (s : sys) : option sys :=
  match l with
  | [] => Some s
  | a :: l => s ← step allowed a s; run allowed l s
  end.
End machine.

(** [n] processors that have not called anything. *)
Definition idle : core := Core None 0 0 0 false false false false [].
Definition boot (v : Z) (n : nat) : sys := Sys v (replicate n idle).

(** ** Sums over processors *)

Definition total (f : core -> Z) (l : list core) : Z := foldr (fun k n => f k + n) 0 l.

Lemma total_insert f l i k k' : l !! i = Some k -> total f (<[i := k']> l) = total f l - f k + f k'.
Proof.
  revert i. induction l as [|x l IH]; intros i Hi; [done|]. destruct i as [|i].
  - injection Hi as ->. cbn. lia.
  - change (f x + total f (<[i := k']> l) = f x + total f l - f k + f k'). rewrite (IH i Hi). lia.
Qed.

Lemma total_fmap f g l : (forall k, f (g k) = f k) -> total f (g <$> l) = total f l.
Proof. intros Hg. induction l as [|x l IH]; [done|]. unfold total in *. cbn. by rewrite Hg, IH. Qed.

Lemma tally_nonneg f l : (forall k, k ∈ l -> 0 <= f k) -> 0 <= total f l.
Proof. induction l as [|x l IH]; intros Hl; cbn; [done|]. 
  assert (0 <= f x) by (apply Hl; set_solver). assert (0 <= total f l) by (apply IH; set_solver). unfold total in *. lia. Qed.

Lemma total_ge f l k : (forall k, k ∈ l -> 0 <= f k) -> k ∈ l -> f k <= total f l.
Proof.
  intros Hl Hk. induction Hk as [k l|k x l Hk IH].
  - change (f k <= f k + total f l). assert (0 <= total f l) by (apply tally_nonneg; set_solver). lia.
  - change (f k <= f x + total f l). assert (0 <= f x) by set_solver. assert (f k <= total f l) by (apply IH; set_solver). lia.
Qed.

Lemma total_two f l i j ki kj : (forall k, k ∈ l -> 0 <= f k) -> i <> j -> l !! i = Some ki -> l !! j = Some kj ->
  f ki + f kj <= total f l.
Proof.
  revert i j. induction l as [|x l IH]; intros i j Hl Hij Hi Hj; [done|]. change (f ki + f kj <= f x + total f l).
  assert (Hx : 0 <= f x) by set_solver. assert (Hl' : forall k, k ∈ l -> 0 <= f k) by set_solver.
  destruct i as [|i], j as [|j]; cbn in *; [done| | |].
  - injection Hi as ->. pose proof (total_ge f l kj Hl' ltac:(by eapply list_elem_of_lookup_2)). lia.
  - injection Hj as ->. pose proof (total_ge f l ki Hl' ltac:(by eapply list_elem_of_lookup_2)). lia.
  - specialize (IH i j Hl' ltac:(congruence) Hi Hj). lia.
Qed.

Lemma total_pos f l : 0 < total f l -> exists i k, l !! i = Some k /\ 0 < f k.
Proof.
  induction l as [|x l IH]; [done|]. change (0 < f x + total f l -> exists i k, (x :: l) !! i = Some k /\ 0 < f k).
  intros Ht. destruct (decide (0 < f x)); [by exists 0%nat, x|].
  destruct IH as (i & k & ? & ?); [lia|]. by exists (S i), k.
Qed.

Lemma core_of_insert {l : list core} {i k k' x} : l !! i = Some k -> x ∈ <[i := k']> l -> x = k' \/ x ∈ l.
Proof.
  intros Hi (j & Hj)%list_elem_of_lookup. destruct (decide (i = j)) as [<-|Hne].
  - rewrite list_lookup_insert_eq in Hj by (by eapply lookup_lt_Some). left. congruence.
  - rewrite list_lookup_insert_ne in Hj by done. right. by eapply list_elem_of_lookup_2.
Qed.

(** ** Invariants that account for the word

    Each processor contributes [own] to the word; one that [waiting] says is
    stopped, or about to stop, at a [WFE] has a reason: the value of the word,
    or a processor that [signals] says is about to send the event. *)
Section accounting.
Context (v0 : Z) (own signals : core -> Z) (waiting : core -> Prop) (reason : Z -> Prop)
  (range : Z -> Prop) (core_ok : Z -> core -> Prop).

(** What an effect does to a processor. *)
Definition touch (e : effect) : core -> core :=
  match e with Local => id | Stored _ => set_excl false | Event => set_ev true end.

Record word_inv (s : sys) : Prop := {
  wi_word : word s = v0 + total own (cores s);
  wi_range : range (word s);
  wi_cores : forall k, k ∈ cores s -> core_ok (word s) k;
  wi_wake : forall k, k ∈ cores s -> waiting k -> reason (word s) \/ 0 < total signals (cores s);
}.

Definition change_ok (w : Z) (k k' : core) (e : effect) : Prop :=
  after e w = w - own k + own k' /\ range (after e w) /\ core_ok (after e w) (touch e k') /\
  match e with
  | Local => signals k <= signals k' /\ (waiting k' -> waiting k \/ reason w)
  | Stored v => (reason v \/ 1 <= signals k' \/ (~ reason w /\ signals k <= signals k')) /\ ~ waiting k'
  | Event => True
  end.

Context (own_touch : forall e k, own (touch e k) = own k).
Context (signals_touch : forall e k, signals (touch e k) = signals k).
Context (signals_nonneg : forall k, 0 <= signals k).
Context (core_ok_touch : forall e w k, core_ok w k -> core_ok (after e w) (touch e k)).
Context (waiting_touch : forall v k, waiting (touch (Stored v) k) -> waiting k).
Context (waiting_event : forall k, ~ waiting (touch Event k)).

Lemma spread_touch e l : spread e l = touch e <$> l.
Proof. destruct e; [|done..]. symmetry. apply list_fmap_id. Qed.

Lemma inv_update s i k k' e : word_inv s -> cores s !! i = Some k -> change_ok (word s) k k' e ->
  word_inv (Sys (after e (word s)) (spread e (<[i := k']> (cores s)))).
Proof.
  intros [Hw Hr Hc Ha] Hi (Ew & Er & Ek & He). rewrite spread_touch.
  constructor; cbn [word cores].
  - rewrite total_fmap by apply own_touch. rewrite (total_insert _ _ _ _ _ Hi). lia.
  - done.
  - intros x (y & -> & Hy)%list_elem_of_fmap. destruct (core_of_insert Hi Hy) as [->|Hy']; [done|].
    apply core_ok_touch. by apply Hc.
  - intros x (y & -> & Hy)%list_elem_of_fmap Hx. rewrite total_fmap by apply signals_touch.
    rewrite (total_insert _ _ _ _ _ Hi). pose proof (list_elem_of_lookup_2 _ _ _ Hi) as Hki.
    assert (Hge : signals k <= total signals (cores s)) by (apply total_ge; auto).
    pose proof (signals_nonneg k'). destruct e as [|v|]; cbn [after] in *.
    + destruct He as [Hs He]. destruct (core_of_insert Hi Hy) as [->|Hy'].
      * destruct (He Hx) as [Hk|]; [|by left]. destruct (Ha k Hki Hk); [by left|right; lia].
      * destruct (Ha y Hy' Hx); [by left|right; lia].
    + destruct He as [Hv He]. apply waiting_touch in Hx.
      destruct (core_of_insert Hi Hy) as [->|Hy']; [done|].
      destruct Hv as [Hv|[Hv|[Hv Hs]]]; [by left|right; lia|]. destruct (Ha y Hy' Hx); [done|right; lia].
    + by destruct (waiting_event y).
Qed.
End accounting.
Arguments wi_word {v0 own signals waiting reason range core_ok s} _.
Arguments wi_range {v0 own signals waiting reason range core_ok s} _.
Arguments wi_cores {v0 own signals waiting reason range core_ok s} _.
Arguments wi_wake {v0 own signals waiting reason range core_ok s} _.

(** Evaluates one instruction of a routine at a known place. *)
Ltac exec_case :=
  match goal with
  | Hc : _ = Some ?ins, He : exec _ _ _ _ _ _ _ = Some _ |- _ => injection Hc as <-; cbn -[u32 Z.testbit] in He
  end;
  repeat match goal with
  | He : context [if ?c then _ else _] |- _ => match type of He with _ = Some (_, _) => destruct c eqn:?; cbn -[u32 Z.testbit] in He end
  | He : None = Some _ |- _ => discriminate He
  end;
  match goal with He : Some _ = Some _ |- _ => apply (inj Some), pair_equal_spec in He as [<- <-] end.

Ltac clean_bools :=
  repeat match goal with
  | H : _ && _ = true |- _ => apply andb_true_iff in H as [? ?]
  | H : (_ =? _) = true |- _ => apply Z.eqb_eq in H
  | H : (_ =? _) = false |- _ => apply Z.eqb_neq in H
  | H : negb _ = true |- _ => apply negb_true_iff in H
  | H : negb _ = false |- _ => apply negb_false_iff in H
  | H : _ /\ _ |- _ => destruct H
  | H : ?x = ?y |- _ => is_var x; subst x
  | H : ?x = ?y |- _ => is_var y; subst y
  end.

Ltac split_ifs :=
  repeat match goal with
  | |- _ /\ _ => split
  | |- context [if ?c then _ else _] => destruct c eqn:?
  | H : context [if ?c then _ else _] |- _ => destruct c eqn:?
  end.

(** ** Counting the calls that returned *)

Definition tally (f : routine * Z -> Z) (l : list (routine * Z)) : Z := foldr (fun c n => f c + n) 0 l.
#[global] Arguments tally : simpl never.

Lemma tally_cons f c l : tally f (c :: l) = f c + tally f l.
Proof. done. Qed.
