(* ===== verification/Mutex.v ===== *)
(** The spin lock: at most one processor is inside, and a processor that waits
    for an event is woken. *)
From stdpp Require Import prelude.
From S2P Require Import Prelude Sync.
#[local] Open Scope Z_scope.

(** What a returned call gives: the lock, or its release. *)
Definition credit (c : routine * Z) : Z :=
  match c with
  | (spinlock_s, _) => 1
  | (trylock_s, v) => if v =? 0 then 1 else 0
  | (spinunlock_s, _) => - 1
  | _ => 0
  end.
Definition held (k : core) : Z := tally credit (k_done k).

(** Any processor may try to lock; only one that has the lock may unlock. *)
Definition lock_allowed (k : core) (r : routine) : bool :=
  match r with
  | spinlock_s | trylock_s => true
  | spinunlock_s => 1 <=? held k
  | _ => false
  end.

(** A processor between two calls that has the lock. *)
Definition inside (k : core) : Prop := k_at k = None /\ 1 <= held k.

(** A processor that the [WFE] of the spin lock stops: the flag Z is clear and
    its event register too. *)
Definition asleep (k : core) : Prop := k_at k = Some (spinlock_s, 3%nat) /\ k_z k = false /\ k_ev k = false.

#[export] Instance asleep_dec k : Decision (asleep k).
Proof. unfold asleep. apply _. Defined.

Section lock.
Context (addr : Z).

(** What a processor has gained or given up inside a call. *)
Definition inflight (k : core) : Z :=
  match k_at k with
  | Some (spinlock_s, 5%nat) => if k_z k && (k_r1 k =? 0) then 1 else 0
  | Some (spinlock_s, 6%nat) => if k_z k then 1 else 0
  | Some (spinlock_s, 7%nat) => 1
  | Some (trylock_s, 4%nat) => if k_r1 k =? 0 then 1 else 0
  | Some (trylock_s, 5%nat) => if k_r0 k =? 0 then 1 else 0
  | Some (spinunlock_s, (2%nat | 3%nat | 4%nat)) => - 1
  | _ => 0
  end.
Definition lock_own (k : core) : Z := held k + inflight k.

(** About to wake the others. *)
Definition signals (k : core) : Z :=
  match k_at k with Some (spinunlock_s, (2%nat | 3%nat)) => 1 | _ => 0 end.

Definition waiting (k : core) : Prop :=
  k_ev k = false /\
  match k_at k with
  | Some (spinlock_s, 2%nat) => k_r1 k <> 0
  | Some (spinlock_s, 3%nat) => k_z k = false
  | _ => False
  end.

Definition loaded (w : Z) (k : core) : Prop := k_r0 k = addr /\ k_r2 k = 1 /\ (k_excl k = true -> k_r1 k = w).

Definition core_ok (w : Z) (k : core) : Prop :=
  0 <= held k /\
  match k_at k with
  | None => True
  | Some (spinlock_s, 0%nat) | Some (trylock_s, 0%nat) => k_r0 k = addr
  | Some (spinlock_s, 1%nat) | Some (trylock_s, 1%nat) => k_r0 k = addr /\ k_r2 k = 1
  | Some (spinlock_s, 2%nat) | Some (trylock_s, 2%nat) => loaded w k
  | Some (spinlock_s, (3%nat | 4%nat)) | Some (trylock_s, 3%nat) => loaded w k /\ k_z k = (k_r1 k =? 0)
  | Some (spinlock_s, (5%nat | 6%nat)) => k_r0 k = addr
  | Some (spinlock_s, 7%nat) | Some (trylock_s, (4%nat | 5%nat)) => True
  | Some (spinunlock_s, 0%nat) => k_r0 k = addr /\ 1 <= held k
  | Some (spinunlock_s, 1%nat) => k_r0 k = addr /\ k_r1 k = 0 /\ 1 <= held k
  | Some (spinunlock_s, (2%nat | 3%nat | 4%nat)) => 1 <= held k
  | _ => False
  end.

Definition lock_inv : sys -> Prop :=
  word_inv 0 lock_own signals waiting (fun w => w <> 0) (fun w => w = 0 \/ w = 1) core_ok.
Definition lock_change : Z -> core -> core -> effect -> Prop :=
  change_ok lock_own signals waiting (fun w => w <> 0) (fun w => w = 0 \/ w = 1) core_ok.

Lemma core_ok_touch e w k : core_ok w k -> core_ok (after e w) (touch e k).
Proof.
  intros [Hh Hk]. destruct e; [by split| |by split]. split; [done|]. revert Hk. cbn. unfold loaded. cbn.
  destruct (k_at k) as [[[] [|[|[|[|[|[|[|[|?]]]]]]]]]|]; naive_solver.
Qed.

Lemma own_nonneg w k : core_ok w k -> 0 <= lock_own k.
Proof.
  unfold lock_own, inflight. intros [Hh Hk]. revert Hk.
  destruct (k_at k) as [[[] [|[|[|[|[|[|[|[|?]]]]]]]]]|]; intros; repeat case_match; lia.
Qed.

Lemma lock_update s i k k' e : lock_inv s -> cores s !! i = Some k -> lock_change (word s) k k' e ->
  lock_inv (Sys (after e (word s)) (spread e (<[i := k']> (cores s)))).
Proof.
  apply inv_update; [by intros []|by intros []| |exact core_ok_touch|done|by intros ? []].
  intros x. unfold signals. by repeat case_match.
Qed.

Lemma lock_init n : lock_inv (boot 0 n).
Proof.
  assert (Ht : total lock_own (replicate n idle) = 0) by (induction n as [|n IH]; [done|exact IH]).
  constructor; cbn [boot word cores].
  - by rewrite Ht.
  - by left.
  - intros k (-> & _)%elem_of_replicate. done.
  - intros k (-> & _)%elem_of_replicate [_ []].
Qed.

Lemma lock_call s i r s' : lock_inv s -> step addr lock_allowed (Call i r) s = Some s' -> lock_inv s'.
Proof.
  intros Hs. cbn. intros (k & Hi & H)%bind_Some. destruct (k_at k) eqn:Ek; [done|].
  destruct (lock_allowed k r) eqn:Ea; [|done]. injection H as <-.
  destruct (wi_cores Hs k (list_elem_of_lookup_2 _ _ _ Hi)) as [Hh _].
  assert (Ho : lock_own (enter addr r k) = lock_own k).
  { unfold lock_own, inflight. rewrite Ek. by destruct r. }
  apply (lock_update s i k (enter addr r k) Local Hs Hi). split_and!.
  - cbn. lia.
  - apply Hs.
  - split; [done|]. destruct r; cbn; try done. apply Z.leb_le in Ea. done.
  - unfold signals. rewrite Ek. by destruct r.
  - intros [_ Hx]. by destruct r.
Qed.

Ltac settle :=
  unfold lock_change, change_ok, lock_own, inflight, signals, waiting, core_ok, loaded, held in *; cbn in *;
  rewrite ?Z.lxor_0_r, ?tally_cons in *; clean_bools; cbn in *; split_ifs;
  try solve [lia | done | congruence | intuition congruence | intuition lia].

Lemma spinlock_change w b k pc ins k' e :
  w = 0 \/ w = 1 -> lock_own k <= w -> core_ok w k -> k_at k = Some (spinlock_s, pc) -> code spinlock_s !! pc = Some ins ->
  exec addr b w k spinlock_s pc ins = Some (k', e) -> lock_change w k k' e.
Proof.
  intros Hw Ho Hk Hat Hc He. destruct k as [a r0 r1 r2 z n x ev d]. cbn in Hat. subst a.
  do 8 (try destruct pc as [|pc]); try done; exec_case; settle.
Qed.

Lemma spinunlock_change w b k pc ins k' e :
  w = 0 \/ w = 1 -> lock_own k <= w -> core_ok w k -> k_at k = Some (spinunlock_s, pc) -> code spinunlock_s !! pc = Some ins ->
  exec addr b w k spinunlock_s pc ins = Some (k', e) -> lock_change w k k' e.
Proof.
  intros Hw Ho Hk Hat Hc He. destruct k as [a r0 r1 r2 z n x ev d]. cbn in Hat. subst a.
  do 5 (try destruct pc as [|pc]); try done; exec_case; settle.
Qed.

Lemma trylock_change w b k pc ins k' e :
  w = 0 \/ w = 1 -> lock_own k <= w -> core_ok w k -> k_at k = Some (trylock_s, pc) -> code trylock_s !! pc = Some ins ->
  exec addr b w k trylock_s pc ins = Some (k', e) -> lock_change w k k' e.
Proof.
  intros Hw Ho Hk Hat Hc He. destruct k as [a r0 r1 r2 z n x ev d]. cbn in Hat. subst a.
  do 6 (try destruct pc as [|pc]); try done; exec_case; settle.
Qed.

Lemma lock_bit s : lock_inv s -> word s = 0 \/ word s = 1.
Proof. exact wi_range. Qed.

Lemma own_le s i k : lock_inv s -> cores s !! i = Some k -> lock_own k <= word s.
Proof.
  intros Hs Hi. rewrite (wi_word Hs). apply total_ge; [|by eapply list_elem_of_lookup_2].
  intros x Hx. eapply own_nonneg. by apply (wi_cores Hs).
Qed.

Lemma lock_exec s i b s' : lock_inv s -> step addr lock_allowed (Exec i b) s = Some s' -> lock_inv s'.
Proof.
  intros Hs. cbn. intros (k & Hi & H)%bind_Some. apply bind_Some in H as ([r pc] & Hat & H).
  apply bind_Some in H as (ins & Hc & H). apply bind_Some in H as ([k' e] & He & [= <-]).
  pose proof (wi_cores Hs k (list_elem_of_lookup_2 _ _ _ Hi)) as Hk. pose proof (own_le s i k Hs Hi) as Ho.
  pose proof (lock_bit _ Hs) as Hb.
  assert (Hch : lock_change (word s) k k' e).
  { destruct r.
    - by eapply spinlock_change.
    - by eapply spinunlock_change.
    - by eapply trylock_change.
    - destruct Hk as [_ Hk]. by rewrite Hat in Hk.
    - destruct Hk as [_ Hk]. by rewrite Hat in Hk. }
  by apply (lock_update s i k k' e).
Qed.

Lemma lock_run l s s' : lock_inv s -> run addr lock_allowed l s = Some s' -> lock_inv s'.
Proof.
  revert s. induction l as [|a l IH]; intros s Hs; cbn [run]; [by intros [= <-]|].
  intros (s1 & H1 & H2)%bind_Some. apply (IH s1); [|done].
  destruct a; [by eapply lock_call|by eapply lock_exec].
Qed.

Lemma inside_own k : inside k -> lock_own k = held k.
Proof. intros [Ha _]. unfold lock_own, inflight. rewrite Ha. lia. Qed.

(** C10: the spin lock excludes.  Whatever the processors execute and in
    whichever order, with any success of the exclusive stores, and however
    often they try to lock: a processor that has the lock has it once and the
    word is one, and no two processors have it, as long as only a processor
    that has the lock releases it. *)
Theorem mutual_exclusion (n : nat) (l : list action) (s : sys)
    (Hrun : run addr lock_allowed l (boot 0 n) = Some s) :
  (forall i k, cores s !! i = Some k -> inside k -> word s = 1 /\ held k = 1) /\
  (forall i j ki kj, cores s !! i = Some ki -> cores s !! j = Some kj -> i <> j -> inside ki -> ~ inside kj).
Proof.
  pose proof (lock_run _ _ _ (lock_init n) Hrun) as Hs. pose proof (lock_bit _ Hs) as Hb. split.
  - intros i k Hi Hk. pose proof (own_le s i k Hs Hi). rewrite (inside_own k Hk) in *. destruct Hk. lia.
  - intros i j ki kj Hi Hj Hij Hki Hkj.
    assert (lock_own ki + lock_own kj <= word s).
    { rewrite (wi_word Hs). apply (total_two lock_own _ i j); try done. intros x Hx. eapply own_nonneg. by apply (wi_cores Hs). }
    rewrite (inside_own ki Hki), (inside_own kj Hkj) in *. destruct Hki, Hkj. lia.
Qed.

(** A processor that has the lock, or is about to wake the others, can go on,
    unless it has called the lock again and sleeps. *)
Lemma owner_moves s j k : lock_inv s -> cores s !! j = Some k -> 0 < lock_own k \/ 0 < signals k ->
  inside k \/ (exists s', step addr lock_allowed (Exec j false) s = Some s') \/ (asleep k /\ 1 <= held k).
Proof.
  intros Hs Hj Ho. pose proof (wi_cores Hs k (list_elem_of_lookup_2 _ _ _ Hj)) as [Hh Hk].
  destruct (k_at k) as [[r pc]|] eqn:Hat.
  2: { left. split; [done|]. destruct Ho as [Ho|Ho]; [|unfold signals in Ho; rewrite Hat in Ho; lia].
       unfold lock_own, inflight in Ho. rewrite Hat in Ho. lia. }
  right. unfold step. rewrite Hj. cbn. rewrite Hat. cbn.
  destruct (decide (asleep k)) as [Ha|Ha].
  - right. split; [done|]. destruct Ha as (Ha & _). rewrite Hat in Ha. injection Ha as -> ->.
    unfold lock_own, inflight, signals in Ho. rewrite Hat in Ho. lia.
  - left. destruct k as [a r0 r1 r2 z m x ev d]. cbn in Hat. subst a.
    destruct r; try done; do 8 (try destruct pc as [|pc]); try done; cbn in *;
      repeat match goal with |- context [if ?c then _ else _] => destruct c eqn:?; cbn end; eauto; exfalso; unfold loaded in Hk; cbn in Hk;
      repeat match goal with
      | H : negb _ = true |- _ => apply negb_true_iff in H
      | H : negb _ = false |- _ => apply negb_false_iff in H
      | H : _ /\ _ |- _ => destruct H
      | H : (_ =? _) = false |- _ => apply Z.eqb_neq in H
      end; solve [congruence | by apply Ha].
Qed.

End lock.

(** Processor 0 locks; processor 1 tries and sleeps. *)
Definition contend : list action :=
  Call 0 spinlock_s :: replicate 8 (Exec 0 true) ++ Call 1 spinlock_s :: replicate 3 (Exec 1 true).

Lemma mutual_exclusion_witness : exists s k0 k1, run 64 lock_allowed contend (boot 0 2) = Some s /\
  cores s !! 0%nat = Some k0 /\ cores s !! 1%nat = Some k1 /\ inside k0 /\ held k0 = 1 /\ ~ inside k1.
Proof.
  eexists _, _, _. split; [vm_compute; reflexivity|]. split; [reflexivity|]. split; [reflexivity|].
  assert (Hin : inside (Core None 64 0 1 true false false false [(spinlock_s, 64)])) by (split; [done|by vm_compute]).
  split; [exact Hin|]. destruct (mutual_exclusion 64 2 contend _ ltac:(vm_compute; reflexivity)) as [H1 H2].
  split; [by eapply (H1 0%nat)|]. by eapply (H2 0%nat 1%nat).
Defined.

