(* ===== verification/Semaphore.v ===== *)
(** Counting semaphores: the word counts, and a processor that waits for an
    event is woken. *)
From stdpp Require Import prelude.
From S2P Require Import Prelude Sync.
#[local] Open Scope Z_scope.

(** Calls that returned. *)
Definition is_wait (c : routine * Z) : Z := match c with (sem_wait_s, _) => 1 | _ => 0 end.
Definition is_post (c : routine * Z) : Z := match c with (sem_post_s, _) => 1 | _ => 0 end.
Definition waits (k : core) : Z := tally is_wait (k_done k).
Definition posts (k : core) : Z := tally is_post (k_done k).

(** Any processor may wait or post at any time. *)
Definition sem_allowed (k : core) (r : routine) : bool :=
  match r with sem_wait_s | sem_post_s => true | _ => false end.

(** A processor that the [WFE] of [sem_wait_s] stops. *)
Definition sem_asleep (k : core) : Prop := k_at k = Some (sem_wait_s, 2%nat) /\ k_n k = true /\ k_ev k = false.

(** The posts that were called. *)
Definition is_post_call (a : action) : Z := match a with Call _ sem_post_s => 1 | _ => 0 end.
Definition post_calls (l : list action) : Z := foldr (fun a n => is_post_call a + n) 0 l.

Section sem.
Context (addr v0 : Z) (Hv0 : 0 <= v0).

Definition taking (k : core) : Z :=
  match k_at k with
  | Some (sem_wait_s, 5%nat) => if k_r1 k =? 0 then 1 else 0
  | Some (sem_wait_s, 6%nat) => if k_z k then 1 else 0
  | Some (sem_wait_s, 7%nat) => 1
  | _ => 0
  end.
Definition giving (k : core) : Z :=
  match k_at k with
  | Some (sem_post_s, 3%nat) => if k_r2 k =? 0 then 1 else 0
  | Some (sem_post_s, 4%nat) => if k_z k then 1 else 0
  | Some (sem_post_s, (5%nat | 6%nat | 7%nat)) => 1
  | _ => 0
  end.
Definition taken (k : core) : Z := waits k + taking k.
Definition given (k : core) : Z := posts k + giving k.
Definition called (k : core) : Z := posts k + match k_at k with Some (sem_post_s, _) => 1 | _ => 0 end.
Definition sem_own (k : core) : Z := given k - taken k.

(** Has stored and will send the event. *)
Definition sem_signals (k : core) : Z :=
  match k_at k with
  | Some (sem_post_s, 3%nat) => if k_r2 k =? 0 then 1 else 0
  | Some (sem_post_s, 4%nat) => if k_z k then 1 else 0
  | Some (sem_post_s, (5%nat | 6%nat)) => 1
  | _ => 0
  end.

Definition sem_waiting (k : core) : Prop :=
  k_ev k = false /\
  match k_at k with
  | Some (sem_wait_s, 1%nat) => k_r1 k = 0
  | Some (sem_wait_s, 2%nat) => k_n k = true
  | _ => False
  end.

Definition counted (w : Z) (k : core) : Prop :=
  k_r0 k = addr /\ 0 <= k_r1 k < 2 ^ 31 /\ (k_excl k = true -> k_r1 k = w).
Definition decremented (k : core) : Prop := k_r2 k = u32 (k_r1 k - 1) /\ k_n k = (k_r1 k =? 0).

Definition sem_ok (w : Z) (k : core) : Prop :=
  0 <= waits k /\ 0 <= posts k /\
  match k_at k with
  | None => True
  | Some (sem_wait_s, 0%nat) | Some (sem_post_s, 0%nat) => k_r0 k = addr
  | Some (sem_wait_s, 1%nat) => counted w k
  | Some (sem_wait_s, (2%nat | 3%nat)) => counted w k /\ decremented k
  | Some (sem_wait_s, 4%nat) => counted w k /\ decremented k /\ k_r1 k <> 0
  | Some (sem_wait_s, (5%nat | 6%nat)) => k_r0 k = addr
  | Some (sem_wait_s, 7%nat) => True
  | Some (sem_post_s, 1%nat) => counted w k
  | Some (sem_post_s, 2%nat) => k_r0 k = addr /\ (k_excl k = true -> k_r1 k = w + 1)
  | Some (sem_post_s, (3%nat | 4%nat)) => k_r0 k = addr
  | Some (sem_post_s, (5%nat | 6%nat | 7%nat)) => True
  | _ => False
  end.

Definition sem_range (w : Z) : Prop := 0 <= w < 2 ^ 31.

Definition sem_inv : sys -> Prop := word_inv v0 sem_own sem_signals sem_waiting (fun w => w = 0) sem_range sem_ok.
Definition sem_change : Z -> core -> core -> effect -> Prop :=
  change_ok sem_own sem_signals sem_waiting (fun w => w = 0) sem_range sem_ok.

Lemma sem_ok_touch e w k : sem_ok w k -> sem_ok (after e w) (touch e k).
Proof.
  intros (Hw & Hp & Hk). destruct e; [by split_and!| |by split_and!]. split; [done|]. split; [done|]. revert Hk. cbn.
  unfold counted, decremented. cbn.
  destruct (k_at k) as [[[] [|[|[|[|[|[|[|[|?]]]]]]]]]|]; try done; naive_solver.
Qed.

Lemma sem_update s i k k' e : sem_inv s -> cores s !! i = Some k -> sem_change (word s) k k' e ->
  sem_inv (Sys (after e (word s)) (spread e (<[i := k']> (cores s)))).
Proof.
  apply inv_update; [by intros []|by intros []| |exact sem_ok_touch|done|by intros ? []].
  intros x. unfold sem_signals. by repeat case_match.
Qed.

(** The counts are not negative, and what was posted was called. *)
Lemma counts_ok w k : sem_ok w k -> 0 <= taken k /\ 0 <= given k <= called k.
Proof.
  unfold taken, given, called, taking, giving. intros (Hw & Hp & Hk). revert Hk.
  destruct (k_at k) as [[[] [|[|[|[|[|[|[|[|?]]]]]]]]]|]; intros; repeat case_match; lia.
Qed.

Lemma decrement_flag x : 0 <= x < 2 ^ 31 -> Z.testbit (u32 (x - 1)) 31 = (x =? 0).
Proof.
  intros Hx. destruct (Z.eqb_spec x 0) as [->|Hn]; [reflexivity|].
  rewrite u32_id by (unfold in_u32; lia). apply (testbit_high 31); lia.
Qed.

Ltac sem_settle :=
  unfold sem_change, change_ok, sem_own, given, taken, taking, giving, sem_signals, sem_waiting, sem_ok, counted,
    decremented, sem_range, waits, posts in *; cbn -[u32 Z.pow Z.testbit] in *;
  rewrite ?Z.lxor_0_r, ?tally_cons in *; clean_bools; cbn -[u32 Z.pow Z.testbit] in *; split_ifs;
  try solve [lia | done | congruence | intuition congruence | intuition lia].

Lemma wait_change w b k pc ins k' e :
  sem_range w -> sem_ok w k -> k_at k = Some (sem_wait_s, pc) -> code sem_wait_s !! pc = Some ins ->
  exec addr b w k sem_wait_s pc ins = Some (k', e) -> sem_change w k k' e.
Proof.
  intros Hw Hk Hat Hc He. destruct k as [a r0 r1 r2 z n x ev d]. cbn in Hat. subst a.
  do 8 (try destruct pc as [|pc]); try done; exec_case; sem_settle.
  all: rewrite ?decrement_flag by lia.
  all: try solve [done | intuition (clean_bools; lia)].
  all: rewrite ?u32_id by (unfold in_u32; lia); lia.
Qed.

Lemma post_change w b k pc ins k' e :
  sem_range w -> (given k < called k -> w + 1 < 2 ^ 31) -> sem_ok w k -> k_at k = Some (sem_post_s, pc) ->
  code sem_post_s !! pc = Some ins -> exec addr b w k sem_post_s pc ins = Some (k', e) -> sem_change w k k' e.
Proof.
  intros Hw Hb Hk Hat Hc He. destruct k as [a r0 r1 r2 z n x ev d]. cbn in Hat. subst a. unfold given, called, giving in Hb.
  do 8 (try destruct pc as [|pc]); try done; cbn -[Z.pow] in Hb; exec_case; sem_settle.
  all: rewrite ?u32_id by (unfold in_u32; lia); try solve [lia | intuition lia].
Qed.

Lemma called_exec b w k r pc ins k' e : k_at k = Some (r, pc) -> code r !! pc = Some ins ->
  exec addr b w k r pc ins = Some (k', e) -> called k' = called k.
Proof.
  intros Hat Hc He. destruct k as [a r0 r1 r2 z n x ev d]. cbn in Hat. subst a. unfold called, posts.
  destruct r; do 8 (try destruct pc as [|pc]); try done; exec_case; cbn; rewrite ?tally_cons; cbn; lia.
Qed.

Lemma total_le f g l : (forall k, k ∈ l -> f k <= g k) -> total f l <= total g l.
Proof.
  induction l as [|x l IH]; intros Hl; [done|]. change (f x + total f l <= g x + total g l).
  assert (f x <= g x) by (apply Hl; set_solver). assert (total f l <= total g l) by (apply IH; set_solver). lia.
Qed.

(** There is room for a post that has been called and not stored. *)
Lemma post_room s i k : sem_inv s -> cores s !! i = Some k -> v0 + total called (cores s) < 2 ^ 31 ->
  given k < called k -> word s + 1 < 2 ^ 31.
Proof.
  intros Hs Hi Hb Hg. pose proof (wi_word Hs) as Hw.
  assert (Hlt : total sem_own (cores s) + 1 <= total called (cores s)); [|lia].
  pose proof (total_insert sem_own (cores s) i k k Hi). pose proof (list_elem_of_lookup_2 _ _ _ Hi) as Hin.
  assert (Hd : called k - sem_own k <= total (fun x => called x - sem_own x) (cores s)).
  { apply (total_ge (fun x => called x - sem_own x)); [|done]. intros x Hx. unfold sem_own.
    destruct (counts_ok _ _ (wi_cores Hs x Hx)). lia. }
  assert (He : total (fun x => called x - sem_own x) (cores s) = total called (cores s) - total sem_own (cores s)).
  { clear. induction (cores s) as [|x l IH]; [done|].
    change (called x - sem_own x + total (fun x => called x - sem_own x) l =
            called x + total called l - (sem_own x + total sem_own l)). lia. }
  destruct (counts_ok _ _ (wi_cores Hs k Hin)). unfold sem_own in Hd at 1. lia.
Qed.

Lemma called_spread e l : total called (spread e l) = total called l.
Proof. rewrite spread_touch. apply total_fmap. by destruct e. Qed.

Lemma sem_init n : sem_range v0 -> sem_inv (boot v0 n) /\ total called (cores (boot v0 n)) = 0.
Proof.
  intros Hr. assert (Ht : total sem_own (replicate n idle) = 0) by (induction n as [|n IH]; [done|exact IH]).
  split; [|clear; induction n as [|n IH]; [done|exact IH]]. constructor; cbn [boot word cores].
  - lia.
  - done.
  - intros k (-> & _)%elem_of_replicate. done.
  - intros k (-> & _)%elem_of_replicate [_ []].
Qed.

Lemma sem_call s i r s' : sem_inv s -> step addr sem_allowed (Call i r) s = Some s' ->
  sem_inv s' /\ total called (cores s') = total called (cores s) + is_post_call (Call i r).
Proof.
  intros Hs. cbn [step]. intros (k & Hi & H)%bind_Some. destruct (k_at k) eqn:Ek; [done|].
  destruct (sem_allowed k r) eqn:Ea; [|done]. injection H as <-.
  destruct (wi_cores Hs k (list_elem_of_lookup_2 _ _ _ Hi)) as (Hw & Hp & _).
  assert (Ho : sem_own (enter addr r k) = sem_own k).
  { unfold sem_own, given, taken, giving, taking. rewrite Ek. by destruct r. }
  assert (Hc : called (enter addr r k) = called k + is_post_call (Call i r)).
  { unfold called. rewrite Ek. cbn. change (posts (enter addr r k)) with (posts k). by destruct r; cbn; lia. }
  split; [|cbn [cores]; rewrite (total_insert _ _ _ _ _ Hi); lia].
  apply (sem_update s i k (enter addr r k) Local Hs Hi). split_and!.
  - cbn. lia.
  - exact (wi_range Hs).
  - split; [done|]. split; [done|]. by destruct r.
  - unfold sem_signals. rewrite Ek. by destruct r.
  - intros [_ Hx]. by destruct r.
Qed.

Lemma sem_exec s i b s' : sem_inv s -> v0 + total called (cores s) < 2 ^ 31 ->
  step addr sem_allowed (Exec i b) s = Some s' -> sem_inv s' /\ total called (cores s') = total called (cores s).
Proof.
  intros Hs Hb. cbn [step]. intros (k & Hi & H)%bind_Some. apply bind_Some in H as ([r pc] & Hat & H).
  apply bind_Some in H as (ins & Hc & H). apply bind_Some in H as ([k' e] & He & [= <-]).
  pose proof (wi_cores Hs k (list_elem_of_lookup_2 _ _ _ Hi)) as Hk.
  split; [|cbn [cores]; rewrite called_spread, (total_insert _ _ _ _ _ Hi), (called_exec _ _ _ _ _ _ _ _ Hat Hc He); lia].
  apply (sem_update s i k k' e Hs Hi). pose proof (wi_range Hs : sem_range (word s)) as Hr. destruct r.
  1-3: destruct Hk as (_ & _ & Hk); by rewrite Hat in Hk.
  - by eapply wait_change.
  - eapply post_change; [exact Hr|by apply (post_room s i)|done..].
Qed.

Lemma post_calls_nonneg l : 0 <= post_calls l.
Proof.
  induction l as [|a l IH]; [done|]. change (0 <= is_post_call a + post_calls l).
  assert (0 <= is_post_call a) by (by destruct a as [? []|]). lia.
Qed.

Lemma sem_run l s s' : sem_inv s -> v0 + total called (cores s) + post_calls l < 2 ^ 31 ->
  run addr sem_allowed l s = Some s' -> sem_inv s' /\ total called (cores s') = total called (cores s) + post_calls l.
Proof.
  revert s. induction l as [|a l IH]; intros s Hs Hb; cbn [run]; [intros [= <-]; split; [done|cbn; lia]|].
  change (post_calls (a :: l)) with (is_post_call a + post_calls l) in *. pose proof (post_calls_nonneg l).
  intros (s1 & H1 & H2)%bind_Some.
  assert (Hstep : sem_inv s1 /\ total called (cores s1) = total called (cores s) + is_post_call a).
  { destruct a as [i r|i b]; [by apply (sem_call s)|]. rewrite Z.add_0_r. apply (sem_exec s i b); [done|cbn in Hb; lia|done]. }
  destruct Hstep as [Hi1 E1]. destruct (IH s1 Hi1 ltac:(lia) H2) as [Hi2 E2]. split; [done|lia].
Qed.

(** C24: the semaphore counts.  Whatever the processors execute and in whichever
    order: no more waits return than the initial value and the posts called
    account for, and when no call is under way the word is the initial value,
    plus the posts, minus the waits, as long as it stays within 31 bits. *)
Theorem semaphore_counts (n : nat) (l : list action) (s : sys)
    (Hbound : v0 + post_calls l < 2 ^ 31) (Hrun : run addr sem_allowed l (boot v0 n) = Some s) :
  0 <= word s /\ total waits (cores s) <= v0 + post_calls l /\
  ((forall k, k ∈ cores s -> k_at k = None) -> word s = v0 + total posts (cores s) - total waits (cores s)).
Proof.
  pose proof (post_calls_nonneg l). destruct (sem_init n) as [H0 C0]; [unfold sem_range; lia|].
  destruct (sem_run l _ _ H0 ltac:(lia) Hrun) as [Hs Hc]. rewrite C0 in Hc.
  pose proof (wi_range Hs) as Hr. pose proof (wi_word Hs) as Hw.
  assert (Hsub : forall f g l, total (fun k => f k - g k) l = total f l - total g l).
  { clear. intros f g l. induction l as [|x l IH]; [done|].
    change (f x - g x + total (fun k => f k - g k) l = f x + total f l - (g x + total g l)). lia. }
  assert (Hown : total sem_own (cores s) = total given (cores s) - total taken (cores s)) by exact (Hsub given taken _).
  split; [apply Hr|]. split.
  - assert (total waits (cores s) <= total taken (cores s)).
    { apply total_le. intros k _. unfold taken, taking. repeat case_match; lia. }
    assert (total given (cores s) <= total called (cores s)).
    { apply total_le. intros k Hk. destruct (counts_ok _ _ (wi_cores Hs k Hk)). lia. }
    destruct Hr. lia.
  - intros Hidle. assert (Hg : forall f g, (forall k, k ∈ cores s -> f k = g k) -> total f (cores s) = total g (cores s)).
    { clear. induction (cores s) as [|x l IH]; intros f g Hfg; [done|].
      change (f x + total f l = g x + total g l). rewrite (IH f g), (Hfg x) by set_solver. done. }
    rewrite (Hg given posts), (Hg taken waits) in Hown; [lia|..]; intros k Hk; unfold given, taken, giving, taking;
      rewrite (Hidle k Hk); lia.
Qed.

(** No wake-up of a semaphore is lost.  When a processor sleeps in a wait
    with its event register clear, the count is zero or another processor has
    stored a post and can go on to send the event. *)
Theorem semaphore_wakes (n : nat) (l : list action) (s : sys) (i : nat) (k : core)
    (Hbound : v0 + post_calls l < 2 ^ 31) (Hrun : run addr sem_allowed l (boot v0 n) = Some s)
    (Hi : cores s !! i = Some k) (Hsleep : sem_asleep k) :
  word s = 0 \/ exists j kj s', cores s !! j = Some kj /\ 0 < sem_signals kj /\ step addr sem_allowed (Exec j false) s = Some s'.
Proof.
  pose proof (post_calls_nonneg l). destruct (sem_init n) as [H0 C0]; [unfold sem_range; lia|].
  destruct (sem_run l _ _ H0 ltac:(lia) Hrun) as [Hs _]. destruct Hsleep as (Ha & Hn & He).
  assert (Hw : sem_waiting k) by (unfold sem_waiting; by rewrite Ha).
  destruct (wi_wake Hs k (list_elem_of_lookup_2 _ _ _ Hi) Hw) as [|Hp]; [by left|right].
  destruct (total_pos _ _ Hp) as (j & kj & Hj & Hsig). exists j, kj.
  assert (Hx : exists s', step addr sem_allowed (Exec j false) s = Some s').
  { unfold step. rewrite Hj. destruct kj as [a r0 r1 r2 z m x ev d]. unfold sem_signals in Hsig. cbn in Hsig |- *.
    destruct a as [[r pc]|]; [|done].
    destruct r; try done; do 8 (try destruct pc as [|pc]); try done; cbn; eauto. }
  destruct Hx as [s' Hx]. by exists s'.
Qed.
End sem.

(** Two waits and a post on a semaphore that starts at one. *)
Definition two_waits : list action :=
  Call 0 sem_wait_s :: replicate 8 (Exec 0 true) ++ Call 1 sem_wait_s :: replicate 2 (Exec 1 true).
Definition one_post : list action := Call 0 sem_post_s :: replicate 8 (Exec 0 true) ++ replicate 10 (Exec 1 true).

Lemma semaphore_counts_witness : exists s, run 64 sem_allowed (two_waits ++ one_post) (boot 1 2) = Some s /\
  (forall k, k ∈ cores s -> k_at k = None) /\ word s = 1 + 1 - 2.
Proof.
  eexists. split; [vm_compute; reflexivity|].
  destruct (semaphore_counts 64 1 ltac:(lia) 2 (two_waits ++ one_post) _ ltac:(vm_compute; reflexivity)
    ltac:(vm_compute; reflexivity)) as (_ & _ & E).
  split; [cbn [cores]; set_solver|]. rewrite E; [reflexivity|cbn [cores]; set_solver].
Defined.

Lemma semaphore_wakes_witness : exists s k1, run 64 sem_allowed two_waits (boot 1 2) = Some s /\
  cores s !! 1%nat = Some k1 /\ sem_asleep k1 /\ word s = 0.
Proof.
  eexists _, _. split; [vm_compute; reflexivity|]. split; [reflexivity|].
  assert (Hsl : sem_asleep (Core (Some (sem_wait_s, 2%nat)) 64 0 4294967295 false true true false [])) by done.
  split; [exact Hsl|]. destruct (semaphore_wakes 64 1 ltac:(lia) 2 two_waits _ 1 _ ltac:(vm_compute; reflexivity)
    ltac:(vm_compute; reflexivity) eq_refl Hsl) as [E|(j & kj & s' & Hj & Hg & _)]; [exact E|].
  exfalso. destruct j as [|[|j]]; cbn in Hj; [injection Hj as <-|injection Hj as <-|done]; by vm_compute in Hg.
Defined.
