(* ===== verification/SwSem.v ===== *)
(** The mutexes and semaphores of [lib/sw_semaphores.c] as one processor sees
    them while no other touches the word. *)
From stdpp Require Import prelude.
From S2P Require Import Prelude Sync.
#[local] Open Scope Z_scope.

Definition OTZ_LOCKED : Z := 1.
Definition OTZ_FREE : Z := 0.
Definition OTZ_INVALID : Z := 1.
Definition OTZ_BUSY : Z := 2.

Record sw_mutex_t : Type := Mutex { m_init_param : Z; lock_param : Z }.
Record sw_sem_t : Type := Sem { s_init_param : Z; counter_param : Z }.

(** The processor is stopped at a [WFE]. *)
Definition sleeps (k : core) : bool :=
  match k_at k with
  | Some (r, pc) => match code r !! pc with Some (WFE c) => holds c k && negb (k_ev k) | _ => false end
  | None => false
  end.

(** A routine run to its return by one processor alone, with its event register
    clear: the word and [R0]; [None] when it sleeps or has not returned after
    [fuel] instructions. *)
Fixpoint alone (addr : Z) (fuel : nat) (s : sys) : option (Z * Z) :=
  k ← cores s !! 0%nat;
  if sleeps k then None else
  match k_at k, fuel with
  | None, _ => Some (word s, k_r0 k)
  | Some _, O => None
  | Some _, S fuel => s ← step addr (fun _ _ => true) (Exec 0 true) s; alone addr fuel s
  end.
Definition call_s (addr : Z) (fuel : nat) (r : routine) (w : Z) : option (Z * Z) :=
  alone addr fuel (Sys w [enter addr r idle]).

(** ** [sw_semaphores.c]: a null pointer is [None]; the outer [None] is a call
    that does not return. *)
Section calls.
Context (addr : Z) (fuel : nat).

Definition sw_mutex_init (m : option sw_mutex_t) : Z * option sw_mutex_t :=
  match m with
  | None => (OTZ_INVALID, None)
  | Some _ => (OTZ_OK, Some (Mutex 1 OTZ_FREE))
  end.

Definition sw_mutex_destroy (m : option sw_mutex_t) : Z * option sw_mutex_t :=
  match m with
  | None => (OTZ_INVALID, None)
  | Some x => if negb (lock_param x =? OTZ_FREE) then (OTZ_BUSY, m) else (OTZ_OK, Some (Mutex 0 (lock_param x)))
  end.

Definition sw_mutex_lock (m : option sw_mutex_t) : option (Z * option sw_mutex_t) :=
  match m with
  | None => Some (OTZ_INVALID, None)
  | Some x =>
      if m_init_param x =? 0 then Some (OTZ_INVALID, m) else
      '(w, _) ← call_s addr fuel spinlock_s (lock_param x);
      Some (OTZ_OK, Some (Mutex (m_init_param x) w))
  end.

Definition sw_mutex_unlock (m : option sw_mutex_t) : option (Z * option sw_mutex_t) :=
  match m with
  | None => Some (OTZ_INVALID, None)
  | Some x =>
      if m_init_param x =? 0 then Some (OTZ_INVALID, m) else
      '(w, _) ← call_s addr fuel spinunlock_s (lock_param x);
      Some (OTZ_OK, Some (Mutex (m_init_param x) w))
  end.

Definition sw_mutex_trylock (m : option sw_mutex_t) : option (Z * option sw_mutex_t) :=
  match m with
  | None => Some (OTZ_INVALID, None)
  | Some x =>
      if m_init_param x =? 0 then Some (OTZ_INVALID, m) else
      '(w, r0) ← call_s addr fuel trylock_s (lock_param x);
      Some (if negb (r0 =? OTZ_FREE) then OTZ_BUSY else OTZ_OK, Some (Mutex (m_init_param x) w))
  end.

Definition sw_sem_init (value : Z) (m : option sw_sem_t) : Z * option sw_sem_t :=
  match m with
  | None => (OTZ_INVALID, None)
  | Some _ => (OTZ_OK, Some (Sem 1 (u32 value)))
  end.

Definition sw_sem_wait (m : option sw_sem_t) : option (Z * option sw_sem_t) :=
  match m with
  | None => Some (OTZ_INVALID, None)
  | Some x =>
      if s_init_param x =? 0 then Some (OTZ_INVALID, m) else
      '(w, _) ← call_s addr fuel sem_wait_s (counter_param x);
      Some (OTZ_OK, Some (Sem (s_init_param x) w))
  end.

Definition sw_sem_post (m : option sw_sem_t) : option (Z * option sw_sem_t) :=
  match m with
  | None => Some (OTZ_INVALID, None)
  | Some x =>
      if s_init_param x =? 0 then Some (OTZ_INVALID, m) else
      '(w, _) ← call_s addr fuel sem_post_s (counter_param x);
      Some (OTZ_OK, Some (Sem (s_init_param x) w))
  end.

(** The counter is unsigned: it is never below zero. *)
Definition sw_sem_destroy (m : option sw_sem_t) : Z * option sw_sem_t :=
  match m with
  | None => (OTZ_INVALID, None)
  | Some x => if u32 (counter_param x) <? 0 then (OTZ_BUSY, m) else (OTZ_OK, Some (Sem 0 0))
  end.

(** [value] is the place of the result; [None] for a null pointer. *)
Definition sw_sem_getvalue (m : option sw_sem_t) (value : option Z) : Z * option Z :=
  match m, value with
  | Some x, Some _ => if s_init_param x =? 0 then (OTZ_INVALID, value) else (OTZ_OK, Some (s32 (counter_param x)))
  | _, _ => (OTZ_INVALID, value)
  end.
End calls.

(** ** The routines alone *)

Lemma sign_bit x : in_u32 x -> Z.testbit x 31 = (2 ^ 31 <=? x).
Proof.
  intros Hx. unfold in_u32 in Hx. destruct (Z.leb_spec (2 ^ 31) x).
  - apply Z.testbit_true; [lia|]. assert (x / 2 ^ 31 = 1) as ->; [|done].
    symmetry. apply (Z.div_unique x (2 ^ 31) 1 (x - 2 ^ 31)); lia.
  - apply (testbit_high 31); lia.
Qed.

Ltac run_alone :=
  repeat progress (cbn -[Z.eqb Z.testbit u32 Z.lxor Z.pow]; rewrite ?Z.eqb_refl, ?Z.lxor_0_r).

Lemma spinlock_free addr fuel : (8 <= fuel)%nat -> call_s addr fuel spinlock_s 0 = Some (1, addr).
Proof. intros Hf. do 8 (destruct fuel as [|fuel]; [lia|]). unfold call_s. run_alone. by destruct fuel. Qed.

Lemma spinlock_taken addr fuel w : w <> 0 -> call_s addr fuel spinlock_s w = None.
Proof.
  intros Hw. unfold call_s. do 3 (destruct fuel as [|fuel]; [done|]; run_alone).
  destruct (Z.eqb_spec w 0); [done|]. by destruct fuel.
Qed.

Lemma spinunlock_any addr fuel w : (5 <= fuel)%nat -> call_s addr fuel spinunlock_s w = Some (0, addr).
Proof. intros Hf. do 5 (destruct fuel as [|fuel]; [lia|]). unfold call_s. run_alone. by destruct fuel. Qed.

Lemma trylock_any addr fuel w : (6 <= fuel)%nat ->
  call_s addr fuel trylock_s w = Some (if w =? 0 then (1, 0) else (w, w)).
Proof.
  intros Hf. do 6 (destruct fuel as [|fuel]; [lia|]). unfold call_s. run_alone.
  destruct (Z.eqb_spec w 0) as [->|]; run_alone; by destruct fuel.
Qed.

Lemma sem_wait_counts addr fuel w : (8 <= fuel)%nat -> 1 <= w <= 2 ^ 31 ->
  call_s addr fuel sem_wait_s w = Some (w - 1, addr).
Proof.
  intros Hf Hw. assert (Hu : u32 (w - 1) = w - 1) by (apply u32_id; unfold in_u32; lia).
  assert (Hn : Z.testbit (w - 1) 31 = false).
  { rewrite sign_bit by (unfold in_u32; lia). apply Z.leb_gt. lia. }
  do 8 (destruct fuel as [|fuel]; [lia|]). unfold call_s. run_alone. rewrite Hu, Hn. run_alone. by destruct fuel.
Qed.

Lemma sem_wait_blocks addr fuel w : in_u32 w -> w = 0 \/ 2 ^ 31 < w -> call_s addr fuel sem_wait_s w = None.
Proof.
  intros Hr Hw. assert (Hn : Z.testbit (u32 (w - 1)) 31 = true).
  { rewrite sign_bit by apply u32_range. apply Z.leb_le. unfold in_u32 in Hr.
    destruct Hw as [->|Hw]; [done|]. rewrite u32_id by (unfold in_u32; lia). lia. }
  unfold call_s. do 2 (destruct fuel as [|fuel]; [done|]; run_alone). rewrite Hn. by destruct fuel.
Qed.

Lemma sem_post_any addr fuel w : (8 <= fuel)%nat -> call_s addr fuel sem_post_s w = Some (u32 (w + 1), addr).
Proof. intros Hf. do 8 (destruct fuel as [|fuel]; [lia|]). unfold call_s. run_alone. by destruct fuel. Qed.

(** The mutex functions on every branch, seen by one processor.  On an
    initialised mutex that is free, lock takes it, unlock frees it again and
    trylock takes it; on one that is taken, lock never returns, trylock and
    destroy answer busy and change nothing, and unlock frees it whoever took
    it.  A null pointer or a mutex that was not initialised is refused. *)
Theorem sw_mutex_behaviour (addr : Z) (fuel : nat) (i w : Z) (Hf : (8 <= fuel)%nat) (Hi : i <> 0) (Hw : w <> 0) :
  let free := Some (Mutex i OTZ_FREE) in
  let taken := Some (Mutex i w) in
  sw_mutex_lock addr fuel free = Some (OTZ_OK, Some (Mutex i OTZ_LOCKED)) /\
  (forall n, sw_mutex_lock addr n taken = None) /\
  sw_mutex_trylock addr fuel free = Some (OTZ_OK, Some (Mutex i OTZ_LOCKED)) /\
  sw_mutex_trylock addr fuel taken = Some (OTZ_BUSY, taken) /\
  sw_mutex_unlock addr fuel free = Some (OTZ_OK, free) /\
  sw_mutex_unlock addr fuel taken = Some (OTZ_OK, free) /\
  sw_mutex_destroy taken = (OTZ_BUSY, taken) /\
  sw_mutex_destroy free = (OTZ_OK, Some (Mutex 0 OTZ_FREE)) /\
  forall m, m = None \/ (exists v, m = Some (Mutex 0 v)) ->
    sw_mutex_lock addr fuel m = Some (OTZ_INVALID, m) /\ sw_mutex_unlock addr fuel m = Some (OTZ_INVALID, m) /\
    sw_mutex_trylock addr fuel m = Some (OTZ_INVALID, m).
Proof.
  cbn -[alone call_s]. unfold OTZ_FREE, OTZ_LOCKED. destruct (Z.eqb_spec i 0) as [|_]; [done|]. pose proof (proj2 (Z.eqb_neq w 0) Hw) as E.
  rewrite spinlock_free, !trylock_any, !spinunlock_any, E by lia. cbn -[call_s]. rewrite E. split_and!; try done.
  - intros n'. by rewrite spinlock_taken.
  - by intros m [->|[v ->]].
Qed.

(** The semaphore functions on every branch, seen by one processor.  A wait
    takes one from a count up to [2^31] and never returns on zero, or on a
    larger count, whose difference has the sign bit; a post adds one, from the
    largest count to zero; destroying succeeds whatever the count, although it
    means to refuse a semaphore that is waited for. *)
Theorem sw_sem_behaviour (addr : Z) (fuel : nat) (i c : Z) (Hf : (8 <= fuel)%nat) (Hi : i <> 0) (Hc : in_u32 c) :
  let sem := Some (Sem i c) in
  (1 <= c <= 2 ^ 31 -> sw_sem_wait addr fuel sem = Some (OTZ_OK, Some (Sem i (c - 1)))) /\
  (c = 0 \/ 2 ^ 31 < c -> forall n, sw_sem_wait addr n sem = None) /\
  sw_sem_post addr fuel sem = Some (OTZ_OK, Some (Sem i (u32 (c + 1)))) /\
  sw_sem_destroy sem = (OTZ_OK, Some (Sem 0 0)) /\
  (forall v, sw_sem_getvalue sem (Some v) = (OTZ_OK, Some (s32 c))) /\
  forall m, m = None \/ (exists v, m = Some (Sem 0 v)) ->
    sw_sem_wait addr fuel m = Some (OTZ_INVALID, m) /\ sw_sem_post addr fuel m = Some (OTZ_INVALID, m) /\
    forall v, sw_sem_getvalue m v = (OTZ_INVALID, v).
Proof.
  cbn -[call_s]. destruct (Z.eqb_spec i 0) as [|_]; [done|]. split_and!.
  - intros H1. by rewrite sem_wait_counts.
  - intros H1 n. by rewrite sem_wait_blocks.
  - by rewrite sem_post_any.
  - rewrite (proj2 (Z.ltb_ge _ _)); [done|]. apply (u32_range c).
  - done.
  - intros m [->|[v ->]]; split_and!; try done; by intros [].
Qed.

Lemma sw_mutex_behaviour_witness :
  sw_mutex_lock 64 20 (Some (Mutex 1 0)) = Some (0, Some (Mutex 1 1)) /\
  sw_mutex_trylock 64 20 (Some (Mutex 1 1)) = Some (2, Some (Mutex 1 1)) /\ sw_mutex_lock 64 1000 (Some (Mutex 1 1)) = None.
Proof.
  destruct (sw_mutex_behaviour 64 20 1 1) as (A & B & _ & C & _); [lia|done|done|].
  split; [exact A|]. split; [exact C|exact (B 1000%nat)].
Defined.

Lemma sw_sem_behaviour_witness :
  sw_sem_wait 64 20 (Some (Sem 1 3)) = Some (0, Some (Sem 1 2)) /\ sw_sem_destroy (Some (Sem 1 3)) = (0, Some (Sem 0 0)).
Proof.
  destruct (sw_sem_behaviour 64 20 1 3) as (A & _ & _ & D & _); [lia|done|by compute|].
  split; [apply A; lia|exact D].
Defined.
