(* ===== verification/Service.v ===== *)
(** Sessions of the secure kernel: the part of [core/secure_api.c] that opens,
    closes and names them, the configuration and exit functions of the
    services, and the rest of [core/global.c] (notification memory, interrupt
    handlers). *)
From stdpp Require Import prelude gmap strings.
From S2P Require Import Prelude HeapIface MemFn Words Acl Task Encode Driver.
#[local] Open Scope Z_scope.

Definition OTZ_SVC_INVALID : Z := 0.
Definition OTZ_STATUS_INCOMPLETE : Z := 0.
Definition OTZ_STATUS_COMPLETE : Z := 1.
Definition OTZ_CMD_TYPE_NS_TO_SECURE : Z := 1.
Definition OTZ_CMD_TYPE_SECURE_TO_SECURE : Z := 3.
Definition TASK_STACK_SIZE : Z := 2048.
Definition ELF_FLAG : Z := 0x7245.
Definition ELF_FLAG_MAP : Z := 0x5859.

Definition set_cmd_status (v : Z) (c : otz_smc_cmd) : otz_smc_cmd :=
  SmcCmd (sc_id c) (sc_context c) (sc_enc_id c) (sc_src_id c) (sc_src_context c) (sc_req_buf_len c)
    (sc_resp_buf_len c) (sc_ret_resp_buf_len c) v (sc_req_buf_phys c) (sc_resp_buf_phys c)
    (sc_meta_data_phys c) (sc_dev_file_id c).
Definition set_ret_resp_buf_len (v : Z) (c : otz_smc_cmd) : otz_smc_cmd :=
  SmcCmd (sc_id c) (sc_context c) (sc_enc_id c) (sc_src_id c) (sc_src_context c) (sc_req_buf_len c)
    (sc_resp_buf_len c) v (sc_cmd_status c) (sc_req_buf_phys c) (sc_resp_buf_phys c)
    (sc_meta_data_phys c) (sc_dev_file_id c).

(** [struct dispatch_global]. *)
Record dispatch_global : Type := DispatchGlobal { secure_api_set : Z; secure_api_ret_val : Z }.

(** The functions whose addresses the services put into their configuration. *)
Inductive fname : Type :=
  | f_dispatch_task
  | f_echo_task | f_process_otz_echo_svc
  | f_drm_task | f_process_otz_drm_svc
  | f_crypto_task | f_process_otz_crypto_svc.

(** Sizes of the private data of the services. *)
Definition sizeof_dispatch_global : Z := 8.
Definition sizeof_echo_global : Z := 4.
Definition sizeof_drm_global : Z := 4.
Definition sizeof_crypto_global : Z := 0.

Definition set_cfg_data (p : Z) (c : sa_config_t) : sa_config_t :=
  SaConfig (service_uuid c) (service_name c) (stack_size c) (entry_point c) (elf_flag c) (process c) p.

(** The state: the kernel, what the page table shares with the normal world
    ([P]), memory by virtual address, where a shared section has its physical
    one, with the commands, tables, encode contexts and notification structures
    that lie in it,
    the parameters of the call from the normal world, the dispatcher's data and
    that of the services, the interrupt handlers, and what was returned to the
    normal world, the latest first. *)
Record gst {H P : Type} : Type := Gst {
  gk : kst H;
  gns : P;
  gmem : mem;
  gcmds : gmap Z otz_smc_cmd;
  gmetas : gmap Z (list otzc_encode_meta);
  gectxs : gmap Z otz_secure_encode_ctx;
  gnotes : gmap Z otzc_notify_data;
  params_stack : list Z;
  valid_params_flag : Z;
  secure_interrupt_set : Z;
  notify_data : Z;
  g_dispatch_data : Z;
  gdisp : gmap Z dispatch_global;
  gdata : gmap Z Z;
  gret : list Z;
}.
Arguments gst : clear implicits.
Arguments Gst {H P} _ _ _ _ _ _ _ _ _ _ _ _ _ _ _.

Section set.
Context {H P : Type}.
Definition set_gk (v : kst H) (g : gst H P) : gst H P :=
  Gst v (gns g) (gmem g) (gcmds g) (gmetas g) (gectxs g) (gnotes g) (params_stack g)
    (valid_params_flag g) (secure_interrupt_set g) (notify_data g) (g_dispatch_data g) (gdisp g)
    (gdata g) (gret g).
Definition set_gns (v : P) (g : gst H P) : gst H P :=
  Gst (gk g) v (gmem g) (gcmds g) (gmetas g) (gectxs g) (gnotes g) (params_stack g)
    (valid_params_flag g) (secure_interrupt_set g) (notify_data g) (g_dispatch_data g) (gdisp g)
    (gdata g) (gret g).
Definition set_gmem (v : mem) (g : gst H P) : gst H P :=
  Gst (gk g) (gns g) v (gcmds g) (gmetas g) (gectxs g) (gnotes g) (params_stack g)
    (valid_params_flag g) (secure_interrupt_set g) (notify_data g) (g_dispatch_data g) (gdisp g)
    (gdata g) (gret g).
Definition set_gcmds (v : gmap Z otz_smc_cmd) (g : gst H P) : gst H P :=
  Gst (gk g) (gns g) (gmem g) v (gmetas g) (gectxs g) (gnotes g) (params_stack g) (valid_params_flag
    g) (secure_interrupt_set g) (notify_data g) (g_dispatch_data g) (gdisp g) (gdata g) (gret g).
Definition set_gmetas (v : gmap Z (list otzc_encode_meta)) (g : gst H P) : gst H P :=
  Gst (gk g) (gns g) (gmem g) (gcmds g) v (gectxs g) (gnotes g) (params_stack g) (valid_params_flag
    g) (secure_interrupt_set g) (notify_data g) (g_dispatch_data g) (gdisp g) (gdata g) (gret g).
Definition set_gectxs (v : gmap Z otz_secure_encode_ctx) (g : gst H P) : gst H P :=
  Gst (gk g) (gns g) (gmem g) (gcmds g) (gmetas g) v (gnotes g) (params_stack g) (valid_params_flag
    g) (secure_interrupt_set g) (notify_data g) (g_dispatch_data g) (gdisp g) (gdata g) (gret g).
Definition set_gnotes (v : gmap Z otzc_notify_data) (g : gst H P) : gst H P :=
  Gst (gk g) (gns g) (gmem g) (gcmds g) (gmetas g) (gectxs g) v (params_stack g) (valid_params_flag
    g) (secure_interrupt_set g) (notify_data g) (g_dispatch_data g) (gdisp g) (gdata g) (gret g).
Definition set_params_stack (v : list Z) (g : gst H P) : gst H P :=
  Gst (gk g) (gns g) (gmem g) (gcmds g) (gmetas g) (gectxs g) (gnotes g) v (valid_params_flag g)
    (secure_interrupt_set g) (notify_data g) (g_dispatch_data g) (gdisp g) (gdata g) (gret g).
Definition set_valid_params_flag (v : Z) (g : gst H P) : gst H P :=
  Gst (gk g) (gns g) (gmem g) (gcmds g) (gmetas g) (gectxs g) (gnotes g) (params_stack g) v
    (secure_interrupt_set g) (notify_data g) (g_dispatch_data g) (gdisp g) (gdata g) (gret g).
Definition set_secure_interrupt (v : Z) (g : gst H P) : gst H P :=
  Gst (gk g) (gns g) (gmem g) (gcmds g) (gmetas g) (gectxs g) (gnotes g) (params_stack g)
    (valid_params_flag g) v (notify_data g) (g_dispatch_data g) (gdisp g) (gdata g) (gret g).
Definition set_notify_ptr (v : Z) (g : gst H P) : gst H P :=
  Gst (gk g) (gns g) (gmem g) (gcmds g) (gmetas g) (gectxs g) (gnotes g) (params_stack g)
    (valid_params_flag g) (secure_interrupt_set g) v (g_dispatch_data g) (gdisp g) (gdata g) (gret
    g).
Definition set_dispatch_data (v : Z) (g : gst H P) : gst H P :=
  Gst (gk g) (gns g) (gmem g) (gcmds g) (gmetas g) (gectxs g) (gnotes g) (params_stack g)
    (valid_params_flag g) (secure_interrupt_set g) (notify_data g) v (gdisp g) (gdata g) (gret g).
Definition set_gdisp (v : gmap Z dispatch_global) (g : gst H P) : gst H P :=
  Gst (gk g) (gns g) (gmem g) (gcmds g) (gmetas g) (gectxs g) (gnotes g) (params_stack g)
    (valid_params_flag g) (secure_interrupt_set g) (notify_data g) (g_dispatch_data g) v (gdata g)
    (gret g).
Definition set_gdata (v : gmap Z Z) (g : gst H P) : gst H P :=
  Gst (gk g) (gns g) (gmem g) (gcmds g) (gmetas g) (gectxs g) (gnotes g) (params_stack g)
    (valid_params_flag g) (secure_interrupt_set g) (notify_data g) (g_dispatch_data g) (gdisp g) v
    (gret g).
Definition set_gret (v : list Z) (g : gst H P) : gst H P :=
  Gst (gk g) (gns g) (gmem g) (gcmds g) (gmetas g) (gectxs g) (gnotes g) (params_stack g)
    (valid_params_flag g) (secure_interrupt_set g) (notify_data g) (g_dispatch_data g) (gdisp g)
    (gdata g) v.
End set.

Section service.
Context {H P : Type} `{PrivateHeap H} `{NsMemory P}.

(** Where the functions are linked, the loader of services that come from a
    file, and what uninitialised memory holds. *)
Context (fn : fname -> Z).
Context (elf_load : sa_config_t -> gst H P -> res (Z * sa_config_t * gst H P)).
Context (elf_loader_cleanup : gst H P -> res (gst H P)).
Context (junk_cfg : sa_config_t) (junk : sw_task) (junk_tls : sw_tls).

(** [map_to_ns] into a pointer that was null, and [if(p) unmap_from_ns(p)]. *)
Definition g_map (pa : Z) (g : gst H P) : res (Z * Z * gst H P) :=
  '(r, va, p) ← ns_map pa (gns g); mret (r, default 0 va, set_gns p g).
Definition g_unmap (va : Z) (g : gst H P) : res (gst H P) :=
  if va =? 0 then mret g else '(_, p) ← ns_unmap va (gns g); mret (set_gns p g).

(** [sw_malloc] and [sw_free] use the heap of the current task. *)
Definition g_malloc (size : Z) (g : gst H P) : res (Z * gst H P) :=
  '(p, k) ← k_malloc (get_current_task_id (gk g)) size (gk g); mret (p, set_gk k g).
Definition g_free (p : Z) (g : gst H P) : res (gst H P) :=
  k ← k_free (get_current_task_id (gk g)) p (gk g);
  mret (set_gk k (set_gdata (delete p (gdata g)) (set_gdisp (delete p (gdisp g)) g))).

(** ** The services' configurations ([apps/*_task.c], [elf_loader_app.c]) *)

Definition echo_task_init (g : gst H P) : res (Z * sa_config_t * gst H P) :=
  let c := SaConfig OTZ_SVC_ECHO "echo" TASK_STACK_SIZE 0 0 0 0 in
  '(p, g) ← g_malloc sizeof_echo_global g;
  if p =? 0 then mret (OTZ_ENOMEM, c, g) else
  let c := SaConfig OTZ_SVC_ECHO "echo" TASK_STACK_SIZE (fn f_echo_task) 0 (fn f_process_otz_echo_svc) p in
  mret (OTZ_OK, c, set_gdata (<[p := 0]> (gdata g)) g).

Definition drm_task_init (g : gst H P) : res (Z * sa_config_t * gst H P) :=
  let c := SaConfig OTZ_SVC_DRM "drm" TASK_STACK_SIZE (fn f_drm_task) 0 (fn f_process_otz_drm_svc) 0 in
  '(p, g) ← g_malloc sizeof_drm_global g;
  if p =? 0 then mret (OTZ_ENOMEM, c, g) else
  mret (OTZ_OK, set_cfg_data p c, set_gdata (<[p := 0]> (gdata g)) g).

Definition crypto_task_init (g : gst H P) : res (Z * sa_config_t * gst H P) :=
  let c := SaConfig OTZ_SVC_CRYPT "crypto" TASK_STACK_SIZE (fn f_crypto_task) 0 (fn f_process_otz_crypto_svc) 0 in
  '(p, g) ← g_malloc sizeof_crypto_global g;
  if p =? 0 then mret (OTZ_ENOMEM, c, g) else mret (OTZ_OK, set_cfg_data p c, g).

Definition mutex_test_task_init (g : gst H P) : res (Z * sa_config_t * gst H P) :=
  mret (OTZ_OK, SaConfig OTZ_SVC_MUTEX_TEST "otz_mutex_test" TASK_STACK_SIZE 0 ELF_FLAG 0 0, g).

Definition virtual_keyboard_task_init (g : gst H P) : res (Z * sa_config_t * gst H P) :=
  mret (OTZ_OK, SaConfig OTZ_SVC_VIRTUAL_KEYBOARD "virtual_keyboard" TASK_STACK_SIZE 0 ELF_FLAG 0 0, g).

Definition dispatch_task_init (g : gst H P) : res (Z * sa_config_t * gst H P) :=
  let c := SaConfig OTZ_SVC_GLOBAL "dispatcher" TASK_STACK_SIZE (fn f_dispatch_task) 0 0 0 in
  '(p, k) ← k_malloc COMMON_HEAP_ID sizeof_dispatch_global (gk g);
  let g := set_gk k g in
  if p =? 0 then mret (OTZ_ENOMEM, c, g) else
  mret (OTZ_OK, set_cfg_data p c, set_dispatch_data p (set_gdisp (<[p := DispatchGlobal 0 0]> (gdisp g)) g)).

(** The exit functions are alike: they free the private data. *)
Definition task_exit (data : Z) (g : gst H P) : res (Z * gst H P) :=
  g ← (if data =? 0 then mret g else g_free data g); mret (OTZ_OK, g).
Definition echo_task_exit : Z -> gst H P -> res (Z * gst H P) := task_exit.
Definition drm_task_exit : Z -> gst H P -> res (Z * gst H P) := task_exit.
Definition crypto_task_exit : Z -> gst H P -> res (Z * gst H P) := task_exit.
Definition mutex_test_task_exit : Z -> gst H P -> res (Z * gst H P) := task_exit.
Definition virtual_keyboard_task_exit : Z -> gst H P -> res (Z * gst H P) := task_exit.
Definition dispatch_task_exit : Z -> gst H P -> res (Z * gst H P) := task_exit.

(** ** [core/secure_api.c], sessions *)

(** The end of [sa_create_entry_point]: services with the flag are loaded. *)
Definition load_entry (init : gst H P -> res (Z * sa_config_t * gst H P)) (g : gst H P)
    : res (Z * sa_config_t * gst H P) :=
  '(r, c, g) ← init g;
  if negb (r =? OTZ_OK) then mret (-1, c, g) else
  if elf_flag c =? ELF_FLAG then elf_load c g else mret (OTZ_OK, c, g).

Definition sa_create_entry_point (svc_id : Z) (g : gst H P) : res (Z * sa_config_t * gst H P) :=
  if svc_id =? OTZ_SVC_ECHO then load_entry echo_task_init g
  else if svc_id =? OTZ_SVC_DRM then load_entry drm_task_init g
  else if svc_id =? OTZ_SVC_CRYPT then load_entry crypto_task_init g
  else if svc_id =? OTZ_SVC_MUTEX_TEST then load_entry mutex_test_task_init g
  else if svc_id =? OTZ_SVC_GLOBAL then dispatch_task_init g
  else if svc_id =? OTZ_SVC_VIRTUAL_KEYBOARD then load_entry virtual_keyboard_task_init g
  else mret (-1, junk_cfg, g).

Definition sa_destroy_entry_point (svc_id data elf_flag : Z) (g : gst H P) : res (Z * gst H P) :=
  g ← (if elf_flag =? ELF_FLAG_MAP then elf_loader_cleanup g else mret g);
  if svc_id =? OTZ_SVC_ECHO then echo_task_exit data g
  else if svc_id =? OTZ_SVC_DRM then drm_task_exit data g
  else if svc_id =? OTZ_SVC_CRYPT then crypto_task_exit data g
  else if svc_id =? OTZ_SVC_MUTEX_TEST then mutex_test_task_exit data g
  else if svc_id =? OTZ_SVC_GLOBAL then dispatch_task_exit data g
  else if svc_id =? OTZ_SVC_VIRTUAL_KEYBOARD then virtual_keyboard_task_exit data g
  else mret (OTZ_EFAIL, g).

(** The result and what is stored at the session context, which only a
    successful creation writes. *)
Definition sa_open_session (c : sa_config_t) (g : gst H P) : res (Z * option Z * gst H P) :=
  '(r, id, k) ← create_task c junk junk_tls (gk g);
  mret (r, if r =? OTZ_OK then Some id else None, set_gk k g).

Definition sa_close_session (id : Z) (g : gst H P) : res (Z * gst H P) :=
  '(r, k) ← destroy_task id (gk g); mret (r, set_gk k g).

(** The label [ret_func] of the two handlers. *)
Definition ret_unmap (r svc_id session_context cmd : Z) (g : gst H P) : res (Z * gst H P) :=
  g ← g_unmap svc_id g; g ← g_unmap session_context g; g ← g_unmap cmd g; mret (r, g).

Definition upd_cmd (cmd : Z) (f : otz_smc_cmd -> otz_smc_cmd) (g : gst H P) : res (gst H P) :=
  c ← of_opt (gcmds g !! cmd); mret (set_gcmds (<[cmd := f c]> (gcmds g)) g).

(** Creating the service's task, once the three structures are mapped. *)
Definition open_mapped (svc_id session_context cmd : Z) (g : gst H P) : res (Z * gst H P) :=
  svc ← load32 svc_id (gmem g);
  '(r, cfg, g) ← sa_create_entry_point (s32 svc) g;
  '(r, g) ← (if r =? OTZ_OK then
               '(r, o, g) ← sa_open_session cfg g;
               match o with
               | Some id => m ← store32 session_context (u32 id) (gmem g); mret (r, set_gmem m g)
               | None => mret (r, g)
               end
             else mret (r, g));
  if negb (r =? OTZ_OK) then
    svc ← load32 svc_id (gmem g);
    '(_, g) ← sa_destroy_entry_point (s32 svc) (Task.data cfg) (elf_flag cfg) g;
    g ← upd_cmd cmd (set_cmd_status OTZ_STATUS_INCOMPLETE) g;
    mret (r, g)
  else
    g ← upd_cmd cmd (fun c => set_cmd_status OTZ_STATUS_COMPLETE (set_ret_resp_buf_len 4 c)) g;
    mret (r, g).

Definition open_session_from_ns (cmd_phy : Z) (g : gst H P) : res (Z * gst H P) :=
  '(r, cmd, g) ← g_map cmd_phy g;
  if negb (r =? 0) then ret_unmap OTZ_ENOMEM 0 0 cmd g else
  c ← of_opt (gcmds g !! cmd);
  if sc_resp_buf_len c =? 0 then ret_unmap OTZ_EFAIL 0 0 cmd g else
  '(r, session_context, g) ← g_map (sc_resp_buf_phys c) g;
  if negb (r =? 0) then ret_unmap OTZ_ENOMEM 0 session_context cmd g else
  '(r, svc_id, g) ← g_map (sc_req_buf_phys c) g;
  if negb (r =? 0) then ret_unmap OTZ_ENOMEM svc_id session_context cmd g else
  svc ← load32 svc_id (gmem g);
  if s32 svc =? OTZ_SVC_INVALID then ret_unmap OTZ_EFAIL svc_id session_context cmd g else
  '(r, g) ← open_mapped svc_id session_context cmd g;
  ret_unmap r svc_id session_context cmd g.

(** Withdrawing the service's task: the local storage of a session that does
    not exist is a null pointer. *)
Definition close_mapped (svc session_context cmd : Z) (g : gst H P) : res (gst H P) :=
  id ← load32 session_context (gmem g);
  t ← get_task_tls (s32 id) (gk g);
  tl ← of_opt (tlss (gk g) !! t);
  '(_, g) ← sa_destroy_entry_point svc (private_data tl) (tls_elf_flag tl) g;
  id ← load32 session_context (gmem g);
  '(_, g) ← sa_close_session (s32 id) g;
  upd_cmd cmd (set_cmd_status OTZ_STATUS_COMPLETE) g.

(** [ret_val] is not set when the session is closed: [junk_ret]. *)
Definition close_session_from_ns (junk_ret cmd_phy : Z) (g : gst H P) : res (Z * gst H P) :=
  '(r, cmd, g) ← g_map cmd_phy g;
  if negb (r =? 0) then ret_unmap OTZ_ENOMEM 0 0 cmd g else
  c ← of_opt (gcmds g !! cmd);
  if sc_req_buf_len c =? 0 then ret_unmap OTZ_EFAIL 0 0 cmd g else
  '(r, svc_id, g) ← g_map (sc_req_buf_phys c) g;
  if negb (r =? 0) then ret_unmap OTZ_ENOMEM svc_id 0 cmd g else
  '(r, session_context, g) ← g_map (sc_resp_buf_phys c) g;
  if negb (r =? 0) then ret_unmap OTZ_ENOMEM svc_id session_context cmd g else
  svc ← load32 svc_id (gmem g);
  g ← close_mapped (s32 svc) session_context cmd g;
  ret_unmap junk_ret svc_id session_context cmd g.

(** A request of a secure task; the session identifier is stored at a secure
    address, so what is stored there is the second result. *)
Definition open_session_from_secure (svc_id : Z) (g : gst H P) : res (Z * option Z * gst H P) :=
  if svc_id =? OTZ_SVC_INVALID then mret (OTZ_EFAIL, None, g) else
  '(r, cfg, g) ← sa_create_entry_point svc_id g;
  '(r, id, g) ← (if r =? OTZ_OK then sa_open_session cfg g else mret (r, None, g));
  if r =? OTZ_OK then mret (r, id, g) else
  '(_, g) ← sa_destroy_entry_point svc_id (Task.data cfg) (elf_flag cfg) g;
  mret (r, id, g).

Definition close_session_from_secure (svc_id session_id : Z) (g : gst H P) : res (Z * gst H P) :=
  t ← get_task_tls session_id (gk g);
  tl ← of_opt (tlss (gk g) !! t);
  '(_, g) ← sa_destroy_entry_point svc_id (private_data tl) (tls_elf_flag tl) g;
  '(_, g) ← sa_close_session session_id g;
  mret (OTZ_OK, g).

Definition ipc_connect : Z -> gst H P -> res (Z * option Z * gst H P) := open_session_from_secure.
Definition ipc_disconnect : Z -> Z -> gst H P -> res (Z * gst H P) := close_session_from_secure.

(** ** The end of a call ([dispatcher_task.c], [cpu_ipi.c], [secure_api.c]) *)

(** The software interrupt of [schedule]. *)
Definition schedule (g : gst H P) : res (gst H P) := k ← scheduler (gk g); mret (set_gk k g).

Definition set_secure_api_ret (r : Z) (g : gst H P) : res (gst H P) :=
  _ ← of_opt (gdisp g !! g_dispatch_data g);
  mret (set_gdisp (<[g_dispatch_data g := DispatchGlobal 1 r]> (gdisp g)) g).

Definition set_ipi_ret (v : Z) (t : sw_tls) : sw_tls :=
  Tls (params t) (ret_val t) v (tls_elf_flag t) (tls_process t) (private_data t).

Definition otz_ipi_return (smc_cmd r : Z) (g : gst H P) : res (gst H P) :=
  c ← of_opt (gcmds g !! smc_cmd);
  o ← get_task (s32 (sc_src_context c)) (gk g);
  match o with
  | None => mret g
  | Some a =>
      t ← of_opt (tasks (gk g) !! a);
      l ← of_opt (tlss (gk g) !! tls t);
      k ← schedule_task a (set_tlss (<[tls t := set_ipi_ret r l]> (tlss (gk g))) (gk g));
      mret (set_gk k g)
  end.

(** [tl] is the address of the local storage. *)
Definition handle_task_return (task_id tl : Z) (g : gst H P) : res (gst H P) :=
  k ← suspend_task task_id TASK_STATE_SUSPEND (gk g);
  let g := set_gk k g in
  l ← of_opt (tlss (gk g) !! tl);
  cmd_type ← of_opt (params l !! 2%nat);
  g ← (if cmd_type =? OTZ_CMD_TYPE_NS_TO_SECURE then set_secure_api_ret (ret_val l) g
       else if cmd_type =? OTZ_CMD_TYPE_SECURE_TO_SECURE then
         a ← of_opt (params l !! 1%nat); otz_ipi_return a (ret_val l) g
       else mret g);
  schedule g.

Definition CALL_TRUSTZONE_API : Z := 1.

(** The four words of a call between tasks, the suspension of the caller and
    the software interrupt. *)
Definition otz_ipi (smc_cmd : Z) (g : gst H P) : res (gst H P) :=
  c ← of_opt (gcmds g !! smc_cmd);
  let ps := [CALL_TRUSTZONE_API; u32 smc_cmd; OTZ_CMD_TYPE_SECURE_TO_SECURE; 0] ++ drop 4 (params_stack g) in
  let g := set_valid_params_flag 1 (set_params_stack ps g) in
  k ← suspend_task (s32 (sc_src_context c)) TASK_STATE_WAIT (gk g);
  schedule (set_gk k g).

(** [smc_cmd] is the address of the command on the caller's stack, which holds
    [old] in the fields that are not set. *)
Definition ipc_send (smc_cmd : Z) (old : otz_smc_cmd) (src_svc_id src_context svc_id session_id cmd_id enc_ctx meta_data : Z)
    (g : gst H P) : res (Z * gst H P) :=
  c ← of_opt (gectxs g !! enc_ctx);
  let cmd := SmcCmd (u32 (Z.lor (Z.shiftl svc_id 10) cmd_id)) (u32 session_id) (sc_enc_id old) (u32 (Z.shiftl src_svc_id 10))
               (u32 src_context) (Encode.enc_req_offset c) (Encode.enc_res_offset c) 0 (sc_cmd_status old)
               (req_addr c) (res_addr c) meta_data (sc_dev_file_id old) in
  g ← otz_ipi smc_cmd (set_gcmds (<[smc_cmd := cmd]> (gcmds g)) g);
  mret (OTZ_OK, g).

(** ** Notifications ([core/global.c], [core/secure_api.c]) *)

Definition register_notify_data (notify_data_phys : Z) (g : gst H P) : res (Z * gst H P) :=
  '(r, data, g) ← g_map notify_data_phys g;
  if negb (r =? 0) then mret (OTZ_ENOMEM, g) else mret (OTZ_OK, set_notify_ptr data g).

Definition unregister_notify_data (g : gst H P) : res (gst H P) :=
  g ← g_unmap (notify_data g) g; mret (set_notify_ptr 0 g).

Definition register_notify_data_api (cmd_phy : Z) (g : gst H P) : res (Z * gst H P) :=
  '(r, cmd, g) ← g_map cmd_phy g;
  if negb (r =? 0) then g ← g_unmap cmd g; mret (OTZ_ENOMEM, g) else
  c ← of_opt (gcmds g !! cmd);
  '(r, g) ← register_notify_data (sc_req_buf_phys c) g;
  g ← g_unmap cmd g; mret (r, g).

Definition unregister_notify_data_api (g : gst H P) : res (Z * gst H P) :=
  g ← unregister_notify_data g; mret (OTZ_OK, g).

Definition set_notify_data (service_id session_id enc_id client_pid dev_file_id : Z) (g : gst H P) : res (gst H P) :=
  if notify_data g =? 0 then mret g else
  _ ← of_opt (gnotes g !! notify_data g);
  mret (set_gnotes (<[notify_data g := NotifyData dev_file_id service_id client_pid session_id enc_id]> (gnotes g)) g).

(** The command stays mapped: there is no [unmap_from_ns].  The interrupt that
    [invoke_ns_callback] raises belongs to the interrupt controller. *)
Definition invoke_ns_callback (svc_id session_id enc_id client_pid dev_file_id : Z) : gst H P -> res (gst H P) :=
  set_notify_data (s32 svc_id) (s32 session_id) (s32 enc_id) (s32 client_pid) (s32 dev_file_id).

Definition notify_ns (task_id : Z) (g : gst H P) : res (gst H P) :=
  t ← get_task_tls task_id (gk g);
  if t =? 0 then mret g else
  l ← of_opt (tlss (gk g) !! t);
  cmd_type ← of_opt (params l !! 2%nat);
  a ← of_opt (params l !! 1%nat);
  '(r, cmd, g) ← (if cmd_type =? OTZ_CMD_TYPE_NS_TO_SECURE then g_map a g else mret (0, a, g));
  if negb (r =? 0) then mret g else
  c ← of_opt (gcmds g !! cmd);
  invoke_ns_callback (Z.land (Z.shiftr (sc_id c) 10) 0x3ff) (sc_context c) (sc_enc_id c) (sc_src_context c)
    (sc_dev_file_id c) g.
End service.

(** ** Interrupt handlers ([core/global.c])

    [task_irq_handler] and [task_irq_handler_data] with the word behind them,
    the [next] pointer of [device_acl_list]. *)
Definition NO_OF_INTERRUPTS_IMPLEMENTED : Z := 96.

Definition irq_store (i v : Z) (t : list Z) : res (list Z) :=
  if (0 <=? i) && (i <? Z.of_nat (length t)) then mret (<[Z.to_nat i := v]> t) else Fault.

Definition register_irq (interrupt handler data : Z) (t : list Z) : res (list Z) :=
  if NO_OF_INTERRUPTS_IMPLEMENTED <? interrupt then mret t else
  t ← irq_store interrupt handler t;
  irq_store (NO_OF_INTERRUPTS_IMPLEMENTED + interrupt) data t.

(** The handler that is called and its argument. *)
Definition invoke_irq_handler (interrupt : Z) (t : list Z) : res (option (Z * Z)) :=
  h ← of_opt (t !! Z.to_nat interrupt);
  if h =? 0 then mret None else
  d ← of_opt (t !! Z.to_nat (NO_OF_INTERRUPTS_IMPLEMENTED + interrupt));
  mret (Some (h, d)).

Lemma irq_store_ok i v t : 0 <= i < Z.of_nat (length t) -> irq_store i v t = Ret (<[Z.to_nat i := v]> t).
Proof.
  intros Hi. unfold irq_store. rewrite (proj2 (Z.leb_le _ _)), (proj2 (Z.ltb_lt _ _)) by lia. done.
Qed.

Lemma register_irq_ok i h d t : length t = 193%nat -> 0 <= i <= 96 ->
  register_irq i h d t = Ret (<[Z.to_nat (96 + i) := d]> (<[Z.to_nat i := h]> t)).
Proof.
  intros Hl Hi. unfold register_irq, NO_OF_INTERRUPTS_IMPLEMENTED. rewrite (proj2 (Z.ltb_ge _ _)) by lia.
  rewrite irq_store_ok by lia. cbn [mbind res_bind]. rewrite irq_store_ok; [done|]. rewrite length_insert. lia.
Qed.

(** The handlers of the interrupts.  For the 96 interrupts there are, a
    registered handler is the one that is called, with its data, and nobody
    else's changes; larger numbers are ignored; but the bound is off by one: for
    the interrupt 96 the handler replaces the data of the interrupt 0 and the
    data the word behind the tables, the head of the device list. *)
Theorem irq_registration (t : list Z) (h d : Z) (Hlen : length t = 193%nat) :
  (forall i, 0 <= i < 96 -> exists t', register_irq i h d t = Ret t' /\ length t' = length t /\
     (h <> 0 -> invoke_irq_handler i t' = Ret (Some (h, d))) /\
     (forall j, 0 <= j < 96 -> j <> i -> invoke_irq_handler j t' = invoke_irq_handler j t)) /\
  (forall i, 96 < i -> register_irq i h d t = Ret t) /\
  (exists t', register_irq 96 h d t = Ret t' /\ t' !! 192%nat = Some d /\
     (forall h0 d0, invoke_irq_handler 0 t = Ret (Some (h0, d0)) -> invoke_irq_handler 0 t' = Ret (Some (h0, h)))).
Proof.
  split; [|split].
  - intros i Hi. eexists. rewrite register_irq_ok by lia. split; [reflexivity|]. split; [by rewrite !length_insert|].
    unfold invoke_irq_handler, NO_OF_INTERRUPTS_IMPLEMENTED. split.
    + intros Hh. rewrite (list_lookup_insert_ne _ _ (Z.to_nat i)), (list_lookup_insert_eq t) by lia. cbn [of_opt mbind res_bind].
      rewrite (proj2 (Z.eqb_neq _ _) Hh), list_lookup_insert_eq by (rewrite length_insert; lia). done.
    + intros j Hj Hne. by rewrite 2!(list_lookup_insert_ne _ _ (Z.to_nat j)), 2!(list_lookup_insert_ne _ _ (Z.to_nat (96 + j))) by lia.
  - intros i Hi. unfold register_irq, NO_OF_INTERRUPTS_IMPLEMENTED. by rewrite (proj2 (Z.ltb_lt _ _)) by lia.
  - eexists. rewrite register_irq_ok by lia. split; [reflexivity|]. split.
    + apply list_lookup_insert_eq. rewrite length_insert. lia.
    + intros h0 d0. unfold invoke_irq_handler, NO_OF_INTERRUPTS_IMPLEMENTED.
      set (t' := <[_ := d]> _).
      assert (E0 : t' !! Z.to_nat 0 = t !! Z.to_nat 0) by (unfold t'; by rewrite 2!list_lookup_insert_ne by lia).
      assert (E1 : t' !! Z.to_nat (96 + 0) = Some h).
      { unfold t'. rewrite list_lookup_insert_ne by lia. apply list_lookup_insert_eq. lia. }
      rewrite E0, E1. destruct (t !! Z.to_nat 0) as [x|]; [|done]. cbn [of_opt mbind res_bind].
      destruct (x =? 0); [done|]. destruct (t !! Z.to_nat (96 + 0)) as [y|]; [|done].
      cbn [of_opt mbind res_bind mret res_ret]. by intros [= -> _].
Qed.

Lemma irq_registration_witness :
  exists t', register_irq 96 7 9 (replicate 193 0) = Ret t' /\ t' !! 192%nat = Some 9.
Proof.
  destruct (irq_registration (replicate 193 0) 7 9 (length_replicate _ _)) as (_ & _ & t' & E & L & _).
  exists t'. by split.
Defined.
