(* ===== verification/SvcSpec.v ===== *)
(** What opening and closing a session does: the handlers of [Service] against
    the tasks of [Sched] and the mappings of [Share]. *)
From stdpp Require Import prelude gmap strings.
From S2P Require Import Prelude DList HeapIface PageTable MemFn Words Acl Task Sched Encode Share Driver Service.
#[local] Open Scope Z_scope.

Lemma u32_s32 x : u32 (s32 x) = u32 x.
Proof.
  unfold u32, s32, uw, sw. change (32 - 1) with 31. rewrite Zminus_mod_idemp_l. f_equal. lia.
Qed.

Section spec.
Context {H P : Type} `{HL : PrivateHeapLaws H} `{NC : NsCounts P}.
Context (fn : fname -> Z).
Context (elf_load : sa_config_t -> gst H P -> res (Z * sa_config_t * gst H P)).
Context (elf_loader_cleanup : gst H P -> res (gst H P)).
Context (junk_cfg : sa_config_t) (junk : sw_task) (junk_tls : sw_tls).

(** ** Mappings *)

Lemma g_map_ok n l a (g : gst H P) : ns_ok (S n) l (gns g) -> ns_addr a ->
  (exists p, g_map a g = Ret (0, a, set_gns p g) /\ ns_ok n (a :: l) p) \/
  (exists r p, g_map a g = Ret (r, 0, set_gns p g) /\ (r =? 0) = false /\ ns_ok n l p).
Proof.
  intros Hok Ha. unfold g_map.
  destruct (ns_map_ok n l _ a Hok Ha) as [(p & -> & Hp)|(r & p & -> & Hr & Hp)]; [left|right].
  - by exists p.
  - exists r, p. split; [done|]. split; [by apply Z.eqb_neq|done].
Qed.

Lemma g_unmap_ok n l a (g : gst H P) : ns_ok n (a :: l) (gns g) -> a <> 0 ->
  exists p, g_unmap a g = Ret (set_gns p g) /\ ns_ok n l p.
Proof.
  intros Hok Ha. unfold g_unmap. rewrite (proj2 (Z.eqb_neq _ _) Ha).
  destruct (ns_unmap_ok n l _ a Hok) as (p & -> & Hp). by exists p.
Qed.

(** The addresses among the pointers that are not null. *)
Fixpoint nonnull (l : list Z) : list Z :=
  match l with [] => [] | a :: l => if a =? 0 then nonnull l else a :: nonnull l end.

Lemma g_unmap_null n l a (g : gst H P) : ns_ok n (nonnull [a] ++ l) (gns g) ->
  exists p, g_unmap a g = Ret (set_gns p g) /\ ns_ok n l p.
Proof.
  cbn [nonnull]. destruct (Z.eqb_spec a 0) as [->|Ha]; cbn [app].
  - intros Hok. exists (gns g). split; [unfold g_unmap; by destruct g|exact Hok].
  - intros Hok. by apply g_unmap_ok.
Qed.

Lemma ret_unmap_ok n l r a b c (g : gst H P) : ns_ok n (nonnull [a; b; c] ++ l) (gns g) ->
  exists p, ret_unmap r a b c g = Ret (r, set_gns p g) /\ ns_ok n l p.
Proof.
  intros Hok. unfold ret_unmap.
  replace (nonnull [a; b; c] ++ l) with (nonnull [a] ++ nonnull [b] ++ nonnull [c] ++ l) in Hok
    by (cbn [nonnull]; by destruct (a =? 0), (b =? 0), (c =? 0)).
  destruct (g_unmap_null _ _ _ _ Hok) as (p1 & -> & K1). cbn [mbind res_bind].
  destruct (g_unmap_null n (nonnull [c] ++ l) b (set_gns p1 g) K1) as (p2 & -> & K2). cbn [mbind res_bind].
  destruct (g_unmap_null n l c (set_gns p2 (set_gns p1 g)) K2) as (p3 & -> & K3). by exists p3.
Qed.

(** ** The service's configuration *)

(** The services whose tasks are part of the kernel's image. *)
Definition native (svc : Z) : Prop := svc = OTZ_SVC_ECHO \/ svc = OTZ_SVC_DRM \/ svc = OTZ_SVC_CRYPT.

Definition svc_cfg (svc p : Z) : sa_config_t :=
  if svc =? OTZ_SVC_ECHO then SaConfig svc "echo" TASK_STACK_SIZE (fn f_echo_task) 0 (fn f_process_otz_echo_svc) p
  else if svc =? OTZ_SVC_DRM then SaConfig svc "drm" TASK_STACK_SIZE (fn f_drm_task) 0 (fn f_process_otz_drm_svc) p
  else SaConfig svc "crypto" TASK_STACK_SIZE (fn f_crypto_task) 0 (fn f_process_otz_crypto_svc) p.

(** Everything but the kernel and the services' own data is the same. *)
Definition same_memory (g g' : gst H P) : Prop :=
  gns g' = gns g /\ gmem g' = gmem g /\ gcmds g' = gcmds g.

Lemma create_entry_ok adr v svc (g : gst H P) :
  sched_rel adr (gk g) v -> native svc -> 4 <= heap_max (H := H) ->
  exists r c g', sa_create_entry_point fn elf_load junk_cfg svc g = Ret (r, c, g') /\ same_memory g g' /\
    (exists h, gk g' = set_kheap h (gk g) /\ heap_live (kheap (gk g)) ⊆ heap_live h /\
       sched_rel adr (gk g') v /\ elf_flag c = 0 /\
       (r = OTZ_OK /\ c = svc_cfg svc (Task.data c) /\ Task.data c <> 0 /\
          Task.data c ∉ heap_live (kheap (gk g)) /\ Task.data c ∈ heap_live h \/
        r = -1 /\ Task.data c = 0)).
Proof.
  intros R Hn Hm.
  assert (M : forall size, 0 <= size <= 4 -> exists p h, g_malloc size g = Ret (p, set_gk (set_kheap h (gk g)) g) /\
    heap_live (kheap (gk g)) ⊆ heap_live h /\ sched_rel adr (set_kheap h (gk g)) v /\
    (p <> 0 -> p ∉ heap_live (kheap (gk g)) /\ p ∈ heap_live h)).
  { intros size Hs. unfold g_malloc.
    destruct (k_malloc_rel adr (get_current_task_id (gk g)) size (gk g) v R) as (p & h & -> & R' & L & F); [lia|].
    exists p, h. split; [done|]. split; [done|]. split; [done|]. intros Hp. by apply F. }
  unfold sa_create_entry_point, load_entry, echo_task_init, drm_task_init, crypto_task_init.
  destruct Hn as [->|[->| ->]]; cbn [Z.eqb OTZ_SVC_ECHO OTZ_SVC_DRM OTZ_SVC_CRYPT Pos.eqb];
    [destruct (M sizeof_echo_global) as (p & h & -> & L & R' & F)
    |destruct (M sizeof_drm_global) as (p & h & -> & L & R' & F)
    |destruct (M sizeof_crypto_global) as (p & h & -> & L & R' & F)];
    unfold sizeof_echo_global, sizeof_drm_global, sizeof_crypto_global; try lia;
    cbn [mbind res_bind]; destruct (Z.eqb_spec p 0) as [->|Hp]; eexists _, _, _; (split; [reflexivity|]);
    (split; [done|]); exists h; (do 4 (split; [done|])); (right; done) || (left; destruct (F Hp); done).
Qed.

(** ** Opening *)

(** When a task can be created: the dispatcher runs, identifiers are left, and
    the blocks of the tasks there are are live while the stale stack pointer in
    a fresh block is not. *)
Definition can_create (k : kst H) (v : vk) : Prop :=
  (exec_mode k = 1 -> cur v ∈ ids v) /\ nxt v < 2 ^ 31 /\ TASK_STACK_SIZE <= heap_max (H := H) /\
  task_sp junk ∉ heap_live (kheap k) /\
  map_Forall (fun a t => a ∈ heap_live (kheap k) /\ tls t ∈ heap_live (kheap k) /\ task_sp t ∈ heap_live (kheap k))
    (tasks k).

Definition completed (c : otz_smc_cmd) : otz_smc_cmd := set_cmd_status OTZ_STATUS_COMPLETE (set_ret_resp_buf_len 4 c).

(** The session [nxt v] is there: a suspended task made from the service's
    configuration, with private data of its own. *)
Definition session_opened (svc : Z) (k : kst H) (v : vk) (k' : kst H) (v' : vk) : Prop :=
  exists adr' p, sched_rel adr' k' v' /\ ids v' = ids v ++ [nxt v] /\
    task_made (svc_cfg svc p) k' (adr' (nxt v)) /\ p <> 0 /\ p ∉ heap_live (kheap k) /\ p ∉ owned adr' k' v'.

(** The two calls that [open_session_from_ns] and [open_session_from_secure]
    share. *)
Definition open_start (svc : Z) (g : gst H P) : res (Z * option Z * sa_config_t * gst H P) :=
  '(r, cfg, g) ← sa_create_entry_point fn elf_load junk_cfg svc g;
  '(r, o, g) ← (if r =? OTZ_OK then sa_open_session junk junk_tls cfg g else mret (r, None, g));
  mret (r, o, cfg, g).

Lemma not_block (X : gset Z) x a b c : x ∉ X -> a ∈ X -> b ∈ X -> c ∈ X -> x ∉ [a; b; c].
Proof. rewrite !not_elem_of_cons. intros Hx Ha Hb Hc. split_and!; [by intros ->..|apply not_elem_of_nil]. Qed.

Lemma open_kernel adr v svc (g : gst H P) :
  sched_rel adr (gk g) v -> native svc -> can_create (gk g) v ->
  open_start svc g = Panic \/
  exists r o cfg g', open_start svc g = Ret (r, o, cfg, g') /\ same_memory g g' /\ elf_flag cfg = 0 /\
    (r = OTZ_OK /\ o = Some (nxt v) /\ (exists v', session_opened svc (gk g) v (gk g') v') \/
     r <> OTZ_OK /\ o = None /\
       exists v', sched_rel adr (gk g') v' /\ ids v' = ids v /\ Task.data cfg ∉ owned adr (gk g') v').
Proof.
  intros R Hn (Hex & Hnx & Hmax & Hj & Hlive). unfold open_start. unfold TASK_STACK_SIZE in Hmax.
  destruct (create_entry_ok adr v svc g R Hn) as (r & c & g1 & -> & (S1 & S2 & S3) & h & Ek & L & R1 & El & Hc); [lia|].
  cbn [mbind res_bind]. destruct Hc as [(-> & Ec & Hp & Hf & Hh)|(-> & Hd)].
  2:{ right. cbn [Z.eqb OTZ_OK mbind res_bind mret res_ret]. eexists _, _, _, _. split; [reflexivity|].
      split; [done|]. split; [done|]. right. split; [done|]. split; [done|]. exists v. split; [done|].
      split; [done|]. rewrite Hd. by pose proof (rel_blocks _ _ _ R1) as [? _]%NoDup_cons. }
  rewrite Z.eqb_refl. unfold sa_open_session.
  assert (Hok : ev_ok (gk g1) v (ECreate c junk junk_tls)).
  { rewrite Ek. split; [exact Hex|]. split; [done|]. split; [|split; [lia|]].
    - rewrite Ec. unfold svc_cfg. destruct Hn as [->|[->| ->]]; cbn; unfold TASK_STACK_SIZE; lia.
    - cbn. intros a t Et. destruct (Hlive a t Et) as (? & ? & ?). by split; apply (not_block (heap_live (kheap (gk g)))). }
  assert (Ho : Task.data c ∉ owned adr (gk g1) v).
  { intros Hin. apply Hf. pose proof (rel_live _ _ _ R) as Hl. apply Hl. by rewrite Ek in Hin. }
  destruct (create_task_rel adr c junk junk_tls _ v R1 Hok)
    as [->|(r & id & s' & adr' & v' & -> & V & R' & [(-> & -> & Hids & M & Hown)|(-> & -> & Hids & -> & Et)])];
    [by left|right|right]; cbn [mbind res_bind mret res_ret Z.eqb OTZ_OK OTZ_ENOMEM];
    eexists _, _, _, _; (split; [reflexivity|]); (split; [done|]); (split; [done|]); [left|right].
  - split; [done|]. split; [done|]. exists v', adr', (Task.data c). cbn [gk set_gk]. rewrite <-Ec.
    split_and!; try done. apply Hown; [by rewrite Ek|done].
  - split; [done|]. split; [done|]. exists v'. split; [done|]. split; [done|].
    unfold owned, blocks in *. cbn [gk set_gk]. by rewrite Hids, Et.
Qed.

Lemma destroy_native adr v svc p fl (g : gst H P) :
  sched_rel adr (gk g) v -> native svc -> fl <> ELF_FLAG_MAP -> p ∉ owned adr (gk g) v ->
  exists r g', sa_destroy_entry_point elf_loader_cleanup svc p fl g = Ret (r, g') /\ same_memory g g' /\
    exists h, gk g' = set_kheap h (gk g) /\ sched_rel adr (gk g') v.
Proof.
  intros R Hn Hfl Hp. unfold sa_destroy_entry_point. rewrite (proj2 (Z.eqb_neq _ _) Hfl). cbn [mbind res_bind mret res_ret].
  assert (E : exists r g', task_exit p g = Ret (r, g') /\ same_memory g g' /\
    exists h, gk g' = set_kheap h (gk g) /\ sched_rel adr (gk g') v).
  { unfold task_exit. destruct (p =? 0); cbn [mbind res_bind mret res_ret].
    - eexists _, _. split; [reflexivity|]. split; [done|]. exists (kheap (gk g)). split; [by destruct (gk g)|done].
    - unfold g_free. destruct (k_free_rel adr (get_current_task_id (gk g)) p (gk g) v R Hp) as (h & -> & R').
      cbn [mbind res_bind mret res_ret]. eexists _, _. split; [reflexivity|]. split; [done|]. by exists h. }
  destruct Hn as [->|[->| ->]]; exact E.
Qed.

Lemma open_mapped_start svc_id ctx cmd (g : gst H P) :
  open_mapped fn elf_load elf_loader_cleanup junk_cfg junk junk_tls svc_id ctx cmd g =
  (svc ← load32 svc_id (gmem g);
   '(r, o, cfg, g) ← open_start (s32 svc) g;
   '(r, g) ← match o with
             | Some id => m ← store32 ctx (u32 id) (gmem g); mret (r, set_gmem m g)
             | None => mret (r, g)
             end;
   if negb (r =? OTZ_OK) then
     svc ← load32 svc_id (gmem g);
     '(_, g) ← sa_destroy_entry_point elf_loader_cleanup (s32 svc) (Task.data cfg) (elf_flag cfg) g;
     g ← upd_cmd cmd (set_cmd_status OTZ_STATUS_INCOMPLETE) g; mret (r, g)
   else g ← upd_cmd cmd completed g; mret (r, g)).
Proof.
  unfold open_mapped, open_start. destruct (load32 svc_id (gmem g)) as [w| |]; [|done..]. cbn [mbind res_bind].
  destruct (sa_create_entry_point _ _ _ _ _) as [[[r c] g1]| |]; [|done..]. cbn [mbind res_bind].
  destruct (r =? OTZ_OK); [|done].
  by destruct (sa_open_session _ _ _ _) as [[[r' o] g2]| |].
Qed.

(** The outcome of a request to open a session, once the buffers are mapped. *)
Definition open_outcome (adr : Z -> Z) (svc ctx cmd : Z) (c : otz_smc_cmd) (g : gst H P) (v : vk) (r : Z) (g' : gst H P) : Prop :=
  r = OTZ_OK /\ (exists v', session_opened svc (gk g) v (gk g') v') /\
    gmem g' = write_bytes ctx (le32 (nxt v)) (gmem g) /\ gcmds g' = <[cmd := completed c]> (gcmds g) \/
  r <> OTZ_OK /\ (exists v', sched_rel adr (gk g') v' /\ ids v' = ids v) /\
    gmem g' = gmem g /\ gcmds g' = <[cmd := set_cmd_status OTZ_STATUS_INCOMPLETE c]> (gcmds g).

Lemma open_mapped_ok adr v w svc_id ctx cmd c (g : gst H P) :
  sched_rel adr (gk g) v -> load32 svc_id (gmem g) = Ret w -> native (s32 w) -> can_create (gk g) v ->
  mapped ctx 4 (gmem g) -> gcmds g !! cmd = Some c ->
  let open := open_mapped fn elf_load elf_loader_cleanup junk_cfg junk junk_tls svc_id ctx cmd g in
  open = Panic \/
  exists r g', open = Ret (r, g') /\ gns g' = gns g /\ open_outcome adr (s32 w) ctx cmd c g v r g'.
Proof.
  intros R Ew Hn Hc Hm Ecmd. cbv zeta. rewrite open_mapped_start, Ew. cbn [mbind res_bind].
  destruct (open_kernel adr v _ g R Hn Hc) as [->|(r & o & cfg & g1 & -> & (S1 & S2 & S3) & El & Ho)]; [by left|right].
  cbn [mbind res_bind]. destruct Ho as [(-> & -> & v' & Hs)|(Hr & -> & v' & R' & Hi & Hd)].
  - rewrite S2, store32_ok by done. cbn [mbind res_bind mret res_ret Z.eqb OTZ_OK negb]. unfold upd_cmd.
    cbn [gcmds set_gmem]. rewrite S3, Ecmd. cbn [of_opt mbind res_bind mret res_ret].
    eexists _, _. split; [reflexivity|]. split; [done|]. left. split; [done|]. split; [by exists v'|].
    pose proof (rel_ids _ _ _ R) as [_ Hnx]. split; [|done]. cbn [gmem set_gcmds set_gmem].
    by rewrite u32_id by (destruct Hc as (_ & ? & _); unfold in_u32; lia).
  - cbn [mbind res_bind mret res_ret]. rewrite (proj2 (Z.eqb_neq _ _) Hr). cbn [negb]. rewrite S2, Ew.
    cbn [mbind res_bind mret res_ret].
    destruct (destroy_native adr v' (s32 w) (Task.data cfg) (elf_flag cfg) g1 R' Hn) as (r2 & g2 & -> & (T1 & T2 & T3) & h & Ek & R2);
      [by rewrite El|done|].
    cbn [mbind res_bind mret res_ret]. unfold upd_cmd. rewrite T3, S3, Ecmd. cbn [of_opt mbind res_bind mret res_ret].
    eexists _, _. split; [reflexivity|]. split; [cbn; by rewrite T1|]. right. split; [done|].
    split; [by exists v'|]. split; [cbn; by rewrite T2|done].
Qed.

(** A request that could not be carried out: only mappings were made, and
    undone. *)
Definition refused (r0 : Z) (g : gst H P) (r : Z) (g' : gst H P) : Prop := r = r0 /\ exists p, g' = set_gns p g.

Lemma ret_refused n l r a b c (g g0 : gst H P) p0 : ns_ok n (nonnull [a; b; c] ++ l) (gns g) -> g = set_gns p0 g0 ->
  exists g', ret_unmap r a b c g = Ret (r, g') /\ ns_ok n l (gns g') /\ refused r g0 r g'.
Proof.
  intros Hok ->. destruct (ret_unmap_ok _ _ r _ _ _ _ Hok) as (p & -> & Hp).
  eexists. split; [reflexivity|]. split; [exact Hp|]. split; [done|]. by exists p.
Qed.

Lemma ns_ok_weaken n m l (p : P) : ns_ok m l p -> (n <= m)%nat -> ns_ok n l p.
Proof. intros Hp Hle. induction Hle as [|m Hle IH]; [done|]. by apply IH, ns_ok_le. Qed.

Lemma nonnull_cons a l : a <> 0 -> nonnull (a :: l) = a :: nonnull l.
Proof. intros Ha. cbn [nonnull]. by rewrite (proj2 (Z.eqb_neq _ _) Ha). Qed.

Lemma nonnull_0 l : nonnull (0 :: l) = nonnull l.
Proof. done. Qed.

Lemma open_session_ok adr v n l a c w (g : gst H P) :
  sched_rel adr (gk g) v -> ns_ok (S (S (S n))) l (gns g) -> can_create (gk g) v ->
  ns_addr a -> ns_addr (sc_resp_buf_phys c) -> ns_addr (sc_req_buf_phys c) ->
  gcmds g !! a = Some c -> load32 (sc_req_buf_phys c) (gmem g) = Ret w -> native (s32 w) \/ s32 w = OTZ_SVC_INVALID ->
  mapped (sc_resp_buf_phys c) 4 (gmem g) ->
  let open := open_session_from_ns fn elf_load elf_loader_cleanup junk_cfg junk junk_tls a g in
  open = Panic \/
  exists r g', open = Ret (r, g') /\ ns_ok n l (gns g') /\
    (refused OTZ_ENOMEM g r g' \/
     (sc_resp_buf_len c = 0 \/ s32 w = OTZ_SVC_INVALID) /\ refused OTZ_EFAIL g r g' \/
     sc_resp_buf_len c <> 0 /\ native (s32 w) /\ open_outcome adr (s32 w) (sc_resp_buf_phys c) a c g v r g').
Proof.
  intros R Hok Hc Ha Hb Hq Ec Ew Hw Hm. cbv zeta. unfold open_session_from_ns.
  pose proof (ns_addr_nonzero _ Ha) as Za. pose proof (ns_addr_nonzero _ Hb) as Zb. pose proof (ns_addr_nonzero _ Hq) as Zq.
  destruct (g_map_ok _ _ _ _ Hok Ha) as [(p & -> & Hp)|(r & p & -> & Hr & Hp)]; cbn [mbind res_bind].
  2:{ rewrite Hr. cbn [negb]. right. destruct (ret_refused (S (S n)) l OTZ_ENOMEM 0 0 0 (set_gns p g) g p Hp eq_refl) as (g' & -> & Hg & Hf).
      eexists _, _. split; [reflexivity|]. split; [eapply ns_ok_weaken; [exact Hg|lia]|by left]. }
  rewrite Z.eqb_refl. cbn [negb gcmds set_gns]. rewrite Ec. cbn [of_opt mbind res_bind].
  destruct (Z.eqb_spec (sc_resp_buf_len c) 0) as [Hlen|Hlen].
  { right. destruct (ret_refused (S (S n)) l OTZ_EFAIL 0 0 a (set_gns p g) g p) as (g' & -> & Hg & Hf);
      [by rewrite ?nonnull_0, !nonnull_cons by done|done|].
    eexists _, _. split; [reflexivity|]. split; [eapply ns_ok_weaken; [exact Hg|lia]|]. right. left. by split; [left|]. }
  destruct (g_map_ok _ _ _ (set_gns p g) Hp Hb) as [(p1 & -> & Hp1)|(r & p1 & -> & Hr & Hp1)]; cbn [mbind res_bind].
  2:{ rewrite Hr. cbn [negb]. right.
      destruct (ret_refused (S n) l OTZ_ENOMEM 0 0 a (set_gns p1 (set_gns p g)) g p1) as (g' & -> & Hg & Hf);
        [by rewrite ?nonnull_0, !nonnull_cons by done|done|].
      eexists _, _. split; [reflexivity|]. split; [eapply ns_ok_weaken; [exact Hg|lia]|by left]. }
  rewrite Z.eqb_refl. cbn [negb].
  destruct (g_map_ok _ _ _ (set_gns p1 (set_gns p g)) Hp1 Hq) as [(p2 & -> & Hp2)|(r & p2 & -> & Hr & Hp2)]; cbn [mbind res_bind].
  2:{ rewrite Hr. cbn [negb]. right.
      destruct (ret_refused n l OTZ_ENOMEM 0 (sc_resp_buf_phys c) a (set_gns p2 (set_gns p1 (set_gns p g))) g p2) as (g' & -> & Hg & Hf);
        [by rewrite ?nonnull_0, !nonnull_cons by done|done|].
      eexists _, _. split; [reflexivity|]. split; [exact Hg|by left]. }
  rewrite Z.eqb_refl. cbn [negb gmem set_gns]. rewrite Ew. cbn [mbind res_bind].
  set (g3 := set_gns p2 _). assert (Hn3 : ns_ok n (nonnull [sc_req_buf_phys c; sc_resp_buf_phys c; a] ++ l) (gns g3))
    by (by rewrite !nonnull_cons by done).
  destruct (Z.eqb_spec (s32 w) OTZ_SVC_INVALID) as [Hz|Hz].
  { right. destruct (ret_refused n l OTZ_EFAIL _ _ _ g3 g p2 Hn3 eq_refl) as (g' & -> & Hg & Hf).
    eexists _, _. split; [reflexivity|]. split; [exact Hg|]. right. left. by split; [right|]. }
  destruct Hw as [Hw|Hw]; [|done].
  destruct (open_mapped_ok adr v w (sc_req_buf_phys c) (sc_resp_buf_phys c) a c g3 R Ew Hw Hc Hm Ec)
    as [->|(r & g4 & -> & En & Ho)]; [by left|right]. cbn [mbind res_bind].
  rewrite <-En in Hn3. destruct (ret_unmap_ok _ _ r _ _ _ _ Hn3) as (p5 & -> & Hp5).
  eexists _, _. split; [reflexivity|]. split; [exact Hp5|]. right. right. done.
Qed.

(** ** Closing *)

(** The session's private data is not part of its task, and nothing of it was
    loaded from a file. *)
Definition plain_session (adr : Z -> Z) (k : kst H) (v : vk) (i : Z) : Prop :=
  forall t tl, tasks k !! adr i = Some t -> tlss k !! tls t = Some tl ->
    tls_elf_flag tl <> ELF_FLAG_MAP /\ private_data tl ∉ owned adr k v.

Lemma close_mapped_ok adr v svc w ctx cmd c (g : gst H P) :
  sched_rel adr (gk g) v -> native svc -> load32 ctx (gmem g) = Ret w -> u32 (s32 w) ∈ ids v ->
  plain_session adr (gk g) v (u32 (s32 w)) -> gcmds g !! cmd = Some c ->
  exists g', close_mapped elf_loader_cleanup svc ctx cmd g = Ret g' /\ gns g' = gns g /\ gmem g' = gmem g /\
    gcmds g' = <[cmd := set_cmd_status OTZ_STATUS_COMPLETE c]> (gcmds g) /\
    sched_rel adr (gk g') (v_destroy (u32 (s32 w)) v).
Proof.
  intros R Hn Ew Hi Hp Ec. unfold close_mapped. rewrite Ew. cbn [mbind res_bind].
  destruct (rel_task_at _ _ _ _ R Hi) as (t & Et & Ht). destruct (tr_tls _ _ _ _ Ht) as [tl Etl].
  destruct (Hp t tl Et Etl) as [Hfl Hpd].
  unfold get_task_tls. rewrite (find_task_rel _ _ _ _ R), decide_True by done.
  cbn [mbind res_bind]. rewrite Et. cbn [of_opt mbind res_bind mret res_ret]. rewrite Etl. cbn [of_opt mbind res_bind].
  destruct (destroy_native adr v svc (private_data tl) (tls_elf_flag tl) g R Hn Hfl Hpd) as (r & g1 & -> & (S1 & S2 & S3) & h & Ek & R1).
  cbn [mbind res_bind]. rewrite S2, Ew. cbn [mbind res_bind]. unfold sa_close_session.
  destruct (destroy_task_rel adr _ v (s32 w) R1) as (r2 & k2 & -> & R2 & _).
  cbn [mbind res_bind mret res_ret]. unfold upd_cmd. cbn [gcmds set_gk]. rewrite S3, Ec.
  cbn [of_opt mbind res_bind mret res_ret]. eexists. split; [reflexivity|]. by split_and!.
Qed.

(** Without the session its local storage is a null pointer. *)
Lemma close_mapped_unknown adr v svc w ctx cmd (g : gst H P) :
  sched_rel adr (gk g) v -> load32 ctx (gmem g) = Ret w -> u32 (s32 w) ∉ ids v -> tlss (gk g) !! 0 = None ->
  close_mapped elf_loader_cleanup svc ctx cmd g = Fault.
Proof.
  intros R Ew Hi Ht. unfold close_mapped. rewrite Ew. cbn [mbind res_bind]. unfold get_task_tls.
  rewrite (find_task_rel _ _ _ _ R), decide_False by done. cbn [mbind res_bind mret res_ret]. by rewrite Ht.
Qed.

(** The two ends of [close_session_from_ns]: refused, or at [close_mapped] with
    the three structures mapped. *)
Lemma close_session_cases junk_ret n l a c w (g : gst H P) :
  ns_ok (S (S (S n))) l (gns g) -> ns_addr a -> ns_addr (sc_resp_buf_phys c) -> ns_addr (sc_req_buf_phys c) ->
  gcmds g !! a = Some c -> load32 (sc_req_buf_phys c) (gmem g) = Ret w ->
  let close := close_session_from_ns elf_loader_cleanup junk_ret a g in
  (exists r g', close = Ret (r, g') /\ ns_ok n l (gns g') /\
     (refused OTZ_ENOMEM g r g' \/ sc_req_buf_len c = 0 /\ refused OTZ_EFAIL g r g')) \/
  sc_req_buf_len c <> 0 /\ exists p, close = (g ← close_mapped elf_loader_cleanup (s32 w) (sc_resp_buf_phys c) a (set_gns p g);
                      ret_unmap junk_ret (sc_req_buf_phys c) (sc_resp_buf_phys c) a g) /\
    ns_ok n (nonnull [sc_req_buf_phys c; sc_resp_buf_phys c; a] ++ l) p.
Proof.
  intros Hok Ha Hb Hq Ec Ew. cbv zeta. unfold close_session_from_ns.
  pose proof (ns_addr_nonzero _ Ha) as Za. pose proof (ns_addr_nonzero _ Hb) as Zb. pose proof (ns_addr_nonzero _ Hq) as Zq.
  destruct (g_map_ok _ _ _ _ Hok Ha) as [(p & -> & Hp)|(r & p & -> & Hr & Hp)]; cbn [mbind res_bind].
  2:{ rewrite Hr. cbn [negb]. left. destruct (ret_refused (S (S n)) l OTZ_ENOMEM 0 0 0 (set_gns p g) g p Hp eq_refl) as (g' & -> & Hg & Hf).
      eexists _, _. split; [reflexivity|]. split; [eapply ns_ok_weaken; [exact Hg|lia]|by left]. }
  rewrite Z.eqb_refl. cbn [negb gcmds set_gns]. rewrite Ec. cbn [of_opt mbind res_bind].
  destruct (Z.eqb_spec (sc_req_buf_len c) 0) as [Hlen|Hlen].
  { left. destruct (ret_refused (S (S n)) l OTZ_EFAIL 0 0 a (set_gns p g) g p) as (g' & -> & Hg & Hf);
      [by rewrite ?nonnull_0, !nonnull_cons by done|done|].
    eexists _, _. split; [reflexivity|]. split; [eapply ns_ok_weaken; [exact Hg|lia]|]. by right. }
  destruct (g_map_ok _ _ _ (set_gns p g) Hp Hq) as [(p1 & -> & Hp1)|(r & p1 & -> & Hr & Hp1)]; cbn [mbind res_bind].
  2:{ rewrite Hr. cbn [negb]. left.
      destruct (ret_refused (S n) l OTZ_ENOMEM 0 0 a (set_gns p1 (set_gns p g)) g p1) as (g' & -> & Hg & Hf);
        [by rewrite ?nonnull_0, !nonnull_cons by done|done|].
      eexists _, _. split; [reflexivity|]. split; [eapply ns_ok_weaken; [exact Hg|lia]|by left]. }
  rewrite Z.eqb_refl. cbn [negb].
  destruct (g_map_ok _ _ _ (set_gns p1 (set_gns p g)) Hp1 Hb) as [(p2 & -> & Hp2)|(r & p2 & -> & Hr & Hp2)]; cbn [mbind res_bind].
  2:{ rewrite Hr. cbn [negb]. left.
      destruct (ret_unmap_ok n l OTZ_ENOMEM (sc_req_buf_phys c) 0 a (set_gns p2 (set_gns p1 (set_gns p g)))) as (p3 & -> & Hp3).
      { cbn [nonnull Z.eqb]. rewrite (proj2 (Z.eqb_neq _ _) Zq), (proj2 (Z.eqb_neq _ _) Za). exact Hp2. }
      eexists _, _. split; [reflexivity|]. split; [exact Hp3|]. left. split; [done|]. by exists p3. }
  rewrite Z.eqb_refl. cbn [negb gmem set_gns]. rewrite Ew. cbn [mbind res_bind]. right. split; [done|].
  exists p2. split; [done|]. rewrite !nonnull_cons by done. cbn [app nonnull]. eapply ns_ok_perm; [|exact Hp2]. apply perm_swap.
Qed.


Definition close_outcome (adr : Z -> Z) (i a : Z) (c : otz_smc_cmd) (g : gst H P) (v : vk) (g' : gst H P) : Prop :=
  sched_rel adr (gk g') (v_destroy i v) /\ gmem g' = gmem g /\
  gcmds g' = <[a := set_cmd_status OTZ_STATUS_COMPLETE c]> (gcmds g).

Lemma close_session_ok adr v junk_ret n l a c w i (g : gst H P) :
  sched_rel adr (gk g) v -> ns_ok (S (S (S n))) l (gns g) ->
  ns_addr a -> ns_addr (sc_resp_buf_phys c) -> ns_addr (sc_req_buf_phys c) ->
  gcmds g !! a = Some c -> load32 (sc_req_buf_phys c) (gmem g) = Ret w -> native (s32 w) ->
  load32 (sc_resp_buf_phys c) (gmem g) = Ret i -> in_u32 i -> i ∈ ids v -> plain_session adr (gk g) v i ->
  exists r g', close_session_from_ns elf_loader_cleanup junk_ret a g = Ret (r, g') /\ ns_ok n l (gns g') /\
    (refused OTZ_ENOMEM g r g' \/ sc_req_buf_len c = 0 /\ refused OTZ_EFAIL g r g' \/
     sc_req_buf_len c <> 0 /\ r = junk_ret /\ close_outcome adr i a c g v g').
Proof.
  intros R Hok Ha Hb Hq Ec Ew Hn Ei Hi Hin Hp.
  assert (Eu : u32 (s32 i) = i) by (by rewrite u32_s32, u32_id).
  destruct (close_session_cases junk_ret n l a c w g) as [(r & g' & -> & Hg & Hr)|(Hlen & p & -> & Hns)]; try done.
  { exists r, g'. split; [done|]. split; [done|]. destruct Hr as [?|?]; [by left|by right; left]. }
  destruct (close_mapped_ok adr v (s32 w) i (sc_resp_buf_phys c) a c (set_gns p g)) as (g1 & -> & S1 & S2 & S3 & R1);
    [done|done|done|by rewrite Eu|by rewrite Eu|done|]. cbn [mbind res_bind].
  rewrite Eu in R1. cbn [gns set_gns] in S1. rewrite <-S1 in Hns.
  destruct (ret_unmap_ok n l junk_ret _ _ _ _ Hns) as (p2 & -> & Hp2).
  eexists _, _. split; [reflexivity|]. split; [exact Hp2|]. right. right. by split_and!.
Qed.

(** C7: closing a session.  For a session that exists the handler returns,
    mappings as before; unless it refuses, the session's task is gone, nothing
    else changed, and the command is complete.  For a session that does not
    exist, unless it refuses, it reads the private data of a null pointer. *)
Theorem close_session_correct adr v junk_ret n l a c w i (g : gst H P)
    (Hrel : sched_rel adr (gk g) v) (Hns : ns_ok (S (S (S n))) l (gns g)) (Hnull : tlss (gk g) !! 0 = None)
    (Ha : ns_addr a) (Hresp : ns_addr (sc_resp_buf_phys c)) (Hreq : ns_addr (sc_req_buf_phys c))
    (Hcmd : gcmds g !! a = Some c) (Hw : load32 (sc_req_buf_phys c) (gmem g) = Ret w) (Hsvc : native (s32 w))
    (Hi : load32 (sc_resp_buf_phys c) (gmem g) = Ret i) (Hu : in_u32 i)
    (Hplain : i ∈ ids v -> plain_session adr (gk g) v i) :
  let close := close_session_from_ns elf_loader_cleanup junk_ret a g in
  (i ∉ ids v /\ close = Fault) \/
  exists r g', close = Ret (r, g') /\ ns_ok n l (gns g') /\
    (refused OTZ_ENOMEM g r g' \/ sc_req_buf_len c = 0 /\ refused OTZ_EFAIL g r g' \/
     i ∈ ids v /\ sc_req_buf_len c <> 0 /\ r = junk_ret /\ close_outcome adr i a c g v g').
Proof.
  cbv zeta. destruct (decide (i ∈ ids v)) as [Hin|Hin].
  - right. destruct (close_session_ok adr v junk_ret n l a c w i g) as (r & g' & E & Hg & Hr); try done; [by apply Hplain|].
    exists r, g'. split; [done|]. split; [done|]. destruct Hr as [?|[?|?]]; [by left|by right; left|by right; right].
  - destruct (close_session_cases junk_ret n l a c w g) as [(r & g' & -> & Hg & Hr)|(Hlen & p & -> & _)]; try done; [right|left].
    + exists r, g'. split; [done|]. split; [done|]. destruct Hr as [?|?]; [by left|by right; left].
    + split; [done|]. rewrite (close_mapped_unknown adr v (s32 w) i); [done|done|exact Hi|by rewrite u32_s32, u32_id|done].
Qed.

Lemma opened_plain svc k v k' v' : session_opened svc k v k' v' ->
  exists adr', sched_rel adr' k' v' /\ ids v' = ids v ++ [nxt v] /\ plain_session adr' k' v' (nxt v).
Proof.
  intros (adr' & p & R & Hi & (t & l & Et & _ & _ & _ & _ & El & Hp & Hf & _) & _ & _ & Ho).
  exists adr'. split; [done|]. split; [done|]. intros t' l' Et' El'. simplify_eq.
  assert (Hc : elf_flag (svc_cfg svc p) = 0 /\ Task.data (svc_cfg svc p) = p)
    by (unfold svc_cfg; by repeat case_match).
  rewrite Hf, Hp. destruct Hc as [-> ->]. done.
Qed.

(** C8: a session that was opened can be closed: if the request to open
    succeeded, a request to close with the same buffers that is not refused
    leaves the tasks that were there before, in their order, and nothing in
    the normal world's memory but the identifier. *)
Theorem session_roundtrip adr v n l a c a2 c2 w junk_ret (g g1 : gst H P)
    (Hrel : sched_rel adr (gk g) v) (Hns : ns_ok (S (S (S n))) l (gns g)) (Hcan : can_create (gk g) v)
    (Ha : ns_addr a) (Ha2 : ns_addr a2) (Hresp : ns_addr (sc_resp_buf_phys c)) (Hreq : ns_addr (sc_req_buf_phys c))
    (Hcmd : gcmds g !! a = Some c) (Hcmd2 : gcmds g !! a2 = Some c2) (Haa : a2 <> a)
    (Hbufs : sc_resp_buf_phys c2 = sc_resp_buf_phys c /\ sc_req_buf_phys c2 = sc_req_buf_phys c)
    (Hapart : sc_req_buf_phys c + 4 <= sc_resp_buf_phys c \/ sc_resp_buf_phys c + 4 <= sc_req_buf_phys c)
    (Hw : load32 (sc_req_buf_phys c) (gmem g) = Ret w)
    (Hsvc : native (s32 w)) (Hm : mapped (sc_resp_buf_phys c) 4 (gmem g))
    (Hopen : open_session_from_ns fn elf_load elf_loader_cleanup junk_cfg junk junk_tls a g = Ret (OTZ_OK, g1))
    (Hns1 : ns_ok (S (S (S n))) l (gns g1)) :
  exists r g2, close_session_from_ns elf_loader_cleanup junk_ret a2 g1 = Ret (r, g2) /\ ns_ok n l (gns g2) /\
    (refused OTZ_ENOMEM g1 r g2 \/ sc_req_buf_len c2 = 0 /\ refused OTZ_EFAIL g1 r g2 \/
     sc_req_buf_len c2 <> 0 /\ gmem g2 = write_bytes (sc_resp_buf_phys c) (le32 (nxt v)) (gmem g) /\
     exists adr' v', sched_rel adr' (gk g2) v' /\ ids v' = ids v).
Proof.
  assert (Hnx : in_u32 (nxt v)).
  { destruct (rel_ids _ _ _ Hrel) as [_ ?], Hcan as (_ & ? & _). unfold in_u32. lia. }
  destruct (open_session_ok adr v n l a c w g) as [E|(r & g' & E & _ & Hr)]; try done; [by left|congruence|].
  rewrite Hopen in E. injection E as <- <-.
  destruct Hr as [[? _]|[(_ & ? & _)|(_ & _ & [(_ & (v' & Hs) & Em & Ec)|(? & _)])]]; [done..| |done].
  destruct (opened_plain _ _ _ _ _ Hs) as (adr' & R' & Hi & Hp). destruct Hbufs as [B1 B2].
  destruct (close_session_ok adr' v' junk_ret n l a2 c2 w (nxt v) g1) as (r & g2 & E2 & Hg & Hr2);
    rewrite ?B1, ?B2, ?Ec, ?Em; try done.
  - by rewrite lookup_insert_ne by done.
  - by rewrite load32_write.
  - apply load32_le32; [done|]. apply (read_bytes_write_same (le32 (nxt v))).
  - rewrite Hi. set_solver.
  - exists r, g2. split; [done|]. split; [done|].
    destruct Hr2 as [?|[?|(Hl & _ & R2 & Hm2 & _)]]; [by left|by right; left|]. right. right. split; [done|].
    split; [by rewrite Hm2|]. exists adr', (v_destroy (nxt v) v'). split; [done|].
    unfold v_destroy. rewrite decide_True by (rewrite Hi; set_solver). cbn [ids].
    rewrite Hi, filter_remove, app_nil_r; [done|]. rewrite <-Hi. by apply (ids_nodup adr' (gk g1)).
Qed.
End spec.

(** ** Witnesses

    The kernel after boot, an empty page table, and two commands of the normal
    world with the same buffers: an [int] with the echo service, and one for the
    session. *)
#[local] Instance demo_ns : NsMemory (pt_state (H := bump_heap)) := pt_NsMemory false 0 bump_heap.

Lemma demo_max : sizeof_sw_page_ref <= heap_max (H := bump_heap).
Proof. by compute. Qed.

#[local] Instance demo_counts : NsCounts (pt_state (H := bump_heap)) := pt_NsCounts false 0 ∅ demo_max.

Definition demo_cmd (context : Z) : otz_smc_cmd :=
  SmcCmd 0 context 0 0 0 4 4 0 0 0x80001000 0x80001010 0 0.

Definition demo_g : gst bump_heap (pt_state (H := bump_heap)) :=
  Gst demo0 (PtState ∅ [] (BumpHeap 0x1000 0x2000 ∅)) (write_bytes 0x80001000 (le32 OTZ_SVC_ECHO) (write_bytes 0x80001010 (le32 0) ∅))
    {[0x80000000 := demo_cmd 0; 0x80000100 := demo_cmd 0]} ∅ ∅ ∅ [] 0 0 0 0 ∅ ∅ [].

Definition demo_fn (f : fname) : Z := 0x8000.
Definition demo_load (c : sa_config_t) (g : gst bump_heap (pt_state (H := bump_heap))) :
  res (Z * sa_config_t * gst bump_heap (pt_state (H := bump_heap))) := Fault.
Definition demo_cleanup (g : gst bump_heap (pt_state (H := bump_heap))) :
  res (gst bump_heap (pt_state (H := bump_heap))) := Fault.

Definition demo_opened : gst bump_heap (pt_state (H := bump_heap)) :=
  match open_session_from_ns demo_fn demo_load demo_cleanup (demo_cfg 0) junk_task junk_tls0 0x80000000 demo_g with
  | Ret (_, g) => g | _ => demo_g
  end.

Lemma Ret_pair {A B} (a c : A) (b d : B) : Ret (a, b) = Ret (c, d) -> c = a /\ d = b.
Proof. by intros [= -> ->]. Qed.

Lemma demo_rel0 : sched_rel (fun x => x) (gk demo_g) (v_boot true).
Proof.
  apply (global_init_rel _ cold); [|by vm_compute]. split; [by compute|].
  intros p Hp. by apply not_elem_of_empty in Hp.
Qed.

Lemma demo_ok n : (n < 200)%nat -> ns_ok n [] (gns demo_g).
Proof.
  intros Hn. split; [|split].
  - split; cbn; try done; [constructor|set_solver].
  - split; [done|]. cbn. unfold sizeof_sw_page_ref. lia.
  - cbn. lia.
Qed.

Lemma demo_can : can_create junk_task (gk demo_g) (v_boot true).
Proof.
  split; [by intros Hx; vm_compute in Hx|]. split; [by vm_compute|]. split; [by vm_compute|].
  split; [apply not_elem_of_empty|]. by vm_compute.
Qed.

Lemma demo_addr a : in_u32 a -> a <> 0 -> ns_addr a.
Proof. intros Ha Hz. by split_and!. Qed.

Lemma demo_open :
  open_session_from_ns demo_fn demo_load demo_cleanup (demo_cfg 0) junk_task junk_tls0 0x80000000 demo_g
  = Ret (OTZ_OK, demo_opened).
Proof. by vm_compute. Qed.

Lemma demo_mapped : mapped 0x80001010 4 (gmem demo_g).
Proof. apply mapped_write, mapped_range; cbn; lia. Qed.


Lemma demo_opened_ok : ns_ok 3 [] (gns demo_opened) /\ exists v', session_opened demo_fn OTZ_SVC_ECHO demo0 (v_boot true) (gk demo_opened) v'.
Proof.
  destruct (open_session_ok demo_fn demo_load demo_cleanup (demo_cfg 0) junk_task junk_tls0
    (fun x => x) (v_boot true) 3 [] 0x80000000 (demo_cmd 0) OTZ_SVC_ECHO demo_g demo_rel0 (demo_ok 6 ltac:(lia)) demo_can)
    as [E|(r & g' & E & Hg & Hr)]; try by apply demo_addr.
  - by vm_compute.
  - by vm_compute.
  - left. by left.
  - exact demo_mapped.
  - by rewrite demo_open in E.
  - rewrite demo_open in E. destruct (Ret_pair _ _ _ _ E) as [-> ->]. split; [exact Hg|]. clear E Hg.
    by destruct Hr as [[? _]|[(_ & ? & _)|(_ & _ & [(_ & Hs & _)|(? & _)])]].
Qed.

Lemma close_session_correct_witness :
  exists r g', close_session_from_ns demo_cleanup 7 0x80000100 demo_opened = Ret (r, g') /\ ns_ok 0 [] (gns g').
Proof.
  destruct demo_opened_ok as [Hok [v' Hs]].
  destruct (opened_plain demo_fn _ _ _ _ _ Hs) as (adr' & R & Hi & Hp).
  destruct (close_session_correct demo_cleanup adr' v' 7 0 [] 0x80000100 (demo_cmd 0) OTZ_SVC_ECHO TASK_ID_START demo_opened)
    as [[Hn _]|(r & g' & E & Hg & _)].
  - exact R.
  - exact Hok.
  - by vm_compute.
  - by apply demo_addr.
  - by apply demo_addr.
  - by apply demo_addr.
  - by vm_compute.
  - by vm_compute.
  - by left.
  - by vm_compute.
  - done.
  - intros _. exact Hp.
  - destruct Hn. rewrite Hi. by left.
  - exists r, g'. split; [exact E|exact Hg].
Defined.

Lemma session_roundtrip_witness :
  exists r g2, close_session_from_ns demo_cleanup 7 0x80000100 demo_opened = Ret (r, g2) /\ ns_ok 0 [] (gns g2).
Proof.
  destruct (session_roundtrip demo_fn demo_load demo_cleanup (demo_cfg 0) junk_task junk_tls0
    (fun x => x) (v_boot true) 0 [] 0x80000000 (demo_cmd 0) 0x80000100 (demo_cmd 0) OTZ_SVC_ECHO 7 demo_g demo_opened)
    as (r & g2 & E & Hg & _).
  - exact demo_rel0.
  - apply demo_ok. lia.
  - exact demo_can.
  - by apply demo_addr.
  - by apply demo_addr.
  - by apply demo_addr.
  - by apply demo_addr.
  - by vm_compute.
  - by vm_compute.
  - done.
  - done.
  - left. cbn. lia.
  - by vm_compute.
  - by left.
  - exact demo_mapped.
  - exact demo_open.
  - apply demo_opened_ok.
  - exists r, g2. split; [exact E|exact Hg].
Defined.

(** ** A heap that records what is freed

    Every allocation but that of a stack succeeds. *)
Record trace_heap : Type := TraceHeap { th_next : Z; th_frees : list Z }.

#[export] Instance trace_PrivateHeap : PrivateHeap trace_heap := {
  heap_malloc hid size h := if size =? TASK_STACK_SIZE then mret (0, h) else mret (th_next h, TraceHeap (th_next h + 1) (th_frees h));
  heap_free hid p h := mret (TraceHeap (th_next h) (p :: th_frees h));
  heap_alloc_private hid h := (0, h);
  heap_free_private hid h := (0, h);
}.

Lemma trace_malloc hid size q fr (s : kst trace_heap) : kheap s = TraceHeap q fr -> size <> TASK_STACK_SIZE ->
  k_malloc hid size s = Ret (q, set_kheap (TraceHeap (q + 1) fr) s).
Proof. intros E Hs. unfold k_malloc. rewrite E. cbn. by rewrite (proj2 (Z.eqb_neq _ _) Hs). Qed.

Lemma trace_malloc_stack hid q fr (s : kst trace_heap) : kheap s = TraceHeap q fr ->
  k_malloc hid TASK_STACK_SIZE s = Ret (0, set_kheap (TraceHeap q fr) s).
Proof. intros E. unfold k_malloc. by rewrite E. Qed.

Lemma trace_free hid x q fr (s : kst trace_heap) : kheap s = TraceHeap q fr ->
  k_free hid x s = Ret (set_kheap (TraceHeap q (x :: fr)) s).
Proof. intros E. unfold k_free. by rewrite E. Qed.

(** When the stack of a new session's task cannot be allocated, the private
    data of the service is freed twice, by [create_task] and by the exit
    function of the service. *)
Theorem failed_open_frees_twice {P} (N : NsMemory P) fn elf_load elf_loader_cleanup junk_cfg junk junk_tls
    (g : gst trace_heap P) p frees
    (Hmode : exec_mode (gk g) <> 1) (Hheap : kheap (gk g) = TraceHeap p frees) (Hp : 0 < p) :
  exists g', open_session_from_secure fn elf_load elf_loader_cleanup junk_cfg junk junk_tls OTZ_SVC_ECHO g
      = Ret (OTZ_ENOMEM, None, g') /\
    th_frees (kheap (gk g')) = p :: (p + 1) :: (p + 2) :: p :: frees.
Proof.
  unfold open_session_from_secure, sa_create_entry_point, load_entry, echo_task_init, g_malloc.
  change (OTZ_SVC_ECHO =? OTZ_SVC_INVALID) with false. rewrite Z.eqb_refl. cbv iota.
  rewrite (trace_malloc _ sizeof_echo_global p frees) by done. cbn [mbind res_bind mret res_ret].
  rewrite (proj2 (Z.eqb_neq p 0)) by lia. cbn [mbind res_bind mret res_ret negb Z.eqb OTZ_OK elf_flag ELF_FLAG].
  unfold sa_open_session, create_task, create_denied. cbn [gk set_gdata set_gk exec_mode set_kheap].
  rewrite (proj2 (Z.eqb_neq _ _) Hmode). cbn [mbind res_bind mret res_ret].
  cbn [heap_alloc_private trace_PrivateHeap]. cbn [Z.eqb].
  rewrite (trace_malloc _ sizeof_sw_task (p + 1) frees) by done. cbn [mbind res_bind mret res_ret].
  rewrite (proj2 (Z.eqb_neq (p + 1) 0)) by lia.
  rewrite (trace_malloc _ sizeof_sw_tls (p + 1 + 1) frees) by done. cbn [mbind res_bind mret res_ret].
  rewrite (proj2 (Z.eqb_neq (p + 1 + 1) 0)) by lia. cbn [stack_size].
  rewrite (trace_malloc_stack _ (p + 1 + 1 + 1) frees) by done. cbn [mbind res_bind mret res_ret Z.eqb].
  unfold create_task_err. cbn [Task.data service_name].
  rewrite (proj2 (Z.eqb_neq p 0)) by lia.
  rewrite bool_decide_eq_false_2 by done.
  rewrite (trace_free _ p (p + 1 + 1 + 1) frees) by done. cbn [mbind res_bind mret res_ret].
  rewrite (proj2 (Z.eqb_neq (p + 1 + 1) 0)) by lia.
  rewrite (trace_free _ (p + 1 + 1) (p + 1 + 1 + 1) (p :: frees)) by done. cbn [mbind res_bind mret res_ret Z.eqb].
  rewrite (trace_free _ (p + 1) (p + 1 + 1 + 1) (p + 1 + 1 :: p :: frees)) by done.
  cbn [mbind res_bind mret res_ret Z.eqb OTZ_OK OTZ_ENOMEM].
  unfold sa_destroy_entry_point, echo_task_exit, task_exit, g_free. cbn [Task.data elf_flag Z.eqb ELF_FLAG_MAP mbind res_bind mret res_ret].
  rewrite Z.eqb_refl, (proj2 (Z.eqb_neq p 0)) by lia.
  rewrite (trace_free _ p (p + 1 + 1 + 1) (p + 1 :: p + 1 + 1 :: p :: frees)) by done.
  cbn [mbind res_bind mret res_ret]. eexists. split; [reflexivity|]. cbn. by replace (p + 1 + 1) with (p + 2) by lia.
Qed.

Lemma failed_open_frees_twice_witness :
  exists g', open_session_from_secure (P := pt_state (H := bump_heap)) demo_fn (fun _ _ => Fault) (fun _ => Fault) (demo_cfg 0) junk_task junk_tls0 OTZ_SVC_ECHO
      (Gst (Kst empty_lheap ∅ ∅ ∅ ∅ (TraceHeap 100 []) ctx0 true 0 0 0 []) (gns demo_g) ∅ ∅ ∅ ∅ ∅ [] 0 0 0 0 ∅ ∅ [])
      = Ret (OTZ_ENOMEM, None, g') /\ th_frees (kheap (gk g')) = [100; 101; 102; 100].
Proof. by apply (failed_open_frees_twice demo_ns demo_fn). Defined.
