(* ===== verification/Dispatch.v ===== *)
(** The dispatcher task ([apps/dispatcher_task.c]) and the controller that runs
    a command in the task of its service ([apps/task_control.c]). *)
From stdpp Require Import prelude gmap strings.
From S2P Require Import Prelude HeapIface MemFn Words Acl Task Wait Encode Driver Service.
#[local] Open Scope Z_scope.

Definition OTZ_GLOBAL_CMD_ID_INVALID : Z := 0.
Definition OTZ_GLOBAL_CMD_ID_BOOT_ACK : Z := 1.
Definition SMC_ENOMEM : Z := 7.
Definition SMC_EOPNOTSUPP : Z := 6.
Definition SMC_EINVAL_ARG : Z := 4.
Definition SMC_ERROR : Z := 3.

Section dispatch.
Context {H P : Type} `{PrivateHeap H} `{NsMemory P}.
Context (fn : fname -> Z).
Context (elf_load : sa_config_t -> gst H P -> res (Z * sa_config_t * gst H P)).
Context (elf_loader_cleanup : gst H P -> res (gst H P)).
Context (junk_cfg : sa_config_t) (junk : sw_task) (junk_tls : sw_tls) (junk_ret : Z).

(** The wake functions of [Wait], and what the other tasks do from a call of
    the scheduler until the dispatcher is resumed. *)
Context (wake_fun : Z -> Z -> Z -> kst H -> res (kst H)).
Context (resumed : gst H P -> res (gst H P)).

(** The service, the task, the command and the kind of the call. *)
Record api_context : Type := ApiContext { ac_svc : Z; ac_task : Z; ac_cmd : Z; ac_type : Z }.

Definition get_api_context (g : gst H P) : res (api_context * gst H P) :=
  cmd_type ← of_opt (params_stack g !! 2%nat);
  a ← of_opt (params_stack g !! 1%nat);
  let ns := cmd_type =? OTZ_CMD_TYPE_NS_TO_SECURE in
  '(r, cmd, g) ← (if ns then g_map a g else mret (0, a, g));
  if negb (r =? 0) then mret (ApiContext OTZ_SVC_INVALID 0 OTZ_GLOBAL_CMD_ID_INVALID cmd_type, g) else
  c ← of_opt (gcmds g !! cmd);
  let x := ApiContext (Z.land (Z.shiftr (sc_id c) 10) 0x3ff) (s32 (sc_context c)) (Z.land (sc_id c) 0x3ff) cmd_type in
  g ← (if ns then '(_, p) ← ns_unmap cmd (gns g); mret (set_gns p g) else mret g);
  mret (x, g).

(** The answer to a session command. *)
Definition answer (r : Z) (g : gst H P) : res (gst H P) :=
  if r =? OTZ_ENOMEM then set_secure_api_ret SMC_ENOMEM g
  else if r =? OTZ_EFAIL then set_secure_api_ret SMC_ERROR g
  else set_secure_api_ret 0 g.

(** What the dispatcher does with a command.  Acknowledging the boot of a
    guest is an event of the hypervisor and changes nothing here. *)
Definition dispatch_command (x : api_context) (g : gst H P) : res (gst H P) :=
  let global c := (ac_svc x =? OTZ_SVC_GLOBAL) && (ac_cmd x =? c) in
  let ns := ac_type x =? OTZ_CMD_TYPE_NS_TO_SECURE in
  a ← of_opt (params_stack g !! 1%nat);
  if global OTZ_GLOBAL_CMD_ID_BOOT_ACK then set_secure_api_ret 0 g
  else if global OTZ_GLOBAL_CMD_ID_OPEN_SESSION then
    if ns then '(r, g) ← open_session_from_ns fn elf_load elf_loader_cleanup junk_cfg junk junk_tls a g; answer r g
    else mret g
  else if global OTZ_GLOBAL_CMD_ID_CLOSE_SESSION then
    if ns then '(r, g) ← close_session_from_ns elf_loader_cleanup junk_ret a g; answer r g else mret g
  else if global OTZ_GLOBAL_CMD_ID_REGISTER_NOTIFY_MEMORY then
    if ns then '(r, g) ← register_notify_data_api a g; answer r g else mret g
  else if global OTZ_GLOBAL_CMD_ID_UNREGISTER_NOTIFY_MEMORY then
    if ns then '(r, g) ← unregister_notify_data_api g; answer r g else mret g
  else if global OTZ_GLOBAL_CMD_ID_RESUME_ASYNC_TASK then
    if ns && negb (ac_task x =? 0) then k ← resume_async_task wake_fun (ac_task x) (gk g); resumed (set_gk k g) else mret g
  else if negb (ac_svc x =? OTZ_SVC_INVALID) && negb (ac_task x =? 0) && negb (ac_cmd x =? OTZ_GLOBAL_CMD_ID_INVALID) then
    '(_, k) ← start_task (ac_task x) (Some (params_stack g)) (gk g); mret (set_gk k g)
  else set_secure_api_ret 0 g.

(** One round of the dispatcher's loop: returning to the normal world appends
    to [gret]. *)
Definition return_secure_api (r : Z) (g : gst H P) : gst H P := set_gret (r :: gret g) g.

(** The other tasks run, and what the one that ended a call left is returned. *)
Definition dispatch_end (g : gst H P) : res (gst H P) :=
  g ← schedule g;
  g ← resumed g;
  d ← of_opt (gdisp g !! g_dispatch_data g);
  if secure_api_set d =? 0 then mret g else
  let g := return_secure_api (secure_api_ret_val d) g in
  mret (set_gdisp (<[g_dispatch_data g := DispatchGlobal 0 (secure_api_ret_val d)]> (gdisp g)) g).

Definition dispatch_round (g : gst H P) : res (gst H P) :=
  g ← (if negb (secure_interrupt_set g =? 0) then mret (return_secure_api 0 (set_secure_interrupt 0 g))
       else
         p0 ← of_opt (params_stack g !! 0%nat);
         if negb (valid_params_flag g =? 0) && (p0 =? CALL_TRUSTZONE_API) then
           '(x, g) ← get_api_context (set_valid_params_flag 0 g);
           dispatch_command x g
         else mret g);
  dispatch_end g.

(** ** [process_otzapi]

    The function a session's local storage names: the result, the length it
    left in [*ret_res_buf_len] if it wrote it, and the state. *)
Context (svc_process : Z -> Z -> Z -> Z -> Z -> Z -> Z -> gst H P -> res (Z * option Z * gst H P)).

(** The labels [handle_err2] and [handle_err1]. *)
Definition api_unmap (ns : bool) (req rsp meta cmd : Z) (g : gst H P) : res (gst H P) :=
  if negb ns then mret g else
  g ← g_unmap req g; g ← g_unmap rsp g; g ← g_unmap meta g;
  '(_, p) ← ns_unmap cmd (gns g); mret (set_gns p g).

(** The buffers of a command: with the first component false they could not be
    mapped. *)
Definition api_map (c : otz_smc_cmd) (cmd : Z) (g : gst H P) : res (bool * (Z * Z * Z) * gst H P) :=
  '(r, req, g) ← (if sc_req_buf_len c =? 0 then mret (0, 0, g) else g_map (sc_req_buf_phys c) g);
  if negb (r =? 0) then '(_, p) ← ns_unmap cmd (gns g); mret (false, (0, 0, 0), set_gns p g) else
  '(r, rsp, g) ← (if sc_resp_buf_len c =? 0 then mret (0, 0, g) else g_map (sc_resp_buf_phys c) g);
  if negb (r =? 0) then g ← api_unmap true req 0 0 cmd g; mret (false, (0, 0, 0), g) else
  '(r, meta, g) ← g_map (sc_meta_data_phys c) g;
  if negb (r =? 0) then g ← api_unmap true req rsp 0 cmd g; mret (false, (0, 0, 0), g) else
  mret (true, (req, rsp, meta), g).

(** The service's function on the mapped buffers. *)
Definition api_run (session_id : Z) (l : sw_tls) (cmd req rsp meta : Z) (g : gst H P) : res (Z * gst H P) :=
  c ← of_opt (gcmds g !! cmd);
  '(r, n, g) ← (if tls_process l =? 0 then mret (junk_ret, None, g)
                else svc_process (tls_process l) (Z.land (sc_id c) 0x3ff) req (sc_req_buf_len c) rsp (sc_resp_buf_len c) meta g);
  g ← (match n with Some n => upd_cmd cmd (set_ret_resp_buf_len n) g | None => mret g end);
  g ← (if r =? 0 then upd_cmd cmd (set_cmd_status OTZ_STATUS_COMPLETE) g else mret g);
  mret (r, g).

(** A command for another session is refused before anything is unmapped. *)
Definition process_otzapi (session_id tl : Z) (g : gst H P) : res (Z * gst H P) :=
  l ← of_opt (tlss (gk g) !! tl);
  cmd_type ← of_opt (params l !! 2%nat);
  a ← of_opt (params l !! 1%nat);
  let ns := cmd_type =? OTZ_CMD_TYPE_NS_TO_SECURE in
  '(r, cmd, g) ← (if ns then g_map a g else mret (0, a, g));
  if negb (r =? 0) then mret (SMC_ENOMEM, g) else
  c ← of_opt (gcmds g !! cmd);
  '(ok, (req, rsp, meta), g) ←
    (if ns then api_map c cmd g
     else mret (true, (sc_req_buf_phys c, sc_resp_buf_phys c, sc_meta_data_phys c), g));
  if negb ok then mret (SMC_ENOMEM, g) else
  if negb (sc_context c =? u32 session_id) then
    g ← upd_cmd cmd (set_cmd_status OTZ_STATUS_COMPLETE) g; mret (SMC_EINVAL_ARG, g)
  else
  '(r, g) ← api_run session_id l cmd req rsp meta g;
  g ← api_unmap ns req rsp meta cmd g;
  mret (r, g).
End dispatch.
