(* ===== verification/Echo.v ===== *)
(** The echo service ([apps/echo_task.c]). *)
From stdpp Require Import prelude gmap strings.
From S2P Require Import Prelude HeapIface MemFn Words Acl Task Encode Driver Service Dispatch.
#[local] Open Scope Z_scope.

Definition OTZ_ECHO_CMD_ID_SEND_CMD : Z := 1.
Definition OTZ_ECHO_CMD_ID_SEND_CMD_SHARED_BUF : Z := 2.
Definition OTZ_ECHO_CMD_ID_SEND_CMD_ARRAY_SPACE : Z := 3.
Definition OTZ_ECHO_CMD_ID_IPI_SEND_CMD : Z := 4.
Definition OTZ_ECHO_CMD_ID_TEST_ASYNC_SEND_CMD : Z := 5.

(** [struct our_data_buffer]: the length and two arrays of a kilobyte. *)
Definition DATA_BUF_LEN : Z := 1024.
Definition sizeof_our_data_buffer : Z := 4 + 2 * DATA_BUF_LEN.

Section echo.
Context {H P : Type} `{PrivateHeap H} `{NsMemory P}.

(** The address of [echo_data] on the task's stack. *)
Context (echo_data : Z).
Definition echo_bytes : Z := echo_data + 4.

Definition g_decode (buf meta : Z) (o : dec_out) (g : gst H P) : res (Z * dec_out * gst H P) :=
  t ← of_opt (gmetas g !! meta);
  '(r, o, p) ← decode_data buf t o (gmem g) (gns g);
  mret (r, o, set_gns p g).

Definition g_update_len (meta pos n : Z) (g : gst H P) : res (Z * gst H P) :=
  t ← of_opt (gmetas g !! meta);
  '(r, t) ← update_response_len t pos n;
  mret (r, set_gmetas (<[meta := t]> (gmetas g)) g).

Definition g_memcpy (dst src n : Z) (g : gst H P) : res (gst H P) :=
  '(_, m) ← sw_memcpy dst src n (gmem g); mret (set_gmem m g).

(** Each block below returns 0 to go on. *)

(** [echo_data.len = *((u32 * )out_buf)], from the first parameter. *)
Definition echo_len (req meta : Z) (o : dec_out) (g : gst H P) : res (Z * dec_out * gst H P) :=
  '(r, o, g) ← g_decode req meta o g;
  if negb (r =? 0) then mret (SMC_EINVAL_ARG, o, g) else
  if negb (d_type o =? OTZ_ENC_UINT32) then mret (SMC_EINVAL_ARG, o, g) else
  v ← load32 (d_data o) (gmem g);
  m ← store32 echo_data v (gmem g);
  mret (0, o, set_gmem m g).

(** The body of the request loop, which ends in [break]: the data is of type
    [ty]; [shared] is the variant that withdraws a mapped reference. *)
Definition echo_request (ty : Z) (shared : bool) (req meta : Z) (g : gst H P) : res (Z * gst H P) :=
  '(r, o, g) ← echo_len req meta (DecOut 0 0 0 0 0 0) g;
  if negb (r =? 0) then mret (r, g) else
  '(r, o, g) ← g_decode req meta o g;
  if negb (r =? 0) then mret (SMC_EINVAL_ARG, g) else
  if negb (d_type o =? ty) then mret (SMC_EINVAL_ARG, g) else
  n ← load32 echo_data (gmem g);
  g ← g_memcpy echo_bytes (d_data o) n g;
  g ← (if shared && negb (d_mapped o =? 0) then '(_, p) ← ns_unmap (d_data o) (gns g); mret (set_gns p g) else mret g);
  mret (0, g).

(** The body of the response loop. *)
Definition echo_response (ty : Z) (shared : bool) (rsp meta : Z) (g : gst H P) : res (Z * gst H P) :=
  '(r, o, g) ← g_decode rsp meta (DecOut 0 0 OTZ_MAX_REQ_PARAMS 0 0 0) g;
  if negb (r =? 0) then mret (SMC_EINVAL_ARG, g) else
  if negb (d_type o =? ty) then mret (SMC_EINVAL_ARG, g) else
  n ← load32 echo_data (gmem g);
  g ← g_memcpy (d_data o) echo_bytes n g;
  n ← load32 echo_data (gmem g);
  '(r, g) ← g_update_len meta (d_pos o) (s32 n) g;
  if negb (r =? 0) then mret (SMC_EINVAL_ARG, g) else
  g ← (if shared && negb (d_mapped o =? 0) then '(_, p) ← ns_unmap (d_data o) (gns g); mret (set_gns p g) else mret g);
  mret (0, g).

(** The result, the length for the caller and the state. *)
Definition echo_send (ty : Z) (shared : bool) (req req_len rsp rsp_len meta : Z) (g : gst H P)
    : res (Z * option Z * gst H P) :=
  '(r, g) ← (if 0 <? req_len then echo_request ty shared req meta g else mret (0, g));
  if negb (r =? 0) then mret (r, None, g) else
  if negb (0 <? rsp_len) then mret (0, None, g) else
  '(r, g) ← echo_response ty shared rsp meta g;
  if negb (r =? 0) then mret (r, None, g) else
  n ← load32 echo_data (gmem g);
  mret (0, Some n, g).

Definition process_otz_echo_send_cmd : Z -> Z -> Z -> Z -> Z -> gst H P -> res (Z * option Z * gst H P) :=
  echo_send OTZ_ENC_ARRAY false.
Definition process_otz_echo_send_cmd_shared_buf : Z -> Z -> Z -> Z -> Z -> gst H P -> res (Z * option Z * gst H P) :=
  echo_send OTZ_MEM_REF true.

(** A reference from another task gives the length too. *)
Definition echo_ipi_request (req meta : Z) (g : gst H P) : res (Z * gst H P) :=
  '(r, o, g) ← g_decode req meta (DecOut 0 0 0 0 0 0) g;
  if negb (r =? 0) then mret (SMC_EINVAL_ARG, g) else
  if negb (d_type o =? OTZ_MEM_REF) then mret (SMC_EINVAL_ARG, g) else
  g ← g_memcpy echo_bytes (d_data o) (d_len o) g;
  m ← store32 echo_data (u32 (d_len o)) (gmem g);
  mret (0, set_gmem m g).

Definition process_otz_echo_ipi_send_cmd (req req_len rsp rsp_len meta : Z) (g : gst H P) : res (Z * option Z * gst H P) :=
  '(r, g) ← (if 0 <? req_len then echo_ipi_request req meta g else mret (0, g));
  if negb (r =? 0) then mret (r, None, g) else
  if negb (0 <? rsp_len) then mret (0, None, g) else
  '(r, g) ← echo_response OTZ_MEM_REF false rsp meta g;
  if negb (r =? 0) then mret (r, None, g) else
  n ← load32 echo_data (gmem g);
  mret (0, Some n, g).

(** The asynchronous command waits for a timer before it does what the first
    one does; the wait is a parameter. *)
Context (async_wait : gst H P -> res (Z * gst H P)).

Definition process_otz_echo_async_send_cmd (req req_len rsp rsp_len meta : Z) (g : gst H P) : res (Z * option Z * gst H P) :=
  '(r, g) ← async_wait g;
  if negb (r =? 0) then mret (r, None, g) else echo_send OTZ_ENC_ARRAY false req req_len rsp rsp_len meta g.

Definition process_otz_echo_svc (svc_cmd_id req req_len rsp rsp_len meta : Z) (g : gst H P) : res (Z * option Z * gst H P) :=
  if svc_cmd_id =? OTZ_ECHO_CMD_ID_SEND_CMD then process_otz_echo_send_cmd req req_len rsp rsp_len meta g
  else if (svc_cmd_id =? OTZ_ECHO_CMD_ID_SEND_CMD_SHARED_BUF) || (svc_cmd_id =? OTZ_ECHO_CMD_ID_SEND_CMD_ARRAY_SPACE)
  then process_otz_echo_send_cmd_shared_buf req req_len rsp rsp_len meta g
  else if svc_cmd_id =? OTZ_ECHO_CMD_ID_IPI_SEND_CMD then process_otz_echo_ipi_send_cmd req req_len rsp rsp_len meta g
  else if svc_cmd_id =? OTZ_ECHO_CMD_ID_TEST_ASYNC_SEND_CMD then process_otz_echo_async_send_cmd req req_len rsp rsp_len meta g
  else mret (SMC_EOPNOTSUPP, None, g).
End echo.
