(* ===== verification/ApiSpec.v ===== *)
(** Calls of the normal world: the controller of [Dispatch] against the
    mappings of [Share], and the answers of the dispatcher. *)
From stdpp Require Import prelude gmap strings.
From S2P Require Import Prelude HeapIface PageTable MemFn Words Acl Task Sched Wait Encode Share Driver Service SvcSpec Dispatch.
#[local] Open Scope Z_scope.

Section mapping.
Context {H P : Type} `{PH : PrivateHeap H} `{NC : NsCounts P}.

Lemma api_unmap_ok n l req rsp meta cmd (g : gst H P) : ns_ok n (nonnull [req; rsp; meta] ++ cmd :: l) (gns g) ->
  exists p, api_unmap true req rsp meta cmd g = Ret (set_gns p g) /\ ns_ok n l p.
Proof.
  intros Hok. unfold api_unmap. cbn [negb].
  replace (nonnull [req; rsp; meta] ++ cmd :: l) with (nonnull [req] ++ nonnull [rsp] ++ nonnull [meta] ++ cmd :: l) in Hok
    by (cbn [nonnull]; by destruct (req =? 0), (rsp =? 0), (meta =? 0)).
  destruct (g_unmap_null _ _ _ _ Hok) as (p1 & -> & K1). cbn [mbind res_bind].
  destruct (g_unmap_null n (nonnull [meta] ++ cmd :: l) rsp (set_gns p1 g) K1) as (p2 & -> & K2). cbn [mbind res_bind].
  destruct (g_unmap_null n (cmd :: l) meta (set_gns p2 (set_gns p1 g)) K2) as (p3 & -> & K3). cbn [mbind res_bind].
  cbn [gns set_gns]. destruct (ns_unmap_ok _ _ _ _ K3) as (p4 & -> & K4). by exists p4.
Qed.

(** The pointer to a buffer of a length: null when it is empty. *)
Definition buf_ptr (len phys : Z) : Z := if len =? 0 then 0 else phys.

Lemma map_buf_ok n l len a (g : gst H P) : ns_ok (S n) l (gns g) -> ns_addr a ->
  (exists p, (if len =? 0 then mret (0, 0, g) else g_map a g) = Ret (0, buf_ptr len a, set_gns p g) /\
     ns_ok n (nonnull [buf_ptr len a] ++ l) p) \/
  (exists r p, (if len =? 0 then mret (0, 0, g) else g_map a g) = Ret (r, 0, set_gns p g) /\ (r =? 0) = false /\
     ns_ok n l p).
Proof.
  intros Hok Ha. unfold buf_ptr. destruct (len =? 0).
  - left. exists (gns g). split; [by destruct g|]. by apply ns_ok_le.
  - destruct (g_map_ok _ _ _ _ Hok Ha) as [(p & -> & Hp)|(r & p & -> & Hr & Hp)]; [left; exists p|right; by exists r, p].
    split; [done|]. by rewrite nonnull_cons by (by apply ns_addr_nonzero).
Qed.

Lemma api_map_ok n l c cmd (g : gst H P) :
  ns_ok (S (S (S n))) (cmd :: l) (gns g) ->
  ns_addr (sc_req_buf_phys c) -> ns_addr (sc_resp_buf_phys c) -> ns_addr (sc_meta_data_phys c) ->
  let req := buf_ptr (sc_req_buf_len c) (sc_req_buf_phys c) in
  let rsp := buf_ptr (sc_resp_buf_len c) (sc_resp_buf_phys c) in
  (exists p, api_map c cmd g = Ret (true, (req, rsp, sc_meta_data_phys c), set_gns p g) /\
     ns_ok n (nonnull [req; rsp; sc_meta_data_phys c] ++ cmd :: l) p) \/
  (exists p, api_map c cmd g = Ret (false, (0, 0, 0), set_gns p g) /\ ns_ok n l p).
Proof.
  intros Hok Hq Hb Hm. cbv zeta. unfold api_map.
  destruct (map_buf_ok _ _ (sc_req_buf_len c) _ _ Hok Hq) as [(p & -> & Hp)|(r & p & -> & Hr & Hp)]; cbn [mbind res_bind].
  2:{ rewrite Hr. cbn [negb gns set_gns]. destruct (ns_unmap_ok _ _ _ _ Hp) as (p2 & -> & Hp2). right.
      exists p2. split; [done|]. eapply ns_ok_weaken; [exact Hp2|lia]. }
  rewrite Z.eqb_refl. cbn [negb]. set (req := buf_ptr (sc_req_buf_len c) (sc_req_buf_phys c)) in *.
  destruct (map_buf_ok _ _ (sc_resp_buf_len c) _ (set_gns p g) Hp Hb) as [(p1 & -> & Hp1)|(r & p1 & -> & Hr & Hp1)]; cbn [mbind res_bind].
  2:{ rewrite Hr. cbn [negb]. right.
      destruct (api_unmap_ok (S n) l req 0 0 cmd (set_gns p1 (set_gns p g))) as (p2 & -> & Hp2).
      - replace (nonnull [req; 0; 0]) with (nonnull [req]) by (cbn [nonnull Z.eqb]; done). exact Hp1.
      - exists p2. split; [done|]. eapply ns_ok_weaken; [exact Hp2|lia]. }
  rewrite Z.eqb_refl. cbn [negb]. set (rsp := buf_ptr (sc_resp_buf_len c) (sc_resp_buf_phys c)) in *.
  assert (E : nonnull [rsp] ++ nonnull [req] ++ cmd :: l ≡ₚ nonnull [req; rsp] ++ cmd :: l).
  { cbn [nonnull]. destruct (req =? 0), (rsp =? 0); cbn [app]; (done || apply perm_swap). }
  apply (ns_ok_perm _ _ _ _ E) in Hp1.
  destruct (g_map_ok _ _ _ (set_gns p1 (set_gns p g)) Hp1 Hm) as [(p2 & -> & Hp2)|(r & p2 & -> & Hr & Hp2)]; cbn [mbind res_bind].
  2:{ rewrite Hr. cbn [negb]. right.
      destruct (api_unmap_ok n l req rsp 0 cmd (set_gns p2 (set_gns p1 (set_gns p g)))) as (p3 & -> & Hp3).
      - replace (nonnull [req; rsp; 0]) with (nonnull [req; rsp]) by (cbn [nonnull Z.eqb]; done). exact Hp2.
      - by exists p3. }
  rewrite Z.eqb_refl. cbn [negb]. left. exists p2. split; [done|].
  eapply ns_ok_perm; [|exact Hp2]. pose proof (ns_addr_nonzero _ Hm) as Zm. apply Z.eqb_neq in Zm.
  cbn [nonnull]. rewrite Zm. destruct (req =? 0), (rsp =? 0); cbn [app]; try done; [apply perm_swap..|].
  by rewrite perm_swap, (perm_swap rsp).
Qed.
End mapping.

Section process.
Context {H P : Type} `{PH : PrivateHeap H} `{NC : NsCounts P}.
Context (junk_ret : Z).
Context (svc_process : Z -> Z -> Z -> Z -> Z -> Z -> Z -> gst H P -> res (Z * option Z * gst H P)).

(** The call of the service's function: with any mappings that leave [k] to
    make it returns, and has undone those it made. *)
Definition svc_returns (k : nat) (t : sw_tls) (c : otz_smc_cmd) (g : gst H P) : Prop :=
  forall m l p, ns_ok (k + m) l p ->
    exists r o g', svc_process (tls_process t) (Z.land (sc_id c) 0x3ff)
        (buf_ptr (sc_req_buf_len c) (sc_req_buf_phys c)) (sc_req_buf_len c)
        (buf_ptr (sc_resp_buf_len c) (sc_resp_buf_phys c)) (sc_resp_buf_len c) (sc_meta_data_phys c) (set_gns p g)
      = Ret (r, o, g') /\ ns_ok m l (gns g') /\ gcmds g' = gcmds g.

Lemma api_run_ok k m l t a c session_id (g : gst H P) p :
  svc_returns k t c g -> ns_ok (k + m) l p -> gcmds g !! a = Some c ->
  exists r g', api_run junk_ret svc_process session_id t a (buf_ptr (sc_req_buf_len c) (sc_req_buf_phys c))
      (buf_ptr (sc_resp_buf_len c) (sc_resp_buf_phys c)) (sc_meta_data_phys c) (set_gns p g) = Ret (r, g') /\
    ns_ok m l (gns g').
Proof.
  intros Hs Hp Ec. unfold api_run. cbn [gcmds set_gns]. rewrite Ec. cbn [of_opt mbind res_bind].
  assert (Hrun : exists r o g', (if tls_process t =? 0 then mret (junk_ret, None, set_gns p g)
      else svc_process (tls_process t) (Z.land (sc_id c) 0x3ff)
        (buf_ptr (sc_req_buf_len c) (sc_req_buf_phys c)) (sc_req_buf_len c)
        (buf_ptr (sc_resp_buf_len c) (sc_resp_buf_phys c)) (sc_resp_buf_len c) (sc_meta_data_phys c) (set_gns p g))
      = Ret (r, o, g') /\ ns_ok m l (gns g') /\ gcmds g' = gcmds g).
  { destruct (tls_process t =? 0); [|by apply Hs]. eexists _, _, _. split; [reflexivity|]. split; [|done].
    eapply ns_ok_weaken; [exact Hp|lia]. }
  destruct Hrun as (r & o & g1 & -> & Hg & Ec1). cbn [mbind res_bind]. unfold upd_cmd.
  destruct o as [v|]; rewrite ?Ec1, ?Ec; cbn [of_opt mbind res_bind mret res_ret];
    destruct (r =? 0); cbn [gcmds set_gcmds]; rewrite ?lookup_insert_eq, ?Ec1, ?Ec; cbn [of_opt mbind res_bind mret res_ret];
    by eexists _, _.
Qed.

End process.

(** ** The dispatcher *)

Section dispatcher.
Context {H P : Type} `{HL : PrivateHeapLaws H} `{NC : NsCounts P}.
Context (fn : fname -> Z).
Context (elf_load : sa_config_t -> gst H P -> res (Z * sa_config_t * gst H P)).
Context (elf_loader_cleanup : gst H P -> res (gst H P)).
Context (junk_cfg : sa_config_t) (junk : sw_task) (junk_tls : sw_tls) (junk_ret : Z).
Context (wake_fun : Z -> Z -> Z -> kst H -> res (kst H)).
Context (resumed : gst H P -> res (gst H P)).

#[local] Abbreviation round :=
  (dispatch_round fn elf_load elf_loader_cleanup junk_cfg junk junk_tls junk_ret wake_fun resumed).

(** No other task ends a call before the dispatcher runs again. *)
Definition others_idle : Prop := forall g, exists g', resumed g = Ret g' /\ gdisp g' = gdisp g /\
  g_dispatch_data g' = g_dispatch_data g /\ gret g' = gret g /\ gns g' = gns g /\ valid_params_flag g' = valid_params_flag g.

(** Whether an address can be mapped. *)
Definition ns_maps (a : Z) (p : P) : bool := match ns_map a p with Ret (r, _, _) => r =? 0 | _ => false end.

Lemma get_api_context_ok n l a p3 c (g : gst H P) :
  params_stack g = [CALL_TRUSTZONE_API; a; OTZ_CMD_TYPE_NS_TO_SECURE; p3] ->
  ns_ok (S n) l (gns g) -> ns_addr a -> gcmds g !! a = Some c ->
  exists x p, get_api_context g = Ret (x, set_gns p g) /\ ns_ok n l p /\
    x = if ns_maps a (gns g)
        then ApiContext (Z.land (Z.shiftr (sc_id c) 10) 0x3ff) (s32 (sc_context c)) (Z.land (sc_id c) 0x3ff) OTZ_CMD_TYPE_NS_TO_SECURE
        else ApiContext OTZ_SVC_INVALID 0 OTZ_GLOBAL_CMD_ID_INVALID OTZ_CMD_TYPE_NS_TO_SECURE.
Proof.
  intros Ep Hok Ha Ec. unfold get_api_context, g_map, ns_maps. rewrite Ep. cbn [lookup list_lookup of_opt mbind res_bind].
  rewrite Z.eqb_refl.
  destruct (ns_map_ok n l _ a Hok Ha) as [(p & -> & Hp)|(r & p & -> & Hr & Hp)]; cbn [mbind res_bind mret res_ret].
  2:{ rewrite (proj2 (Z.eqb_neq _ _) Hr). cbn [negb]. eexists _, _. split; [reflexivity|]. by split. }
  rewrite Z.eqb_refl. cbn [negb gcmds set_gns default from_option id]. rewrite Ec. cbn [of_opt mbind res_bind gns set_gns].
  destruct (ns_unmap_ok _ _ _ _ Hp) as (p2 & -> & Hp2). cbn [mbind res_bind mret res_ret].
  eexists _, _. split; [reflexivity|]. by split.
Qed.

(** The end of a round, after the command. *)
Lemma round_end adr v d (g : gst H P) :
  sched_rel adr (gk g) v -> others_idle -> gdisp g !! g_dispatch_data g = Some d ->
  exists g', dispatch_end resumed g = Ret g' /\
    gret g' = (if secure_api_set d =? 0 then gret g else secure_api_ret_val d :: gret g) /\
    gns g' = gns g /\ valid_params_flag g' = valid_params_flag g.
Proof.
  intros R Hidle Ed. unfold dispatch_end, schedule. destruct (scheduler_rel _ _ _ R) as (k & -> & _). cbn [mbind res_bind mret res_ret].
  destruct (Hidle (set_gk k g)) as (g1 & -> & E1 & E2 & E3 & E4 & E5). cbn [mbind res_bind].
  rewrite E1, E2. cbn [gdisp g_dispatch_data set_gk]. rewrite Ed. cbn [of_opt mbind res_bind].
  destruct (secure_api_set d =? 0); eexists; (split; [reflexivity|]); cbn; by rewrite ?E3, ?E4, ?E5.
Qed.

(** C19: the dispatcher does not look at the result of [start_task].  A command
    of the normal world for a session that does not exist consumes the call
    and is never answered: the round ends without a return to the normal world,
    and the next one finds no command.  A command that cannot even be mapped
    is answered with success. *)
Theorem unknown_session_unanswered adr v n l a p3 c r0 (g : gst H P)
    (Hrel : sched_rel adr (gk g) v) (Hcur : cur v ∈ ids v) (Hidle : others_idle)
    (Hparams : params_stack g = [CALL_TRUSTZONE_API; a; OTZ_CMD_TYPE_NS_TO_SECURE; p3])
    (Hflag : valid_params_flag g <> 0) (Hint : secure_interrupt_set g = 0)
    (Hdata : gdisp g !! g_dispatch_data g = Some (DispatchGlobal 0 r0))
    (Hns : ns_ok (S n) l (gns g)) (Ha : ns_addr a) (Hcmd : gcmds g !! a = Some c)
    (Hsvc : Z.land (Z.shiftr (sc_id c) 10) 0x3ff <> OTZ_SVC_INVALID /\ Z.land (Z.shiftr (sc_id c) 10) 0x3ff <> OTZ_SVC_GLOBAL)
    (Hcid : Z.land (sc_id c) 0x3ff <> OTZ_GLOBAL_CMD_ID_INVALID)
    (Hctx : in_u32 (sc_context c) /\ sc_context c <> 0) (Hsession : sc_context c ∉ ids v) :
  exists g', round g = Ret g' /\ ns_ok n l (gns g') /\ valid_params_flag g' = 0 /\
    gret g' = if ns_maps a (gns g) then gret g else 0 :: gret g.
Proof.
  unfold dispatch_round. rewrite Hint. cbn [negb Z.eqb]. rewrite Hparams. cbn [lookup list_lookup of_opt mbind res_bind].
  rewrite (proj2 (Z.eqb_neq _ _) Hflag), Z.eqb_refl. cbn [negb andb].
  destruct (get_api_context_ok n l a p3 c (set_valid_params_flag 0 g)) as (x & p & -> & Hp & Ex); [done..|].
  cbn [mbind res_bind]. cbn [gns set_valid_params_flag] in Ex.
  set (g1 := set_gns p (set_valid_params_flag 0 g)).
  assert (Hc : exists g2 d, dispatch_command fn elf_load elf_loader_cleanup junk_cfg junk junk_tls junk_ret wake_fun resumed x g1 = Ret g2 /\
    (exists v2, sched_rel adr (gk g2) v2) /\ gdisp g2 !! g_dispatch_data g2 = Some d /\ gret g2 = gret g /\ gns g2 = p /\
    valid_params_flag g2 = 0 /\ (if secure_api_set d =? 0 then gret g else secure_api_ret_val d :: gret g)
      = (if ns_maps a (gns g) then gret g else 0 :: gret g)).
  { destruct Hsvc as [Hs1 Hs2], Hctx as [Hc1 Hc2].
    unfold dispatch_command. cbn [params_stack g1 set_gns set_valid_params_flag]. rewrite Hparams.
    cbn [lookup list_lookup of_opt mbind res_bind].
    destruct (ns_maps a (gns g)); subst x; cbn [ac_svc ac_task ac_cmd ac_type].
    - rewrite (proj2 (Z.eqb_neq _ _) Hs2), (proj2 (Z.eqb_neq _ _) Hs1), (proj2 (Z.eqb_neq _ _) Hcid). cbn [andb negb].
      assert (Eu : u32 (s32 (sc_context c)) = sc_context c) by (by rewrite u32_s32, u32_id).
      assert (Hz : s32 (sc_context c) <> 0) by (intros E; rewrite E in Eu; by apply Hc2).
      rewrite (proj2 (Z.eqb_neq _ _) Hz). cbn [negb andb].
      destruct (start_task_rel adr (gk g) v (s32 (sc_context c)) (Some (params_stack g)) Hrel) as (r & k & E & R & _);
        rewrite ?Eu; [by intros Hin%(rel_sub _ _ _ Hrel)|by intros E; rewrite E in Hsession|].
      change (gk g1) with (gk g). rewrite Hparams in E. rewrite E. cbn [mbind res_bind mret res_ret].
      eexists _, _. split; [reflexivity|]. split; [by eexists|]. split; [exact Hdata|]. done.
    - cbn [OTZ_SVC_INVALID OTZ_SVC_GLOBAL Z.eqb andb negb]. unfold set_secure_api_ret.
      cbn [gdisp g_dispatch_data g1 set_gns set_valid_params_flag]. rewrite Hdata. cbn [of_opt mbind res_bind mret res_ret].
      eexists _, _. split; [reflexivity|]. split; [by exists v|]. split; [by apply lookup_insert_eq|]. done. }
  destruct Hc as (g2 & d & -> & [v2 R2] & Ed & Er & En & Ev & Eq). cbn [mbind res_bind].
  destruct (round_end adr v2 d g2 R2 Hidle Ed) as (g3 & -> & Er3 & En3 & Ev3).
  exists g3. split; [done|]. rewrite Er3, En3, Ev3, En, Er, Ev. done.
Qed.
End dispatcher.

(** ** A command for a session that is not there *)
#[local] Existing Instances demo_ns demo_counts.

Definition demo5 : kst bump_heap := the cold (scheduler demo4).

Lemma demo5_rel : exists adr v, sched_rel adr demo5 v /\ cur v = TASK_ID_START /\ ids v = [TASK_ID_START; TASK_ID_START + 1].
Proof.
  destruct demo_rel as (adr & g & R & Q & I & C).
  destruct (scheduler_rel _ _ _ R) as (s & E & R'). exists adr, (v_tick g).
  assert (demo5 = s) as -> by (unfold demo5; by rewrite E). split; [done|]. split.
  - change (v_tick g) with (v_ticks 1 g). apply v_ticks_serve. by rewrite Q.
  - unfold v_tick, v_next. rewrite Q. unfold v_cur. rewrite C, I. by case_decide.
Qed.

Definition lost_cmd : otz_smc_cmd :=
  SmcCmd (OTZ_SVC_ECHO * 1024 + 1) 99 0 0 0 4 4 0 0 0x80001000 0x80001010 0 0.

Definition lost_g : gst bump_heap (pt_state (H := bump_heap)) :=
  Gst demo5 (gns demo_g) ∅ {[0x80000000 := lost_cmd]} ∅ ∅ ∅ [CALL_TRUSTZONE_API; 0x80000000; OTZ_CMD_TYPE_NS_TO_SECURE; 0] 1 0 0
    0x7000 {[0x7000 := DispatchGlobal 0 0]} ∅ [].

Lemma unknown_session_unanswered_witness :
  exists g', dispatch_round demo_fn demo_load demo_cleanup (demo_cfg 0) junk_task junk_tls0 0 (fun _ _ _ s => Ret s) (fun g => Ret g) lost_g = Ret g' /\
    gret g' = [].
Proof.
  destruct demo5_rel as (adr & v & R & C & I).
  destruct (unknown_session_unanswered demo_fn demo_load demo_cleanup (demo_cfg 0) junk_task junk_tls0 0 (fun _ _ _ s => Ret s) (fun g => Ret g)
    adr v 3 [] 0x80000000 0 lost_cmd 0 lost_g) as (g' & E & _ & _ & G).
  - exact R.
  - rewrite C, I. by left.
  - intros g. by exists g.
  - done.
  - done.
  - done.
  - by vm_compute.
  - apply (demo_ok 4). lia.
  - by apply demo_addr.
  - by vm_compute.
  - by vm_compute.
  - by vm_compute.
  - by vm_compute.
  - rewrite I. cbn. set_solver.
  - exists g'. split; [exact E|]. rewrite G. by vm_compute.
Defined.
