(* ===== verification/EchoSpec.v ===== *)
(** The echo service: what a request of the normal world gives back, and what
    it does to the service's stack. *)
From stdpp Require Import prelude gmap strings.
From S2P Require Import Prelude HeapIface PageTable MemFn Words Acl Task Sched Encode Share Driver Service SvcSpec Dispatch Echo ApiSpec.
#[local] Open Scope Z_scope.

Section echo.
Context {H P : Type} `{PH : PrivateHeap H} `{N : NsMemory P}.

Lemma set_gns_id (g : gst H P) : set_gns (gns g) g = g.
Proof. by destruct g. Qed.

(** Decoding a number or an array changes nothing. *)
Lemma g_decode_place ty buf meta t e o (g : gst H P) :
  gmetas g !! meta = Some t -> meta_get t (d_pos o) = Ret e -> m_type e = ty ->
  ty = OTZ_ENC_UINT32 \/ ty = OTZ_ENC_ARRAY ->
  g_decode buf meta o g =
    Ret (0, DecOut ty (s32 (d_offset o + if ty =? OTZ_ENC_UINT32 then 4 else m_len e)) (s32 (d_pos o + 1)) 0
              (buf + d_offset o) (m_len e), g).
Proof.
  intros Em Ee Et Hty. unfold g_decode. rewrite Em. cbn [of_opt mbind res_bind]. unfold decode_data. cbv zeta.
  rewrite Ee. cbn [mbind res_bind]. rewrite Et.
  destruct Hty as [->| ->]; cbn [OTZ_ENC_UINT32 OTZ_ENC_ARRAY Z.eqb Pos.eqb mret res_ret res_bind mbind];
    by rewrite set_gns_id.
Qed.

(** A request with a number and an array of that many bytes, for a table [t]
    of a number, an array and, for the answer, an array; the service's buffer is
    at [E]. *)
Record echo_call (E req rsp meta : Z) (t : list otzc_encode_meta) (er : otzc_encode_meta) (l : list Z) (g : gst H P)
    : Prop := {
  ec_table : gmetas g !! meta = Some t;
  ec_number : exists e, meta_get t 0 = Ret e /\ m_type e = OTZ_ENC_UINT32;
  ec_array : exists e, meta_get t 1 = Ret e /\ m_type e = OTZ_ENC_ARRAY;
  ec_answer : meta_get t OTZ_MAX_REQ_PARAMS = Ret er /\ m_type er = OTZ_ENC_ARRAY;
  ec_len : load32 req (gmem g) = Ret (Z.of_nat (length l)) /\ Z.of_nat (length l) < 2 ^ 31;
  ec_data : read_bytes (length l) (req + 4) (gmem g) = Some l;
  ec_bytes : bytes_ok (gmem g);
  ec_buffer : mapped E (4 + Z.of_nat (length l)) (gmem g);
  ec_room : mapped rsp (Z.of_nat (length l)) (gmem g);
  ec_apart1 : req + 4 + Z.of_nat (length l) <= E \/ E + 4 + Z.of_nat (length l) <= req + 4;
  ec_apart2 : rsp + Z.of_nat (length l) <= E \/ E + 4 + Z.of_nat (length l) <= rsp;
}.

(** The service's buffer with the request in it. *)
Definition buffered (E : Z) (l : list Z) (m : mem) : mem := write_bytes (E + 4) l (write_bytes E (le32 (Z.of_nat (length l))) m).

Lemma buffered_ok E l m : bytes_ok m -> Forall is_byte l -> bytes_ok (buffered E l m).
Proof. intros Hm Hl. apply bytes_ok_write; [|done]. apply bytes_ok_write; [done|apply le32_bytes]. Qed.

Lemma buffered_len E l m : Z.of_nat (length l) < 2 ^ 31 -> load32 E (buffered E l m) = Ret (Z.of_nat (length l)).
Proof.
  intros Hl. unfold buffered. rewrite load32_write by lia.
  apply load32_le32; [unfold in_u32; lia|]. apply (read_bytes_write_same (le32 _)).
Qed.

Lemma echo_request_ok E req rsp meta t er l (g : gst H P) :
  echo_call E req rsp meta t er l g ->
  echo_request E OTZ_ENC_ARRAY false req meta g = Ret (0, set_gmem (buffered E l (gmem g)) g).
Proof.
  intros [Et (e0 & E0 & T0) (e1 & E1 & T1) _ [El Hl] Hd Hb Hbuf _ Hap _]. unfold echo_request, echo_len.
  rewrite (g_decode_place OTZ_ENC_UINT32 req meta t e0) by auto.
  cbn [mbind res_bind negb Z.eqb d_type d_data d_offset d_pos]. rewrite !Z.eqb_refl. cbn [negb Z.eqb Z.add].
  rewrite Z.add_0_r, El. cbn [mbind res_bind].
  rewrite store32_ok by (eapply mapped_sub; [exact Hbuf|lia|lia]).
  cbn [mbind res_bind mret res_ret negb Z.eqb]. set (m1 := write_bytes E _ _).
  change (s32 4) with 4. change (s32 1) with 1.
  rewrite (g_decode_place OTZ_ENC_ARRAY req meta t e1) by auto.
  cbn [mbind res_bind negb Z.eqb d_type d_data d_offset d_pos gmem set_gmem].
  assert (Hlen : load32 E m1 = Ret (Z.of_nat (length l))).
  { apply load32_le32; [unfold in_u32; lia|]. apply (read_bytes_write_same (le32 _)). }
  rewrite Z.eqb_refl. cbn [negb]. rewrite Hlen. cbn [mbind res_bind]. unfold g_memcpy, echo_bytes. cbn [gmem set_gmem].
  change (s32 (0 + 4)) with 4.
  assert (Hbl : bytes_ok m1) by (apply bytes_ok_write; [done|apply le32_bytes]).
  rewrite (memcpy_spec (E + 4) (req + 4) (length l) l m1).
  - cbn [mbind res_bind andb mret res_ret]. done.
  - unfold m1. rewrite read_bytes_write; [exact Hd|]. cbn [length le32]. lia.
  - exact Hbl.
  - apply mapped_write. eapply mapped_sub; [exact Hbuf|lia|lia].
  - exact Hl.
  - lia.
Qed.

Definition answered (rsp meta : Z) (t : list otzc_encode_meta) (er : otzc_encode_meta) (l : list Z) (g : gst H P) : gst H P :=
  set_gmetas (<[meta := <[Z.to_nat OTZ_MAX_REQ_PARAMS := set_ret_len (Z.of_nat (length l)) er]> t]> (gmetas g))
    (set_gmem (write_bytes rsp l (gmem g)) g).

Lemma echo_response_ok E req rsp meta t er l (g : gst H P) :
  echo_call E req rsp meta t er l g ->
  echo_response E OTZ_ENC_ARRAY false rsp meta (set_gmem (buffered E l (gmem g)) g) =
    Ret (0, answered rsp meta t er l (set_gmem (buffered E l (gmem g)) g)).
Proof.
  intros [Et _ _ [E2 T2] [El Hl] Hd Hb Hbuf Hroom _ Hap]. unfold echo_response.
  pose proof (read_bytes_ok _ _ _ _ Hb Hd) as Hlb. pose proof (buffered_ok E l _ Hb Hlb) as Hb2.
  rewrite (g_decode_place OTZ_ENC_ARRAY rsp meta t er) by auto.
  cbn [mbind res_bind negb Z.eqb d_type d_data d_offset d_pos gmem set_gmem]. rewrite Z.eqb_refl. cbn [negb].
  rewrite buffered_len by done. cbn [mbind res_bind]. unfold g_memcpy, echo_bytes. cbn [gmem set_gmem].
  rewrite Z.add_0_r, (memcpy_spec rsp (E + 4) (length l) l).
  - cbn [mbind res_bind mret res_ret gmem set_gmem].
    rewrite load32_write by lia. rewrite buffered_len by done. cbn [mbind res_bind].
    unfold g_update_len. cbn [gmetas set_gmem]. rewrite Et. cbn [of_opt mbind res_bind].
    change (s32 (OTZ_MAX_REQ_PARAMS + 1)) with 13. unfold update_response_len.
    change (13 <=? OTZ_MAX_REQ_PARAMS + OTZ_MAX_RES_PARAMS) with true. change (13 - 1) with OTZ_MAX_REQ_PARAMS.
    unfold meta_upd. rewrite E2. cbn [mbind res_bind mret res_ret negb Z.eqb andb]. rewrite s32_id by (unfold in_s32; lia). done.
  - apply (read_bytes_write_same l).
  - exact Hb2.
  - unfold buffered. by do 2 apply mapped_write.
  - exact Hl.
  - lia.
Qed.

Lemma echo_ok E req req_len rsp rsp_len meta t er l (g : gst H P) :
  echo_call E req rsp meta t er l g -> 0 < req_len -> 0 < rsp_len ->
  process_otz_echo_send_cmd E req req_len rsp rsp_len meta g =
    Ret (0, Some (Z.of_nat (length l)), answered rsp meta t er l (set_gmem (buffered E l (gmem g)) g)).
Proof.
  intros Hcall Hreq Hrsp.
  unfold process_otz_echo_send_cmd, echo_send. rewrite (proj2 (Z.ltb_lt _ _) Hreq), (proj2 (Z.ltb_lt _ _) Hrsp).
  rewrite (echo_request_ok _ _ _ _ _ _ _ _ Hcall). cbn [mbind res_bind negb Z.eqb].
  rewrite (echo_response_ok _ _ _ _ _ _ _ _ Hcall). cbn [mbind res_bind negb Z.eqb gmem answered set_gmetas set_gmem].
  pose proof (ec_apart2 _ _ _ _ _ _ _ _ Hcall). pose proof (ec_len _ _ _ _ _ _ _ _ Hcall) as [_ ?].
  rewrite load32_write by lia. by rewrite buffered_len.
Qed.

Lemma meta_get_insert t pos e f : 0 <= pos -> meta_get t pos = Ret e -> meta_get (<[Z.to_nat pos := f]> t) pos = Ret f.
Proof.
  unfold meta_get. intros Hp. rewrite (proj2 (Z.ltb_ge _ _) Hp). intros El%of_opt_Ret.
  rewrite list_lookup_insert_eq; [done|]. by apply lookup_lt_Some in El.
Qed.

(** C12: the echo service.  A request with a number [n] and an array of [n]
    bytes is answered with those bytes, their number in the table and in the
    length of the answer; nothing changes but the answer, its entry of the
    table and the service's own buffer, which has the number at its start and the bytes
    behind it. *)
Theorem echo_returns_request E req req_len rsp rsp_len meta t er l (g : gst H P)
    (Hcall : echo_call E req rsp meta t er l g) (Hreq : 0 < req_len) (Hrsp : 0 < rsp_len) :
  exists g' t', process_otz_echo_send_cmd E req req_len rsp rsp_len meta g = Ret (0, Some (Z.of_nat (length l)), g') /\
    read_bytes (length l) rsp (gmem g') = Some l /\
    gmetas g' = <[meta := t']> (gmetas g) /\
    meta_get t' OTZ_MAX_REQ_PARAMS = Ret (set_ret_len (Z.of_nat (length l)) er) /\
    gmem g' = write_bytes rsp l (write_bytes (E + 4) l (write_bytes E (le32 (Z.of_nat (length l))) (gmem g))) /\
    gns g' = gns g /\ gk g' = gk g.
Proof.
  eexists _, _. rewrite (echo_ok E req req_len rsp rsp_len meta t er l g) by done.
  split; [reflexivity|]. split; [apply read_bytes_write_same|]. split; [reflexivity|]. split; [|done].
  destruct (ec_answer _ _ _ _ _ _ _ _ Hcall) as [Hm _]. by eapply meta_get_insert.
Qed.

(** C28: the number comes from the normal world and is not compared with the
    size of the buffer.  Up to 2048 bytes the service writes nothing but its
    buffer and the answer; of a longer array every byte from the 2049th on
    replaces what is on the stack behind the buffer. *)
Theorem echo_buffer_bounds E req req_len rsp rsp_len meta t er l (g : gst H P)
    (Hcall : echo_call E req rsp meta t er l g) (Hreq : 0 < req_len) (Hrsp : 0 < rsp_len) :
  exists g', process_otz_echo_send_cmd E req req_len rsp rsp_len meta g = Ret (0, Some (Z.of_nat (length l)), g') /\
    (Z.of_nat (length l) <= 2 * DATA_BUF_LEN -> forall x, (x < E \/ E + sizeof_our_data_buffer <= x) ->
       (x < rsp \/ rsp + Z.of_nat (length l) <= x) -> gmem g' !! x = gmem g !! x) /\
    (forall i v, 2 * DATA_BUF_LEN <= Z.of_nat i -> l !! i = Some v ->
       gmem g' !! (E + sizeof_our_data_buffer + (Z.of_nat i - 2 * DATA_BUF_LEN)) = Some v).
Proof.
  eexists. rewrite (echo_ok E req req_len rsp rsp_len meta t er l g) by done.
  pose proof (ec_apart2 _ _ _ _ _ _ _ _ Hcall) as Hap. split; [reflexivity|].
  cbn [gmem answered set_gmetas set_gmem]. unfold buffered, sizeof_our_data_buffer, DATA_BUF_LEN. split.
  - intros Hl x Hx Hr. rewrite !write_bytes_lookup, le32_length, !decide_False by lia. done.
  - intros i v Hi Ev. pose proof (lookup_lt_Some _ _ _ Ev).
    rewrite write_bytes_lookup, decide_False by lia. rewrite write_bytes_lookup, decide_True by lia.
    rewrite <-Ev. f_equal. lia.
Qed.
End echo.

(** ** A request of the normal world *)
#[local] Existing Instances demo_ns demo_counts.

Definition demo_table (n : Z) : list otzc_encode_meta :=
  EncMeta OTZ_ENC_UINT32 4 0 0 :: EncMeta OTZ_ENC_ARRAY n 0 0 :: replicate 10 (EncMeta (-1) 0 0 0) ++
  EncMeta OTZ_ENC_ARRAY n 0 0 :: replicate 3 (EncMeta (-1) 0 0 0).

Definition echo_mem (l : list Z) : mem :=
  write_bytes 0x5000 (replicate 4096 0) (write_bytes 0x80004000 (replicate (length l) 0)
    (write_bytes 0x80001000 (le32 (Z.of_nat (length l)) ++ l) ∅)).

Definition echo_g (l : list Z) : gst bump_heap (pt_state (H := bump_heap)) :=
  set_gmem (echo_mem l) (set_gmetas {[0x80008000 := demo_table (Z.of_nat (length l))]} demo_g).

Lemma echo_call_ok l : Forall is_byte l -> Z.of_nat (length l) <= 4000 ->
  echo_call 0x5000 0x80001000 0x80004000 0x80008000 (demo_table (Z.of_nat (length l)))
    (EncMeta OTZ_ENC_ARRAY (Z.of_nat (length l)) 0 0) l (echo_g l).
Proof.
  intros Hl Hn. split; cbn [gmetas gmem echo_g set_gmem set_gmetas].
  - apply lookup_singleton_eq.
  - eexists. by split.
  - eexists. by split.
  - by split.
  - split; [|lia]. unfold echo_mem. rewrite !load32_write by (rewrite length_replicate; lia).
    rewrite write_bytes_app, load32_write by (rewrite le32_length; lia).
    apply load32_le32; [unfold in_u32; lia|]. apply (read_bytes_write_same (le32 _)).
  - unfold echo_mem. rewrite !read_bytes_write by (rewrite length_replicate; lia).
    rewrite write_bytes_app, le32_length. apply read_bytes_write_same.
  - change (bytes_ok (echo_mem l)). unfold echo_mem.
    apply bytes_ok_write; [apply bytes_ok_write; [apply bytes_ok_write|]|].
    + by intros x v.
    + apply Forall_app. split; [apply le32_bytes|done].
    + by apply Forall_replicate.
    + by apply Forall_replicate.
  - unfold echo_mem. apply mapped_range; rewrite ?length_replicate; lia.
  - unfold echo_mem. apply mapped_write, mapped_range; rewrite ?length_replicate; lia.
  - lia.
  - lia.
Qed.

Lemma echo_returns_request_witness :
  exists g', process_otz_echo_send_cmd 0x5000 0x80001000 9 0x80004000 5 0x80008000 (echo_g [104; 101; 108; 108; 111]) = Ret (0, Some 5, g') /\
    read_bytes 5 0x80004000 (gmem g') = Some [104; 101; 108; 108; 111].
Proof.
  destruct (echo_returns_request 0x5000 0x80001000 9 0x80004000 5 0x80008000 (demo_table 5)
    (EncMeta OTZ_ENC_ARRAY 5 0 0) [104; 101; 108; 108; 111] (echo_g [104; 101; 108; 108; 111])) as (g' & t' & E & R & _).
  - apply (echo_call_ok [104; 101; 108; 108; 111]); [|cbn; lia].
    repeat apply Forall_cons_2; try apply Forall_nil_2; unfold is_byte; lia.
  - lia.
  - lia.
  - exists g'. split; [exact E|exact R].
Defined.

Lemma echo_buffer_bounds_witness :
  exists g', process_otz_echo_send_cmd 0x5000 0x80001000 9 0x80004000 5 0x80008000 (echo_g (replicate 2049 65)) = Ret (0, Some 2049, g') /\
    gmem g' !! (0x5000 + sizeof_our_data_buffer) = Some 65.
Proof.
  assert (Hn : Z.of_nat (length (replicate 2049 65)) = 2049) by (rewrite length_replicate; lia).
  destruct (echo_buffer_bounds 0x5000 0x80001000 9 0x80004000 5 0x80008000 (demo_table (Z.of_nat (length (replicate 2049 65))))
    (EncMeta OTZ_ENC_ARRAY (Z.of_nat (length (replicate 2049 65))) 0 0) (replicate 2049 65) (echo_g (replicate 2049 65))) as (g' & E & _ & B).
  - apply echo_call_ok; [|lia]. by apply Forall_replicate.
  - lia.
  - lia.
  - exists g'. split; [by rewrite E, Hn|].
    assert (E8 : Z.of_nat 2048 - 2 * DATA_BUF_LEN = 0) by by_compute.
    pose proof (B 2048%nat 65) as B8. rewrite E8, Z.add_0_r in B8. apply B8; [unfold DATA_BUF_LEN; lia|].
    apply lookup_replicate_2. lia.
Defined.

(** The call above as a command for the session 5. *)
Definition echo_cmd (l : list Z) : otz_smc_cmd :=
  SmcCmd (OTZ_SVC_ECHO * 1024 + OTZ_ECHO_CMD_ID_SEND_CMD) 5 0 0 0 (4 + Z.of_nat (length l)) (Z.of_nat (length l)) 0 0
    0x80001000 0x80004000 0x80008000 0.

Definition echo_tls : sw_tls := Tls [CALL_TRUSTZONE_API; 0x80000000; OTZ_CMD_TYPE_NS_TO_SECURE; 0] 0 0 0 0x8000 0.

Definition echo_api (l : list Z) : gst bump_heap (pt_state (H := bump_heap)) :=
  set_gcmds {[0x80000000 := echo_cmd l]} (set_gk (set_tlss {[0x9000 := echo_tls]} demo0) (echo_g l)).

Definition echo_service (g : Z) (id req req_len rsp rsp_len meta : Z) :
  gst bump_heap (pt_state (H := bump_heap)) -> res (Z * option Z * gst bump_heap (pt_state (H := bump_heap))) :=
  process_otz_echo_svc 0x5000 (fun g => Fault) id req req_len rsp rsp_len meta.

Lemma echo_call_frame {H P} E req rsp meta t er l (g g' : gst H P) :
  gmetas g' = gmetas g -> gmem g' = gmem g -> echo_call E req rsp meta t er l g -> echo_call E req rsp meta t er l g'.
Proof. intros E1 E2 []. split; rewrite ?E1, ?E2; done. Qed.

Lemma echo_returns l : l <> [] -> Forall is_byte l -> Z.of_nat (length l) <= 4000 ->
  svc_returns echo_service 0 echo_tls (echo_cmd l) (echo_api l).
Proof.
  intros Hne Hl Hn m L p Hp. cbn [sc_req_buf_len sc_resp_buf_len sc_req_buf_phys sc_resp_buf_phys sc_meta_data_phys echo_cmd].
  assert (0 < Z.of_nat (length l)) by (destruct l; [done|cbn; lia]).
  unfold buf_ptr. rewrite !(proj2 (Z.eqb_neq _ _)) by lia.
  pose proof (echo_call_ok l Hl Hn) as Hc.
  apply (echo_call_frame _ _ _ _ _ _ _ _ (set_gns p (echo_api l))) in Hc; [|done..].
  assert (E : echo_service (tls_process echo_tls) (Z.land (sc_id (echo_cmd l)) 0x3ff) 0x80001000 (4 + Z.of_nat (length l)) 0x80004000
      (Z.of_nat (length l)) 0x80008000 (set_gns p (echo_api l)) =
    process_otz_echo_send_cmd 0x5000 0x80001000 (4 + Z.of_nat (length l)) 0x80004000 (Z.of_nat (length l)) 0x80008000 (set_gns p (echo_api l)))
    by reflexivity.
  rewrite E, (echo_ok _ _ _ _ _ _ _ _ _ _ Hc) by lia. eexists _, _, _. split; [reflexivity|]. split; [exact Hp|done].
Qed.

