(* ===== verification/Fat.v ===== *)
(** [fs/fat32.c], the file side: mounting, the file allocation table, reading,
    writing, seeking and closing.  The file system is an image in memory. *)
From stdpp Require Import prelude gmap.
From S2P Require Import Prelude HeapIface MemFn Words.
#[local] Open Scope Z_scope.

Definition END_OF_CLUSTER : Z := 0x0FFFFFFF.
Definition END_OF_ROOT_CLUSTER : Z := 0x0FFFFFF8.
Definition FILE_SYS_TYPE_OFF : Z := 82.
Definition FILE_SYS_TYPE_LENGTH : Z := 8.
Definition NXT_FREE_CLUS_OFF : Z := 492.
Definition STRT_CLUS_LOW_OFF : Z := 26.
Definition STRT_CLUS_HIGH_OFF : Z := 20.
Definition FILE_SIZE_OFF : Z := 28.
Definition DIR_ENTRY_LEN : Z := 32.
Definition BYTES_PER_CLUSTER_ENTRY : Z := 4.
Definition MAX_FAT_CNT : Z := 2.
Definition FILE_READ : Z := 1.
Definition FILE_WRITE : Z := 2.
Definition FILE_CREATE_NEW : Z := 4.
Definition FILE_CREATE_ALWAYS : Z := 8.
Definition ATTR_READ : Z := 1.
Definition ATTR_DIR : Z := 0x10.
Definition FILE_SEEK_SET : Z := 0.
Definition FILE_SEEK_CUR : Z := 1.
Definition FILE_SEEK_END : Z := 2.

(** [*(u16 * )p] *)
Definition load16 (a : Z) (m : mem) : res Z := b0 ← load8 a m; b1 ← load8 (a + 1) m; mret (b0 + 2 ^ 8 * b1).
Definition store16 (a v : Z) (m : mem) : res mem := m ← store8 a v m; store8 (a + 1) (Z.shiftr v 8) m.

(** [dir_entry]: a copy of the 32 bytes of an entry. *)
Definition dir_entry : Type := list Z.
Definition ent8 (i : nat) (e : dir_entry) : Z := nth i e 0.
Definition ent16 (i : nat) (e : dir_entry) : Z := ent8 i e + 2 ^ 8 * ent8 (i + 1) e.
Definition ent_attr (e : dir_entry) : Z := ent8 11 e.
Definition ent_strt_clus (e : dir_entry) : Z := u32 (Z.lor (Z.shiftl (ent16 20 e) 16) (ent16 26 e)).
Definition ent_size (e : dir_entry) : Z := ent16 28 e + 2 ^ 16 * ent16 30 e.

(** [file_info], with its own address; the path is the string at [fi_path]. *)
Record file_info : Type := FileInfo {
  fi_ptr : Z; fd : Z; fi_entry : Z; fi_path : Z; strt_cluster : Z; cur_cluster : Z; cur_offset : Z;
  file_size : Z; mode : Z; bytes_traversed : Z; dir_entry_offset : Z;
}.
Definition set_pos (cl off : Z) (f : file_info) : file_info :=
  FileInfo (fi_ptr f) (fd f) (fi_entry f) (fi_path f) (strt_cluster f) cl off (file_size f) (mode f)
    (bytes_traversed f) (dir_entry_offset f).
Definition set_strt (cl : Z) (f : file_info) : file_info :=
  FileInfo (fi_ptr f) (fd f) (fi_entry f) (fi_path f) cl (cur_cluster f) (cur_offset f) (file_size f) (mode f)
    (bytes_traversed f) (dir_entry_offset f).
Definition set_size (n : Z) (f : file_info) : file_info :=
  FileInfo (fi_ptr f) (fd f) (fi_entry f) (fi_path f) (strt_cluster f) (cur_cluster f) (cur_offset f) n (mode f)
    (bytes_traversed f) (dir_entry_offset f).
Definition set_traversed (n : Z) (f : file_info) : file_info :=
  FileInfo (fi_ptr f) (fd f) (fi_entry f) (fi_path f) (strt_cluster f) (cur_cluster f) (cur_offset f) (file_size f)
    (mode f) n (dir_entry_offset f).

(** The variables of [fat32.h]: [files] is the list at [file_head]; [entries]
    and [paths] are the blocks that [entry] and [file_path] point to. *)
Record fat {H : Type} : Type := Fat {
  fmem : mem; fheap : H; entries : gmap Z dir_entry; paths : gmap Z (list Z);
  sec_size : Z; cluster_size : Z; bs_sector : Z; fs_infosector : Z; backup_boot_sector : Z;
  first_fat : Z; second_fat : Z; root_directory : Z; root_dir_size : Z; rt_dir_entry_cnt : Z;
  rt_dir_strt_clus : Z; nxt_free_cluster : Z; dir_file_offset : Z; files : list file_info; fdes : Z;
}.
Arguments fat : clear implicits.
Arguments Fat {H} _ _ _ _ _ _ _ _ _ _ _ _ _ _ _ _ _ _ _.

Section set.
Context {H : Type}.
Definition set_fmem (m : mem) (s : fat H) : fat H :=
  Fat m (fheap s) (entries s) (paths s) (sec_size s) (cluster_size s) (bs_sector s) (fs_infosector s)
    (backup_boot_sector s) (first_fat s) (second_fat s) (root_directory s) (root_dir_size s) (rt_dir_entry_cnt s)
    (rt_dir_strt_clus s) (nxt_free_cluster s) (dir_file_offset s) (files s) (fdes s).
Definition set_blocks (h : H) (es : gmap Z dir_entry) (ps : gmap Z (list Z)) (s : fat H) : fat H :=
  Fat (fmem s) h es ps (sec_size s) (cluster_size s) (bs_sector s) (fs_infosector s)
    (backup_boot_sector s) (first_fat s) (second_fat s) (root_directory s) (root_dir_size s) (rt_dir_entry_cnt s)
    (rt_dir_strt_clus s) (nxt_free_cluster s) (dir_file_offset s) (files s) (fdes s).
Definition set_nxt_free (n : Z) (s : fat H) : fat H :=
  Fat (fmem s) (fheap s) (entries s) (paths s) (sec_size s) (cluster_size s) (bs_sector s) (fs_infosector s)
    (backup_boot_sector s) (first_fat s) (second_fat s) (root_directory s) (root_dir_size s) (rt_dir_entry_cnt s)
    (rt_dir_strt_clus s) n (dir_file_offset s) (files s) (fdes s).
Definition set_dir_file_offset (a : Z) (s : fat H) : fat H :=
  Fat (fmem s) (fheap s) (entries s) (paths s) (sec_size s) (cluster_size s) (bs_sector s) (fs_infosector s)
    (backup_boot_sector s) (first_fat s) (second_fat s) (root_directory s) (root_dir_size s) (rt_dir_entry_cnt s)
    (rt_dir_strt_clus s) (nxt_free_cluster s) a (files s) (fdes s).
Definition set_files (l : list file_info) (s : fat H) : fat H :=
  Fat (fmem s) (fheap s) (entries s) (paths s) (sec_size s) (cluster_size s) (bs_sector s) (fs_infosector s)
    (backup_boot_sector s) (first_fat s) (second_fat s) (root_directory s) (root_dir_size s) (rt_dir_entry_cnt s)
    (rt_dir_strt_clus s) (nxt_free_cluster s) (dir_file_offset s) l (fdes s).
Definition set_fdes (n : Z) (s : fat H) : fat H :=
  Fat (fmem s) (fheap s) (entries s) (paths s) (sec_size s) (cluster_size s) (bs_sector s) (fs_infosector s)
    (backup_boot_sector s) (first_fat s) (second_fat s) (root_directory s) (root_dir_size s) (rt_dir_entry_cnt s)
    (rt_dir_strt_clus s) (nxt_free_cluster s) (dir_file_offset s) (files s) n.

(** ** The table *)

Definition get_fat_table_entry (cluster : Z) (s : fat H) : res Z := load32 (first_fat s + u32 (cluster * 4)) (fmem s).
Definition write_fat_table (cluster value : Z) (s : fat H) : res (fat H) :=
  m ← store32 (first_fat s + u32 (cluster * 4)) value (fmem s); mret (set_fmem m s).

Definition cluster_to_memory_addr (cluster : Z) (s : fat H) : Z :=
  u32 (root_directory s + sec_size s + (cluster - 3) * sec_size s).

(** [while(sw_memcmp(fat_offset, empty_cluster, 4) != 0)] *)
Fixpoint find_empty (fuel : nat) (off : Z) (s : fat H) : res Z :=
  match fuel with
  | O => Fault
  | S n => w ← load32 off (fmem s); if w =? 0 then mret off else find_empty n (off + BYTES_PER_CLUSTER_ENTRY) s
  end.

Definition allocate_cluster (fuel : nat) (s : fat H) : res (Z * fat H) :=
  off ← find_empty fuel (first_fat s + u32 (u32 (nxt_free_cluster s + 1) * BYTES_PER_CLUSTER_ENTRY)) s;
  let new_cluster := u32 ((off - first_fat s) / BYTES_PER_CLUSTER_ENTRY) in
  m ← store32 (fs_infosector s + NXT_FREE_CLUS_OFF) new_cluster (fmem s);
  mret (new_cluster, set_nxt_free new_cluster (set_fmem m s)).

(** ** Mounting *)

Definition ends_chain (cluster : Z) : bool := (cluster =? END_OF_CLUSTER) || (cluster =? END_OF_ROOT_CLUSTER).

Fixpoint chk_type (want : list Z) (p : Z) (m : mem) : res bool :=
  match want with
  | [] => mret true
  | c :: want => v ← load8 p m; if negb (v =? c) then mret false else chk_type want (p + 1) m
  end.

(** ["FAT32   "] *)
Definition chk_fat32_file_system : Z -> mem -> res bool := chk_type [70; 65; 84; 51; 50; 32; 32; 32].

(** The number of clusters up to the end of a chain. *)
Fixpoint count_clusters (fuel : nat) (next_clus clus_cnt : Z) (s : fat H) : res Z :=
  if ends_chain next_clus then mret clus_cnt else
  match fuel with
  | O => Fault
  | S n => c ← get_fat_table_entry next_clus s; count_clusters n c (clus_cnt + 1) s
  end.

(** The fields of [boot_sector] are at their offsets in the packed structure. *)
Definition cal_region_offsets (fuel : nat) (dev : Z) (s : fat H) : res (fat H) :=
  let m := fmem s in
  bytes_per_sec ← load16 (dev + 11) m; sec_per_clus ← load8 (dev + 13) m;
  reserved_sec_cnt ← load16 (dev + 14) m; fat_cnt ← load8 (dev + 16) m;
  sectors_per_fat ← load32 (dev + 36) m; root ← load32 (dev + 44) m;
  fs_info_sector ← load16 (dev + 48) m; backup ← load16 (dev + 50) m;
  let ss := bytes_per_sec in
  let ff := dev + reserved_sec_cnt * ss in
  let fsi := dev + fs_info_sector * ss in
  let s := Fat m (fheap s) (entries s) (paths s) ss (u32 (sec_per_clus * ss)) dev fsi (dev + backup * ss) ff
             (if fat_cnt =? MAX_FAT_CNT then u32 (sectors_per_fat * ss + ff) else second_fat s)
             (u32 (dev + (reserved_sec_cnt + fat_cnt * sectors_per_fat + root - 2) * ss))
             (root_dir_size s) (rt_dir_entry_cnt s) (rt_dir_strt_clus s) (nxt_free_cluster s) (dir_file_offset s)
             (files s) (fdes s) in
  clus_cnt ← count_clusters fuel root 0 s;
  let size := u16 (cluster_size s * clus_cnt) in
  nxt ← load32 (fsi + NXT_FREE_CLUS_OFF) m;
  mret (Fat m (fheap s) (entries s) (paths s) (sec_size s) (cluster_size s) (bs_sector s) (fs_infosector s)
          (backup_boot_sector s) (first_fat s) (second_fat s) (root_directory s) size (size / DIR_ENTRY_LEN) root nxt
          (dir_file_offset s) (files s) (fdes s)).

Definition mount_file_system (fuel : nat) (dev : Z) (s : fat H) : res (Z * fat H) :=
  is_fat32 ← chk_fat32_file_system (dev + FILE_SYS_TYPE_OFF) (fmem s);
  if (is_fat32 : bool) then s ← cal_region_offsets fuel dev s; mret (0, set_fdes 2 (set_files [] s)) else mret (-1, s).

(** ** Open files *)

(** The walk of the list for a descriptor; the pointer that is null at its end
    is dereferenced. *)
Definition find_file (d : Z) (s : fat H) : res file_info := of_opt (find_fst (fun f => fd f =? d) (files s)).

(** The assignments through the pointer that [find_file] stopped at. *)
Definition put_file (f : file_info) (s : fat H) : fat H :=
  match find_upd (fun g => fd g =? fd f) (fun _ => f) (files s) with
  | Some (_, l) => set_files l s
  | None => s
  end.

(** How much of the rest of a transfer fits behind an offset of a cluster: the
    three assignments to [bytes_to_copy]. *)
Definition bytes_to_copy (off rest : Z) (s : fat H) : Z :=
  let b := s32 (u32 (cluster_size s - rest)) in
  let b := if b >? 0 then rest else s32 (cluster_size s) in
  if u32 (cluster_size s - off) >? u32 b then b else s32 (u32 (cluster_size s - off)).

Definition file_cont (f : file_info) (s : fat H) : Z := cluster_to_memory_addr (cur_cluster f) s + cur_offset f.

(** The loop of [file_read]: the bytes left, those read, and the state. *)
Fixpoint read_loop (fuel : nat) (buffer total tmp_offset bytes_read : Z) (f : file_info) (s : fat H)
    : res (Z * file_info * fat H) :=
  if tmp_offset <=? 0 then mret (bytes_read, f, s) else
  if ends_chain (cur_cluster f) then mret (bytes_read, f, s) else
  match fuel with
  | O => Fault
  | S fuel =>
      if negb (u32 (cluster_size s - cur_offset f) =? 0) then
        let n := bytes_to_copy (cur_offset f) (total - bytes_read) s in
        '(_, m) ← sw_memcpy (buffer + bytes_read) (file_cont f s) n (fmem s);
        read_loop fuel buffer total (tmp_offset - n) (bytes_read + n)
          (set_pos (cur_cluster f) (u16 (cur_offset f + n)) f) (set_fmem m s)
      else
        c ← get_fat_table_entry (cur_cluster f) s;
        read_loop fuel buffer total tmp_offset bytes_read (set_pos c 0 f) s
  end.

(** A descriptor that is not open is a null pointer.  Two rounds per byte are
    enough. *)
Definition file_read (d buffer want : Z) (s : fat H) : res (Z * fat H) :=
  f ← find_file d s;
  e ← of_opt (entries s !! fi_entry f);
  let left := u32 (file_size f - bytes_traversed f) in
  let total := if negb (ent_attr e =? ATTR_DIR) then s32 (if u32 want >? left then left else u32 want) else want in
  '(n, f, s) ← read_loop (Z.to_nat (2 * total + 1)) buffer total total 0 f s;
  mret (n, put_file (set_traversed (u32 (bytes_traversed f + n)) f) s).

(** The loop of [file_write]: [prev] is [prev_cluster], not set before the
    first copy, and [new] the last cluster allocated, with their number. *)
Fixpoint write_loop (afuel fuel : nat) (buffer total tmp_offset bytes_written : Z) (prev : Z) (new : option Z)
    (f : file_info) (s : fat H) : res (Z * option Z * file_info * fat H) :=
  if tmp_offset <=? 0 then mret (bytes_written, new, f, s) else
  match fuel with
  | O => Fault
  | S fuel =>
      if negb (cur_cluster f =? 0) && negb (ends_chain (cur_cluster f)) && negb (u32 (cluster_size s - cur_offset f) =? 0) then
        let n := bytes_to_copy (cur_offset f) (total - bytes_written) s in
        '(_, m) ← sw_memcpy (file_cont f s) (buffer + bytes_written) n (fmem s);
        let s := set_fmem m s in
        let left := tmp_offset - n in
        let off := u16 (cur_offset f + n) in
        c ← (if off =? cluster_size s then get_fat_table_entry (cur_cluster f) s else mret (cur_cluster f));
        let off := if negb (c =? 0) && negb (ends_chain c) && negb (left =? 0) then 0 else off in
        write_loop afuel fuel buffer total left (bytes_written + n) (cur_cluster f) new (set_pos c off f) s
      else
        '(c, s) ← allocate_cluster afuel s;
        '(f, s) ← (match new with
                   | None =>
                       if (cur_cluster f =? 0) && (strt_cluster f =? 0) then
                         m ← store16 (dir_file_offset s + STRT_CLUS_LOW_OFF) (Z.land c 0xFFFF) (fmem s);
                         m ← store16 (dir_file_offset s + STRT_CLUS_HIGH_OFF) (Z.shiftr (Z.land c 0xFFFF0000) 16) m;
                         mret (set_strt c f, set_fmem m s)
                       else s ← write_fat_table prev c s; mret (f, s)
                   | Some _ => s ← write_fat_table prev c s; mret (f, s)
                   end);
        write_loop afuel fuel buffer total tmp_offset bytes_written prev (Some c) (set_pos c 0 f) s
  end.

(** The size is stored as one byte, through the entry that was looked up
    last. *)
Definition file_write (afuel : nat) (junk_prev d buffer want : Z) (s : fat H) : res (Z * fat H) :=
  f ← find_file d s;
  if mode f =? FILE_READ then mret (0, s) else
  '(n, new, f, s) ← write_loop afuel (Z.to_nat (2 * want + 1)) buffer want want 0 junk_prev None f s;
  let f := set_traversed (u32 (bytes_traversed f + n)) f in
  '(f, s) ← (if file_size f <? u32 n then
               m ← store8 (dir_file_offset s + FILE_SIZE_OFF) n (fmem s);
               mret (set_size (u32 n) f, set_fmem m s)
             else mret (f, s));
  s ← (match new with Some c => write_fat_table c END_OF_CLUSTER s | None => mret s end);
  mret (n, put_file f s).

(** The loop of [get_seek_off]: [cur] is its own [cur_cluster], [prev] not set
    before the first step; the steps, the allocations and the state. *)
Fixpoint seek_loop (afuel fuel : nat) (offset tmp_off traversed cur prev clus_cnt alloc_cnt : Z) (f : file_info) (s : fat H)
    : res (Z * Z * file_info * fat H) :=
  if tmp_off <=? 0 then mret (clus_cnt, alloc_cnt, f, s) else
  match fuel with
  | O => Fault
  | S fuel =>
      if negb (u32 (cluster_size s - cur_offset f) =? 0) && negb (cur =? 0) then
        let n := bytes_to_copy (cur_offset f) (offset - traversed) s in
        let left := tmp_off - n in
        let off := u16 (cur_offset f + n) in
        c ← (if off =? cluster_size s then get_fat_table_entry cur s else mret cur);
        let off := if negb (c =? 0) && negb (ends_chain c) && negb (left =? 0) then 0 else off in
        seek_loop afuel fuel offset left (traversed + n) c cur (clus_cnt + 1) alloc_cnt (set_pos cur off f) s
      else if ends_chain cur || (cur =? 0) then
        '(c, s) ← allocate_cluster afuel s;
        s ← (if alloc_cnt =? 0 then mret s else write_fat_table prev c s);
        seek_loop afuel fuel offset tmp_off traversed c prev clus_cnt (alloc_cnt + 1) (set_pos (cur_cluster f) 0 f) s
      else seek_loop afuel fuel offset tmp_off traversed cur prev clus_cnt alloc_cnt (set_pos (cur_cluster f) 0 f) s
  end.

Definition get_seek_off (afuel : nat) (junk_prev : Z) (f : file_info) (strt offset : Z) (s : fat H)
    : res (Z * file_info * fat H) :=
  if (u32 (offset + cur_offset f) <? cluster_size s) && negb (strt =? 0) then
    let f := set_pos strt (u16 (cur_offset f + offset)) f in mret (cur_offset f, f, s)
  else
    '(clus_cnt, alloc_cnt, f, s) ← seek_loop afuel (Z.to_nat (2 * offset + 1)) offset offset 0 strt junk_prev 0 0 f s;
    s ← (if alloc_cnt >? 0 then write_fat_table (cur_cluster f) END_OF_CLUSTER s else mret s);
    mret (s32 (u32 ((clus_cnt - 1) * cluster_size s + cur_offset f)), f, s).

(** The last cluster of a chain and the number of clusters. *)
Fixpoint last_cluster (fuel : nat) (cur last cnt : Z) (s : fat H) : res (Z * Z) :=
  if ends_chain cur then mret (last, cnt) else
  match fuel with
  | O => Fault
  | S n => c ← get_fat_table_entry cur s; last_cluster n c cur (cnt + 1) s
  end.

(** [off_bytes] is not set for another [whence]. *)
Definition file_seek (fuel afuel : nat) (junk_prev junk_off d offset whence : Z) (s : fat H) : res (Z * fat H) :=
  f ← find_file d s;
  let '(ok, whence, tmp_off) :=
    if offset <? 0 then
      if whence =? FILE_SEEK_CUR then (true, FILE_SEEK_SET, s32 (u32 (bytes_traversed f + offset)))
      else if whence =? FILE_SEEK_END then (true, FILE_SEEK_SET, s32 (u32 (file_size f + offset)))
      else (false, whence, offset)
    else (true, whence, offset) in
  if negb ok then mret (-1, s) else
  '(off_bytes, f, s) ←
    (if whence =? FILE_SEEK_SET then get_seek_off afuel junk_prev (set_pos (cur_cluster f) 0 f) (strt_cluster f) tmp_off s
     else if whence =? FILE_SEEK_CUR then
       '(r, g, s) ← get_seek_off afuel junk_prev f (cur_cluster f) tmp_off s;
       mret (s32 (u32 (bytes_traversed f - cur_offset f + r)), g, s)
     else if whence =? FILE_SEEK_END then
       '(c, cnt) ← last_cluster fuel (strt_cluster f) (cur_cluster f) 0 s;
       let g := set_pos c (u16 (file_size f - cluster_size s * (cnt - 1))) f in
       '(r, g, s) ← get_seek_off afuel junk_prev g c tmp_off s;
       mret (s32 (u32 (r + cluster_size s * (cnt - 1))), g, s)
     else mret (junk_off, f, s));
  mret (off_bytes, put_file (set_traversed (u32 off_bytes) f) s).

(** ** Opening and closing *)
Section heap.
Context `{PrivateHeap H} (hid : Z).

Definition f_malloc (size : Z) (s : fat H) : res (Z * fat H) :=
  '(p, h) ← heap_malloc hid size (fheap s); mret (p, set_blocks h (entries s) (paths s) s).
Definition f_free (p : Z) (s : fat H) : res (fat H) :=
  h ← heap_free hid p (fheap s); mret (set_blocks h (delete p (entries s)) (delete p (paths s)) s).

(** A null [finfo], [entry] or [file_path] is written through or read. *)
Definition retrieve_file_info (finfo entry md dir_offset : Z) (path : list Z) (s : fat H) : res (Z * fat H) :=
  if finfo =? 0 then Fault else
  let n := fdes s + 1 in
  '(p, s) ← f_malloc (Z.of_nat (length path) + 1) (set_fdes n s);
  if p =? 0 then Fault else
  e ← of_opt (entries s !! entry);
  let f := FileInfo finfo n entry p (ent_strt_clus e) (ent_strt_clus e) 0 (ent_size e) (u8 md) 0 dir_offset in
  mret (n, set_files (files s ++ [f]) (set_blocks (fheap s) (entries s) (<[p := path]> (paths s)) s)).

(** All but the first file of the list free the address of their directory
    entry, which is in the image. *)
Definition file_close (d : Z) (s : fat H) : res (Z * fat H) :=
  match find_del (fun f => fd f =? d) (files s) with
  | None => mret (-1, s)
  | Some (f, l) =>
      let first := match files s with g :: _ => fd g =? d | [] => false end in
      s ← f_free (fi_path f) (set_files l s);
      s ← f_free (fi_entry f) s;
      s ← (if first then mret s else f_free (dir_entry_offset f) s);
      s ← f_free (fi_ptr f) s;
      mret (0, s)
  end.
End heap.
End set.
