(* ===== verification/FatRead.v ===== *)
(** Cluster chains and reading: [file_read] against the contents of a file. *)
From stdpp Require Import prelude gmap.
From S2P Require Import Prelude HeapIface MemFn Words Fat.
#[local] Open Scope Z_scope.

Section chains.
Context {H : Type}.

(** ** Chains *)

(** The clusters from [c] to the end mark; 0 marks a free cluster. *)
Fixpoint chain (s : fat H) (c : Z) (cs : list Z) : Prop :=
  match cs with
  | [] => ends_chain c = true
  | x :: cs => x = c /\ c <> 0 /\ ends_chain c = false /\ exists n, get_fat_table_entry c s = Ret n /\ chain s n cs
  end.

(** A cluster holds a block of bytes. *)
Definition block (s : fat H) (c : Z) (b : list Z) : Prop :=
  Z.of_nat (length b) = cluster_size s /\ read_bytes (length b) (cluster_to_memory_addr c s) (fmem s) = Some b.

(** The bytes from an offset of the cluster [c] to the end of the chain. *)
Definition remaining (s : fat H) (c off : Z) (d : list Z) : Prop :=
  exists cs bs, chain s c cs /\ Forall2 (block s) cs bs /\ 0 <= off <= cluster_size s /\
    d = drop (Z.to_nat off) (concat bs).

(** An area that overlaps neither the table's entries nor the data of the
    clusters of a chain. *)
Definition apart (a n : Z) (s : fat H) (cs : list Z) : Prop := forall c, c ∈ cs ->
  (first_fat s + u32 (c * 4) + 4 <= a \/ a + n <= first_fat s + u32 (c * 4)) /\
  (cluster_to_memory_addr c s + cluster_size s <= a \/ a + n <= cluster_to_memory_addr c s).

Lemma apart_sub a n b k s cs : apart a n s cs -> a <= b -> b + k <= a + n -> apart b k s cs.
Proof. intros Ha Hab Hbk c Hc. destruct (Ha c Hc). lia. Qed.

Lemma chain_unique s c cs cs' : chain s c cs -> chain s c cs' -> cs = cs'.
Proof.
  revert c cs'. induction cs as [|x cs IH]; intros c [|y cs']; cbn [chain]; [done| |  |].
  - intros E (_ & _ & E' & _). by rewrite E in E'.
  - intros (_ & _ & E' & _) E. by rewrite E in E'.
  - intros (-> & _ & _ & n & En & Hc) (-> & _ & _ & n' & En' & Hc'). f_equal. rewrite En in En'. injection En' as ->. by apply (IH n').
Qed.

Lemma chain_write s a l c cs :
  apart a (Z.of_nat (length l)) s cs -> chain s c cs -> chain (set_fmem (write_bytes a l (fmem s)) s) c cs.
Proof.
  revert c. induction cs as [|x cs IH]; intros c Ha; [done|]. cbn [chain]. intros (-> & H0 & Ee & n & En & Hc).
  split; [done|]. split; [done|]. split; [done|]. exists n. split.
  - rewrite <-En. unfold get_fat_table_entry. cbn. apply load32_write. destruct (Ha c); [by left|]. lia.
  - apply IH; [|done]. intros y Hy. apply Ha. by right.
Qed.

Lemma blocks_write s a l cs bs :
  apart a (Z.of_nat (length l)) s cs -> Forall2 (block s) cs bs ->
  Forall2 (block (set_fmem (write_bytes a l (fmem s)) s)) cs bs.
Proof.
  intros Ha Hb. induction Hb as [|c b cs bs [Hl Hr] Hb IH]; [constructor|]. constructor.
  - split; [done|]. rewrite <-Hr. cbn. apply read_bytes_write. change (cluster_to_memory_addr c _) with (cluster_to_memory_addr c s).
    destruct (Ha c) as [_ ?]; [by left|]. lia.
  - apply IH. intros y Hy. apply Ha. by right.
Qed.

(** ** One step *)

Lemma bytes_to_copy_min off rest (s : fat H) :
  0 <= off < cluster_size s -> cluster_size s < 2 ^ 16 -> 0 < rest < 2 ^ 31 ->
  bytes_to_copy off rest s = Z.min rest (cluster_size s - off).
Proof.
  intros Ho Hc Hr. unfold bytes_to_copy.
  assert (E : s32 (u32 (cluster_size s - rest)) = cluster_size s - rest).
  { assert (E2 : s32 (u32 (cluster_size s - rest)) = s32 (cluster_size s - rest)).
    { unfold s32, u32, sw, uw. change (32 - 1) with 31. rewrite Zplus_mod_idemp_l. done. }
    rewrite E2. apply s32_id. unfold in_s32. lia. }
  rewrite E, (s32_id (cluster_size s)), (u32_id (cluster_size s - off)), (s32_id (cluster_size s - off))
    by (unfold in_s32, in_u32; lia).
  destruct (Z.gtb_spec (cluster_size s - rest) 0); rewrite u32_id by (unfold in_u32; lia);
    match goal with |- context [?x >? ?y] => destruct (Z.gtb_spec x y) end; lia.
Qed.

Lemma take_block (b d : list Z) off n :
  (off + n <= length b)%nat -> take n (drop off (b ++ d)) = take n (drop off b).
Proof. intros Hl. rewrite drop_app_le by lia. rewrite take_app_le; [done|]. rewrite length_drop. lia. Qed.

Lemma block_read (s : fat H) c b off n :
  block s c b -> 0 <= off -> off + Z.of_nat n <= cluster_size s ->
  read_bytes n (cluster_to_memory_addr c s + off) (fmem s) = Some (take n (drop (Z.to_nat off) b)).
Proof. intros [Hl Hr] Ho Hn. rewrite <-(read_bytes_slice _ _ _ (Z.to_nat off) n Hr) by lia. f_equal. lia. Qed.

(** ** Reading *)

Lemma set_fmem_id (s : fat H) : set_fmem (fmem s) s = s.
Proof. by destruct s. Qed.

Lemma set_pos_id (f : file_info) : set_pos (cur_cluster f) (cur_offset f) f = f.
Proof. by destruct f. Qed.

Lemma u16_id x : 0 <= x < 2 ^ 16 -> u16 x = x.
Proof. intros Hx. apply Z.mod_small. exact Hx. Qed.

Lemma read_loop_0 fuel buffer total rd f (s : fat H) : read_loop fuel buffer total 0 rd f s = Ret (rd, f, s).
Proof. by destruct fuel. Qed.

Lemma read_loop_ok fuel buffer total left rd f (s : fat H) cs bs :
  2 * left + (if cur_offset f =? cluster_size s then 1 else 0) <= Z.of_nat fuel ->
  0 < cluster_size s < 2 ^ 16 -> 0 <= left -> 0 <= rd -> rd + left = total -> total < 2 ^ 31 ->
  chain s (cur_cluster f) cs -> Forall2 (block s) cs bs -> 0 <= cur_offset f <= cluster_size s ->
  left <= Z.of_nat (length (drop (Z.to_nat (cur_offset f)) (concat bs))) ->
  bytes_ok (fmem s) -> mapped (buffer + rd) left (fmem s) -> apart (buffer + rd) left s cs ->
  let rest := drop (Z.to_nat (cur_offset f)) (concat bs) in
  let s' := set_fmem (write_bytes (buffer + rd) (take (Z.to_nat left) rest) (fmem s)) s in
  exists c off, read_loop fuel buffer total left rd f s = Ret (total, set_pos c off f, s') /\
    remaining s' c off (drop (Z.to_nat left) rest).
Proof.
  revert left rd f s cs bs. induction fuel as [|fuel IH];
    intros left rd f s cs bs Hf Hc Hl Hrd Ht Hb31 Hch Hbl Ho Hlen Hok Hm Ha; cbv zeta.
  all: destruct (Z.eq_dec left 0) as [->|Hl0];
    [exists (cur_cluster f), (cur_offset f); change (Z.to_nat 0) with 0%nat; rewrite take_0, drop_0; cbn [write_bytes];
       rewrite read_loop_0, set_pos_id, set_fmem_id; replace rd with total by lia; split; [done|by exists cs, bs]|].
  { destruct (cur_offset f =? cluster_size s); lia. }
  cbn [read_loop]. rewrite (proj2 (Z.leb_gt left 0)) by lia.
  destruct Hbl as [|c b cs bs Hblk Hbl]; [cbn in Hlen; rewrite drop_nil in Hlen; cbn in Hlen; lia|].
  destruct Hch as (-> & Hz & Ee & nx & En & Hch). rewrite Ee.
  pose proof Hblk as [Lb Rb].
  destruct (Z.eqb_spec (cur_offset f) (cluster_size s)) as [Eo|Eo].
  - rewrite (proj2 (Z.eqb_eq _ _)) by (rewrite Eo, Z.sub_diag; done). cbn [negb]. rewrite En. cbn [mbind res_bind].
    assert (Er : drop (Z.to_nat (cur_offset f)) (concat (b :: bs)) = concat bs).
    { cbn [concat]. rewrite drop_app_ge by lia. replace (Z.to_nat (cur_offset f) - length b)%nat with 0%nat by lia. done. }
    rewrite Er in *.
    destruct (IH left rd (set_pos nx 0 f) s cs bs) as (c & off & E & R); try done; cbn [cur_offset cur_cluster set_pos].
    + rewrite (proj2 (Z.eqb_neq 0 _)) by lia. lia.
    + lia.
    + intros x Hx. apply Ha. by right.
    + exists c, off. rewrite E. by split.
  - assert (Hoff : 0 <= cur_offset f < cluster_size s) by lia.
    rewrite (proj2 (Z.eqb_neq _ _)) by (rewrite u32_id by (unfold in_u32; lia); lia). cbn [negb].
    rewrite (bytes_to_copy_min (cur_offset f) (total - rd)) by lia.
    replace (total - rd) with left by lia. set (n := Z.min left (cluster_size s - cur_offset f)).
    set (l := take (Z.to_nat n) (drop (Z.to_nat (cur_offset f)) b)).
    assert (Ln : length l = Z.to_nat n) by (unfold l; rewrite length_take, length_drop; lia).
    assert (Rl : read_bytes (Z.to_nat n) (file_cont f s) (fmem s) = Some l).
    { unfold file_cont. apply block_read; [done|lia|lia]. }
    destruct (Ha (cur_cluster f)) as [_ Hap]; [by left|].
    assert (Emc : sw_memcpy (buffer + rd) (file_cont f s) n (fmem s) = Ret (buffer + rd, write_bytes (buffer + rd) l (fmem s))).
    { rewrite <-(Z2Nat.id n) by lia. apply memcpy_spec; [done|done| |lia|unfold file_cont; lia].
      eapply mapped_sub; [exact Hm|lia|lia]. }
    rewrite Emc.
    cbn [mbind res_bind]. rewrite u16_id by lia.
    assert (Hlb : Forall is_byte l) by (by apply (read_bytes_ok _ _ _ _ Hok Rl)).
    assert (Ha' : apart (buffer + rd) (Z.of_nat (length l)) s (cur_cluster f :: cs)).
    { eapply apart_sub; [exact Ha|lia|lia]. }
    set (rest := drop (Z.to_nat (cur_offset f)) (concat (b :: bs))) in *.
    assert (Er : drop (Z.to_nat (cur_offset f + n)) (concat (b :: bs)) = drop (Z.to_nat n) rest).
    { unfold rest. rewrite drop_drop. f_equal. lia. }
    assert (El : take (Z.to_nat left) rest = l ++ take (Z.to_nat (left - n)) (drop (Z.to_nat n) rest)).
    { rewrite <-(take_drop (Z.to_nat n) (take (Z.to_nat left) rest)), take_take, skipn_firstn_comm.
      f_equal; [|f_equal; lia]. unfold l, rest. cbn [concat]. rewrite Nat.min_l by lia. apply take_block. lia. }
    destruct (IH (left - n) (rd + n) (set_pos (cur_cluster f) (cur_offset f + n) f)
      (set_fmem (write_bytes (buffer + rd) l (fmem s)) s) (cur_cluster f :: cs) (b :: bs)) as (c & off & E & R);
      cbn [cur_offset cur_cluster set_pos cluster_size set_fmem fmem]; try lia.
    + destruct (Z.eqb_spec (cur_offset f) (cluster_size s)); [lia|].
      destruct (cur_offset f + n =? cluster_size s); lia.
    + apply chain_write; [done|]. cbn [chain]. split; [done|]. split; [done|]. split; [done|]. by exists nx.
    + apply blocks_write; [done|]. by constructor.
    + rewrite Er, length_drop. lia.
    + by apply bytes_ok_write.
    + apply mapped_write. eapply mapped_sub; [exact Hm|lia|lia].
    + intros x Hx. assert (A : apart (buffer + (rd + n)) (left - n) s (cur_cluster f :: cs)) by (eapply apart_sub; [exact Ha|lia|lia]).
      exact (A x Hx).
    + cbn [cur_offset cur_cluster set_pos fmem set_fmem] in E, R. exists c, off. rewrite Z.add_assoc in E, R. rewrite Er in E, R. rewrite El, write_bytes_app, Ln.
      replace (buffer + rd + Z.of_nat (Z.to_nat n)) with (buffer + rd + n) by lia.
      split; [exact E|]. rewrite drop_drop in R. replace (Z.to_nat n + Z.to_nat (left - n))%nat with (Z.to_nat left) in R by lia. exact R.
Qed.

Lemma find_put d f f' (s : fat H) : find_file d s = Ret f -> fd f' = d -> find_file d (put_file f' s) = Ret f'.
Proof.
  intros Hf <-. unfold find_file, put_file in *. apply of_opt_Ret in Hf. apply of_opt_Ret.
  pose proof (find_upd_fst (fun g => fd g =? fd f') (fun _ => f') (files s)) as E. rewrite Hf in E.
  destruct (find_upd _ _ _) as [[g l]|] eqn:Eu; [|done]. cbn [files set_files].
  cbn in E. injection E as ->. exact (find_fst_upd_same _ _ _ _ _ (fun x _ => Z.eqb_refl _) Eu).
Qed.

Lemma find_fd d f (s : fat H) : find_file d s = Ret f -> fd f = d.
Proof. intros E%of_opt_Ret. apply find_fst_Some in E as [_ E]. by apply Z.eqb_eq. Qed.

Lemma chain_files l (s : fat H) c cs : chain s c cs -> chain (set_files l s) c cs.
Proof.
  revert c. induction cs as [|x cs IH]; intros c; [done|]. intros (-> & H0 & E & n & En & Hc).
  split; [done|]. split; [done|]. split; [done|]. exists n. split; [exact En|by apply IH].
Qed.

Lemma put_file_files f (s : fat H) : exists l, put_file f s = set_files l s.
Proof.
  unfold put_file. destruct (find_upd _ _ _) as [[g l]|]; [by exists l|]. exists (files s). by destruct s.
Qed.

Lemma blocks_files l (s : fat H) cs bs : Forall2 (block s) cs bs -> Forall2 (block (set_files l s)) cs bs.
Proof. intros Hb. eapply Forall2_impl; [exact Hb|]. intros c b Hcb. exact Hcb. Qed.

Lemma remaining_put f (s : fat H) c off d : remaining s c off d -> remaining (put_file f s) c off d.
Proof.
  destruct (put_file_files f s) as [l ->]. intros (cs & bs & Hc & Hb & R).
  exists cs, bs. split; [by apply chain_files|]. split; [by apply blocks_files|done].
Qed.

Lemma file_read_ok d buffer want f e rest (s : fat H)
    (Hfind : find_file d s = Ret f) (Hent : entries s !! fi_entry f = Some e) (Hdir : ent_attr e <> ATTR_DIR)
    (Hcs : 0 < cluster_size s < 2 ^ 16) (Hwant : 0 <= want < 2 ^ 31)
    (Hpos : 0 <= bytes_traversed f <= file_size f) (Hsize : file_size f < 2 ^ 31)
    (Hrest : remaining s (cur_cluster f) (cur_offset f) rest)
    (Hlen : file_size f - bytes_traversed f <= Z.of_nat (length rest))
    (Hok : bytes_ok (fmem s)) (Hbuf : mapped buffer want (fmem s))
    (Hap : forall cs, chain s (cur_cluster f) cs -> apart buffer want s cs) :
  let n := Z.min want (file_size f - bytes_traversed f) in
  exists s' f', file_read d buffer want s = Ret (n, s') /\
    fmem s' = write_bytes buffer (take (Z.to_nat n) rest) (fmem s) /\
    read_bytes (Z.to_nat n) buffer (fmem s') = Some (take (Z.to_nat n) rest) /\
    find_file d s' = Ret f' /\ bytes_traversed f' = bytes_traversed f + n /\ file_size f' = file_size f /\
    remaining s' (cur_cluster f') (cur_offset f') (drop (Z.to_nat n) rest) /\ entries s' = entries s /\ fi_entry f' = fi_entry f.
Proof.
  cbv zeta. set (n := Z.min want _). destruct Hrest as (cs & bs & Hch & Hbl & Ho & Er).
  assert (Et : s32 (if u32 want >? u32 (file_size f - bytes_traversed f) then u32 (file_size f - bytes_traversed f) else u32 want) = n).
  { rewrite !u32_id by (unfold in_u32; lia). destruct (Z.gtb_spec want (file_size f - bytes_traversed f));
      rewrite s32_id by (unfold in_s32; lia); lia. }
  assert (Ln : length (take (Z.to_nat n) rest) = Z.to_nat n) by (rewrite length_take; lia).
  destruct (read_loop_ok (Z.to_nat (2 * n + 1)) buffer n n 0 f s cs bs) as (c & off & E & R); rewrite <-?Er; try lia; try done.
  - destruct (cur_offset f =? cluster_size s); lia.
  - rewrite Z.add_0_r. eapply mapped_sub; [exact Hbuf|lia|lia].
  - rewrite Z.add_0_r. eapply apart_sub; [by apply Hap|lia|lia].
  - rewrite Z.add_0_r, <-Er in E, R. set (m := write_bytes _ _ _) in *.
    eexists _, _. unfold file_read. rewrite Hfind. cbn [mbind res_bind]. rewrite Hent. cbn [of_opt mbind res_bind].
    rewrite (proj2 (Z.eqb_neq _ _) Hdir). cbn [negb]. rewrite Et, E. cbn [mbind res_bind mret res_ret].
    split; [reflexivity|]. cbn [bytes_traversed set_pos].
    assert (Ep : forall g, fmem (put_file g (set_fmem m s)) = m /\ entries (put_file g (set_fmem m s)) = entries s)
      by (intros g; unfold put_file; by destruct (find_upd _ _ _) as [[? ?]|]).
    destruct (Ep (set_traversed (u32 (bytes_traversed f + n)) (set_pos c off f))) as [Em Ee].
    split; [exact Em|]. split; [rewrite Em; unfold m; rewrite <-Ln at 1; apply read_bytes_write_same|].
    split; [by apply (find_put d f); [|apply (find_fd d f s)]|].
    cbn [bytes_traversed file_size cur_cluster cur_offset fi_entry set_traversed set_pos].
    split; [apply u32_id; unfold in_u32; lia|]. split; [done|]. split; [by apply remaining_put|]. by split.
Qed.

(** C14: reading a file.  The bytes that a file holds from its current position
    on are the data of its chain of clusters.  [file_read] returns as many of
    them as were asked for and the size allows, puts them into the buffer,
    changes nothing else in memory, and leaves the position behind them, also when the
    transfer crosses clusters or ends at the end of one, so that the next read
    goes on where this one stopped. *)
Theorem file_read_contents d buffer want f e rest (s : fat H)
    (Hfind : find_file d s = Ret f) (Hent : entries s !! fi_entry f = Some e) (Hdir : ent_attr e <> ATTR_DIR)
    (Hcs : 0 < cluster_size s < 2 ^ 16) (Hwant : 0 <= want < 2 ^ 31)
    (Hpos : 0 <= bytes_traversed f <= file_size f) (Hsize : file_size f < 2 ^ 31)
    (Hrest : remaining s (cur_cluster f) (cur_offset f) rest)
    (Hlen : file_size f - bytes_traversed f <= Z.of_nat (length rest))
    (Hok : bytes_ok (fmem s)) (Hbuf : mapped buffer want (fmem s))
    (Hap : forall cs, chain s (cur_cluster f) cs -> apart buffer want s cs) :
  let n := Z.min want (file_size f - bytes_traversed f) in
  exists s' f', file_read d buffer want s = Ret (n, s') /\
    fmem s' = write_bytes buffer (take (Z.to_nat n) rest) (fmem s) /\
    read_bytes (Z.to_nat n) buffer (fmem s') = Some (take (Z.to_nat n) rest) /\
    find_file d s' = Ret f' /\ bytes_traversed f' = bytes_traversed f + n /\ file_size f' = file_size f /\
    remaining s' (cur_cluster f') (cur_offset f') (drop (Z.to_nat n) rest) /\ entries s' = entries s /\ fi_entry f' = fi_entry f.
Proof. by eapply file_read_ok. Qed.
End chains.

(** A file of 20 bytes in the clusters 3 and 5 of a small image, and two buffers. *)
Definition image_fat : list Z :=
  concat [le32 0x0FFFFFF8; le32 0x0FFFFFFF; le32 0x0FFFFFFF; le32 5; le32 0; le32 0x0FFFFFFF; le32 0; le32 0].
Definition image_mem : mem :=
  write_bytes 1024 image_fat (write_bytes 2048 (Z.of_nat <$> seq 0 96) (write_bytes 4096 (replicate 12 0 ++ (Z.of_nat <$> seq 100 12)) ∅)).
Definition image_file : file_info := FileInfo 8000 3 8200 8300 3 3 6 20 FILE_READ 6 2048.
Definition image : fat () :=
  Fat image_mem () {[8200 := replicate 32 0]} ∅ 16 16 512 768 0 1024 0 2048 16 0 2 5 2048 [image_file] 3.

Lemma image_chain : chain image 3 [3; 5].
Proof.
  split; [done|]. split; [done|]. split; [done|]. exists 5. split; [by vm_compute|]. split; [done|]. split; [done|]. split; [done|].
  exists 0x0FFFFFFF. by split; [vm_compute|].
Qed.

Lemma image_blocks : Forall2 (block image) [3; 5] [Z.of_nat <$> seq 16 16; Z.of_nat <$> seq 48 16].
Proof. repeat constructor; by vm_compute. Qed.

Lemma image_ok : bytes_ok image_mem.
Proof. unfold image_mem. repeat (apply bytes_ok_write; [|repeat constructor; done]). by apply map_Forall_empty. Qed.

Lemma image_buffers : mapped 4096 24 image_mem.
Proof.
  intros x Hx. unfold image_mem. rewrite !write_bytes_lookup. repeat case_decide.
  all: try (apply lookup_lt_is_Some; lia). exfalso. auto.
Qed.

Lemma image_apart a n : 4096 <= a -> apart a n image [3; 5].
Proof.
  intros Ha c Hin. assert (E : first_fat image + u32 (c * 4) + 4 <= 4096 /\ cluster_to_memory_addr c image + cluster_size image <= 4096); [|lia].
  apply elem_of_cons in Hin as [->|Hin]; [by split|]. by apply list_elem_of_singleton in Hin as ->.
Qed.

Lemma file_read_contents_witness : exists s' f', file_read 3 4096 12 image = Ret (12, s') /\
  read_bytes 12 4096 (fmem s') = Some ((Z.of_nat <$> seq 22 10) ++ [48; 49]) /\ find_file 3 s' = Ret f' /\ bytes_traversed f' = 18.
Proof.
  destruct (file_read_contents 3 4096 12 image_file (replicate 32 0)
    (drop 6 (concat [Z.of_nat <$> seq 16 16; Z.of_nat <$> seq 48 16])) image) as (s' & f' & E & _ & R & F & T & _).
  - reflexivity.
  - reflexivity.
  - done.
  - by split.
  - by split.
  - by split.
  - done.
  - exists [3; 5], [Z.of_nat <$> seq 16 16; Z.of_nat <$> seq 48 16].
    split; [exact image_chain|]. split; [exact image_blocks|]. by split.
  - by vm_compute.
  - exact image_ok.
  - eapply mapped_sub; [exact image_buffers|done|done].
  - intros cs Hc. rewrite (chain_unique _ _ _ _ Hc image_chain). by apply image_apart.
  - exists s', f'. split; [exact E|]. split; [exact R|]. split; [exact F|exact T].
Defined.
