(* ===== verification/FatWrite.v ===== *)
(** Seeking and writing inside a chain of clusters: what is written at a
    position of a file is read back from there. *)
From stdpp Require Import prelude gmap.
From S2P Require Import Prelude HeapIface MemFn Words Fat FatRead.
#[local] Open Scope Z_scope.

Section write.
Context {H : Type}.

(** ** Seeking *)

Lemma ends_chain_0 (s : fat H) c cs : chain s c cs -> cs <> [] -> ends_chain c = false /\ c <> 0.
Proof. destruct cs; [done|]. by intros (_ & ? & ? & _). Qed.

Lemma chain_next (s : fat H) c cs b bs left :
  chain s c cs -> Forall2 (block s) cs bs -> 0 < left <= Z.of_nat (length (concat bs)) ->
  negb (c =? 0) && negb (ends_chain c) && negb (left =? 0) = true /\ b :: bs <> [].
Proof.
  intros Hc Hb Hl. destruct (ends_chain_0 s c cs Hc) as [-> Hz].
  - intros ->. apply Forall2_nil_inv_l in Hb as ->. cbn in Hl. lia.
  - rewrite (proj2 (Z.eqb_neq c 0)), (proj2 (Z.eqb_neq left 0)) by lia. done.
Qed.

Lemma cluster_left_nonzero (s : fat H) off :
  0 < cluster_size s < 2 ^ 16 -> 0 <= off < cluster_size s -> negb (u32 (cluster_size s - off) =? 0) = true.
Proof. intros Hc Ho. rewrite u32_id by (unfold in_u32; lia). by rewrite (proj2 (Z.eqb_neq _ _)) by lia. Qed.

Lemma drop_block (b d : list Z) off left n :
  Z.of_nat (length b) = off + n -> 0 <= off -> 0 <= n <= left ->
  drop (Z.to_nat left) (drop (Z.to_nat off) (b ++ d)) = drop (Z.to_nat (left - n)) d.
Proof. intros Hl Ho Hn. rewrite drop_drop, drop_app_ge by lia. f_equal. lia. Qed.

Lemma seek_loop_ok afuel fuel offset left trav cur prev cnt al f (s : fat H) cs bs :
  (Z.to_nat left <= fuel)%nat -> 0 < cluster_size s < 2 ^ 16 -> 0 < left -> 0 <= trav ->
  trav + left = offset -> offset < 2 ^ 31 -> chain s cur cs -> Forall2 (block s) cs bs ->
  0 <= cur_offset f < cluster_size s -> left <= Z.of_nat (length (drop (Z.to_nat (cur_offset f)) (concat bs))) ->
  exists c off n, seek_loop afuel fuel offset left trav cur prev cnt al f s = Ret (cnt + n, al, set_pos c off f, s) /\
    remaining s c off (drop (Z.to_nat left) (drop (Z.to_nat (cur_offset f)) (concat bs))) /\
    (n - 1) * cluster_size s + off = cur_offset f + left /\ (exists cs', chain s c cs' /\ cs' ⊆ cs).
Proof.
  revert left trav cur prev cnt f cs bs. induction fuel as [|fuel IH];
    intros left trav cur prev cnt f cs bs Hf Hc Hl Ht Et Hb Hch Hbl Ho Hlen; [lia|].
  cbn [seek_loop]. rewrite (proj2 (Z.leb_gt left 0)), cluster_left_nonzero by lia.
  destruct Hbl as [|c b cs bs Hblk Hbl]; [cbn in Hlen; rewrite drop_nil in Hlen; cbn in Hlen; lia|].
  pose proof Hch as (-> & Hz & Ee & nx & En & Hch'). rewrite (proj2 (Z.eqb_neq cur 0)) by done. cbn [negb andb].
  pose proof Hblk as [Lb Rb]. rewrite bytes_to_copy_min by lia. replace (offset - trav) with left by lia.
  set (n := Z.min left (cluster_size s - cur_offset f)). rewrite (u16_id (cur_offset f + n)) by lia.
  assert (Hend : forall c, seek_loop afuel fuel offset 0 (trav + n) c cur (cnt + 1) al (set_pos cur (cur_offset f + n) f) s =
    Ret (cnt + 1, al, set_pos cur (cur_offset f + n) f, s)) by (intros; by destruct fuel).
  destruct (Z.eq_dec n left) as [En'|En'].
  - (* the last step *)
    exists cur, (cur_offset f + n), 1. replace (left - n) with 0 by lia.
    split; [|split; [|split; [lia|by exists (cur :: cs)]]].
    + destruct (cur_offset f + n =? cluster_size s); [rewrite En|]; cbn [mbind res_bind mret res_ret];
        change (negb (0 =? 0)) with false; rewrite andb_false_r; apply Hend.
    + exists (cur :: cs), (b :: bs). split; [done|]. split; [by constructor|]. split; [lia|]. rewrite drop_drop. f_equal. lia.
  - rewrite (proj2 (Z.eqb_eq (cur_offset f + n) _)) by lia. rewrite En. cbn [mbind res_bind].
    cbn [concat] in *. rewrite length_drop, length_app in Hlen.
    rewrite (proj1 (chain_next s nx cs b bs (left - n) Hch' Hbl ltac:(lia))).
    destruct (IH (left - n) (trav + n) nx cur (cnt + 1) (set_pos cur 0 f) cs bs) as (c & off & k & E & R & P & cs' & Hcs' & Hsub);
      try done; cbn [cur_offset set_pos]; try lia.
    { change (Z.to_nat 0) with 0%nat. rewrite drop_0. lia. }
    exists c, off, (k + 1). split; [rewrite E; f_equal; f_equal; f_equal; f_equal; lia|]. split; [|split; [cbn [cur_offset set_pos] in P; lia|exists cs'; split; [done|set_solver]]].
    cbn [cur_offset set_pos] in R. change (Z.to_nat 0) with 0%nat in R. rewrite drop_0 in R.
    rewrite (drop_block b (concat bs) (cur_offset f) left n) by lia. exact R.
Qed.

Lemma file_seek_set fuel afuel jp jo d offset f (s : fat H) cs bs :
  find_file d s = Ret f -> 0 < cluster_size s < 2 ^ 16 -> chain s (strt_cluster f) cs -> Forall2 (block s) cs bs ->
  0 <= offset <= Z.of_nat (length (concat bs)) -> offset < 2 ^ 31 ->
  exists c off, file_seek fuel afuel jp jo d offset FILE_SEEK_SET s =
      Ret (offset, put_file (set_traversed offset (set_pos c off f)) s) /\
    remaining s c off (drop (Z.to_nat offset) (concat bs)) /\ (exists cs', chain s c cs' /\ cs' ⊆ cs).
Proof.
  intros Hf Hc Hch Hbl Ho Hlt. unfold file_seek. rewrite Hf. cbn [mbind res_bind].
  rewrite (proj2 (Z.ltb_ge offset 0)) by lia. cbn [negb]. change (FILE_SEEK_SET =? FILE_SEEK_SET) with true. cbv iota.
  unfold get_seek_off. cbn [cur_offset set_pos].
  assert (Hz : strt_cluster f <> 0) by (destruct cs; [by intros E; rewrite E in Hch|by destruct Hch as (_ & ? & _)]).
  rewrite (u32_id (offset + 0)), (proj2 (Z.eqb_neq _ 0) Hz) by (unfold in_u32; lia). cbn [negb].
  rewrite andb_true_r. destruct (Z.ltb_spec (offset + 0) (cluster_size s)) as [Hl|Hl].
  - cbn [mbind res_bind mret res_ret cur_offset set_pos]. rewrite u16_id by lia. rewrite u32_id by (unfold in_u32; lia).
    exists (strt_cluster f), offset. split; [reflexivity|]. split; [|by exists cs].
    exists cs, bs. split; [done|]. split; [done|]. split; [lia|done].
  - destruct (seek_loop_ok afuel (Z.to_nat (2 * offset + 1)) offset offset 0 (strt_cluster f) jp 0 0
      (set_pos (cur_cluster f) 0 f) s cs bs) as (c & off & n & E & R & P & Hsub); try done; cbn [cur_offset set_pos]; try lia.
    { change (Z.to_nat 0) with 0%nat. rewrite drop_0. lia. }
    rewrite E. cbn [mbind res_bind mret res_ret cur_offset set_pos Z.gtb Z.compare].
    cbn [cur_offset set_pos] in P, R. rewrite Z.add_0_l, P, Z.add_0_l, (u32_id offset), s32_id, (u32_id offset)
      by (unfold in_u32, in_s32; lia).
    exists c, off. split; [reflexivity|by split].
Qed.

(** ** Writing *)

(** The data of a cluster. *)
Definition in_data (s : fat H) (c x : Z) : Prop := cluster_to_memory_addr c s <= x < cluster_to_memory_addr c s + cluster_size s.

(** The clusters' data overlap neither each other nor the table's entries. *)
Definition separate (s : fat H) (cs : list Z) : Prop := NoDup cs /\ forall c c', c ∈ cs -> c' ∈ cs ->
  (forall x, in_data s c x -> ~ first_fat s + u32 (c' * 4) <= x < first_fat s + u32 (c' * 4) + 4) /\
  (c <> c' -> forall x, in_data s c x -> ~ in_data s c' x).

(** Nothing but the data of clusters differs. *)
Definition only_data (s : fat H) (cs : list Z) (m m' : mem) : Prop :=
  forall x, (forall c, c ∈ cs -> ~ in_data s c x) -> m' !! x = m !! x.

Lemma chain_only (s : fat H) all m' c cs :
  separate s all -> only_data s all (fmem s) m' -> cs ⊆ all -> chain s c cs -> chain (set_fmem m' s) c cs.
Proof.
  intros [_ Hs] Ho. revert c. induction cs as [|x cs IH]; intros c Hsub; [done|].
  intros (-> & Hz & E & n & En & Hc). split; [done|]. split; [done|]. split; [done|]. exists n. split.
  - rewrite <-En. unfold get_fat_table_entry, load32, load8. cbn [fmem set_fmem first_fat].
    assert (Hin : c ∈ all) by (apply Hsub; by left).
    rewrite !Ho; [done|..]; intros c' Hc' Hx; (eapply (proj1 (Hs c' c Hc' Hin)); [exact Hx|lia]).
  - apply IH; [|done]. intros y Hy. apply Hsub. by right.
Qed.

Lemma block_frame (s : fat H) m' c b :
  (forall x, in_data s c x -> m' !! x = fmem s !! x) -> block s c b -> block (set_fmem m' s) c b.
Proof.
  intros Hx [Hl Hr]. split; [done|]. rewrite <-Hr. cbn [fmem set_fmem]. apply read_bytes_frame. intros x ?. apply Hx.
  unfold in_data. change (cluster_to_memory_addr c (set_fmem m' s)) with (cluster_to_memory_addr c s) in *. lia.
Qed.

Lemma blocks_only (s : fat H) m' all cs1 cs2 bs1 :
  separate s all -> cs1 ⊆ all -> cs2 ⊆ all -> (forall c, c ∈ cs1 -> c ∈ cs2 -> False) ->
  only_data s cs2 (fmem s) m' -> Forall2 (block s) cs1 bs1 -> Forall2 (block (set_fmem m' s)) cs1 bs1.
Proof.
  intros [_ Hs] H1 H2 Hd Ho Hb. apply Forall2_same_length_lookup in Hb as [Hlen Hb].
  apply Forall2_same_length_lookup. split; [done|].
  intros i c b Hc Hbi. eapply block_frame; [|by eapply Hb]. intros x Hx. apply Ho. intros c' Hc' Hx'.
  apply list_elem_of_lookup_2 in Hc.
  eapply (proj2 (Hs c c' (H1 _ Hc) (H2 _ Hc'))); [|exact Hx|exact Hx']. intros ->. by apply (Hd c').
Qed.

Lemma separate_tail (s : fat H) c cs : separate s (c :: cs) -> separate s cs.
Proof. intros [Hd Hs]. split; [by apply NoDup_cons in Hd as [_ ?]|]. intros a b Ha Hb. apply Hs; by right. Qed.

Lemma read_mapped n a m l : read_bytes n a m = Some l -> mapped a (Z.of_nat n) m.
Proof.
  intros E x Hx. pose proof (read_bytes_lookup _ _ _ _ (Z.to_nat (x - a)) E ltac:(lia)) as El.
  replace (a + Z.of_nat (Z.to_nat (x - a))) with x in El by lia. rewrite <-El. apply lookup_lt_is_Some.
  rewrite (read_bytes_length _ _ _ _ E). lia.
Qed.

Lemma block_mapped (s : fat H) c b off n :
  block s c b -> 0 <= off -> off + n <= cluster_size s -> mapped (cluster_to_memory_addr c s + off) n (fmem s).
Proof. intros [Hl Hr] Ho Hn. eapply mapped_sub; [by eapply read_mapped|lia|lia]. Qed.

Lemma block_put (s : fat H) c b off l :
  block s c b -> 0 <= off -> off + Z.of_nat (length l) <= cluster_size s ->
  block (set_fmem (write_bytes (cluster_to_memory_addr c s + off) l (fmem s)) s) c
    (take (Z.to_nat off) b ++ l ++ drop (Z.to_nat off + length l) b).
Proof.
  intros [Hl Hr] Ho Hn. pose proof (read_bytes_put _ b l (fmem s) (Z.to_nat off) Hr ltac:(lia)) as R.
  pose proof (read_bytes_length _ _ _ _ R) as L. rewrite Z2Nat.id in R by done.
  split; [rewrite L; exact Hl|rewrite L; exact R].
Qed.

Lemma only_data_write (s : fat H) c cs off l :
  c ∈ cs -> 0 <= off -> off + Z.of_nat (length l) <= cluster_size s ->
  only_data s cs (fmem s) (write_bytes (cluster_to_memory_addr c s + off) l (fmem s)).
Proof.
  intros Hc Ho Hl x Hx. rewrite write_bytes_lookup, decide_False; [done|]. intros Hin. apply (Hx c Hc). unfold in_data. lia.
Qed.

Lemma only_data_trans (s : fat H) cs cs' m1 m2 m3 :
  only_data s cs m1 m2 -> only_data s cs' m2 m3 -> cs' ⊆ cs -> only_data s cs m1 m3.
Proof. intros H1 H2 Hs x Hx. rewrite H2, H1; [done|done|]. intros c Hc. apply Hx. by apply Hs. Qed.

Lemma write_loop_ok afuel fuel buffer total left wr prev f (s : fat H) cs bs l :
  (Z.to_nat left <= fuel)%nat -> 0 < cluster_size s < 2 ^ 16 -> 0 < left -> 0 <= wr -> wr + left = total ->
  total < 2 ^ 31 -> chain s (cur_cluster f) cs -> Forall2 (block s) cs bs -> separate s cs ->
  0 <= cur_offset f < cluster_size s -> left <= Z.of_nat (length (drop (Z.to_nat (cur_offset f)) (concat bs))) ->
  bytes_ok (fmem s) -> read_bytes (Z.to_nat left) (buffer + wr) (fmem s) = Some l -> apart (buffer + wr) left s cs ->
  exists c off m' bs', write_loop afuel fuel buffer total left wr prev None f s =
      Ret (total, None, set_pos c off f, set_fmem m' s) /\
    Forall2 (block (set_fmem m' s)) cs bs' /\ concat bs' = put_at (cur_offset f) l (concat bs) /\
    only_data s cs (fmem s) m' /\ bytes_ok m'.
Proof.
  revert left wr prev f s cs bs l. induction fuel as [|fuel IH];
    intros left wr prev f s cs bs l Hf Hc Hl Hw Ht Hb31 Hch Hbl Hsep Ho Hlen Hok Hrd Hap; [lia|].
  cbn [write_loop]. rewrite (proj2 (Z.leb_gt left 0)), cluster_left_nonzero by lia.
  destruct Hbl as [|c b cs bs Hblk Hbl]; [cbn in Hlen; rewrite drop_nil in Hlen; cbn in Hlen; lia|].
  pose proof Hch as (-> & Hz & Ee & nx & En & Hch'). rewrite (proj2 (Z.eqb_neq _ 0) Hz), Ee. cbn [negb andb].
  pose proof Hblk as [Lb Rb]. rewrite bytes_to_copy_min by lia. replace (total - wr) with left by lia.
  set (n := Z.min left (cluster_size s - cur_offset f)). rewrite (u16_id (cur_offset f + n)) by lia.
  pose proof (read_bytes_length _ _ _ _ Hrd) as Ll. cbn [concat] in *. rewrite length_drop, length_app in Hlen.
  assert (Hr1 : read_bytes (Z.to_nat n) (buffer + wr) (fmem s) = Some (take (Z.to_nat n) l)).
  { pose proof (read_bytes_slice (buffer + wr) l (fmem s) 0 (Z.to_nat n)) as E. rewrite Z.add_0_r, drop_0 in E.
    apply E; [by rewrite Ll|lia]. }
  set (l1 := take (Z.to_nat n) l) in *. assert (Ll1 : Z.of_nat (length l1) = n) by (unfold l1; rewrite length_take; lia).
  assert (Emc : sw_memcpy (file_cont f s) (buffer + wr) n (fmem s) =
    Ret (file_cont f s, write_bytes (file_cont f s) l1 (fmem s))).
  { rewrite <-(Z2Nat.id n) by lia. destruct (Hap (cur_cluster f)) as [_ Ha]; [by left|]. unfold file_cont.
    apply memcpy_spec; [done|done| |lia|lia]. eapply block_mapped; [done|lia|lia]. }
  rewrite Emc. cbn [mbind res_bind]. unfold file_cont. set (m1 := write_bytes _ l1 (fmem s)).
  assert (Hb1 : block (set_fmem m1 s) (cur_cluster f) (put_at (cur_offset f) l1 b)) by (apply block_put; [done|lia|lia]).
  assert (Ho1 : only_data s (cur_cluster f :: cs) (fmem s) m1) by (apply only_data_write; [by left|lia|lia]).
  assert (Hok1 : bytes_ok m1).
  { apply bytes_ok_write; [done|]. eapply read_bytes_ok; [exact Hok|exact Hr1]. }
  assert (Hin : (cur_cluster f :: cs) ⊆ cur_cluster f :: cs) by done.
  pose proof (chain_only s _ m1 _ _ Hsep Ho1 Hin Hch) as (_ & _ & _ & nx1 & En1 & Hch1).
  assert (Hbl1 : Forall2 (block (set_fmem m1 s)) cs bs).
  { apply (blocks_only s m1 (cur_cluster f :: cs) cs [cur_cluster f]); [done|set_solver|set_solver| | |done].
    - destruct Hsep as [Hd _]. apply NoDup_cons in Hd as [Hd _]. intros c Hcin ->%list_elem_of_singleton. done.
    - apply only_data_write; [by left|lia|lia]. }
  change (cluster_size (set_fmem m1 s)) with (cluster_size s).
  destruct (Z.eq_dec n left) as [E|E].
  - (* the last step *)
    assert (El : l1 = l) by (apply take_ge; lia). rewrite El in *. replace (left - n) with 0 by lia.
    change (negb (0 =? 0)) with false.
    exists (if cur_offset f + n =? cluster_size s then nx1 else cur_cluster f), (cur_offset f + n), m1,
      (put_at (cur_offset f) l b :: bs).
    split; [|split; [by constructor|split; [by rewrite put_at_app_l by lia|by split]]].
    destruct (cur_offset f + n =? cluster_size s); [rewrite En1|]; cbn [mbind res_bind mret res_ret]; rewrite andb_false_r;
      (destruct fuel; cbn [write_loop]; [|]; f_equal; f_equal; f_equal; f_equal; lia).
  - rewrite (proj2 (Z.eqb_eq (cur_offset f + n) _)) by lia. rewrite En1. cbn [mbind res_bind].
    rewrite (proj1 (chain_next _ nx1 cs b bs (left - n) Hch1 Hbl1 ltac:(lia))).
    destruct (IH (left - n) (wr + n) (cur_cluster f) (set_pos nx1 0 f) (set_fmem m1 s) cs bs (drop (Z.to_nat n) l))
      as (c & off & m' & bs' & E' & Hb' & Hput & Ho' & Hok'); try done; cbn [cur_offset cur_cluster set_pos]; try lia.
    + by apply separate_tail in Hsep.
    + cbn [cluster_size set_fmem]. lia.
    + change (Z.to_nat 0) with 0%nat. rewrite drop_0. lia.
    + cbn [fmem set_fmem]. destruct (Hap (cur_cluster f)) as [_ Ha]; [by left|].
      unfold m1. rewrite read_bytes_write by lia.
      pose proof (read_bytes_slice (buffer + wr) l (fmem s) (Z.to_nat n) (Z.to_nat (left - n))) as R.
      rewrite Ll, take_ge in R by (rewrite length_drop; lia).
      replace (buffer + (wr + n)) with (buffer + wr + Z.of_nat (Z.to_nat n)) by lia. apply R; [done|lia].
    + refine (apart_sub (buffer + wr) left (buffer + (wr + n)) (left - n) s cs _ _ _); [|lia|lia].
      intros x Hx. apply Hap. by right.
    + exists c, off, m', (put_at (cur_offset f) l1 b :: bs').
      split; [exact E'|]. split; [|split; [|split; [|exact Hok']]].
      * constructor; [|exact Hb']. apply (block_frame (set_fmem m1 s)); [|exact Hb1]. intros x Hx. apply Ho'. intros c' Hc' Hx'.
        eapply (proj2 (proj2 Hsep (cur_cluster f) c' ltac:(by left) ltac:(by right))); [|exact Hx|exact Hx'].
        intros <-. destruct Hsep as [Hd _]. apply NoDup_cons in Hd as [Hd _]. done.
      * cbn [concat]. cbn [cur_offset set_pos] in Hput. rewrite Hput. rewrite <-(take_drop (Z.to_nat n) l) at 2.
        symmetry. apply put_at_cross; [fold l1; lia|lia].
      * eapply only_data_trans; [exact Ho1|exact Ho'|set_solver].
Qed.

Lemma blocks_length (s : fat H) cs1 bs1 :
  Forall2 (block s) cs1 bs1 -> Z.of_nat (length (concat bs1)) = cluster_size s * Z.of_nat (length cs1).
Proof.
  induction 1 as [|c b cs bs [Hl _] Hb IH]; cbn [concat length]; [lia|]. rewrite length_app. lia.
Qed.

(** An open file: its chain, in two parts with the current cluster at the
    start of the second, their blocks, and a position inside. *)
Record opened (d : Z) (f : file_info) (cs1 cs2 : list Z) (bs1 bs2 : list (list Z)) (s : fat H) : Prop := {
  op_find : find_file d s = Ret f;
  op_cluster : 0 < cluster_size s < 2 ^ 16;
  op_chain : chain s (strt_cluster f) (cs1 ++ cs2);
  op_cur : chain s (cur_cluster f) cs2;
  op_bs1 : Forall2 (block s) cs1 bs1;
  op_bs2 : Forall2 (block s) cs2 bs2;
  op_sep : separate s (cs1 ++ cs2);
  op_off : 0 <= cur_offset f < cluster_size s;
  op_pos : bytes_traversed f = cluster_size s * Z.of_nat (length cs1) + cur_offset f;
  op_size : file_size f <= Z.of_nat (length (concat (bs1 ++ bs2)));
  op_bound : file_size f < 2 ^ 31;
  op_bytes : bytes_ok (fmem s);
}.

Lemma file_write_ok afuel junk d buffer n l f cs1 cs2 bs1 bs2 (s : fat H) :
  opened d f cs1 cs2 bs1 bs2 s -> mode f <> FILE_READ -> 0 < n -> bytes_traversed f + n <= file_size f ->
  read_bytes (Z.to_nat n) buffer (fmem s) = Some l -> apart buffer n s (cs1 ++ cs2) ->
  exists c off m' bs', file_write afuel junk d buffer n s =
      Ret (n, put_file (set_traversed (bytes_traversed f + n) (set_pos c off f)) (set_fmem m' s)) /\
    chain (set_fmem m' s) (strt_cluster f) (cs1 ++ cs2) /\ Forall2 (block (set_fmem m' s)) (cs1 ++ cs2) bs' /\
    concat bs' = put_at (bytes_traversed f) l (concat (bs1 ++ bs2)) /\
    only_data s (cs1 ++ cs2) (fmem s) m' /\ bytes_ok m'.
Proof.
  intros [Hf Hc Hch Hcu Hb1 Hb2 Hsep Ho Hp Hs Hs31 Hok] Hm Hn Hsz Hrd Hap.
  pose proof (blocks_length s cs1 bs1 Hb1) as L1. rewrite concat_app, length_app in Hs.
  assert (Hsep2 : separate s cs2).
  { destruct Hsep as [Hd Hsp]. split; [by apply NoDup_app in Hd as (_ & _ & ?)|]. intros a b Ha Hb.
    apply Hsp; apply elem_of_app; by right. }
  assert (Hap2 : apart (buffer + 0) n s cs2).
  { rewrite Z.add_0_r. intros x Hx. apply Hap. apply elem_of_app. by right. }
  destruct (write_loop_ok afuel (Z.to_nat (2 * n + 1)) buffer n n 0 junk f s cs2 bs2 l)
    as (c & off & m' & bs' & E & Hb' & Hput & Ho' & Hok'); try done; try lia.
  { rewrite length_drop. lia. }
  { by rewrite Z.add_0_r. }
  exists c, off, m', (bs1 ++ bs'). unfold file_write. rewrite Hf. cbn [mbind res_bind].
  rewrite (proj2 (Z.eqb_neq _ _) Hm), E. cbn [mbind res_bind bytes_traversed file_size set_traversed set_pos].
  rewrite (u32_id n), (u32_id (bytes_traversed f + n)) by (unfold in_u32; lia).
  rewrite (proj2 (Z.ltb_ge (file_size f) n)) by lia. cbn [mbind res_bind mret res_ret].
  assert (Hoall : only_data s (cs1 ++ cs2) (fmem s) m').
  { intros x Hx. apply Ho'. intros y Hy. apply Hx. apply elem_of_app. by right. }
  split; [reflexivity|]. split; [by apply (chain_only s (cs1 ++ cs2))|]. split; [|split; [|by split]].
  - apply Forall2_app; [|exact Hb']. apply (blocks_only s m' (cs1 ++ cs2) cs1 cs2); try done; [set_solver|set_solver|].
    destruct Hsep as [Hd _]. apply NoDup_app in Hd as (_ & Hd & _). exact Hd.
  - rewrite !concat_app, Hput, put_at_app_r by lia. do 2 f_equal. lia.
Qed.

Lemma only_data_read (s : fat H) cs a n m' k b :
  only_data s cs (fmem s) m' -> apart a n s cs -> a <= b -> b + Z.of_nat k <= a + n -> read_bytes k b m' = read_bytes k b (fmem s).
Proof.
  intros Ho Ha H1 H2. apply read_bytes_frame. intros x Hx. apply Ho. intros c Hc Hin. destruct (Ha c Hc) as [_ Hd].
  unfold in_data in Hin. lia.
Qed.

Lemma only_data_mapped (s : fat H) cs a n m' :
  only_data s cs (fmem s) m' -> apart a n s cs -> mapped a n (fmem s) -> mapped a n m'.
Proof.
  intros Ho Ha Hm x Hx. rewrite Ho; [by apply Hm|]. intros c Hc Hin. destruct (Ha c Hc) as [_ Hd].
  unfold in_data in Hin. lia.
Qed.

End write.

(** The image of the reading example, opened for writing. *)
Definition rw_file : file_info := FileInfo 8000 3 8200 8300 3 3 6 20 FILE_WRITE 6 2048.
Definition rw_image : fat () := set_files [rw_file] image.

Lemma image_separate : separate image [3; 5].
Proof.
  split; [by apply (bool_decide_unpack (NoDup [3; 5]))|]. unfold in_data.
  change (first_fat image) with 1024. change (cluster_size image) with 16.
  assert (E3 : cluster_to_memory_addr 3 image = 2064) by done.
  assert (E5 : cluster_to_memory_addr 5 image = 2096) by done.
  intros c c' [E|E%list_elem_of_singleton]%elem_of_cons [E'|E'%list_elem_of_singleton]%elem_of_cons; subst c c';
    rewrite ?E3, ?E5; change (u32 (3 * 4)) with 12; change (u32 (5 * 4)) with 20; split; intros; lia.
Qed.

Lemma rw_opened : opened 3 rw_file [] [3; 5] [] [Z.of_nat <$> seq 16 16; Z.of_nat <$> seq 48 16] rw_image.
Proof.
  split; try done.
  - exact (chain_files [rw_file] image 3 _ image_chain).
  - exact (chain_files [rw_file] image 3 _ image_chain).
  - exact image_blocks.
  - exact image_separate.
  - exact image_ok.
Qed.


(** ** Positions at the end of a cluster *)

Definition demo_result {A} (r : res (A * fat ())) : option A := match r with Ret (a, _) => Some a | _ => None end.

(** A write that ends with a cluster moves to the next one but keeps the
    offset behind the end: the next read passes over that cluster, here the
    file's last, and returns nothing of the four bytes that are left. *)
Lemma write_ends_at_boundary : demo_result (
    '(_, s) ← file_seek 8 8 77 77 3 0 FILE_SEEK_SET rw_image;
    '(n, s) ← file_write 8 77 3 4096 16 s;
    '(k, s) ← file_read 3 4096 4 s; mret ((n, k), s)) = Some (16, 0).
Proof. by vm_compute. Qed.

(** After a read that ends with a cluster, a seek forward from the current
    position starts again in that cluster: two bytes forward from 16 is
    position 2. *)
Lemma seek_cur_at_boundary : demo_result (
    '(n, s) ← file_read 3 4096 10 image;
    '(p, s) ← file_seek 8 8 77 77 3 2 FILE_SEEK_CUR s; mret ((n, p), s)) = Some (10, 2).
Proof. by vm_compute. Qed.

(** Appending to a file that fills its clusters links the new cluster through
    [prev_cluster], which is not set yet: the chain of the file is not
    extended, and the entry of another cluster is overwritten. *)
Definition full_file : file_info := FileInfo 8000 3 8200 8300 3 0x0FFFFFFF 16 32 FILE_WRITE 32 2048.
Lemma append_uses_unset : demo_result (
    '(n, s) ← file_write 8 4 3 4096 4 (set_fmem (write_bytes 1260 [5; 0; 0; 0] image_mem) (set_files [full_file] image));
    c5 ← get_fat_table_entry 5 s; c4 ← get_fat_table_entry 4 s; mret ((n, c5, c4), s)) = Some (4, 0x0FFFFFFF, 6).
Proof. by vm_compute. Qed.
