(* ===== verification/FatDir.v ===== *)
(** [fs/fat32.c], the directory side: names, directory entries, creating,
    opening, renaming, truncating and removing files. *)
From stdpp Require Import prelude gmap.
From S2P Require Import Prelude HeapIface MemFn StrFn Words Fat.
#[local] Open Scope Z_scope.

Definition MAX_DIR_ENTRY_CNT : Z := 16.
Definition SHRT_FILE_NAME_LEN : Z := 11.
Definition ATTR_OFF : Z := 11.
Definition FILE_STAT_LEN : Z := 21.
Definition CHECK_SUM_OFF : Z := 13.
Definition FILE_NAME_SHRT_LEN : Z := 8.
Definition FILE_NAME_EXTN_LEN : Z := 3.
Definition LONG_FILE_NAME_LEN : Z := 255.
Definition LONG_FNAME_MASK : Z := 0x0F.
Definition LAST_ORD_FIELD_SEQ : Z := 0x40.
Definition LFN_END_MARK : Z := 0xFFFF.
Definition LFN_TERM_MARK : Z := 0.
Definition LFN_LEN_PER_ENTRY : Z := 13.
Definition FNAME_EXTN_SEP_OFF : Z := 6.
Definition FNAME_SEQ_NUM_OFF : Z := 7.
Definition SPACE_VAL : Z := 32.
Definition ATTR_ARCHIVE : Z := 0x20.
Definition ATTR_LONG_FNAME : Z := 0x0F.
Definition FREE_DIR_ENTRY : Z := 0.
Definition DEL_DIR_ENTRY : Z := 0xE5.
Definition ASCII_DIFF : Z := 32.
Definition DELIMITER : Z := 47.
Definition EXTN_DELIMITER : Z := 46.
Definition TILDE : Z := 126.

(** ** Names *)

Fixpoint check_sum_loop (n : nat) (p sum : Z) (m : mem) : res Z :=
  match n with
  | O => mret sum
  | S n => v ← load8 p m; check_sum_loop n (p + 1) (u8 (Z.shiftl (Z.land sum 1) 7 + Z.shiftr sum 1 + v)) m
  end.
Definition calc_check_sum (dir_entry : Z) (m : mem) : res Z :=
  check_sum_loop (Z.to_nat SHRT_FILE_NAME_LEN) dir_entry 0 m.

Fixpoint req_loop (fuel : nat) (len req_cnt : Z) : Z * Z :=
  match fuel with
  | O => (len, req_cnt)
  | S n => if len >=? LFN_LEN_PER_ENTRY then req_loop n (len - LFN_LEN_PER_ENTRY) (req_cnt + 1) else (len, req_cnt)
  end.

(** [req_cnt = len != 0 ? req_cnt++ : req_cnt] assigns and increments without a
    sequence point: [postinc] is what the compiler makes of it. *)
Definition cal_req_dir_cnt (postinc : Z -> Z) (file_name_len : Z) : Z :=
  let '(len, req_cnt) := req_loop (Z.to_nat file_name_len) file_name_len 0 in
  if negb (len =? 0) then postinc req_cnt else req_cnt.

(** [n] characters are left; the one behind them is read, too. *)
Fixpoint upper_loop (n : nat) (name : Z) (m : mem) : res mem :=
  v ← load8 name m;
  if v =? 0 then mret m else
  match n with
  | O => mret m
  | S n => m ← store8 name (if (97 <=? v) && (v <=? 122) then v - ASCII_DIFF else v) m; upper_loop n (name + 1) m
  end.
Definition convert_to_uppercase (file_name : Z) (m : mem) : res mem :=
  upper_loop (Z.to_nat SHRT_FILE_NAME_LEN) file_name m.

(** A path, and a pointer into one, is the list of its bytes up to the
    terminator and with it; reading behind it faults. *)
Fixpoint find_depth (path : list Z) : res Z :=
  match path with
  | [] => Fault
  | c :: path =>
      if c =? 0 then mret 0 else n ← find_depth path; mret (if c =? DELIMITER then n + 1 else n)
  end.

(** The walk back to the last [EXTN_DELIMITER]. *)
Fixpoint find_extn (n : nat) (end_ : Z) (m : mem) : res Z :=
  v ← load8 end_ m;
  if v =? EXTN_DELIMITER then mret end_ else
  match n with O => mret end_ | S n => find_extn n (end_ - 1) m end.

(** [n] is [6 - len]. *)
Fixpoint short_stem (n : nat) (start end_ sfname len : Z) (m : mem) : res mem :=
  v ← load8 start m;
  if v =? 0 then mret m else
  match n with
  | O => mret m
  | S n =>
      if (v =? EXTN_DELIMITER) && (start =? end_) then mret m else
      let start := if v =? EXTN_DELIMITER then start + 1 else start in
      c ← load8 start m; m ← store8 (sfname + len) c m; short_stem n (start + 1) end_ sfname (len + 1) m
  end.

(** [n] is [FILE_NAME_EXTN_LEN - extn_cnt]. *)
Fixpoint short_extn (n : nat) (end_ lfname sfname len : Z) (m : mem) : res mem :=
  v ← load8 end_ m;
  if (v =? DELIMITER) || (v =? 0) then mret m else
  match n with
  | O => mret m
  | S n =>
      if end_ =? lfname then mret m else
      let end_ := if v =? EXTN_DELIMITER then end_ + 1 else end_ in
      c ← load8 end_ m; m ← store8 (sfname + len) c m; short_extn n (end_ + 1) lfname sfname (len + 1) m
  end.

Definition get_short_file_name (lfname sfname seq_num : Z) (m : mem) : res mem :=
  '(_, m) ← sw_memset sfname SPACE_VAL SHRT_FILE_NAME_LEN m;
  e ← find_nul (str_fuel m) lfname m;
  e ← find_extn (Z.to_nat (e - lfname)) e m;
  m ← short_stem 6 lfname e sfname 0 m;
  m ← store8 (sfname + FNAME_EXTN_SEP_OFF) TILDE m;
  m ← store8 (sfname + FNAME_SEQ_NUM_OFF) seq_num m;
  short_extn (Z.to_nat FILE_NAME_EXTN_LEN) e lfname sfname FILE_NAME_SHRT_LEN m.

(** ** Long names in directory entries *)

(** One of the three loops of [lfn_entry_to_name]: whether the name ended. *)
Fixpoint name_loop (n : nat) (p lfname index : Z) (m : mem) : res (bool * Z * mem) :=
  match n with
  | O => mret (false, index, m)
  | S n =>
      v ← load8 p m;
      if v =? 0 then mret (true, index, m) else
      m ← store8 (lfname + index) v m; name_loop n (p + 2) lfname (index + 1) m
  end.
Definition lfn_entry_to_name (entry lfname index : Z) (m : mem) : res (bool * Z * mem) :=
  '(ends, index, m) ← name_loop 5 (entry + 1) lfname index m;
  if ends : bool then mret (true, index, m) else
  '(ends, index, m) ← name_loop 6 (entry + 14) lfname index m;
  if ends : bool then mret (true, index, m) else
  name_loop 2 (entry + 28) lfname index m.

Fixpoint last_lfn (fuel : nat) (lf_ptr : Z) (m : mem) : res Z :=
  match fuel with
  | O => Fault
  | S n =>
      v ← load8 lf_ptr m;
      if (v >? 1) && (Z.land v LONG_FNAME_MASK >? 1) then last_lfn n (lf_ptr + DIR_ENTRY_LEN) m else mret lf_ptr
  end.

Fixpoint collect_lfn (counter : nat) (lf_ptr fname index chk_sum : Z) (m : mem) : res (Z * mem) :=
  match counter with
  | O => mret (index, m)
  | S n =>
      c ← load8 (lf_ptr + CHECK_SUM_OFF) m;
      if c =? chk_sum then
        '(ends, index, m) ← lfn_entry_to_name lf_ptr fname index m;
        if ends : bool then mret (index, m) else collect_lfn n (lf_ptr - DIR_ENTRY_LEN) fname index chk_sum m
      else collect_lfn n lf_ptr fname index chk_sum m
  end.

(** The length, [*dir_strt], [*count] and the memory. *)
Definition get_long_file_name (fuel : nat) (fname dir_strt : Z) (m : mem) : res (Z * Z * Z * mem) :=
  ord ← load8 dir_strt m;
  let counter := Z.land ord LONG_FNAME_MASK in
  lf_ptr ← last_lfn fuel dir_strt m;
  chk_sum ← calc_check_sum (lf_ptr + DIR_ENTRY_LEN) m;
  '(index, m) ← collect_lfn (Z.to_nat counter) lf_ptr fname 0 chk_sum m;
  mret (index - 1, lf_ptr + DIR_ENTRY_LEN, counter, m).

(** One of the three parts of an entry: the name, whether its end was
    written, and the memory. *)
Fixpoint fill_loop (n : nat) (lf_entry file_name : Z) (end_of_name : bool) (m : mem) : res (Z * bool * mem) :=
  match n with
  | O => mret (file_name, end_of_name, m)
  | S n =>
      v ← load8 file_name m;
      if v =? 0 then
        m ← store16 lf_entry (if end_of_name then LFN_END_MARK else LFN_TERM_MARK) m;
        fill_loop n (lf_entry + 2) file_name true m
      else m ← store8 lf_entry v m; fill_loop n (lf_entry + 2) (file_name + 1) end_of_name m
  end.

Fixpoint fill_entries (count : nat) (lfn_ent file_name : Z) (end_of_name : bool) (ord_num chk_sum : Z) (m : mem) : res mem :=
  match count with
  | O => mret m
  | S count =>
      '(_, m) ← sw_memset lfn_ent 0 DIR_ENTRY_LEN m;
      m ← store8 lfn_ent (if (count =? 1)%nat then ord_num else Z.lor ord_num LAST_ORD_FIELD_SEQ) m;
      m ← store8 (lfn_ent + ATTR_OFF) ATTR_LONG_FNAME m;
      m ← store8 (lfn_ent + CHECK_SUM_OFF) chk_sum m;
      '(file_name, end_of_name, m) ← fill_loop 5 (lfn_ent + 1) file_name end_of_name m;
      '(file_name, end_of_name, m) ← fill_loop 6 (lfn_ent + 14) file_name end_of_name m;
      '(file_name, end_of_name, m) ← fill_loop 2 (lfn_ent + 28) file_name end_of_name m;
      fill_entries count (lfn_ent - DIR_ENTRY_LEN) file_name end_of_name (ord_num + 1) chk_sum m
  end.
Definition fill_lng_fname_entries (fname entry chk_sum : Z) (count : nat) (m : mem) : res mem :=
  fill_entries count (entry - DIR_ENTRY_LEN) fname false 1 chk_sum m.

Section dir.
Context {H : Type} `{PrivateHeap H} (hid : Z).
(** The arrays [long_file_name] and [shrt_file_name] of [file_open] and
    [temp_lfn] of [get_dir_entry]; their contents at the start are what the
    stack holds. *)
Context (long_file_name shrt_file_name temp_lfn : Z) (postinc : Z -> Z).

Definition liftm (r : res mem) (s : fat H) : res (fat H) := m ← r; mret (set_fmem m s).

(** ** Directory entries *)

(** A copy of the entry at [dir_strt] in a new block; a null pointer is
    written through. *)
Definition copy_entry (dir_strt : Z) (s : fat H) : res (Z * fat H) :=
  '(p, s) ← f_malloc hid DIR_ENTRY_LEN s;
  if p =? 0 then Fault else
  e ← of_opt (read_bytes (Z.to_nat DIR_ENTRY_LEN) dir_strt (fmem s));
  mret (p, set_dir_file_offset dir_strt (set_blocks (fheap s) (<[p := e]> (entries s)) (paths s) s)).

(** The loop of [get_dir_entry]: the address of the entry that was found. *)
Fixpoint dir_loop (fuel : nat) (fname : Z) (is_lfn : bool) (next_clus dir_strt i : Z) (s : fat H)
    : res (option Z * fat H) :=
  if (next_clus =? END_OF_CLUSTER) && (i =? MAX_DIR_ENTRY_CNT + 2) && negb (next_clus =? END_OF_ROOT_CLUSTER)
  then mret (None, s) else
  match fuel with
  | O => Fault
  | S n =>
      '(stop, next_clus, dir_strt, i) ←
        (if (i - MAX_DIR_ENTRY_CNT =? 1) && negb (ends_chain next_clus) then
           c ← get_fat_table_entry next_clus s;
           mret (if ends_chain c then (true, c, dir_strt, i) else (false, c, cluster_to_memory_addr c s, 0))
         else mret (false, next_clus, dir_strt, i));
      if stop : bool then mret (None, s) else
      '(found, dir_strt, tmp_cnt, s) ←
        (if is_lfn then
           attr ← load8 (dir_strt + ATTR_OFF) (fmem s);
           if attr =? ATTR_LONG_FNAME then
             '(lfn_len, dir_strt, cnt, m) ← get_long_file_name fuel temp_lfn dir_strt (fmem s);
             c ← sw_memcmp temp_lfn fname lfn_len m; mret (c =? 0, dir_strt, cnt, set_fmem m s)
           else mret (false, dir_strt, 0, s)
         else c ← sw_memcmp fname dir_strt SHRT_FILE_NAME_LEN (fmem s); mret (c =? 0, dir_strt, 0, s));
      if found : bool then mret (Some dir_strt, s) else
      dir_loop n fname is_lfn next_clus (dir_strt + DIR_ENTRY_LEN) (if negb (tmp_cnt =? 0) then i + tmp_cnt else i + 1) s
  end.

(** Whether the name was found and, when asked for, the new value of
    [*entry]. *)
Definition get_dir_entry (fuel : nat) (fname : Z) (want_entry : bool) (strt strt_clus : Z) (is_lfn : bool) (s : fat H)
    : res (bool * option Z * fat H) :=
  '(_, m) ← sw_memset temp_lfn SPACE_VAL LONG_FILE_NAME_LEN (fmem s);
  '(r, s) ← dir_loop fuel fname is_lfn strt_clus strt 0 (set_fmem m s);
  match r with
  | Some dir_strt =>
      if want_entry then '(p, s) ← copy_entry dir_strt s; mret (true, Some p, s) else mret (true, None, s)
  | None => mret (false, None, s)
  end.

(** ** Creating *)

(** The search for [req_ent_cnt] entries: [cur_dir_entry], [j] and [k]. *)
Fixpoint gap_loop (req_ent_cnt : nat) (cur j k : Z) (m : mem) : res (Z * Z * Z) :=
  match req_ent_cnt with
  | O => mret (cur, j, k)
  | S n =>
      if k - MAX_DIR_ENTRY_CNT =? 1 then mret (cur, j, k) else
      v ← load8 cur m;
      if (v =? FREE_DIR_ENTRY) || (v =? DEL_DIR_ENTRY) then gap_loop n (cur + DIR_ENTRY_LEN) (j + 1) (k + 1) m
      else gap_loop n cur j (k + 1) m
  end.

(** The entry of the short name, with no cluster and size 0. *)
Definition new_entry (cur shrt_name : Z) (s : fat H) : res (Z * fat H) :=
  '(_, m) ← sw_memset cur 0 DIR_ENTRY_LEN (fmem s);
  '(_, m) ← sw_memcpy cur shrt_name SHRT_FILE_NAME_LEN m;
  m ← store8 (cur + ATTR_OFF) ATTR_ARCHIVE m;
  copy_entry cur (set_fmem m s).

(** The loop of [create_file]; [new] is [new_clus] with [new_clus_cnt > 0].
    The result is [*entry]. *)
Fixpoint create_loop (fuel afuel : nat) (lfname shrt_name lfptr i next_clus cur k : Z) (new : option Z) (s : fat H)
    : res (Z * fat H) :=
  match fuel with
  | O => Fault
  | S n =>
      '(next_clus, cur, k, new, s) ←
        (if k - MAX_DIR_ENTRY_CNT =? 1 then
           c ← get_fat_table_entry next_clus s;
           let cur := cluster_to_memory_addr c s in
           if ends_chain c then
             '(new_clus, s) ← allocate_cluster afuel s;
             s ← write_fat_table next_clus new_clus s;
             mret (c, cur, 0, Some new_clus, s)
           else mret (c, cur, k, new, s)
         else mret (next_clus, cur, k, new, s));
      '(is_gap_found, lfptr, i, cur, k, s) ←
        (if negb (lfname =? 0) then
           chk_sum ← calc_check_sum shrt_name (fmem s);
           e ← find_nul (str_fuel (fmem s)) lfptr (fmem s);
           let i := i + (e - lfptr) in
           let req := cal_req_dir_cnt postinc i in
           '(cur, j, k) ← gap_loop (Z.to_nat req) cur 0 k (fmem s);
           if j =? req then
             s ← liftm (fill_lng_fname_entries lfname cur chk_sum (Z.to_nat req) (fmem s)) s; mret (true, e, i, cur, k, s)
           else mret (false, e, i, cur, k, s)
         else
           v ← load8 cur (fmem s);
           mret ((v =? FREE_DIR_ENTRY) || (v =? DEL_DIR_ENTRY), lfptr, i, cur, k + 1, s));
      if is_gap_found : bool then
        '(p, s) ← new_entry cur shrt_name s;
        s ← (match new with Some c => write_fat_table c END_OF_CLUSTER s | None => mret s end);
        mret (p, s)
      else
        s ← (match new with Some c => write_fat_table c END_OF_CLUSTER s | None => mret s end);
        create_loop n afuel lfname shrt_name lfptr i next_clus (cur + DIR_ENTRY_LEN) k new s
  end.

(** It returns 0, with [*entry]. *)
Definition create_file (fuel afuel : nat) (lfname shrt_name clus : Z) (s : fat H) : res (Z * fat H) :=
  create_loop fuel afuel lfname shrt_name lfname 0 clus (cluster_to_memory_addr clus s) 0 None s.

(** ** Opening *)

Definition chr (p : list Z) : res Z := match p with c :: _ => mret c | [] => Fault end.

(** The characters of a component up to the extension. *)
Fixpoint copy_stem (path : list Z) (len : Z) (m : mem) : res (list Z * Z * mem) :=
  match path with
  | [] => Fault
  | c :: p =>
      if (c =? EXTN_DELIMITER) || (c =? 0) || (c =? DELIMITER) || (LONG_FILE_NAME_LEN <=? len) then mret (path, len, m)
      else m ← store8 (long_file_name + len) c m; copy_stem p (len + 1) m
  end.

(** [extn_len_cnt] *)
Fixpoint count_extn (path : list Z) (cnt : Z) : res Z :=
  match path with
  | [] => Fault
  | c :: p => if (c =? DELIMITER) || (c =? 0) then mret cnt else count_extn p (cnt + 1)
  end.

Fixpoint copy_long (path : list Z) (len : Z) (m : mem) : res (list Z * Z * mem) :=
  if LONG_FILE_NAME_LEN <=? len then mret (path, len, m) else
  match path with
  | [] => Fault
  | c :: p =>
      if (c =? 0) || (c =? DELIMITER) then mret (path, len, m)
      else m ← store8 (long_file_name + len) c m; copy_long p (len + 1) m
  end.

(** The extension goes behind the eight characters of the name; [n] is
    [SHRT_FILE_NAME_LEN - len]. *)
Fixpoint copy_extn (n : nat) (path : list Z) (len : Z) (m : mem) : res (list Z * Z * mem) :=
  match n with
  | O => mret (path, len, m)
  | S n =>
      c ← chr path;
      if (c =? 0) || (c =? DELIMITER) then mret (path, len, m) else
      let path := if c =? EXTN_DELIMITER then tail path else path in
      c ← chr path; m ← store8 (long_file_name + len) c m; copy_extn n (tail path) (len + 1) m
  end.

(** The variables of [file_open] that its loop changes; [None] where they are
    not set yet. *)
Record walk : Type := Walk {
  w_path : list Z; w_delim : option (list Z); w_len : Z; w_extn : Z; w_long : bool; w_entry : Z;
  w_pwd : Z; w_clus : Z; w_found : bool;
}.

Definition free_entry (p : Z) (s : fat H) : res (fat H) := if negb (p =? 0) then f_free hid p s else mret s.

(** One round of the loop; [last] is [i == delim_cnt - 1]. *)
Definition open_component (fuel : nat) (last : bool) (w : walk) (s : fat H) : res (walk * fat H) :=
  c ← chr (w_path w);
  let '(delim, path) := if c =? DELIMITER then (Some (w_path w), tail (w_path w)) else (w_delim w, w_path w) in
  '(path, len, m) ← copy_stem path (w_len w) (fmem s);
  c ← chr path;
  extn ← (if c =? EXTN_DELIMITER then count_extn (tail path) (w_extn w) else mret (w_extn w));
  let long := w_long w || (len >? FILE_NAME_SHRT_LEN) || (extn >? FILE_NAME_EXTN_LEN) in
  '(path, len, m) ←
    (if long then
       path ← of_opt delim;
       c ← chr path;
       '(path, len, m) ← copy_long (if c =? DELIMITER then tail path else path) 0 m;
       m ← store8 (long_file_name + len) 0 m; mret (path, len, m)
     else
       '(path, len, m) ← copy_extn (Z.to_nat (SHRT_FILE_NAME_LEN - FILE_NAME_SHRT_LEN)) path FILE_NAME_SHRT_LEN m;
       m ← convert_to_uppercase long_file_name m; mret (path, len, m));
  s ← free_entry (w_entry w) (set_fmem m s);
  '(found, entry, s) ← get_dir_entry fuel long_file_name true (w_pwd w) (w_clus w) long s;
  let entry := default 0 entry in
  if found && negb last then
    e ← of_opt (entries s !! entry);
    let clus := ent_strt_clus e in
    '(_, m) ← sw_memset shrt_file_name SPACE_VAL SHRT_FILE_NAME_LEN (fmem s);
    '(_, m) ← sw_memset long_file_name SPACE_VAL LONG_FILE_NAME_LEN m;
    mret (Walk path delim 0 0 false entry (cluster_to_memory_addr clus s) clus found, set_fmem m s)
  else mret (Walk path delim len extn long entry (w_pwd w) (w_clus w) found, s).

(** [n] components are left. *)
Fixpoint walk_path (fuel n : nat) (w : walk) (s : fat H) : res (walk * fat H) :=
  match n with
  | O => mret (w, s)
  | S n => '(w, s) ← open_component fuel (n =? 0)%nat w s; walk_path fuel n w s
  end.

Fixpoint chk_lock (path : list Z) (l : list file_info) (ps : gmap Z (list Z)) : res Z :=
  match l with
  | [] => mret 0
  | f :: l =>
      p ← of_opt (ps !! fi_path f);
      if (lex_cmp p path =? 0) && negb (Z.land (mode f) FILE_WRITE =? 0) then mret (-1) else chk_lock path l ps
  end.
Definition chk_file_lock (path : list Z) (s : fat H) : res Z := chk_lock path (files s) (paths s).

(** The search for a short name that is not in use.  The sequence number after
    the first is the multi-character constant ['seq_num'], as a character its
    last letter; a second name in use is tried for ever. *)
Fixpoint fresh_name (fuel sfuel : nat) (strt clus : Z) (s : fat H) : res (fat H) :=
  match fuel with
  | O => Fault
  | S n =>
      '(found, _, s) ← get_dir_entry sfuel shrt_file_name false strt clus false s;
      if found : bool then
        m ← get_short_file_name long_file_name shrt_file_name 109 (fmem s); fresh_name n sfuel strt clus (set_fmem m s)
      else mret s
  end.

Definition sizeof_file_info : Z := 44.

(** The path without its terminator; [junk_found] is the value of
    [is_file_found] when the path has no delimiter. *)
Definition file_open (fuel afuel : nat) (junk_found : bool) (file_path : list Z) (flags : Z) (s : fat H)
    : res (Z * fat H) :=
  '(_, m) ← sw_memset long_file_name SPACE_VAL LONG_FILE_NAME_LEN (fmem s);
  delim_cnt ← find_depth (file_path ++ [0]);
  '(w, s) ← walk_path fuel (Z.to_nat delim_cnt)
    (Walk (file_path ++ [0]) None 0 0 false 0 (root_directory s) (rt_dir_strt_clus s) junk_found) (set_fmem m s);
  if w_found w then
    '(refused, flags) ←
      (if negb (Z.land flags FILE_WRITE =? 0) then
         lock ← chk_file_lock file_path s;
         e ← of_opt (entries s !! w_entry w);
         mret (negb (Z.land (ent_attr e) ATTR_READ =? 0), if lock =? -1 then FILE_READ else flags)
       else mret (false, flags));
    if refused : bool then mret (-1, s) else
    '(info, s) ← f_malloc hid sizeof_file_info s;
    retrieve_file_info hid info (w_entry w) flags (dir_file_offset s) file_path s
  else if negb (Z.land flags FILE_CREATE_NEW =? 0) || negb (Z.land flags FILE_CREATE_ALWAYS =? 0)
          || negb (Z.land flags FILE_WRITE =? 0) then
    '(entry, s) ←
      (if w_long w then
         m ← get_short_file_name long_file_name shrt_file_name 1 (fmem s);
         '(used, _, s) ← get_dir_entry fuel shrt_file_name false (w_pwd w) (w_clus w) false (set_fmem m s);
         s ← (if used : bool then fresh_name fuel fuel (w_pwd w) (w_clus w) s else mret s);
         m ← convert_to_uppercase shrt_file_name (fmem s);
         create_file fuel afuel long_file_name shrt_file_name (w_clus w) (set_fmem m s)
       else create_file fuel afuel 0 long_file_name (w_clus w) s);
    '(info, s) ← f_malloc hid sizeof_file_info s;
    retrieve_file_info hid info entry flags (dir_file_offset s) file_path s
  else mret (-1, s).

(** ** Operations on paths *)

(** The file that [old] names is looked for without a check that it was
    opened. *)
Definition file_rename (fuel afuel : nat) (junk_found : bool) (old new : list Z) (s : fat H) : res (Z * fat H) :=
  '(fd_new, s) ← file_open fuel afuel junk_found new FILE_READ s;
  if fd_new =? -1 then
    '(fd_old, s) ← file_open fuel afuel junk_found old FILE_READ s;
    '(fd_new, s) ← file_open fuel afuel junk_found new FILE_CREATE_NEW s;
    temp_old ← find_file fd_old s;
    temp_new ← find_file fd_new s;
    '(_, m) ← sw_memcpy (dir_entry_offset temp_new + ATTR_OFF) (dir_entry_offset temp_old + ATTR_OFF) FILE_STAT_LEN (fmem s);
    m ← store8 (dir_entry_offset temp_old) DEL_DIR_ENTRY m;
    '(_, s) ← file_close hid fd_old (set_fmem m s);
    '(_, s) ← file_close hid fd_new s;
    mret (0, s)
  else mret (-1, s).

Definition create_dir (fuel afuel : nat) (junk_found : bool) (path : list Z) (s : fat H) : res (Z * fat H) :=
  '(d, s) ← file_open fuel afuel junk_found path FILE_READ s;
  if negb (d =? -1) then file_open fuel afuel junk_found path FILE_CREATE_NEW s else mret (-1, s).

Definition open_dir (fuel afuel : nat) (junk_found : bool) (path : list Z) (s : fat H) : res (Z * fat H) :=
  file_open fuel afuel junk_found path FILE_READ s.

(** The first file of the list with the path; the end of the list is read
    through the null pointer. *)
Fixpoint find_path (path : list Z) (l : list file_info) (ps : gmap Z (list Z)) : res file_info :=
  match l with
  | [] => Fault
  | f :: l => p ← of_opt (ps !! fi_path f); if lex_cmp p path =? 0 then mret f else find_path path l ps
  end.

Definition file_unlink (ul_name : list Z) (s : fat H) : res (Z * fat H) :=
  match files s with
  | [] => mret (-1, s)
  | _ =>
      rinfo ← find_path ul_name (files s) (paths s);
      m ← store8 (dir_entry_offset rinfo) DEL_DIR_ENTRY (fmem s);
      '(r, s) ← file_close hid (fd rinfo) (set_fmem m s);
      mret (if negb (r =? 0) then (-1, s) else (0, s))
  end.

Definition file_remove (fl_name : list Z) (s : fat H) : res (Z * fat H) :=
  '(fl_rem, s) ← file_unlink fl_name s; mret (if negb (fl_rem =? 0) then (-1, s) else (0, s)).

(** [while(end_size)]: [wt_zo] and [zo_cnt]; [buff] is an array of 1024 zero
    bytes on the stack.  A negative [end_size] runs past the end of memory. *)
Fixpoint append_zeros (n : nat) (afuel : nat) (junk_prev buff d wt_zo zo_cnt : Z) (s : fat H) : res (Z * Z * fat H) :=
  match n with
  | O => mret (wt_zo, zo_cnt, s)
  | S n' =>
      '(w, s) ← file_write afuel junk_prev d buff (Z.of_nat n) s;
      append_zeros n' afuel junk_prev buff d (wt_zo + w) (zo_cnt + 1) s
  end.

(** [while(tinfo->cur_offset > cluster_size)]: [prev_clstr] and [new_clstr]. *)
Fixpoint link_clusters (fuel afuel : nat) (prev new : Z) (f : file_info) (s : fat H) : res (Z * file_info * fat H) :=
  if cur_offset f >? cluster_size s then
    match fuel with
    | O => Fault
    | S n =>
        '(c, s) ← allocate_cluster afuel s;
        let f := set_pos (cur_cluster f) (u16 (file_size f - cluster_size s)) f in
        s ← write_fat_table prev c s; link_clusters n afuel c c f s
    end
  else mret (new, f, s).

Definition set_ent_size (n : Z) (e : dir_entry) : dir_entry := take 28 e ++ le32 n.

(** The part of [file_truncate] behind the growing; [junk_new] is
    [new_clstr] when no cluster is linked. *)
Definition truncate_chain (fuel afuel : nat) (junk_new tr_lgh d : Z) (s : fat H) : res (Z * fat H) :=
  f ← find_file d s;
  let f := set_size (u32 tr_lgh) f in
  let prev := strt_cluster f in
  let f := set_pos (cur_cluster f) (u16 (file_size f)) f in
  '(f, s) ←
    (if file_size f =? 0 then s ← write_fat_table prev 0 s; mret (f, s)
     else if file_size f >? cluster_size s then
       '(new, f, s) ← link_clusters fuel afuel prev junk_new f s;
       s ← write_fat_table new END_OF_CLUSTER s; mret (f, s)
     else s ← write_fat_table prev END_OF_CLUSTER s; mret (f, s));
  e ← of_opt (entries s !! fi_entry f);
  mret (0, put_file f (set_blocks (fheap s) (<[fi_entry f := set_ent_size tr_lgh e]> (entries s)) (paths s) s)).

(** [junk_prev] and [junk_off] are those of the writes and the seek. *)
Definition file_truncate (fuel afuel : nat) (junk_prev junk_off junk_new buff : Z) (tr_pf : list Z) (tr_lgh : Z) (s : fat H)
    : res (Z * fat H) :=
  match files s with
  | [] => mret (-1, s)
  | _ =>
      tinfo ← find_path tr_pf (files s) (paths s);
      let tr_addr := dir_entry_offset tinfo + 28 in
      size ← load32 tr_addr (fmem s);
      if size =? file_size tinfo then
        s ← liftm (store32 tr_addr tr_lgh (fmem s)) s;
        '(ok, s) ←
          (if u32 tr_lgh >? file_size tinfo then
             '(sk_ted, s) ← file_seek fuel afuel junk_prev junk_off (fd tinfo) 0 FILE_SEEK_END s;
             if negb (sk_ted =? -1) then
               let end_size := s32 (tr_lgh - file_size tinfo) in
               if end_size <? 0 then Fault else
               '(wt_zo, zo_cnt, s) ← append_zeros (Z.to_nat end_size) afuel junk_prev buff (fd tinfo) 0 0 s;
               mret (negb (negb (zo_cnt =? end_size) && (wt_zo =? 0)), s)
             else mret (false, s)
           else mret (true, s));
        if ok : bool then truncate_chain fuel afuel junk_new tr_lgh (fd tinfo) s else mret (-1, s)
      else mret (-1, s)
  end.
End dir.
