(* ===== verification/FatNames.v ===== *)
(** Directory entries: a file that was created is found under its name. *)
From stdpp Require Import prelude gmap.
From S2P Require Import Prelude HeapIface MemFn StrFn Words Fat FatDir.
#[local] Open Scope Z_scope.

Lemma memset_ok dest c n m :
  mapped dest n m -> 0 <= n -> sw_memset dest c n m = Ret (dest, write_bytes dest (replicate (Z.to_nat n) (u8 c)) m).
Proof. intros Hm Hn. rewrite <-(Z2Nat.id n) at 1 by done. apply memset_correct. by rewrite Z2Nat.id. Qed.

(** Comparing eleven bytes. *)
Lemma memcmp_name a b la lb m :
  read_bytes 11 a m = Some la -> read_bytes 11 b m = Some lb ->
  exists c, sw_memcmp a b SHRT_FILE_NAME_LEN m = Ret c /\ (c = 0 <-> la = lb).
Proof.
  intros Ha Hb. destruct (memcmp_correct a b 11 la lb m Ha Hb) as [Hc _]. destruct (Hc ltac:(lia)) as [E Hd].
  by exists (first_diff la lb).
Qed.

(** Reading a byte of a range. *)
Lemma read_bytes_head n a m l : (0 < n)%nat -> read_bytes n a m = Some l -> exists v l', l = v :: l' /\ m !! a = Some v.
Proof.
  intros Hn. destruct n; [lia|]. cbn. intros (v & Ev & (l' & _ & [= <-])%bind_Some)%bind_Some. by exists v, l'.
Qed.

Section names.
Context {H : Type} `{PrivateHeap H} (hid : Z) (long_file_name shrt_file_name temp_lfn : Z) (postinc : Z -> Z).
Local Abbreviation create_file := (create_file hid postinc).
Local Abbreviation get_dir_entry := (get_dir_entry hid temp_lfn).

(** The entry [i] of a directory's cluster. *)
Definition slot (base : Z) (i : nat) : Z := base + DIR_ENTRY_LEN * Z.of_nat i.

Lemma slot_S base i : slot (base + DIR_ENTRY_LEN) i = slot base (S i).
Proof. unfold slot. lia. Qed.

(** An entry that is in use, under another name. *)
Definition other_entry (name : list Z) (a : Z) (m : mem) : Prop :=
  exists old, read_bytes 11 a m = Some old /\ old <> name /\ forall v, m !! a = Some v -> v <> FREE_DIR_ENTRY /\ v <> DEL_DIR_ENTRY.

Definition free_entry_at (a : Z) (m : mem) : Prop := m !! a = Some FREE_DIR_ENTRY \/ m !! a = Some DEL_DIR_ENTRY.

(** The entry of a new file. *)
Definition fresh_entry (name : list Z) : dir_entry := name ++ [ATTR_ARCHIVE] ++ replicate 20 0.

Lemma other_entry_frame name a m m' :
  (forall x, a <= x < a + 11 -> m' !! x = m !! x) -> other_entry name a m -> other_entry name a m'.
Proof.
  intros Hx (old & R & Hn & Hv). exists old. split; [rewrite <-R; by apply read_bytes_frame|]. split; [done|].
  rewrite Hx by lia. exact Hv.
Qed.

(** The search for a free entry passes over those in use. *)
Lemma create_loop_short n fuel afuel nm lfptr i clus base k (s : fat H) name :
  (n < fuel)%nat -> 0 <= k -> k + Z.of_nat n <= MAX_DIR_ENTRY_CNT ->
  (forall j, (j < n)%nat -> other_entry name (slot base j) (fmem s)) -> free_entry_at (slot base n) (fmem s) ->
  create_loop hid postinc fuel afuel 0 nm lfptr i clus base k None s =
    ('(p, s) ← new_entry hid (slot base n) nm s; mret (p, s)).
Proof.
  revert fuel base k. induction n as [|n IH]; intros fuel base k Hf Hk Hkn Hused Hfree; (destruct fuel as [|fuel]; [lia|]);
    cbn [create_loop]; rewrite (proj2 (Z.eqb_neq (k - MAX_DIR_ENTRY_CNT) 1)) by lia; cbn [mbind res_bind mret res_ret];
    change (negb (0 =? 0)) with false; cbv iota.
  - replace (slot base 0) with base in * by (unfold slot; lia).
    unfold load8. destruct Hfree as [E|E]; rewrite E; cbn [of_opt mbind res_bind mret res_ret];
      [change ((_ =? _) || _) with true|change ((_ =? _) || _) with true]; done.
  - destruct (Hused 0%nat) as (old & R & _ & Hv); [lia|]. replace (slot base 0) with base in * by (unfold slot; lia).
    destruct (read_bytes_head 11 base (fmem s) old ltac:(lia) R) as (v & l' & _ & Ev). destruct (Hv v Ev) as [Hv0 Hv1].
    unfold load8. rewrite Ev. cbn [of_opt mbind res_bind mret res_ret].
    rewrite (proj2 (Z.eqb_neq _ _) Hv0), (proj2 (Z.eqb_neq _ _) Hv1). cbn [orb].
    rewrite (IH fuel (base + DIR_ENTRY_LEN) (k + 1)); try lia.
    + by rewrite slot_S.
    + intros j Hj. rewrite slot_S. apply Hused. lia.
    + by rewrite slot_S.
Qed.

(** The search for a short name, too. *)
Lemma dir_loop_short n fuel nm clus base i (s : fat H) name :
  (n < fuel)%nat -> 0 <= i -> i + Z.of_nat n <= MAX_DIR_ENTRY_CNT -> read_bytes 11 nm (fmem s) = Some name ->
  (forall j, (j < n)%nat -> other_entry name (slot base j) (fmem s)) ->
  read_bytes 11 (slot base n) (fmem s) = Some name ->
  dir_loop temp_lfn fuel nm false clus base i s = Ret (Some (slot base n), s).
Proof.
  revert fuel base i. induction n as [|n IH]; intros fuel base i Hf Hi Hin Hn Hused Hname; (destruct fuel as [|fuel]; [lia|]);
    unfold MAX_DIR_ENTRY_CNT in *; cbn [dir_loop]; unfold MAX_DIR_ENTRY_CNT;
    rewrite (proj2 (Z.eqb_neq i (16 + 2))), andb_false_r by lia; cbn [andb];
    rewrite (proj2 (Z.eqb_neq (i - 16) 1)) by lia; cbn [andb mbind res_bind mret res_ret].
  - replace (slot base 0) with base in * by (unfold slot; lia).
    destruct (memcmp_name nm base name name (fmem s) Hn Hname) as (c & -> & Hc). cbn [mbind res_bind mret res_ret].
    by rewrite (proj2 Hc eq_refl).
  - destruct (Hused 0%nat) as (old & R & Hne & _); [lia|]. replace (slot base 0) with base in * by (unfold slot; lia).
    destruct (memcmp_name nm base name old (fmem s) Hn R) as (c & -> & Hc). cbn [mbind res_bind mret res_ret].
    rewrite (proj2 (Z.eqb_neq c 0)) by (intros E; apply Hne; symmetry; by apply Hc).
    change (negb (0 =? 0)) with false. cbv iota. rewrite (IH fuel (base + DIR_ENTRY_LEN) (i + 1)); try lia; try done.
    + by rewrite slot_S.
    + intros j Hj. rewrite slot_S. apply Hused. lia.
    + by rewrite slot_S.
Qed.

(** What the new entry holds. *)
Lemma fresh_bytes cur name m m' :
  length name = 11%nat ->
  m' = write_bytes (cur + 11) [ATTR_ARCHIVE] (write_bytes cur name (write_bytes cur (replicate 32 0) m)) ->
  read_bytes 32 cur m' = Some (fresh_entry name) /\ forall x, ~ cur <= x < cur + 32 -> m' !! x = m !! x.
Proof.
  intros Ln ->. split.
  - pose proof (read_bytes_write_same (replicate 32 0) cur m) as R0.
    pose proof (read_bytes_put cur _ name _ 0 R0 ltac:(rewrite length_replicate; lia)) as R1. rewrite Z.add_0_r in R1.
    set (b1 := take 0 _ ++ _) in R1. assert (L1 : length b1 = 32%nat) by (unfold b1; rewrite !length_app, Ln; done).
    rewrite length_replicate in R1. rewrite <-L1 in R1.
    pose proof (read_bytes_put cur b1 [ATTR_ARCHIVE] _ 11 R1 ltac:(rewrite L1; cbn; lia)) as R2.
    change (Z.of_nat 11) with 11 in R2. rewrite L1 in R2. rewrite R2. f_equal. unfold b1, fresh_entry. rewrite Ln.
    clear - Ln. do 11 (destruct name as [|? name]; [done|]). by destruct name.
  - intros x Hx. rewrite !write_bytes_lookup, length_replicate, Ln. cbn [length]. by rewrite !decide_False by lia.
Qed.

Lemma new_entry_ok cur nm name (s : fat H) p h :
  read_bytes 11 nm (fmem s) = Some name -> bytes_ok (fmem s) -> mapped cur 32 (fmem s) ->
  cur + 32 <= nm \/ nm + 11 <= cur -> heap_malloc hid DIR_ENTRY_LEN (fheap s) = Ret (p, h) -> p <> 0 ->
  exists s', new_entry hid cur nm s = Ret (p, s') /\ fheap s' = h /\ bytes_ok (fmem s') /\
    read_bytes 32 cur (fmem s') = Some (fresh_entry name) /\ entries s' = <[p := fresh_entry name]> (entries s) /\
    dir_file_offset s' = cur /\ (forall x, ~ cur <= x < cur + 32 -> fmem s' !! x = fmem s !! x) /\
    (forall c, cluster_to_memory_addr c s' = cluster_to_memory_addr c s).
Proof.
  intros Hn Hok Hm Hd Hp Hp0. pose proof (read_bytes_length _ _ _ _ Hn) as Ln.
  unfold new_entry. rewrite memset_ok by done. cbn [mbind res_bind]. set (m1 := write_bytes cur _ _).
  assert (Hok1 : bytes_ok m1) by (apply bytes_ok_write; [done|by apply Forall_replicate]).
  assert (Hn1 : read_bytes 11 nm m1 = Some name).
  { unfold m1. rewrite read_bytes_write; [done|]. rewrite length_replicate. change (Z.of_nat (Z.to_nat DIR_ENTRY_LEN)) with 32. lia. }
  assert (Em : sw_memcpy cur nm SHRT_FILE_NAME_LEN m1 = Ret (cur, write_bytes cur name m1)).
  { apply (memcpy_spec cur nm 11); [done|done| |done|lia]. apply mapped_write. eapply mapped_sub; [exact Hm|lia|lia]. }
  rewrite Em. cbn [mbind res_bind]. set (m2 := write_bytes cur name m1).
  assert (Hok2 : bytes_ok m2) by (apply bytes_ok_write; [done|by eapply read_bytes_ok]).
  assert (Hm2 : mapped cur 32 m2) by (by do 2 apply mapped_write).
  unfold ATTR_OFF. rewrite store8_ok; [|apply Hm2; lia|done]. cbn [mbind res_bind].
  change (<[cur + 11 := ATTR_ARCHIVE]> m2) with (write_bytes (cur + 11) [ATTR_ARCHIVE] m2). set (m3 := write_bytes _ _ m2).
  destruct (fresh_bytes cur name (fmem s) m3 Ln eq_refl) as [R Hfr].
  unfold copy_entry, f_malloc. cbn [fheap set_fmem]. rewrite Hp. cbn [mbind res_bind mret res_ret].
  rewrite (proj2 (Z.eqb_neq p 0) Hp0). cbn [fmem set_blocks set_fmem]. change (Z.to_nat DIR_ENTRY_LEN) with 32%nat.
  rewrite R. cbn [of_opt mbind res_bind]. eexists. split; [reflexivity|]. split; [done|].
  split; [apply bytes_ok_write; [done|by repeat constructor]|]. repeat (split; [done|]). done.
Qed.

Lemma slot_bounds base i j : (i < j)%nat -> slot base i + 32 <= slot base j.
Proof. unfold slot, DIR_ENTRY_LEN. lia. Qed.

End names.

(** A directory with one file, BAR.TXT, in which FOO.TXT is created. *)
Definition foo_txt : list Z := [70; 79; 79; 32; 32; 32; 32; 32; 84; 88; 84].
Definition bar_txt : list Z := [66; 65; 82; 32; 32; 32; 32; 32; 84; 88; 84].
Definition dir_mem : mem :=
  write_bytes 2048 (fresh_entry bar_txt ++ replicate 32 0)
    (write_bytes 3000 foo_txt (write_bytes 4000 (replicate 255 0) ∅)).
Definition dir_image : fat bump_heap :=
  Fat dir_mem (BumpHeap 0x8000 0x9000 ∅) ∅ ∅ 512 512 0 0 0 1024 0 2048 512 16 2 5 0 [] 2.

