(* ===== verification/FatLfn.v ===== *)
(** Long names: what [fill_lng_fname_entries] spreads over directory entries,
    [get_long_file_name] collects. *)
From stdpp Require Import prelude gmap.
From S2P Require Import Prelude HeapIface MemFn StrFn Words Fat FatDir FatNames.
#[local] Open Scope Z_scope.

(** [m'] differs from [m] in [n] bytes at [a] only. *)
Definition same_outside (a n : Z) (m m' : mem) : Prop := forall x, ~ a <= x < a + n -> m' !! x = m !! x.

Lemma same_outside_trans a n b k m1 m2 m3 c l :
  same_outside a n m1 m2 -> same_outside b k m2 m3 -> c <= a -> a + n <= c + l -> c <= b -> b + k <= c + l ->
  same_outside c l m1 m3.
Proof. intros H1 H2 ? ? ? ? x Hx. rewrite H2, H1 by lia. done. Qed.

Lemma same_outside_store a v m : same_outside a 1 m (<[a := v]> m).
Proof. intros x Hx. apply lookup_insert_ne. lia. Qed.

Lemma mapped_same a n b k m m' : same_outside a n m m' -> mapped a n m' -> mapped b k m -> mapped b k m'.
Proof.
  intros Hs Ha Hb x Hx. destruct (decide (a <= x < a + n)); [by apply Ha|]. rewrite Hs by done. by apply Hb.
Qed.

Lemma cstr_frame m m' a s :
  (forall x, a <= x < a + Z.of_nat (S (length s)) -> m' !! x = m !! x) -> cstr m a s -> cstr m' a s.
Proof. intros Hx [R Hz]. split; [|done]. rewrite <-R. by apply read_bytes_frame. Qed.

(** Two-byte characters at [p]: a part of an entry with [n] of them. *)
Definition chars (m : mem) (p : Z) (n : nat) (cs : list Z) : Prop :=
  (forall i, (i < n)%nat -> (i < length cs)%nat -> m !! (p + 2 * Z.of_nat i) = cs !! i) /\
  ((length cs < n)%nat -> m !! (p + 2 * Z.of_nat (length cs)) = Some 0).

Lemma chars_frame m m' p n cs :
  (forall x, p <= x < p + 2 * Z.of_nat n -> m' !! x = m !! x) -> chars m p n cs -> chars m' p n cs.
Proof. intros Hx [H1 H2]. split; [intros i Hi Hc; rewrite Hx by lia; by apply H1|intros Hl; rewrite Hx by lia; by apply H2]. Qed.

(** ** Filling *)

Lemma store16_mapped a v m : mapped a 2 m -> exists m', store16 a v m = Ret m' /\ same_outside a 2 m m' /\
  m' !! a = Some (u8 v) /\ mapped a 2 m'.
Proof.
  intros Hm. unfold store16, store8. destruct (Hm a) as [v0 E0]; [lia|]. rewrite E0. cbn [of_opt mbind res_bind mret res_ret].
  destruct (Hm (a + 1)) as [v1 E1]; [lia|]. rewrite lookup_insert_ne, E1 by lia. cbn [of_opt mbind res_bind mret res_ret].
  eexists. split; [reflexivity|]. split; [|split].
  - intros x Hx. rewrite !lookup_insert_ne by lia. done.
  - rewrite lookup_insert_ne, lookup_insert_eq by lia. done.
  - by do 2 apply mapped_insert.
Qed.

Lemma fill_loop_ok n p fn eon rest m :
  cstr m fn rest -> Forall is_byte rest -> mapped p (2 * Z.of_nat n) m ->
  p + 2 * Z.of_nat n <= fn \/ fn + Z.of_nat (S (length rest)) <= p ->
  exists m', fill_loop n p fn eon m =
      Ret (fn + Z.of_nat (Nat.min n (length rest)), eon || (length rest <? n)%nat, m') /\
    same_outside p (2 * Z.of_nat n) m m' /\ mapped p (2 * Z.of_nat n) m' /\ (eon = false -> chars m' p n rest).
Proof.
  revert p fn eon rest m. induction n as [|n IH]; intros p fn eon rest m Hs Hb Hm Hd; cbn [fill_loop].
  { exists m. split; [by rewrite Z.add_0_r, orb_false_r|]. split; [done|]. split; [done|].
    intros _. split; intros; lia. }
  destruct rest as [|v rest].
  - pose proof (proj1 (cstr_nil m fn) Hs) as Hz. unfold load8. rewrite Hz. cbn [of_opt mbind res_bind]. cbn [Z.eqb].
    destruct (store16_mapped p (if eon then LFN_END_MARK else LFN_TERM_MARK) m) as (m1 & E1 & S1 & V1 & M1);
      [eapply mapped_sub; [exact Hm|lia|lia]|]. rewrite E1. cbn [mbind res_bind].
    destruct (IH (p + 2) fn true [] m1) as (m' & E & S' & M' & _); [|done| | |].
    + eapply cstr_frame; [|exact Hs]. intros x Hx. apply S1. cbn [length] in Hx, Hd. lia.
    + apply (mapped_same p 2 _ _ m); [done|done|]. eapply mapped_sub; [exact Hm|lia|lia].
    + cbn [length] in *. lia.
    + exists m'. split; [rewrite E; cbn [length]; rewrite Nat.min_0_r, Nat.min_0_r, orb_true_r; done|].
      split; [eapply same_outside_trans; [exact S1|exact S'|lia..]|].
      split.
      { intros x Hx. destruct (decide (p + 2 <= x)); [apply M'; lia|]. rewrite S' by lia. apply M1. lia. }
      intros ->. split; [cbn [length]; lia|]. intros _. cbn [length]. change (2 * Z.of_nat 0) with 0. rewrite Z.add_0_r, S', V1 by lia. done.
  - apply Forall_cons in Hb as [Hv Hb]. pose proof Hs as (Ev & Hz & Hs')%cstr_cons. unfold load8. rewrite Ev.
    cbn [of_opt mbind res_bind]. rewrite (proj2 (Z.eqb_neq v 0) Hz). rewrite store8_ok by (done || apply Hm; lia).
    cbn [mbind res_bind]. cbn [length] in *.
    destruct (IH (p + 2) (fn + 1) eon rest (<[p := v]> m)) as (m' & E & S' & M' & C); [|done| |lia|].
    + eapply cstr_frame; [|exact Hs']. intros x Hx. apply lookup_insert_ne. lia.
    + apply mapped_insert. eapply mapped_sub; [exact Hm|lia|lia].
    + exists m'. split; [rewrite E; f_equal; f_equal; f_equal; lia|].
      split; [eapply same_outside_trans; [apply (same_outside_store p v)|exact S'|lia..]|].
      split.
      { intros x Hx. destruct (decide (p + 2 <= x)); [apply M'; lia|]. rewrite S' by lia. apply mapped_insert with (n := 2 * Z.of_nat (S n)) (a := p); [done|lia]. }
      intros He. destruct (C He) as [C1 C2]. split.
      * intros [|i] Hi Hl; [rewrite Z.add_0_r, S', lookup_insert_eq by lia; done|]. cbn [length] in Hl.
        change ((v :: rest) !! S i) with (rest !! i). rewrite <-(C1 i) by lia. f_equal. lia.
      * cbn [length]. intros Hl. rewrite <-C2 by lia. f_equal. lia.
Qed.

(** An entry that holds the string [s] or, when it is longer, its first 13
    characters. *)
Record lfn_slot (m : mem) (a ord chk : Z) (s : list Z) : Prop := {
  ls_ord : m !! a = Some ord;
  ls_chk : m !! (a + CHECK_SUM_OFF) = Some chk;
  ls_1 : chars m (a + 1) 5 s;
  ls_2 : (5 <= length s)%nat -> chars m (a + 14) 6 (drop 5 s);
  ls_3 : (11 <= length s)%nat -> chars m (a + 28) 2 (drop 11 s);
}.

Lemma lfn_slot_frame m m' a ord chk s :
  (forall x, a <= x < a + 32 -> m' !! x = m !! x) -> lfn_slot m a ord chk s -> lfn_slot m' a ord chk s.
Proof.
  intros Hx [H0 Hc H1 H2 H3]. unfold CHECK_SUM_OFF in *. split; unfold CHECK_SUM_OFF; rewrite ?Hx by lia; try done.
  - by apply (chars_frame m); [intros; apply Hx; lia|].
  - intros Hl. apply (chars_frame m); [intros; apply Hx; lia|by apply H2].
  - intros Hl. apply (chars_frame m); [intros; apply Hx; lia|by apply H3].
Qed.

(** The header of an entry. *)
Lemma fill_header a ord chk m :
  mapped a 32 m -> is_byte ord -> is_byte chk ->
  exists m', ('(_, m) ← sw_memset a 0 DIR_ENTRY_LEN m; m ← store8 a ord m; m ← store8 (a + ATTR_OFF) ATTR_LONG_FNAME m;
              store8 (a + CHECK_SUM_OFF) chk m) = Ret m' /\
    same_outside a 32 m m' /\ mapped a 32 m' /\ m' !! a = Some ord /\ m' !! (a + CHECK_SUM_OFF) = Some chk.
Proof.
  intros Hm Ho Hc. rewrite memset_ok by done. cbn [mbind res_bind]. set (m1 := write_bytes a _ m).
  assert (M1 : mapped a 32 m1) by (by apply mapped_write). unfold ATTR_OFF, CHECK_SUM_OFF.
  rewrite store8_ok by (done || apply M1; lia). cbn [mbind res_bind].
  pose proof (mapped_insert a 32 m1 a ord M1) as M2.
  rewrite store8_ok by (done || apply M2; lia). cbn [mbind res_bind].
  pose proof (mapped_insert a 32 _ (a + 11) ATTR_LONG_FNAME M2) as M3.
  rewrite store8_ok by (done || apply M3; lia).
  eexists. split; [reflexivity|]. split; [|split; [by do 3 apply mapped_insert|]].
  - intros x Hx. rewrite !lookup_insert_ne by lia. unfold m1.
    rewrite write_bytes_lookup, length_replicate. change (Z.of_nat (Z.to_nat DIR_ENTRY_LEN)) with 32. by rewrite decide_False.
  - split; [by rewrite !lookup_insert_ne, lookup_insert_eq by lia|by rewrite lookup_insert_eq].
Qed.

Lemma drop_cstr m a s n : (n <= length s)%nat -> cstr m a s -> cstr m (a + Z.of_nat n) (drop n s).
Proof.
  revert a s. induction n as [|n IH]; intros a s Hl Hs; [by rewrite Z.add_0_r, drop_0|].
  destruct s as [|v s]; [cbn in Hl; lia|]. apply cstr_cons in Hs as (_ & _ & Hs). cbn [drop length] in *.
  replace (a + Z.of_nat (S n)) with (a + 1 + Z.of_nat n) by lia. apply IH; [lia|done].
Qed.

(** One of the parts, at any state of the name. *)
Lemma fill_part n p fn eon k rest m :
  (eon = false -> (k <= length rest)%nat) -> (eon = (length rest <? k)%nat) ->
  cstr m (fn + Z.of_nat (Nat.min k (length rest))) (drop k rest) -> Forall is_byte rest -> mapped p (2 * Z.of_nat n) m ->
  p + 2 * Z.of_nat n <= fn \/ fn + Z.of_nat (S (length rest)) <= p ->
  exists m', fill_loop n p (fn + Z.of_nat (Nat.min k (length rest))) eon m =
      Ret (fn + Z.of_nat (Nat.min (k + n) (length rest)), (length rest <? k + n)%nat, m') /\
    same_outside p (2 * Z.of_nat n) m m' /\ mapped p (2 * Z.of_nat n) m' /\
    ((k <= length rest)%nat -> chars m' p n (drop k rest)).
Proof.
  intros Hk He Hs Hb Hm Hd.
  destruct (fill_loop_ok n p (fn + Z.of_nat (Nat.min k (length rest))) eon (drop k rest) m) as (m' & E & S & M & C); try done.
  - by apply Forall_drop.
  - rewrite length_drop. lia.
  - exists m'. rewrite E, length_drop. split.
    + subst eon. replace ((length rest <? k)%nat || (length rest - k <? n)%nat) with (length rest <? k + n)%nat.
      { by replace (fn + Z.of_nat (Nat.min k (length rest)) + Z.of_nat (Nat.min n (length rest - k)))
          with (fn + Z.of_nat (Nat.min (k + n) (length rest))) by lia. }
      destruct (Nat.ltb_spec (length rest) k), (Nat.ltb_spec (length rest - k) n), (Nat.ltb_spec (length rest) (k + n)); cbn; lia || done.
    + split; [done|]. split; [done|]. intros Hl. apply C. subst eon. by apply Nat.ltb_ge.
Qed.

Lemma fill_slot count a fn rest ord chk m (ord' := if (count =? 1)%nat then ord else Z.lor ord LAST_ORD_FIELD_SEQ) :
  cstr m fn rest -> Forall is_byte rest -> mapped a 32 m -> is_byte ord' -> is_byte chk ->
  a + 32 <= fn \/ fn + Z.of_nat (S (length rest)) <= a ->
  exists m', fill_entries (S count) a fn false ord chk m =
      fill_entries count (a - DIR_ENTRY_LEN) (fn + Z.of_nat (Nat.min 13 (length rest))) (length rest <? 13)%nat (ord + 1) chk m' /\
    lfn_slot m' a ord' chk rest /\ same_outside a 32 m m' /\ mapped a 32 m'.
Proof.
  intros Hs Hb Hm Ho Hc Hd. destruct (fill_header a ord' chk m Hm Ho Hc) as (m0 & E0 & S0 & M0 & V0 & K0).
  assert (Hcs : forall k m', same_outside a 32 m m' -> cstr m' (fn + Z.of_nat (Nat.min k (length rest))) (drop k rest)).
  { intros k m' Hs'. assert (Hf : cstr m' fn rest) by (eapply cstr_frame; [|exact Hs]; intros x Hx; apply Hs'; lia).
    destruct (decide (k <= length rest)%nat) as [Hl|Hl]; [rewrite Nat.min_l by done; by apply drop_cstr|].
    rewrite Nat.min_r, drop_ge by lia. pose proof (drop_cstr m' fn rest (length rest) (le_n _) Hf) as Hd'. by rewrite drop_ge in Hd' by lia. }
  destruct (fill_part 5 (a + 1) fn false 0 rest m0) as (m1 & E1 & S1 & M1 & C1);
    [intros; lia|done|by apply Hcs|done|eapply mapped_sub; [exact M0|lia|lia]|lia|].
  assert (T1 : same_outside a 32 m m1) by (eapply same_outside_trans; [exact S0|exact S1|lia..]).
  assert (N1 : mapped a 32 m1) by (by apply (mapped_same (a + 1) 10 _ _ m0)).
  destruct (fill_part 6 (a + 14) fn (length rest <? 5)%nat 5 rest m1) as (m2 & E2 & S2 & M2 & C2);
    [intros ?%Nat.ltb_ge; lia|done|by apply Hcs|done|eapply mapped_sub; [exact N1|lia|lia]|lia|].
  assert (T2 : same_outside a 32 m m2) by (eapply same_outside_trans; [exact T1|exact S2|lia..]).
  assert (N2 : mapped a 32 m2) by (by apply (mapped_same (a + 14) 12 _ _ m1)).
  destruct (fill_part 2 (a + 28) fn (length rest <? 11)%nat 11 rest m2) as (m3 & E3 & S3 & M3 & C3);
    [intros ?%Nat.ltb_ge; lia|done|by apply Hcs|done|eapply mapped_sub; [exact N2|lia|lia]|lia|].
  exists m3. split; [|split; [|split]].
  - apply res_bind_Ret in E0 as ([d ma] & Ea & E0). apply res_bind_Ret in E0 as (mb & Eb & E0).
    apply res_bind_Ret in E0 as (mc & Ec & E0).
    cbn [fill_entries]. fold ord'. rewrite Ea. cbn [mbind res_bind]. rewrite Eb. cbn [mbind res_bind]. rewrite Ec.
    cbn [mbind res_bind]. rewrite E0. cbn [mbind res_bind]. cbn [Nat.add] in E1, E2, E3.
    change (Nat.min 0 (length rest)) with 0%nat in E1. rewrite Z.add_0_r in E1. rewrite E1. cbn [mbind res_bind]. rewrite E2.
    cbn [mbind res_bind]. rewrite E3. reflexivity.
  - unfold CHECK_SUM_OFF in *. split; unfold CHECK_SUM_OFF; try intros Hl.
    + by rewrite S3, S2, S1 by lia.
    + by rewrite S3, S2, S1 by lia.
    + apply (chars_frame m1); [intros; rewrite S3, S2 by lia; done|]. apply C1. lia.
    + apply (chars_frame m2); [intros; rewrite S3 by lia; done|]. by apply C2.
    + by apply C3.
  - eapply same_outside_trans; [exact T2|exact S3|lia..].
  - by apply (mapped_same (a + 28) 4 _ _ m2).
Qed.

(** The entries that a string fills, downward from [a]; the ordinal of entry
    [k] has [k + 1] in its low bits. *)
Definition lfn_slots (m : mem) (a : Z) (count k0 : nat) (chk : Z) (s : list Z) : Prop :=
  forall k, (k < count)%nat -> exists ord, Z.land ord LONG_FNAME_MASK = Z.of_nat (k0 + k) + 1 /\ Z.of_nat (k0 + k) + 1 <= ord /\
    lfn_slot m (a - DIR_ENTRY_LEN * Z.of_nat k) ord chk (drop (13 * k) s).

(** [count] entries are what [s] needs. *)
Definition fits (count : nat) (s : list Z) : Prop := (13 * (count - 1) < length s <= 13 * count)%nat.

Lemma ord_byte (b : bool) n : 0 <= n < 15 ->
  let ord := if b then n + 1 else Z.lor (n + 1) LAST_ORD_FIELD_SEQ in
  is_byte ord /\ Z.land ord LONG_FNAME_MASK = n + 1 /\ n + 1 <= ord.
Proof.
  intros Hn. assert (E : In n [0; 1; 2; 3; 4; 5; 6; 7; 8; 9; 10; 11; 12; 13; 14]) by (cbn; lia).
  cbn in E. repeat destruct E as [<-|E]; try done; by destruct b.
Qed.

Lemma fill_entries_ok count k0 a fn chk s m :
  (0 < count)%nat -> (k0 + count <= 15)%nat -> fits count s -> cstr m fn s -> Forall is_byte s -> is_byte chk ->
  mapped (a - DIR_ENTRY_LEN * (Z.of_nat count - 1)) (DIR_ENTRY_LEN * Z.of_nat count) m ->
  a + DIR_ENTRY_LEN <= fn \/ fn + Z.of_nat (S (length s)) <= a - DIR_ENTRY_LEN * (Z.of_nat count - 1) ->
  exists m', fill_entries count a fn false (Z.of_nat k0 + 1) chk m = Ret m' /\ lfn_slots m' a count k0 chk s /\
    same_outside (a - DIR_ENTRY_LEN * (Z.of_nat count - 1)) (DIR_ENTRY_LEN * Z.of_nat count) m m'.
Proof.
  unfold fits, DIR_ENTRY_LEN. revert k0 a fn s m.
  induction count as [|count IH]; intros k0 a fn s m Hc Hk Hfit Hs Hb Hch Hm Hd; [lia|].
  destruct (ord_byte (count =? 1)%nat (Z.of_nat k0)) as (Ho & Hl & Hle); [lia|].
  destruct (fill_slot count a fn s (Z.of_nat k0 + 1) chk m) as (m1 & E1 & L1 & S1 & M1); try done; [|lia|].
  { eapply mapped_sub; [exact Hm|lia|lia]. }
  unfold DIR_ENTRY_LEN in *. rewrite E1.
  assert (L0 : exists ord, Z.land ord LONG_FNAME_MASK = Z.of_nat (k0 + 0) + 1 /\ Z.of_nat (k0 + 0) + 1 <= ord /\
    lfn_slot m1 (a - 32 * Z.of_nat 0) ord chk (drop (13 * 0) s)).
  { eexists. rewrite Nat.add_0_r. split; [exact Hl|]. split; [exact Hle|]. change (32 * Z.of_nat 0) with 0. rewrite Z.sub_0_r. exact L1. }
  destruct (decide (count = 0)%nat) as [->|Hz].
  - exists m1. split; [done|]. split; [intros k Hk'; by replace k with 0%nat by lia|].
    intros x Hx. apply S1. lia.
  - rewrite Nat.min_l by lia. rewrite (proj2 (Nat.ltb_ge _ _)) by lia.
    destruct (IH (S k0) (a - 32) (fn + Z.of_nat 13) (drop 13 s) m1) as (m2 & E2 & L2 & S2); try lia; try done.
    + rewrite length_drop. lia.
    + apply drop_cstr; [lia|]. eapply cstr_frame; [|exact Hs]. intros x Hx. apply S1. lia.
    + by apply Forall_drop.
    + apply (mapped_same a 32 _ _ m); [done|done|]. eapply mapped_sub; [exact Hm|lia|lia].
    + rewrite length_drop. lia.
    + exists m2. replace (Z.of_nat (S k0) + 1) with (Z.of_nat k0 + 1 + 1) in E2 by lia. split; [exact E2|]. split.
      * intros [|k] Hk'.
        { destruct L0 as (ord & A & B & C). exists ord. split; [done|]. split; [done|].
          apply (lfn_slot_frame m1); [|exact C]. intros x Hx. apply S2. lia. }
        destruct (L2 k) as (ord & A & B & C); [lia|]. exists ord.
        replace (k0 + S k)%nat with (S k0 + k)%nat by lia. split; [done|]. split; [done|].
        replace (a - DIR_ENTRY_LEN * Z.of_nat (S k)) with (a - 32 - DIR_ENTRY_LEN * Z.of_nat k) by (unfold DIR_ENTRY_LEN; lia).
        rewrite drop_drop in C. replace (13 * S k)%nat with (13 + 13 * k)%nat by lia. exact C.
      * eapply same_outside_trans; [exact S1|exact S2|lia..].
Qed.

(** ** Collecting *)

Lemma name_loop_ok n p buf idx cs m :
  chars m p n cs -> Forall (fun v => v <> 0) cs -> Forall is_byte cs ->
  mapped (buf + idx) (Z.of_nat (Nat.min n (length cs))) m ->
  buf + idx + Z.of_nat (Nat.min n (length cs)) <= p \/ p + 2 * Z.of_nat n <= buf + idx ->
  name_loop n p buf idx m = Ret ((length cs <? n)%nat, idx + Z.of_nat (Nat.min n (length cs)), write_bytes (buf + idx) (take n cs) m).
Proof.
  revert p idx cs m. induction n as [|n IH]; intros p idx cs m [C1 C2] Hz Hb Hm Hd; cbn [name_loop].
  { change (Nat.min 0 (length cs)) with 0%nat. change (Z.of_nat 0) with 0. by rewrite Z.add_0_r, take_0. }
  destruct cs as [|v cs].
  - cbn [length] in *. specialize (C2 ltac:(lia)). change (2 * Z.of_nat 0) with 0 in C2. rewrite Z.add_0_r in C2.
    unfold load8. rewrite C2. cbn [of_opt mbind res_bind Z.eqb]. rewrite Nat.min_0_r, Z.add_0_r, take_nil. done.
  - apply Forall_cons in Hz as [Hv Hz]. apply Forall_cons in Hb as [Hvb Hb]. cbn [length] in *.
    pose proof (C1 0%nat ltac:(lia) ltac:(lia)) as Ev. change (2 * Z.of_nat 0) with 0 in Ev. rewrite Z.add_0_r in Ev.
    unfold load8. rewrite Ev. cbn [lookup list_lookup of_opt mbind res_bind]. rewrite (proj2 (Z.eqb_neq v 0) Hv).
    rewrite store8_ok by (done || apply Hm; lia). cbn [mbind res_bind].
    rewrite (IH (p + 2) (idx + 1) cs (<[buf + idx := v]> m)); try done.
    + replace (idx + 1 + Z.of_nat (Nat.min n (length cs))) with (idx + Z.of_nat (Nat.min (S n) (S (length cs)))) by lia.
      rewrite Z.add_assoc. reflexivity.
    + split.
      * intros i Hi Hl. rewrite lookup_insert_ne by lia. specialize (C1 (S i) ltac:(lia) ltac:(lia)).
        replace (p + 2 + 2 * Z.of_nat i) with (p + 2 * Z.of_nat (S i)) by lia. exact C1.
      * intros Hl. rewrite lookup_insert_ne by lia. specialize (C2 ltac:(lia)).
        replace (p + 2 + 2 * Z.of_nat (length cs)) with (p + 2 * Z.of_nat (S (length cs))) by lia. exact C2.
    + apply mapped_insert. eapply mapped_sub; [exact Hm|lia|lia].
    + lia.
Qed.

Lemma lfn_slot_write m a ord chk s b l :
  lfn_slot m a ord chk s -> b + Z.of_nat (length l) <= a \/ a + 32 <= b -> lfn_slot (write_bytes b l m) a ord chk s.
Proof.
  intros Hs Hd. apply (lfn_slot_frame m); [|done]. intros x Hx. by rewrite write_bytes_lookup, decide_False by lia.
Qed.

(** Two parts after one another. *)
Lemma write_take b i n s m :
  write_bytes (b + Z.of_nat i) (take n (drop i s)) (write_bytes b (take i s) m) = write_bytes b (take (i + n) s) m.
Proof.
  destruct (decide (i <= length s)%nat) as [Hi|Hi].
  - rewrite <-(take_take_drop s i n), write_bytes_app, length_take, Nat.min_l by lia. done.
  - rewrite drop_ge, take_nil, !take_ge by lia. done.
Qed.

Lemma lfn_entry_to_name_ok a ord chk buf idx s m :
  lfn_slot m a ord chk s -> Forall (fun v => v <> 0) s -> Forall is_byte s ->
  mapped (buf + idx) (Z.of_nat (Nat.min 13 (length s))) m ->
  buf + idx + Z.of_nat (Nat.min 13 (length s)) <= a \/ a + 32 <= buf + idx ->
  lfn_entry_to_name a buf idx m =
    Ret ((length s <? 13)%nat, idx + Z.of_nat (Nat.min 13 (length s)), write_bytes (buf + idx) (take 13 s) m).
Proof.
  intros Hslot Hz Hb Hm Hd. unfold lfn_entry_to_name.
  rewrite (name_loop_ok 5 (a + 1) buf idx s m); [|apply Hslot|done|done|eapply mapped_sub; [exact Hm|lia|lia]|lia].
  cbn [mbind res_bind]. destruct (Nat.ltb_spec (length s) 5) as [H5|H5].
  { rewrite (proj2 (Nat.ltb_lt _ _)) by lia. rewrite !Nat.min_r, !take_ge by lia. done. }
  rewrite (Nat.min_l 5) by lia. set (m1 := write_bytes (buf + idx) (take 5 s) m).
  assert (L1 : lfn_slot m1 a ord chk s) by (apply lfn_slot_write; [done|rewrite length_take; lia]).
  rewrite (name_loop_ok 6 (a + 14) buf (idx + Z.of_nat 5) (drop 5 s) m1);
    [|by apply L1|by apply Forall_drop|by apply Forall_drop|apply mapped_write; eapply mapped_sub; [exact Hm|..]; rewrite ?length_drop; lia|rewrite length_drop; lia].
  cbn [mbind res_bind]. rewrite length_drop. unfold m1. rewrite Z.add_assoc, write_take. cbn [Nat.add].
  destruct (Nat.ltb_spec (length s - 5) 6) as [H6|H6].
  { rewrite (proj2 (Nat.ltb_lt (length s) 13)) by lia. rewrite (take_ge s 11), (take_ge s 13) by lia. f_equal. f_equal. f_equal. lia. }
  set (m2 := write_bytes (buf + idx) (take 11 s) m).
  assert (L2 : lfn_slot m2 a ord chk s) by (apply lfn_slot_write; [done|rewrite length_take; lia]).
  replace (idx + Z.of_nat 5 + Z.of_nat (Nat.min 6 (length s - 5))) with (idx + Z.of_nat 11) by lia.
  rewrite (name_loop_ok 2 (a + 28) buf (idx + Z.of_nat 11) (drop 11 s) m2);
    [|apply L2; lia|by apply Forall_drop|by apply Forall_drop|apply mapped_write; eapply mapped_sub; [exact Hm|..]; rewrite ?length_drop; lia|rewrite length_drop; lia].
  rewrite length_drop. unfold m2. rewrite Z.add_assoc, write_take. cbn [Nat.add].
  replace (idx + Z.of_nat 11 + Z.of_nat (Nat.min 2 (length s - 11))) with (idx + Z.of_nat (Nat.min 13 (length s))) by lia.
  replace (length s - 11 <? 2)%nat with (length s <? 13)%nat; [done|].
  destruct (Nat.ltb_spec (length s) 13), (Nat.ltb_spec (length s - 11) 2); lia || done.
Qed.

(** The way down from the entry [k]. *)
Lemma collect_ok n k N a chk buf s m :
  (k + n = N)%nat -> (0 < n)%nat -> fits N s -> lfn_slots m a N 0 chk s -> Forall (fun v => v <> 0) s -> Forall is_byte s ->
  mapped buf (Z.of_nat (length s)) m ->
  buf + Z.of_nat (length s) <= a - DIR_ENTRY_LEN * (Z.of_nat N - 1) \/ a + DIR_ENTRY_LEN <= buf ->
  collect_lfn n (a - DIR_ENTRY_LEN * Z.of_nat k) buf (Z.of_nat (13 * k)) chk (write_bytes buf (take (13 * k) s) m) =
    Ret (Z.of_nat (length s), write_bytes buf s m).
Proof.
  unfold fits, DIR_ENTRY_LEN. revert k. induction n as [|n IH]; intros k Hk Hn Hfit Hsl Hz Hb Hm Hd; [lia|].
  cbn [collect_lfn]. destruct (Hsl k) as (ord & _ & _ & L); [lia|]. unfold DIR_ENTRY_LEN in L.
  assert (Hl : (13 * k < length s)%nat) by lia.
  assert (L' : lfn_slot (write_bytes buf (take (13 * k) s) m) (a - 32 * Z.of_nat k) ord chk (drop (13 * k) s)).
  { apply lfn_slot_write; [exact L|]. rewrite length_take. lia. }
  unfold load8. rewrite (ls_chk _ _ _ _ _ L'). cbn [of_opt mbind res_bind]. rewrite Z.eqb_refl.
  rewrite (lfn_entry_to_name_ok _ ord chk buf (Z.of_nat (13 * k)) (drop (13 * k) s)); [|done|by apply Forall_drop|by apply Forall_drop| |].
  - cbn [mbind res_bind]. rewrite length_drop, write_take.
    destruct (Nat.ltb_spec (length s - 13 * k) 13) as [Hlt|Hge].
    + rewrite take_ge by lia. cbn [mret res_ret]. f_equal. f_equal. lia.
    + destruct n as [|n].
      * cbn [collect_lfn]. rewrite take_ge by lia. cbn [mret res_ret]. f_equal. f_equal. lia.
      * replace (a - 32 * Z.of_nat k - DIR_ENTRY_LEN) with (a - 32 * Z.of_nat (S k)) by (unfold DIR_ENTRY_LEN; lia).
        replace (Z.of_nat (13 * k) + Z.of_nat (Nat.min 13 (length s - 13 * k))) with (Z.of_nat (13 * S k)) by lia.
        replace (13 * k + 13)%nat with (13 * S k)%nat by lia. apply IH; try done; lia.
  - apply mapped_write. rewrite length_drop. eapply mapped_sub; [exact Hm|lia|lia].
  - rewrite length_drop. lia.
Qed.

(** ** The round trip *)

Lemma last_lfn_ok fuel k a N chk s m :
  (k < fuel)%nat -> (k < N)%nat -> lfn_slots m a N 0 chk s -> last_lfn fuel (a - DIR_ENTRY_LEN * Z.of_nat k) m = Ret a.
Proof.
  revert k. induction fuel as [|fuel IH]; intros k Hf Hk Hsl; [lia|]. cbn [last_lfn].
  destruct (Hsl k Hk) as (ord & Hl & Ho & L). unfold load8. rewrite (ls_ord _ _ _ _ _ L). cbn [of_opt mbind res_bind].
  rewrite Hl. cbn [Nat.add]. destruct k as [|k].
  - change (Z.of_nat 0 + 1 >? 1) with false. rewrite andb_false_r. cbn [mret res_ret]. f_equal. lia.
  - destruct (Z.gtb_spec ord 1); [|lia]. destruct (Z.gtb_spec (Z.of_nat (S k) + 1) 1); [|lia]. cbn [andb].
    replace (a - DIR_ENTRY_LEN * Z.of_nat (S k) + DIR_ENTRY_LEN) with (a - DIR_ENTRY_LEN * Z.of_nat k) by lia.
    apply IH; [lia|lia|done].
Qed.

Lemma check_sum_frame n p sum m m' :
  (forall x, p <= x < p + Z.of_nat n -> m' !! x = m !! x) -> check_sum_loop n p sum m' = check_sum_loop n p sum m.
Proof.
  revert p sum. induction n as [|n IH]; intros p sum Hx; [done|]. cbn [check_sum_loop]. unfold load8.
  rewrite Hx by lia. destruct (m !! p); [|done]. cbn [of_opt mbind res_bind]. apply IH. intros x ?. apply Hx. lia.
Qed.

Lemma check_sum_byte n p sum m c : is_byte sum -> check_sum_loop n p sum m = Ret c -> is_byte c.
Proof.
  revert p sum. induction n as [|n IH]; intros p sum Hs; cbn [check_sum_loop]; [by intros [= <-]|].
  intros (v & _ & E)%res_bind_Ret. eapply IH; [|exact E]. unfold u8, uw, is_byte. apply Z.mod_pos_bound. lia.
Qed.

(** C17: a long name comes back from the directory.  The entries that
    [fill_lng_fname_entries] writes below the entry of the short name hold the
    name: [get_long_file_name], started at the first of them, ends at the short
    entry, counts them all and puts the whole name into its buffer.  The length
    it returns is one less than that of the name. *)
Theorem long_name_roundtrip fuel fname buf entry chk (count : nat) s m
    (Hcount : (0 < count <= 15)%nat) (Hfit : fits count s) (Hfuel : (count <= fuel)%nat)
    (Hname : cstr m fname s) (Hok : bytes_ok m) (Hchk : calc_check_sum entry m = Ret chk)
    (first := entry - DIR_ENTRY_LEN * Z.of_nat count)
    (Hroom : mapped first (DIR_ENTRY_LEN * Z.of_nat count) m)
    (Hnd : entry <= fname \/ fname + Z.of_nat (S (length s)) <= first)
    (Hbuf : mapped buf (Z.of_nat (length s)) m) (Hbd : entry <= buf \/ buf + Z.of_nat (length s) <= first) :
  exists m1 m2, fill_lng_fname_entries fname entry chk count m = Ret m1 /\
    (forall x, ~ first <= x < entry -> m1 !! x = m !! x) /\
    get_long_file_name fuel buf first m1 = Ret (Z.of_nat (length s) - 1, entry, Z.of_nat count, m2) /\
    read_bytes (length s) buf m2 = Some s.
Proof.
  pose proof (cstr_bytes m fname s Hok Hname) as Hb. destruct (Hname) as [_ Hz].
  assert (Hcb : is_byte chk) by (eapply check_sum_byte; [|exact Hchk]; done).
  unfold fill_lng_fname_entries. set (a := entry - DIR_ENTRY_LEN).
  assert (Ha : a - DIR_ENTRY_LEN * (Z.of_nat count - 1) = first) by (unfold a, first; lia).
  destruct (fill_entries_ok count 0 a fname chk s m) as (m1 & E1 & Hsl & Hso); try done; try lia.
  { by rewrite Ha. }
  rewrite Ha in Hso. assert (Hout : forall x, ~ first <= x < entry -> m1 !! x = m !! x).
  { intros x Hx. apply Hso. unfold first, DIR_ENTRY_LEN in *. lia. }
  exists m1, (write_bytes buf s m1). split; [exact E1|]. split; [exact Hout|]. split; [|apply read_bytes_write_same].
  unfold get_long_file_name. assert (Hf : first = a - DIR_ENTRY_LEN * Z.of_nat (count - 1)) by (unfold a, first, DIR_ENTRY_LEN; lia).
  destruct (Hsl (count - 1)%nat) as (ord & Hl & _ & L); [lia|]. rewrite <-Hf in L.
  unfold load8. rewrite (ls_ord _ _ _ _ _ L). cbn [of_opt mbind res_bind]. rewrite Hf, (last_lfn_ok fuel _ a count chk s m1) by (lia || done).
  cbn [mbind res_bind]. replace (a + DIR_ENTRY_LEN) with entry by (unfold a; lia).
  unfold calc_check_sum. rewrite (check_sum_frame _ entry 0 m m1), Hl; [|intros x Hx; apply Hout; lia].
  unfold calc_check_sum in Hchk. rewrite Hchk. cbn [mbind res_bind].
  replace (Z.of_nat (0 + (count - 1)) + 1) with (Z.of_nat count) by lia. rewrite Nat2Z.id.
  pose proof (collect_ok count 0 count a chk buf s m1) as Ec. change (13 * 0)%nat with 0%nat in Ec.
  change (Z.of_nat 0) with 0 in Ec. rewrite Z.mul_0_r, Z.sub_0_r, take_0 in Ec. cbn [write_bytes] in Ec.
  rewrite Ec; [done|lia|lia|done|done|done|done| |unfold a, first, DIR_ENTRY_LEN in *; lia].
  intros x Hx. rewrite Hout by lia. by apply Hbuf.
Qed.

(** "a long name.txt", in two entries. *)
Definition long_name : list Z := [97; 32; 108; 111; 110; 103; 32; 110; 97; 109; 101; 46; 116; 120; 116].
Definition lfn_mem : mem :=
  write_bytes 2048 (replicate 64 0xE5 ++ fresh_entry [65; 76; 79; 78; 71; 78; 126; 49; 84; 88; 84])
    (write_bytes 3000 (long_name ++ [0]) (write_bytes 4000 (replicate 255 0) ∅)).

Lemma long_name_roundtrip_witness : exists m1 m2, fill_lng_fname_entries 3000 2112 66 2 lfn_mem = Ret m1 /\
  get_long_file_name 2 4000 2048 m1 = Ret (14, 2112, 2, m2) /\ read_bytes 15 4000 m2 = Some long_name.
Proof.
  destruct (long_name_roundtrip 2 3000 4000 2112 66 2 long_name lfn_mem) as (m1 & m2 & E1 & _ & E2 & R).
  - lia.
  - unfold fits. cbn. lia.
  - lia.
  - split; [by vm_compute|repeat constructor; done].
  - unfold lfn_mem. repeat (apply bytes_ok_write; [|repeat constructor; done]). apply map_Forall_empty.
  - by vm_compute.
  - unfold lfn_mem. apply mapped_range; by vm_compute.
  - left. by vm_compute.
  - unfold lfn_mem. do 2 apply mapped_write. apply mapped_range; by vm_compute.
  - left. by vm_compute.
  - exists m1, m2. split; [exact E1|]. split; [exact E2|exact R].
Defined.

(** ** Names compared without their last character *)

(** The search compares [get_long_file_name]'s length: a file whose name has
    another last character is taken for the one that is looked for. *)
Lemma wrong_long_name :
  (m ← fill_lng_fname_entries 3000 2112 66 2 lfn_mem;
   m ← store8 3014 120 m;
   '(n, _, _, m) ← get_long_file_name 2 4000 2048 m; c ← sw_memcmp 4000 3000 n m;
   a ← load8 4014 m; b ← load8 3014 m; mret (c, a, b)) = Ret (0, 116, 120).
Proof. by vm_compute. Qed.

(** When the compiler keeps the old value in [req_cnt = req_cnt++], a long
    name of less than 13 characters needs no entry, so every place in the
    directory is taken for a gap. *)
Lemma no_entry_needed : cal_req_dir_cnt (fun x => x) 12 = 0 /\ gap_loop 0 2112 0 0 lfn_mem = Ret (2112, 0, 0).
Proof. by vm_compute. Qed.
