(* ===== verification/FatTrunc.v ===== *)
(** Truncation: which sizes [file_truncate] can set, and for which it never
    returns. *)
From stdpp Require Import prelude gmap.
From S2P Require Import Prelude HeapIface MemFn StrFn Words Fat FatRead FatDir.
#[local] Open Scope Z_scope.

Lemma store8_mapped a v m m' b n : store8 a v m = Ret m' -> mapped b n m -> mapped b n m'.
Proof. intros (x & _ & [= <-])%res_bind_Ret Hm. by apply mapped_insert. Qed.

Lemma store32_mapped a v m m' b n : store32 a v m = Ret m' -> mapped b n m -> mapped b n m'.
Proof.
  intros (m1 & E1 & (m2 & E2 & (m3 & E3 & E4)%res_bind_Ret)%res_bind_Ret)%res_bind_Ret Hm.
  by eapply store8_mapped, store8_mapped, store8_mapped, store8_mapped.
Qed.

Section truncate.
Context {H : Type}.

(** The entry of a cluster can be written. *)
Definition in_table (c : Z) (s : fat H) : Prop := mapped (first_fat s + u32 (c * 4)) 4 (fmem s).

Lemma write_fat_table_ok c v (s : fat H) :
  in_table c s -> exists m, write_fat_table c v s = Ret (set_fmem m s) /\ forall b n, mapped b n (fmem s) -> mapped b n m.
Proof.
  intros Hm. unfold write_fat_table. rewrite store32_ok by exact Hm. cbn [mbind res_bind].
  eexists. split; [reflexivity|]. intros b n. apply mapped_write.
Qed.

(** A new cluster changes the memory and the hint. *)
Lemma allocate_cluster_keeps afuel c (s s1 : fat H) :
  allocate_cluster afuel s = Ret (c, s1) ->
  exists m, s1 = set_nxt_free c (set_fmem m s) /\ forall b n, mapped b n (fmem s) -> mapped b n m.
Proof.
  intros (off & _ & (m & Em & [= <- <-])%res_bind_Ret)%res_bind_Ret. exists m. split; [done|].
  intros b n. by eapply store32_mapped.
Qed.

(** ** The loop that links clusters *)

(** The offset that the loop sets does not depend on how often it ran. *)
Lemma link_clusters_diverges fuel afuel prev new f (s : fat H) r :
  cur_offset f > cluster_size s -> u16 (file_size f - cluster_size s) > cluster_size s ->
  link_clusters fuel afuel prev new f s <> Ret r.
Proof.
  revert prev new f s r. induction fuel as [|fuel IH]; intros prev new f s r Hc Hu; cbn [link_clusters].
  - by rewrite (proj2 (Z.gtb_lt _ _)) by lia.
  - rewrite (proj2 (Z.gtb_lt _ _)) by lia. intros ([c s1] & Ea & (s2 & Ew & E)%res_bind_Ret)%res_bind_Ret.
    apply allocate_cluster_keeps in Ea as (m & -> & _).
    apply res_bind_Ret in Ew as (m' & _ & [= <-]). revert E. apply IH; cbn; lia.
Qed.

Lemma link_clusters_once afuel prev new f c (s s1 : fat H) fuel :
  cur_offset f > cluster_size s -> u16 (file_size f - cluster_size s) <= cluster_size s ->
  allocate_cluster afuel s = Ret (c, s1) -> in_table prev s -> (0 < fuel)%nat ->
  exists m, link_clusters fuel afuel prev new f s =
      Ret (c, set_pos (cur_cluster f) (u16 (file_size f - cluster_size s)) f, set_nxt_free c (set_fmem m s)) /\
    forall b n, mapped b n (fmem s) -> mapped b n m.
Proof.
  intros Hc Hu Ea Ht Hf. destruct fuel as [|fuel]; [lia|]. cbn [link_clusters]. rewrite (proj2 (Z.gtb_lt _ _)) by lia.
  rewrite Ea. cbn [mbind res_bind]. apply allocate_cluster_keeps in Ea as (m & -> & Hm).
  destruct (write_fat_table_ok prev c (set_nxt_free c (set_fmem m s))) as (m' & Ew & Hm'); [by apply Hm|].
  rewrite Ew. cbn [mbind res_bind]. exists m'. split; [|intros b n Hb; apply Hm'; by apply Hm].
  assert (E : u16 (file_size f - cluster_size s) >? cluster_size s = false).
  { destruct (Z.gtb_spec (u16 (file_size f - cluster_size s)) (cluster_size s)); [lia|done]. }
  destruct fuel; cbn [link_clusters cur_offset set_pos cluster_size set_nxt_free set_fmem]; by rewrite E.
Qed.

(** C25: truncation returns for two clusters at most.  Setting a size of at most
    twice the cluster size, with a free cluster and the table's entries in
    memory, returns 0 and the file has that size.  Beyond that, and below 64
    KiB, the loop that links clusters sets the same offset in each round: the
    call never returns, however long it runs. *)
Theorem truncate_terminates fuel afuel junk_new tr_lgh d f e (s : fat H)
    (Hf : find_file d s = Ret f) (He : entries s !! fi_entry f = Some e)
    (Hcs : 0 < cluster_size s < 2 ^ 15) (Htr : 0 <= tr_lgh < 2 ^ 16) :
  (2 * cluster_size s < tr_lgh -> forall r, truncate_chain fuel afuel junk_new tr_lgh d s <> Ret r) /\
  (tr_lgh <= 2 * cluster_size s -> (0 < fuel)%nat -> in_table (strt_cluster f) s ->
     (exists c s1, allocate_cluster afuel s = Ret (c, s1) /\ in_table c s) ->
     exists s' f', truncate_chain fuel afuel junk_new tr_lgh d s = Ret (0, s') /\ find_file d s' = Ret f' /\
       file_size f' = tr_lgh).
Proof.
  unfold truncate_chain. rewrite Hf. cbn [mbind res_bind].
  cbn [file_size cur_cluster strt_cluster fi_entry set_size set_pos].
  rewrite (u32_id tr_lgh), (u16_id tr_lgh) by (unfold in_u32; lia).
  pose proof (find_fd d f s Hf) as Hfd. split.
  - intros Hbig r. rewrite (proj2 (Z.eqb_neq tr_lgh 0)) by lia.
    destruct (Z.gtb_spec tr_lgh (cluster_size s)); [|lia].
    intros ([f' s'] & ([[n g] s2] & E & _)%res_bind_Ret & _)%res_bind_Ret. revert E.
    apply link_clusters_diverges; cbn [cur_offset set_pos file_size set_size]; [lia|]. rewrite u16_id; lia.
  - intros Hsmall Hfu Ht (c & s1 & Ea & Htc). destruct (Z.eqb_spec tr_lgh 0) as [->|Hz].
    + destruct (write_fat_table_ok (strt_cluster f) 0 s Ht) as (m & -> & _). cbn [mbind res_bind mret res_ret].
      cbn [entries set_fmem fi_entry set_pos set_size]. rewrite He. cbn [of_opt mbind res_bind].
      eexists _, _. split; [reflexivity|]. split; [by apply (find_put d f)|done].
    + destruct (Z.gtb_spec tr_lgh (cluster_size s)) as [Hg|Hg].
      * destruct (link_clusters_once afuel (strt_cluster f) junk_new (set_pos (cur_cluster f) tr_lgh (set_size tr_lgh f)) c s s1 fuel)
          as (m & El & Hm); try done; cbn [cur_offset set_pos file_size set_size]; try lia; [rewrite u16_id; lia|].
        rewrite El. cbn [mbind res_bind].
        destruct (write_fat_table_ok c END_OF_CLUSTER (set_nxt_free c (set_fmem m s))) as (m' & -> & _); [by apply Hm|].
        cbn [mbind res_bind mret res_ret entries set_fmem set_nxt_free fi_entry set_pos set_size]. rewrite He. cbn [of_opt mbind res_bind].
        eexists _, _. split; [reflexivity|]. split; [by apply (find_put d f)|done].
      * destruct (write_fat_table_ok (strt_cluster f) END_OF_CLUSTER s Ht) as (m & -> & _). cbn [mbind res_bind mret res_ret].
        cbn [entries set_fmem fi_entry set_pos set_size]. rewrite He. cbn [of_opt mbind res_bind].
        eexists _, _. split; [reflexivity|]. split; [by apply (find_put d f)|done].
Qed.
End truncate.

Definition trunc_image : fat () := set_fmem (write_bytes 1260 [5; 0; 0; 0] image_mem) image.

Lemma trunc_table c : 0 <= c < 8 -> in_table c trunc_image.
Proof.
  intros Hc. unfold in_table. cbn [fmem trunc_image set_fmem first_fat image]. rewrite u32_id by (unfold in_u32; lia).
  unfold image_mem. apply mapped_write. apply mapped_range; [lia|]. change (Z.of_nat (length image_fat)) with 32. lia.
Qed.

(** Clusters have 16 bytes: 20 bytes can be set, 40 cannot. *)
Lemma truncate_terminates_witness :
  (exists s', truncate_chain 1 8 77 20 3 trunc_image = Ret (0, s')) /\
  forall r, truncate_chain 1000 8 77 40 3 trunc_image <> Ret r.
Proof.
  split.
  - destruct (proj2 (truncate_terminates 1 8 77 20 3 image_file (replicate 32 0) trunc_image eq_refl eq_refl
      ltac:(by split) ltac:(by split))) as (s' & f' & E & _).
    + by vm_compute.
    + lia.
    + by apply trunc_table.
    + destruct (allocate_cluster 8 trunc_image) as [[c s1]| |] eqn:Ea; [|by vm_compute in Ea..].
      exists c, s1. split; [done|]. apply (f_equal (fun r => match r with Ret (x, _) => x | _ => 0 end)) in Ea.
      vm_compute in Ea. subst c. by apply trunc_table.
    + exists s'. exact E.
  - apply (proj1 (truncate_terminates 1000 8 77 40 3 image_file (replicate 32 0) trunc_image eq_refl eq_refl
      ltac:(by split) ltac:(by split))). by vm_compute.
Defined.
