(* ===== verification/Elf.v ===== *)
(** [arch/arm/armv7/elf_loader.c]: relocatable object files are read into
    pages of the kernel, their branches are adjusted, and the sections that
    occupy memory are copied to the load address, where the entry point and the
    service function of the task are looked up.

    Structures of the file are read through their offsets; a pointer into the
    file is an address of the byte memory. *)
From stdpp Require Import prelude gmap.
From S2P Require Import Prelude HeapIface Service PageTable MemMng MemFn StrFn Words Fat FatDir.
#[local] Open Scope Z_scope.

(** ** Constants of [elf.h], [sw_board.h] and [page_table.h] *)

Definition ET_REL : Z := 1.
Definition EM_ARM : Z := 40.
Definition EV_CURRENT : Z := 1.
Definition SHN_UNDEF : Z := 0.
Definition SHT_SYMTAB : Z := 2.
Definition SHT_STRTAB : Z := 3.
Definition SHT_REL : Z := 9.
Definition SHF_ALLOC : Z := Z.shiftl 1 1.
Definition PT_LOAD : Z := 1.
Definition R_ARM_NONE : Z := 0.
Definition R_ARM_PC24 : Z := 1.
Definition R_ARM_ABS32 : Z := 2.
Definition R_ARM_CALL : Z := 28.
Definition R_ARM_JUMP24 : Z := 29.
Definition ELF32_R_SYM (val : Z) : Z := Z.shiftr val 8.
Definition ELF32_R_TYPE (val : Z) : Z := Z.land val 0xff.
Definition SECURE_WORLD_RAM_START : Z := 0x90100000 + 3 * 1048576.
Definition BASE_LOAD_ADDRESS : Z := SECURE_WORLD_RAM_START - 0x01000000.
Definition ELF_LOADER_START_ADDRESS : Z := 0x93ffffff + 1.
Definition PTF_PROT_URW : Z := PRIV_RW_USR_RW.
Definition PTF_EXEC : Z := Z.shiftl 1 3.

Definition sizeof_Ehdr : Z := 52.
Definition sizeof_Phdr : Z := 32.
Definition sizeof_Shdr : Z := 40.
Definition sizeof_Sym : Z := 16.
Definition sizeof_Rel : Z := 8.

(** ** Fields *)

Definition e_type (h : Z) (m : mem) : res Z := load16 (h + 16) m.
Definition e_machine (h : Z) (m : mem) : res Z := load16 (h + 18) m.
Definition e_version (h : Z) (m : mem) : res Z := load32 (h + 20) m.
Definition e_shoff (h : Z) (m : mem) : res Z := load32 (h + 32) m.
Definition e_phentsize (h : Z) (m : mem) : res Z := load16 (h + 42) m.
Definition e_phnum (h : Z) (m : mem) : res Z := load16 (h + 44) m.
Definition e_shnum (h : Z) (m : mem) : res Z := load16 (h + 48) m.

(** [sec_header + i], and the same for symbols and relocations. *)
Definition shdr (sec_header i : Z) : Z := u32 (sec_header + sizeof_Shdr * i).
Definition sh_type (s : Z) (m : mem) : res Z := load32 (s + 4) m.
Definition sh_flags (s : Z) (m : mem) : res Z := load32 (s + 8) m.
Definition sh_addr (s : Z) (m : mem) : res Z := load32 (s + 12) m.
Definition sh_offset (s : Z) (m : mem) : res Z := load32 (s + 16) m.
Definition sh_size (s : Z) (m : mem) : res Z := load32 (s + 20) m.
Definition sh_info (s : Z) (m : mem) : res Z := load32 (s + 28) m.

Definition sym_at (sym i : Z) : Z := u32 (sym + sizeof_Sym * i).
Definition st_name (y : Z) (m : mem) : res Z := load32 y m.
Definition st_value (y : Z) (m : mem) : res Z := load32 (y + 4) m.
Definition st_shndx (y : Z) (m : mem) : res Z := load16 (y + 14) m.

Definition rel_at (rel i : Z) : Z := u32 (rel + sizeof_Rel * i).
Definition r_offset (r : Z) (m : mem) : res Z := load32 r m.
Definition r_info (r : Z) (m : mem) : res Z := load32 (r + 4) m.

(** The fields of [sa_config_t] that the loader uses: the path, the addresses
    of the two names, and what it stores. *)
Record elf_conf : Type := ElfConf {
  ec_file_path : list Z; ec_entry_func : Z; ec_process_name : Z;
  ec_entry_point : Z; ec_process : Z; ec_elf_flag : Z;
}.
Definition set_ec_entry_point (v : Z) (c : elf_conf) : elf_conf :=
  ElfConf (ec_file_path c) (ec_entry_func c) (ec_process_name c) v (ec_process c) (ec_elf_flag c).
Definition set_ec_process (v : Z) (c : elf_conf) : elf_conf :=
  ElfConf (ec_file_path c) (ec_entry_func c) (ec_process_name c) (ec_entry_point c) v (ec_elf_flag c).
Definition set_ec_elf_flag (v : Z) (c : elf_conf) : elf_conf :=
  ElfConf (ec_file_path c) (ec_entry_func c) (ec_process_name c) (ec_entry_point c) (ec_process c) v.

(** ** Symbols *)

(** The search for a function among symbols [i], [i + 1], ...; [n] are left. *)
Fixpoint find_func (n : nat) (i sym entry_func strtab : Z) (m : mem) : res (option Z) :=
  match n with
  | O => mret None
  | S n =>
      index ← st_name (sym_at sym i) m;
      c ← sw_strcmp (u32 (strtab + index)) entry_func m;
      if c =? 0 then v ← st_value (sym_at sym i) m; mret (Some (u32 (BASE_LOAD_ADDRESS + v)))
      else find_func n (i + 1) sym entry_func strtab m
  end.

(** The symbol at index 0 is not looked at. *)
Definition sym_count (sec_header symindex : Z) (m : mem) : res Z :=
  size ← sh_size (shdr sec_header symindex) m; mret (size / sizeof_Sym).

Definition fix_entry_point (sec_header sym entry_func symindex strtab : Z) (c : elf_conf) (m : mem) : res (Z * elf_conf) :=
  n ← sym_count sec_header symindex m;
  v ← find_func (Z.to_nat (n - 1)) 1 sym entry_func strtab m;
  mret (match v with Some v => (0, set_ec_entry_point v c) | None => (-1, c) end).

Definition fix_process_func (sec_header sym entry_func symindex strtab : Z) (c : elf_conf) (m : mem) : res (Z * elf_conf) :=
  n ← sym_count sec_header symindex m;
  v ← find_func (Z.to_nat (n - 1)) 1 sym entry_func strtab m;
  mret (match v with Some v => (0, set_ec_process v c) | None => (-1, c) end).

(** [struct kernel_symbol]: the address and a pointer to the name. *)
Fixpoint ksym_loop (n : nat) (sym_tab symname : Z) (m : mem) : res Z :=
  match n with
  | O => mret (u32 (-1))
  | S n =>
      name ← load32 (sym_tab + 4) m;
      c ← sw_strcmp symname name m;
      if c =? 0 then load32 sym_tab m else ksym_loop n (sym_tab + 8) symname m
  end.
Definition get_undefined_symbol_addr (sym_tab symname n : Z) (m : mem) : res Z :=
  ksym_loop (Z.to_nat (s32 n)) sym_tab symname m.

(** ** Relocations *)

(** The signed distance in a branch instruction. *)
Definition branch_addend (w : Z) : Z :=
  let offset := Z.shiftl (Z.land w 0x00ffffff) 2 in
  if negb (Z.land offset 0x02000000 =? 0) then offset - 0x04000000 else offset.

(** The two assignments to the instruction at [loc_to_rel]. *)
Definition patch (loc_to_rel offset : Z) (m : mem) : res mem :=
  let offset := Z.shiftr offset 2 in
  w ← load32 loc_to_rel m;
  m ← store32 loc_to_rel (Z.land w 0xff000000) m;
  w ← load32 loc_to_rel m;
  store32 loc_to_rel (Z.lor w (u32 (Z.land offset 0x00ffffff))) m.

(** The file system, the page allocator and the page table. *)
Record est {H : Type} : Type := Est { e_fat : fat H; e_pages : secure_world_mem_info; e_pgd : l1_table }.
Arguments est : clear implicits.
Arguments Est {H} _ _ _.

Section elf.
(** The linker's symbols [_SW_KSYMTAB] and [_SW_KSYMTAB_END]. *)
Context (ksymtab ksymtab_end : Z).

Definition ksym_count : Z := u32 (ksymtab_end - ksymtab) / 8.

(** A branch to a function of the kernel. *)
Definition reloc_undefined (symname dst_sec r_off : Z) (m : mem) : res (option mem) :=
  symbol_addr ← get_undefined_symbol_addr ksymtab symname ksym_count m;
  if symbol_addr =? u32 (-1) then mret None else
  a ← sh_addr dst_sec m;
  let loc_to_rel := u32 (a + r_off) in
  w ← load32 loc_to_rel m;
  let offset := s32 (u32 (branch_addend w + u32 (symbol_addr - u32 (BASE_LOAD_ADDRESS + r_off)))) in
  if negb (Z.land offset 3 =? 0) || (offset <=? s32 0xfe000000) || (offset >=? s32 0x02000000)
  then mret None
  else m ← patch loc_to_rel offset m; mret (Some m).

(** A branch inside of the file.  [0xfe000000] is an [unsigned int], so the
    first comparison is one of unsigned numbers. *)
Definition reloc_defined (sec_header sym dst_sec r_off : Z) (m : mem) : res (option mem) :=
  a ← sh_addr dst_sec m;
  let loc_to_rel := u32 (a + r_off) in
  w ← load32 loc_to_rel m;
  shndx ← st_shndx sym m;
  b ← sh_addr (shdr sec_header shndx) m;
  v ← st_value sym m;
  let offset := s32 (u32 (branch_addend w + u32 (u32 (b + v) - loc_to_rel))) in
  if negb (Z.land offset 3 =? 0) || (u32 offset <=? 0xfe000000) || (offset >=? 0x02000000)
  then mret None
  else m ← patch loc_to_rel offset m; mret (Some m).

(** One round of the loop: relocation [i].  [loc_to_rel] is not set before the
    first branch. *)
Definition reloc_one (i sec_header sym_sec rel sym dst_sec str_tab loc_to_rel : Z) (m : mem) : res (option (Z * mem)) :=
  info ← r_info (rel_at rel i) m;
  let offset := s32 (ELF32_R_SYM info) in
  size ← sh_size sym_sec m;
  if (offset <? 0) || (u32 offset >? size / sizeof_Sym) then mret None else
  let sym := sym_at sym offset in
  name ← st_name sym m;
  r_off ← r_offset (rel_at rel i) m;
  dsize ← sh_size dst_sec m;
  if r_off >? u32 (dsize - 4) then mret None else
  let ty := ELF32_R_TYPE info in
  if ty =? R_ARM_NONE then mret (Some (loc_to_rel, m))
  else if ty =? R_ARM_ABS32 then
    w ← load32 loc_to_rel m; v ← st_value sym m; m ← store32 loc_to_rel (u32 (w + v)) m;
    mret (Some (loc_to_rel, m))
  else if (ty =? R_ARM_CALL) || (ty =? R_ARM_JUMP24) || (ty =? R_ARM_PC24) then
    shndx ← st_shndx sym m;
    r ← (if shndx =? SHN_UNDEF then reloc_undefined (u32 (str_tab + name)) dst_sec r_off m
         else reloc_defined sec_header sym dst_sec r_off m);
    match r with
    | None => mret None
    | Some m' => a ← sh_addr dst_sec m; mret (Some (u32 (a + r_off), m'))
    end
  else mret (Some (loc_to_rel, m)).

(** The status, and the memory with the relocations that were applied. *)
Fixpoint reloc_loop (fuel : nat) (i sec_header sym_sec rel_sec rel sym dst_sec str_tab loc_to_rel : Z) (m : mem)
    : res (Z * mem) :=
  size ← sh_size rel_sec m;
  if i >=? size / sizeof_Rel then mret (0, m) else
  match fuel with
  | O => Fault
  | S fuel =>
      r ← reloc_one i sec_header sym_sec rel sym dst_sec str_tab loc_to_rel m;
      match r with
      | None => mret (-1, m)
      | Some (loc_to_rel, m) => reloc_loop fuel (i + 1) sec_header sym_sec rel_sec rel sym dst_sec str_tab loc_to_rel m
      end
  end.

(** The result, the value of [*fl], the configuration and the memory. *)
Definition apply_relocations (fuel : nat) (junk_loc file_map sec_header str_tab symindex relindex : Z) (fl : bool)
    (c : elf_conf) (m : mem) : res (Z * bool * elf_conf * mem) :=
  let sym_sec := shdr sec_header symindex in
  let rel_sec := shdr sec_header relindex in
  rel ← sh_addr rel_sec m;
  sym ← sh_addr sym_sec m;
  info ← sh_info rel_sec m;
  let dst_sec := shdr sec_header info in
  '(status, m) ← reloc_loop fuel 0 sec_header sym_sec rel_sec rel sym dst_sec str_tab junk_loc m;
  if status =? -1 then mret (-1, fl, c, m) else
  if fl : bool then mret (0, fl, c, m) else
  '(status, c) ← fix_entry_point sec_header sym (ec_entry_func c) symindex str_tab c m;
  if status =? -1 then mret (-1, fl, c, m) else
  '(status, c) ← fix_process_func sec_header sym (ec_process_name c) symindex str_tab c m;
  if status =? -1 then mret (-1, fl, c, m) else
  m ← store32 (file_map + 24) (ec_entry_point c) m; mret (0, true, c, m).

(** ** Loading *)

(** Sections [i], [i + 1], ...; [n] are left. *)
Fixpoint load_loop (n : nat) (i sec_header prev_addr : Z) (m : mem) : res (Z * mem) :=
  match n with
  | O => mret (0, m)
  | S n =>
      let s := shdr sec_header i in
      flags ← sh_flags s m;
      if negb (Z.land flags SHF_ALLOC =? 0) then
        a ← sh_addr s m;
        size ← sh_size s m;
        '(status, m) ← sw_memcpy prev_addr a size m;
        if status =? 0 then mret (-1, m) else
        size ← sh_size s m;
        load_loop n (i + 1) sec_header (u32 (prev_addr + size)) m
      else load_loop n (i + 1) sec_header prev_addr m
  end.
Definition load_into_memory (file_map sec_header : Z) (m : mem) : res (Z * mem) :=
  shnum ← e_shnum file_map m;
  load_loop (Z.to_nat (shnum - 1)) 1 sec_header BASE_LOAD_ADDRESS m.

(** The loop over the section headers that looks for the tables and stores the
    addresses of the sections; the indices are not set where there is no table. *)
Fixpoint fix_headers (n : nat) (i sec_header file_map symindex strindex : Z) (m : mem) : res (Z * Z * mem) :=
  match n with
  | O => mret (symindex, strindex, m)
  | S n =>
      let s := shdr sec_header i in
      ty ← sh_type s m;
      let symindex := if ty =? SHT_SYMTAB then i else symindex in
      let strindex := if ty =? SHT_STRTAB then i else strindex in
      off ← sh_offset s m;
      m ← store32 (s + 12) (u32 (file_map + off)) m;
      fix_headers n (i + 1) sec_header file_map symindex strindex m
  end.

Fixpoint reloc_sections (fuel n : nat) (i junk_loc file_map sec_header str_tab symindex : Z) (fl : bool)
    (c : elf_conf) (m : mem) : res (Z * elf_conf * mem) :=
  match n with
  | O => mret (0, c, m)
  | S n =>
      ty ← sh_type (shdr sec_header i) m;
      if ty =? SHT_REL then
        '(status, fl, c, m) ← apply_relocations fuel junk_loc file_map sec_header str_tab symindex i fl c m;
        if status =? -1 then mret (-1, c, m)
        else reloc_sections fuel n (i + 1) junk_loc file_map sec_header str_tab symindex fl c m
      else reloc_sections fuel n (i + 1) junk_loc file_map sec_header str_tab symindex fl c m
  end.

Section loader.
Context {H : Type} `{PrivateHeap H} (hid : Z).
Context (long_file_name shrt_file_name temp_lfn : Z) (postinc : Z -> Z).
(** The bounds of the loops over the file table and the chains, what the
    uninitialised variables hold, and the translation of the MMU. *)
Context (fuel afuel : nat) (junk_prev junk_off junk_loc junk_sym junk_str : Z) (junk_found multicore : bool).
Context (va_to_pa : Z -> Z).

Definition e_mem (s : est H) : mem := fmem (e_fat s).
Definition set_efat (f : fat H) (s : est H) : est H := Est f (e_pages s) (e_pgd s).
Definition set_emem (m : mem) (s : est H) : est H := set_efat (set_fmem m (e_fat s)) s.

(** The [do ... while] loop that reads the file: whether it was read, and what
    is left to read. *)
Fixpoint map_file (k : nat) (fp tmp len : Z) (s : est H) : res (bool * Z * est H) :=
  match k with
  | O => Fault
  | S k =>
      '(n, f) ← file_read fp tmp len (e_fat s);
      let s := set_efat f s in
      let num_bytes := u32 n in
      if num_bytes =? 0 then mret (false, len, s) else
      let len := u32 (len - num_bytes) in
      if len >? 0 then map_file k fp (u32 (tmp + num_bytes)) len s else mret (true, len, s)
  end.

(** Between the loop and the label [out]. *)
Definition relocate_file (ehdr file_map : Z) (c : elf_conf) (m : mem) : res (Z * elf_conf * mem) :=
  '(_, m) ← sw_memcpy ehdr file_map sizeof_Ehdr m;
  sh_off ← e_shoff ehdr m;
  sh_num ← e_shnum ehdr m;
  let sec_header := u32 (file_map + sh_off) in
  let n := Z.to_nat (sh_num - 1) in
  '(symindex, strindex, m) ← fix_headers n 1 sec_header file_map junk_sym junk_str m;
  off ← sh_offset (shdr sec_header strindex) m;
  '(status, c, m) ← reloc_sections fuel n 1 junk_loc file_map sec_header (u32 (file_map + off)) symindex false c m;
  if status =? -1 then mret (-1, c, m) else
  '(status, m) ← load_into_memory file_map sec_header m;
  mret (if status =? -1 then -1 else OTZ_OK, c, m).

(** [len] has been counted down when the pages are given back. *)
Definition relocate_elf_loader (fp ehdr : Z) (c : elf_conf) (s : est H) : res (Z * elf_conf * est H) :=
  '(len, f) ← file_seek fuel afuel junk_prev junk_off fp 0 FILE_SEEK_END (e_fat s);
  '(ret, c, s) ←
    (if len =? -1 then mret (-1, c, set_efat f s) else
     let len := u32 len in
     '(_, f) ← file_seek fuel afuel junk_prev junk_off fp 0 FILE_SEEK_SET f;
     '(file_map, (pages, pgd)) ← sw_vir_page_alloc multicore len (e_pages s) (e_pgd s);
     let s := Est f pages pgd in
     if file_map =? 0 then mret (-1, c, s) else
     let s := set_emem (provide file_map len (e_mem s)) s in
     '(ok, len, s) ← map_file (S (Z.to_nat len)) fp file_map len s;
     '(ret, c, s) ← (if ok : bool then '(r, c, m) ← relocate_file ehdr file_map c (e_mem s); mret (r, c, set_emem m s)
                     else mret (-1, c, s));
     '(_, pages) ← sw_vir_addr_free va_to_pa file_map len (e_pages s);
     mret (ret, c, Est (e_fat s) pages (e_pgd s)));
  '(_, f) ← file_close hid fp (e_fat s);
  mret (ret, c, set_efat f s).

Definition init_map_loader (c : elf_conf) (s : est H) : res (Z * elf_conf * est H) :=
  '(r, pgd) ← map_secure_memory multicore BASE_LOAD_ADDRESS ELF_LOADER_START_ADDRESS SECTION_SIZE
                (Z.lor PTF_EXEC PTF_PROT_URW) (e_pgd s);
  let s := Est (e_fat s) (e_pages s) pgd in
  if negb (r =? OTZ_OK) then mret (-1, c, s)
  else mret (0, set_ec_elf_flag ELF_FLAG_MAP c, set_emem (provide BASE_LOAD_ADDRESS SECTION_SIZE (e_mem s)) s).

(** The comparisons of the identification: the byte at the offset has the
    value. *)
Fixpoint ident_ok (want : list (Z * Z)) (ehdr : Z) (m : mem) : res bool :=
  match want with
  | [] => mret true
  | (off, v) :: want => b ← load8 (ehdr + off) m; if b =? v then ident_ok want ehdr m else mret false
  end.
Definition elf_ident : list (Z * Z) :=
  [(0, 0x7f); (1, 69); (2, 76); (3, 70); (4, 1); (5, 1); (6, EV_CURRENT)].

Definition validate_elf_header (fp ehdr : Z) (s : est H) : res (Z * est H) :=
  '(num_bytes, f) ← file_read fp ehdr sizeof_Ehdr (e_fat s);
  let s := set_efat f s in
  if negb (num_bytes =? sizeof_Ehdr) then mret (-1, s) else
  ok ← ident_ok elf_ident ehdr (e_mem s);
  if negb ok then mret (-1, s) else
  ty ← e_type ehdr (e_mem s);
  mach ← e_machine ehdr (e_mem s);
  if negb (mach =? EM_ARM) then mret (-1, s) else
  v ← e_version ehdr (e_mem s);
  if negb (v =? EV_CURRENT) then mret (-1, s) else
  mret (if ty =? ET_REL then 1 else 0, s).

(** The function up to the second [goto out], behind which nothing is
    reached: what is not relocatable is accepted and not loaded.  [ehdr] is the
    header on the stack. *)
Definition elf_load (ehdr : Z) (c : elf_conf) (s : est H) : res (Z * elf_conf * est H) :=
  '(r, c, s) ← init_map_loader (set_ec_elf_flag (-1) c) s;
  if negb (r =? 0) then mret (-1, c, s) else
  '(fp, f) ← file_open hid long_file_name shrt_file_name temp_lfn postinc fuel afuel junk_found (ec_file_path c) FILE_READ (e_fat s);
  let s := set_efat f s in
  if fp =? -1 then mret (-1, c, s) else
  '(rel, s) ← validate_elf_header fp ehdr s;
  '(ret, c, s) ← (if rel =? 1 then relocate_elf_loader fp ehdr c s
                  else mret (if rel =? -1 then -1 else OTZ_OK, c, s));
  '(_, f) ← file_close hid fp (e_fat s);
  mret (ret, c, set_efat f s).

(** The segments [n] .. that are of type [PT_LOAD]. *)
Fixpoint count_loadable (n : nat) (p phentsize : Z) (m : mem) : res Z :=
  match n with
  | O => mret 0
  | S n =>
      ty ← load32 p m;
      k ← count_loadable n (u32 (p + phentsize)) phentsize m;
      mret (if ty =? PT_LOAD then k + 1 else k)
  end.

(** The number and the table of program headers. *)
Definition get_number_of_loadable_segments (fp ehdr : Z) (s : est H) : res (Z * option Z * est H) :=
  ph_num ← e_phnum ehdr (e_mem s);
  '(p, f) ← f_malloc hid (ph_num * sizeof_Phdr) (e_fat s);
  let s := set_efat f s in
  if p =? 0 then mret (-1, None, s) else
  '(num_bytes, f) ← file_read fp p (ph_num * sizeof_Phdr) (set_fmem (provide p (ph_num * sizeof_Phdr) (e_mem s)) (e_fat s));
  let s := set_efat f s in
  if negb (num_bytes =? ph_num * sizeof_Phdr) then mret (-1, None, s) else
  n ← e_phnum ehdr (e_mem s);
  size ← e_phentsize ehdr (e_mem s);
  k ← count_loadable (Z.to_nat n) p size (e_mem s);
  mret (k, Some p, s).

Definition elf_loader_cleanup (s : est H) : res (Z * est H) :=
  '(status, pgd) ← unmap_secure_memory BASE_LOAD_ADDRESS SECTION_SIZE (e_pgd s);
  mret (status, Est (e_fat s) (e_pages s) pgd).
End loader.
End elf.
