(* ===== verification/ElfSpec.v ===== *)
(** Relocation and loading: a branch that was relocated reaches its symbol
    once the file is loaded, the sections are loaded one behind the other, and
    the branches inside of a file that the loader refuses. *)
From stdpp Require Import prelude gmap.
From S2P Require Import Prelude HeapIface MemMng MemFn StrFn Words Fat Elf.
#[local] Open Scope Z_scope.

(** ** Branch instructions *)

(** Where the instruction [w] at [p] branches to: the processor reads the
    program counter as 8 bytes ahead. *)
Definition branch_target (p w : Z) : Z := u32 (p + 8 + branch_addend w).

(** The distances that the instruction can hold, as the loader tests them. *)
Definition reachable (d : Z) : bool := (Z.land d 3 =? 0) && (- 2 ^ 25 <? d) && (d <? 2 ^ 25).

(** [w] with the distance replaced. *)
Definition patched (w d : Z) : Z := Z.lor (Z.land w 0xff000000) (Z.land (Z.shiftr d 2) 0x00ffffff).

Lemma bit25 o : 0 <= o < 2 ^ 26 -> negb (Z.land o 0x02000000 =? 0) = (2 ^ 25 <=? o).
Proof.
  intros Ho. assert (Z.land o 0x02000000 = Z.shiftl (Z.land (Z.shiftr o 25) (Z.ones 1)) 25) as ->.
  { change 0x02000000 with (Z.shiftl 1 25). apply Z.bits_inj'. intros n Hn.
    rewrite Z.land_spec, !Z.shiftl_spec, Z.land_spec by lia. destruct (Z.ltb_spec n 25).
    - rewrite (Z.testbit_neg_r 1) by lia. rewrite andb_false_r. by rewrite (Z.testbit_neg_r _ (n - 25)) by lia.
    - rewrite Z.shiftr_spec by lia. by replace (n - 25 + 25) with n by lia. }
  rewrite Z.land_ones, Z.shiftl_mul_pow2, Z.shiftr_div_pow2 by lia. change (2 ^ 1) with 2.
  assert (o / 2 ^ 25 < 2) by (apply Z.div_lt_upper_bound; lia).
  pose proof (Z.div_pos o (2 ^ 25) ltac:(lia) ltac:(lia)). pose proof (Z.div_mod o (2 ^ 25) ltac:(lia)) as E.
  pose proof (Z.mod_pos_bound o (2 ^ 25) ltac:(lia)). rewrite Z.mod_small by lia.
  destruct (Z.leb_spec (2 ^ 25) o).
  - assert (o / 2 ^ 25 = 1) as -> by lia. done.
  - assert (o / 2 ^ 25 = 0) as -> by lia. done.
Qed.

Lemma land3 d : Z.land d 3 = 0 <-> d mod 4 = 0.
Proof. change 3 with (Z.ones 2). by rewrite Z.land_ones by lia. Qed.

Lemma patched_addend w d : Z.land d 3 = 0 -> - 2 ^ 25 <= d < 2 ^ 25 -> branch_addend (patched w d) = d.
Proof.
  intros H4 Hd. unfold branch_addend, patched. rewrite Z.land_lor_distr_l, <-!Z.land_assoc.
  change (Z.land 0xff000000 0x00ffffff) with 0. rewrite Z.land_0_r, Z.lor_0_l, Z.land_diag.
  change 0x00ffffff with (Z.ones 24). rewrite Z.land_ones, Z.shiftr_div_pow2, Z.shiftl_mul_pow2 by lia.
  change (2 ^ 2) with 4. apply land3 in H4. pose proof (Z.div_mod d 4 ltac:(lia)) as E. rewrite H4 in E.
  pose proof (Z.mod_pos_bound (d / 4) (2 ^ 24) ltac:(lia)). rewrite bit25 by lia.
  destruct (decide (0 <= d)).
  - rewrite Z.mod_small by lia. destruct (Z.leb_spec (2 ^ 25) (d / 4 * 4)); lia.
  - replace ((d / 4) mod 2 ^ 24) with (d / 4 + 2 ^ 24).
    + destruct (Z.leb_spec (2 ^ 25) ((d / 4 + 2 ^ 24) * 4)); lia.
    + rewrite <-(Z_mod_plus_full (d / 4) 1). rewrite Z.mod_small; lia.
Qed.

Lemma patched_u32 w d : in_u32 w -> in_u32 (patched w d).
Proof.
  intros Hw. unfold in_u32, patched. change 0x00ffffff with (Z.ones 24). rewrite (Z.land_ones (Z.shiftr d 2)) by lia.
  pose proof (Z.mod_pos_bound (Z.shiftr d 2) (2 ^ 24) ltac:(lia)).
  assert (Hl : 0 <= Z.lor (Z.land w 0xff000000) (Z.shiftr d 2 mod 2 ^ 24)).
  { apply Z.lor_nonneg. split; [apply Z.land_nonneg; lia|lia]. }
  split; [exact Hl|]. apply Z.log2_lt_cancel. rewrite Z.log2_lor by (try apply Z.land_nonneg; lia).
  change (Z.log2 (2 ^ 32)) with 32. apply Z.max_lub_lt.
  - eapply Z.le_lt_trans; [apply Z.log2_land; unfold in_u32 in Hw; lia|]. apply Z.min_lt_iff. right. reflexivity.
  - destruct (decide (Z.shiftr d 2 mod 2 ^ 24 = 0)) as [->|]; [done|].
    assert (Z.log2 (Z.shiftr d 2 mod 2 ^ 24) < 24) by (apply Z.log2_lt_pow2; lia). lia.
Qed.

(** The condition and the opcode stay. *)
Lemma patched_opcode w d : in_u32 w -> Z.shiftr (patched w d) 24 = Z.shiftr w 24.
Proof.
  intros Hw. unfold patched. rewrite Z.shiftr_lor, !Z.shiftr_land.
  change (Z.shiftr 0xff000000 24) with (Z.ones 8). change (Z.shiftr 0x00ffffff 24) with 0.
  rewrite Z.land_0_r, Z.lor_0_r, Z.land_ones by lia. apply Z.mod_small.
  rewrite Z.shiftr_div_pow2 by lia. unfold in_u32 in Hw. split; [apply Z.div_pos; lia|apply Z.div_lt_upper_bound; lia].
Qed.

Lemma write_bytes_twice a l l' m : length l = length l' -> write_bytes a l' (write_bytes a l m) = write_bytes a l' m.
Proof.
  intros L. apply map_eq. intros x. rewrite !write_bytes_lookup, L. by repeat case_decide.
Qed.

Lemma patch_ok loc d w m :
  load32 loc m = Ret w -> in_u32 w -> mapped loc 4 m -> patch loc d m = Ret (write_bytes loc (le32 (patched w d)) m).
Proof.
  intros E Hw Hm. unfold patch. rewrite E. cbn [mbind res_bind]. rewrite store32_ok by done. cbn [mbind res_bind].
  assert (Ht : in_u32 (Z.land w 0xff000000)).
  { pose proof (patched_u32 w 0 Hw) as Hp. unfold patched in Hp. by rewrite Z.lor_0_r in Hp. }
  rewrite (load32_le32 _ (Z.land w 0xff000000)); [|done|apply (read_bytes_write_same (le32 _))]. cbn [mbind res_bind].
  rewrite store32_ok by (by apply mapped_write). rewrite write_bytes_twice by done. do 3 f_equal.
  unfold patched. f_equal. apply u32_id. change 0x00ffffff with (Z.ones 24). rewrite Z.land_ones by lia.
  pose proof (Z.mod_pos_bound (Z.shiftr d 2) (2 ^ 24) ltac:(lia)). unfold in_u32. lia.
Qed.

Lemma u32_cong x : exists k, u32 x = x + k * 2 ^ 32.
Proof. exists (- (x / 2 ^ 32)). unfold u32, uw. pose proof (Z.div_mod x (2 ^ 32) ltac:(lia)). lia. Qed.

Lemma s32_cong x : exists k, s32 x = x + k * 2 ^ 32.
Proof.
  destruct (u32_cong (x + 2 ^ 31)) as [k E]. exists k. unfold s32, sw. change (32 - 1) with 31.
  change ((x + 2 ^ 31) mod 2 ^ 32) with (u32 (x + 2 ^ 31)). lia.
Qed.

Lemma u32_eq x y k : x = y + k * 2 ^ 32 -> u32 x = u32 y.
Proof. intros ->. unfold u32, uw. by rewrite Z.mod_add by lia. Qed.

(** The instruction [w] at [p], when it is given the distance to [target],
    branches there, with the assembler's own distance of [branch_addend w]. *)
Definition distance (w p target : Z) : Z := s32 (u32 (branch_addend w + u32 (target - p))).

Lemma distance_target w p target :
  reachable (distance w p target) = true ->
  branch_target p (patched w (distance w p target)) = u32 (target + 8 + branch_addend w).
Proof.
  unfold reachable. intros [[H4 ?%Z.ltb_lt]%andb_prop ?%Z.ltb_lt]%andb_prop. apply Z.eqb_eq in H4.
  unfold branch_target. rewrite patched_addend by lia. unfold distance in *.
  destruct (u32_cong (target - p)) as [k1 ->]. set (x := branch_addend w + _). destruct (u32_cong x) as [k2 ->].
  destruct (s32_cong (x + k2 * 2 ^ 32)) as [k3 ->]. apply (u32_eq _ _ (k1 + k2 + k3)). unfold x. lia.
Qed.

(** ** Branches to the kernel *)

(** The table of exported functions at [tab]: addresses and names. *)
Fixpoint ksym_table (m : mem) (tab : Z) (l : list (Z * list Z)) : Prop :=
  match l with
  | [] => True
  | (a, name) :: l =>
      load32 tab m = Ret a /\ (exists p, load32 (tab + 4) m = Ret p /\ cstr m p name) /\ ksym_table m (tab + 8) l
  end.

(** The first function of the name. *)
Definition exported (name : list Z) (l : list (Z * list Z)) : option Z :=
  fst <$> find_fst (fun e => bool_decide (snd e = name)) l.

Lemma strcmp_zero a b s t m :
  cstr m a s -> cstr m b t -> bytes_ok m -> exists c, sw_strcmp a b m = Ret c /\ (c = 0 <-> s = t).
Proof.
  intros Hs Ht Hok. exists (lex_cmp s t). split; [|apply lex_cmp_0].
  unfold sw_strcmp. apply strcmp_loop_spec; try done; try by eapply cstr_bytes. by eapply cstr_fuel.
Qed.

Lemma ksym_loop_ok m symname name tab l :
  cstr m symname name -> bytes_ok m -> ksym_table m tab l ->
  ksym_loop (length l) tab symname m = Ret (default (u32 (-1)) (exported name l)).
Proof.
  intros Hn Hok. revert tab. induction l as [|[a nm] l IH]; intros tab Ht; [done|].
  destruct Ht as (Ea & (p & Ep & Cp) & Ht). cbn [length ksym_loop]. rewrite Ep. cbn [mbind res_bind].
  destruct (strcmp_zero symname p name nm m Hn Cp Hok) as (c & -> & Hc). cbn [mbind res_bind].
  unfold exported. cbn [find_fst snd]. case_bool_decide as E.
  - rewrite (proj2 Hc) by done. exact Ea.
  - destruct (Z.eqb_spec c 0) as [E0|]; [by apply Hc in E0|]. exact (IH _ Ht).
Qed.

Lemma refused_iff d : negb (Z.land d 3 =? 0) || (d <=? s32 0xfe000000) || (d >=? s32 0x02000000) = negb (reachable d).
Proof.
  unfold reachable. change (s32 0xfe000000) with (- 2 ^ 25). change (s32 0x02000000) with (2 ^ 25).
  rewrite Z.geb_leb, !negb_andb, !Z.ltb_antisym, !negb_involutive. done.
Qed.

(** The comparison with an unsigned number: only distances below 0 pass. *)
Lemma refused_defined_iff d : in_s32 d ->
  negb (Z.land d 3 =? 0) || (u32 d <=? 0xfe000000) || (d >=? 0x02000000) = negb (reachable d && (d <? 0)).
Proof.
  unfold in_s32, reachable. intros Hd. rewrite !negb_andb, Z.geb_leb.
  destruct (Z.land d 3 =? 0); [|done]. cbn [negb orb].
  destruct (decide (0 <= d)).
  - rewrite u32_id by (unfold in_u32; lia). destruct (Z.leb_spec d 0xfe000000); [|lia].
    destruct (Z.ltb_spec d 0); [lia|]. by rewrite orb_true_r.
  - rewrite (u32_eq d (d + 2 ^ 32) (-1)), u32_id by (unfold in_u32; lia).
    destruct (Z.leb_spec (d + 2 ^ 32) 0xfe000000), (Z.leb_spec 0x02000000 d), (Z.ltb_spec (- 2 ^ 25) d), (Z.ltb_spec d (2 ^ 25)),
      (Z.ltb_spec d 0); (done || lia).
Qed.

Section branches.
Context (ksymtab ksymtab_end : Z) (kt : list (Z * list Z)) (m : mem).
Context (Hok : bytes_ok m) (Hkt : ksym_table m ksymtab kt).
Context (Hcount : ksym_count ksymtab ksymtab_end = Z.of_nat (length kt)).

Lemma undefined_symbol_ok symname name :
  cstr m symname name ->
  get_undefined_symbol_addr ksymtab symname (ksym_count ksymtab ksymtab_end) m =
    Ret (default (u32 (-1)) (exported name kt)).
Proof.
  intros Hn. unfold get_undefined_symbol_addr. rewrite Hcount, s32_id.
  - rewrite Nat2Z.id. by apply ksym_loop_ok.
  - assert (ksym_count ksymtab ksymtab_end < 2 ^ 29); [|unfold in_s32; lia].
    apply Z.div_lt_upper_bound; [lia|]. pose proof (u32_range (ksymtab_end - ksymtab)) as Hr. unfold in_u32 in Hr. lia.
Qed.

Lemma reloc_undefined_ok symname name dst a r_off w :
  cstr m symname name -> sh_addr dst m = Ret a -> load32 (u32 (a + r_off)) m = Ret w -> in_u32 w ->
  mapped (u32 (a + r_off)) 4 m -> exported name kt <> Some (u32 (-1)) ->
  reloc_undefined ksymtab ksymtab_end symname dst r_off m =
    Ret (S ← exported name kt;
         let d := distance w (u32 (BASE_LOAD_ADDRESS + r_off)) S in
         if reachable d then Some (write_bytes (u32 (a + r_off)) (le32 (patched w d)) m) else None).
Proof.
  intros Hn Ea Ew Hw Hm HS. unfold reloc_undefined. rewrite (undefined_symbol_ok _ name) by done.
  destruct (exported name kt) as [S|]; cbn [default from_option mbind res_bind option_bind]; unfold id; [|done].
  destruct (Z.eqb_spec S (u32 (-1))) as [->|_]; [done|]. rewrite Ea. cbn [mbind res_bind]. rewrite Ew. cbn [mbind res_bind].
  cbv zeta. fold (distance w (u32 (BASE_LOAD_ADDRESS + r_off)) S). rewrite refused_iff.
  destruct (reachable _); [|done]. cbn [negb]. by rewrite (patch_ok _ _ w).
Qed.

End branches.

Lemma reloc_defined_ok m sec_header sym dst a r_off w shndx b v :
  sh_addr dst m = Ret a -> load32 (u32 (a + r_off)) m = Ret w -> in_u32 w -> mapped (u32 (a + r_off)) 4 m ->
  st_shndx sym m = Ret shndx -> sh_addr (shdr sec_header shndx) m = Ret b -> st_value sym m = Ret v ->
  reloc_defined sec_header sym dst r_off m =
    Ret (let d := distance w (u32 (a + r_off)) (u32 (b + v)) in
         if reachable d && (d <? 0) then Some (write_bytes (u32 (a + r_off)) (le32 (patched w d)) m) else None).
Proof.
  intros Ea Ew Hw Hm En Eb Ev. unfold reloc_defined. rewrite Ea. cbn [mbind res_bind]. rewrite Ew. cbn [mbind res_bind].
  rewrite En. cbn [mbind res_bind]. rewrite Eb. cbn [mbind res_bind]. rewrite Ev. cbn [mbind res_bind]. cbv zeta.
  fold (distance w (u32 (a + r_off)) (u32 (b + v))). rewrite refused_defined_iff by apply s32_range.
  destruct (reachable _ && _); [|done]. cbn [negb]. by rewrite (patch_ok _ _ w).
Qed.

(** ** A whole section of branches to the kernel *)

(** The word at [off] of a section. *)
Definition byte_at (n : Z) (t : list Z) : Z := nth (Z.to_nat n) t 0.
Definition word_at (off : Z) (t : list Z) : Z :=
  byte_at off t + 2 ^ 8 * byte_at (off + 1) t + 2 ^ 16 * byte_at (off + 2) t + 2 ^ 24 * byte_at (off + 3) t.

(** What the relocations, places with names, make of a section: they end at the
    first that cannot be done. *)
Fixpoint relocate_calls (kt : list (Z * list Z)) (cs : list (Z * list Z)) (t : list Z) : Z * list Z :=
  match cs with
  | [] => (0, t)
  | (off, name) :: cs =>
      if off >? Z.of_nat (length t) - 4 then (-1, t) else
      match exported name kt with
      | None => (-1, t)
      | Some target =>
          let d := distance (word_at off t) (u32 (BASE_LOAD_ADDRESS + off)) target in
          if reachable d then relocate_calls kt cs (put_at off (le32 (patched (word_at off t) d)) t) else (-1, t)
      end
  end.

Lemma byte_at_ok n t : Forall is_byte t -> is_byte (byte_at n t).
Proof.
  intros Ht. unfold byte_at. rewrite nth_lookup. destruct (t !! Z.to_nat n) as [v|] eqn:E; [|done].
  by apply (Forall_lookup_1 _ _ _ _ Ht E).
Qed.

Lemma word_at_u32 off t : Forall is_byte t -> in_u32 (word_at off t).
Proof.
  intros Ht. unfold in_u32, word_at.
  pose proof (byte_at_ok off t Ht). pose proof (byte_at_ok (off + 1) t Ht).
  pose proof (byte_at_ok (off + 2) t Ht). pose proof (byte_at_ok (off + 3) t Ht). unfold is_byte in *. lia.
Qed.

Lemma load32_word a t m off : 0 <= off -> off + 4 <= Z.of_nat (length t) ->
  load32 (a + off) (write_bytes a t m) = Ret (word_at off t).
Proof.
  intros Ho Hl. unfold load32, load8, word_at, byte_at.
  assert (Hb : forall k, 0 <= k < 4 -> write_bytes a t m !! (a + off + k) = Some (nth (Z.to_nat (off + k)) t 0)).
  { intros k Hk. rewrite write_bytes_lookup, decide_True by lia. replace (Z.to_nat (a + off + k - a)) with (Z.to_nat (off + k)) by lia.
    destruct (lookup_lt_is_Some_2 t (Z.to_nat (off + k))) as [v E]; [lia|]. by rewrite nth_lookup, E. }
  pose proof (Hb 0 ltac:(lia)) as E0. rewrite !Z.add_0_r in E0. rewrite E0, !Hb by lia. done.
Qed.

Lemma word_at_put off off' l t :
  0 <= off -> 0 <= off' -> off + 4 <= Z.of_nat (length t) -> off' + Z.of_nat (length l) <= Z.of_nat (length t) ->
  off + 4 <= off' \/ off' + Z.of_nat (length l) <= off -> word_at off (put_at off' l t) = word_at off t.
Proof.
  intros. unfold word_at, byte_at. rewrite !nth_lookup, !put_at_lookup by lia. by rewrite !decide_False by lia.
Qed.

Lemma word_at_put_same off v t : in_u32 v ->
  0 <= off -> off + 4 <= Z.of_nat (length t) -> word_at off (put_at off (le32 v) t) = v.
Proof.
  intros Hv Ho Hl. rewrite <-(le32_value v) at 2 by done. unfold word_at, byte_at.
  rewrite !nth_lookup, !put_at_lookup by (rewrite ?le32_length; lia). rewrite le32_length, !decide_True by lia.
  rewrite Nat.sub_diag. replace (Z.to_nat (off + 1) - Z.to_nat off)%nat with 1%nat by lia.
  replace (Z.to_nat (off + 2) - Z.to_nat off)%nat with 2%nat by lia.
  by replace (Z.to_nat (off + 3) - Z.to_nat off)%nat with 3%nat by lia.
Qed.

Lemma relocated_bytes off v t : Forall is_byte t -> Forall is_byte (put_at off (le32 v) t).
Proof.
  intros Ht. unfold put_at. apply Forall_app. split; [by apply Forall_take|].
  apply Forall_app. split; [apply le32_bytes|by apply Forall_drop].
Qed.

Lemma load16_mono a v m m' : m ⊆ m' -> load16 a m = Ret v -> load16 a m' = Ret v.
Proof.
  unfold load16. intros Hs (b0 & E0 & (b1 & E1 & E)%res_bind_Ret)%res_bind_Ret.
  do 2 (erewrite load8_mono by eassumption; cbn [mbind res_bind]). exact E.
Qed.

Lemma ksym_table_mono tab l m m' : m ⊆ m' -> ksym_table m tab l -> ksym_table m' tab l.
Proof.
  intros Hs. revert tab. induction l as [|[a nm] l IH]; intros tab; [done|]. cbn. intros (Ea & (p & Ep & Hp) & Hl).
  split; [by eapply load32_mono|]. split; [exists p; split; [by eapply load32_mono|by eapply cstr_mono]|by apply IH].
Qed.

(** Relocation [i] of the section at [rel]: a branch instruction at [off] and
    the undefined symbol [name]. *)
Record call_reloc (m : mem) (rel sym_sec sym str_tab i : Z) (c : Z * list Z) : Prop := {
  cr_info : exists info nm size, r_info (rel_at rel i) m = Ret info /\ in_u32 info /\
    ELF32_R_TYPE info ∈ [R_ARM_CALL; R_ARM_JUMP24; R_ARM_PC24] /\
    sh_size sym_sec m = Ret size /\ ELF32_R_SYM info <= size / sizeof_Sym /\
    st_name (sym_at sym (ELF32_R_SYM info)) m = Ret nm /\ st_shndx (sym_at sym (ELF32_R_SYM info)) m = Ret SHN_UNDEF /\
    cstr m (u32 (str_tab + nm)) (snd c);
  cr_off : r_offset (rel_at rel i) m = Ret (fst c);
  cr_range : in_u32 (fst c);
}.

Lemma call_reloc_mono m m' rel sym_sec sym str_tab i c :
  m ⊆ m' -> call_reloc m rel sym_sec sym str_tab i c -> call_reloc m' rel sym_sec sym str_tab i c.
Proof.
  intros Hs [(info & nm & size & E1 & H1 & H2 & E2 & H3 & E3 & E4 & Hc) Eo Hr]. constructor; [|by eapply load32_mono|done].
  exists info, nm, size. split; [by eapply load32_mono|]. split; [done|]. split; [done|]. split; [by eapply load32_mono|].
  split; [done|]. split; [by eapply load32_mono|]. split; [by eapply load16_mono|by eapply cstr_mono].
Qed.

Section calls.
Context (ksymtab ksymtab_end : Z) (kt : list (Z * list Z)) (rest : mem).
Context (sec_header sym_sec rel_sec dst_sec rel sym str_tab a n : Z).
(** The file and the kernel's table are in [rest], without the section of [n]
    bytes at [a] that is relocated. *)
Record object_ok : Prop := {
  oo_bytes : bytes_ok rest;
  oo_ksyms : ksym_table rest ksymtab kt;
  oo_count : ksym_count ksymtab ksymtab_end = Z.of_nat (length kt);
  oo_found : forall name, exported name kt <> Some (u32 (-1));
  oo_apart : forall x, a <= x < a + n -> rest !! x = None;
  oo_range : 0 <= a /\ 4 <= n /\ a + n < 2 ^ 32;
  oo_addr : sh_addr dst_sec rest = Ret a;
  oo_size : sh_size dst_sec rest = Ret n;
}.
Context (Hobj : object_ok).

Lemma rest_in t : Z.of_nat (length t) = n -> rest ⊆ write_bytes a t rest.
Proof. intros Ht. apply write_bytes_above. rewrite Ht. apply Hobj. Qed.

Lemma reloc_one_ok i c loc t :
  call_reloc rest rel sym_sec sym str_tab i c -> Z.of_nat (length t) = n -> Forall is_byte t ->
  reloc_one ksymtab ksymtab_end i sec_header sym_sec rel sym dst_sec str_tab loc (write_bytes a t rest) =
    Ret (if fst c >? n - 4 then None else
         target ← exported (snd c) kt;
         let d := distance (word_at (fst c) t) (u32 (BASE_LOAD_ADDRESS + fst c)) target in
         if reachable d then Some (u32 (a + fst c), write_bytes a (put_at (fst c) (le32 (patched (word_at (fst c) t) d)) t) rest)
         else None).
Proof.
  intros Hc Ht Hb. pose proof (rest_in t Ht) as Hs. destruct Hobj as [Hok Hkt Hcnt Hfnd Hap (Ha & Hn4 & Hr) Ea Es].
  destruct (call_reloc_mono _ _ _ _ _ _ _ _ Hs Hc) as [(info & nm & size & E1 & H1 & H2 & E2 & H3 & E3 & E4 & Hcs) Eo Hor].
  set (m := write_bytes a t rest) in *.
  assert (Es' : sh_size dst_sec m = Ret n) by (by eapply load32_mono).
  assert (Ea' : sh_addr dst_sec m = Ret a) by (by eapply load32_mono).
  unfold reloc_one. rewrite E1. cbn [mbind res_bind]. rewrite E2. cbn [mbind res_bind].
  cbv zeta. assert (Hsym : 0 <= ELF32_R_SYM info < 2 ^ 24).
  { unfold ELF32_R_SYM. rewrite Z.shiftr_div_pow2 by lia. unfold in_u32 in H1.
    split; [apply Z.div_pos; lia|apply Z.div_lt_upper_bound; lia]. }
  rewrite s32_id by (unfold in_s32; lia). rewrite u32_id by (unfold in_u32; lia).
  destruct (Z.ltb_spec (ELF32_R_SYM info) 0); [lia|]. rewrite Z.gtb_ltb.
  destruct (Z.ltb_spec (size / sizeof_Sym) (ELF32_R_SYM info)); [lia|]. cbn [orb].
  rewrite E3. cbn [mbind res_bind]. rewrite Eo. cbn [mbind res_bind].
  rewrite Es'. cbn [mbind res_bind]. rewrite (u32_id (n - 4)) by (unfold in_u32; lia).
  rewrite !Z.gtb_ltb. destruct (Z.ltb_spec (n - 4) (fst c)) as [|Hle]; [done|].
  rewrite E4. cbn [mbind res_bind]. change (SHN_UNDEF =? SHN_UNDEF) with true. cbn [mbind res_bind].
  assert (Hty : exists ty, ELF32_R_TYPE info = ty /\ (ty =? R_ARM_NONE) = false /\ (ty =? R_ARM_ABS32) = false /\
    (ty =? R_ARM_CALL) || (ty =? R_ARM_JUMP24) || (ty =? R_ARM_PC24) = true).
  { exists (ELF32_R_TYPE info). split; [done|]. repeat (apply elem_of_cons in H2 as [->|H2]; [done|]). by apply elem_of_nil in H2. }
  destruct Hty as (ty & -> & -> & -> & ->). unfold in_u32 in Hor.
  assert (Hloc : u32 (a + fst c) = a + fst c) by (apply u32_id; unfold in_u32; lia).
  rewrite (reloc_undefined_ok ksymtab ksymtab_end kt m) with (name := snd c) (a := a) (w := word_at (fst c) t); cycle 1.
  { by apply bytes_ok_write. }
  { by eapply ksym_table_mono. }
  { done. }
  { done. }
  { by eapply load32_mono. }
  { rewrite Hloc. apply load32_word; lia. }
  { by apply word_at_u32. }
  { rewrite Hloc. intros x Hx. unfold m. rewrite write_bytes_lookup, decide_True by lia. apply lookup_lt_is_Some. lia. }
  { apply Hfnd. }
  destruct (exported (snd c) kt) as [target|]; cbn [mbind res_bind option_bind]; [|done]. cbv zeta.
  destruct (reachable _); [|done]. cbn [mbind res_bind]. rewrite Ea'. cbn [mbind res_bind].
  rewrite Hloc. unfold m. rewrite write_bytes_put by (rewrite ?le32_length; lia). done.
Qed.

Lemma reloc_loop_ok cs : forall fuel i k loc t,
  Forall2 (call_reloc rest rel sym_sec sym str_tab) (seqZ i (Z.of_nat (length cs))) cs ->
  sh_size rel_sec rest = Ret (sizeof_Rel * (i + Z.of_nat (length cs)) + k) -> 0 <= k < sizeof_Rel -> 0 <= i ->
  Z.of_nat (length t) = n -> Forall is_byte t -> (length cs <= fuel)%nat ->
  reloc_loop ksymtab ksymtab_end fuel i sec_header sym_sec rel_sec rel sym dst_sec str_tab loc (write_bytes a t rest) =
    Ret (let '(r, t) := relocate_calls kt cs t in (r, write_bytes a t rest)).
Proof.
  induction cs as [|[off name] cs IH]; intros fuel i k loc t Hcs Es Hk Hi Ht Hb Hf.
  - assert (Es' : sh_size rel_sec (write_bytes a t rest) = Ret (sizeof_Rel * (i + Z.of_nat (length (@nil (Z * list Z)))) + k))
      by (eapply load32_mono; [by apply rest_in|exact Es]). destruct fuel; cbn [reloc_loop]; rewrite Es'; cbn [mbind res_bind]; rewrite Z.geb_leb;
      (destruct (Z.leb_spec ((sizeof_Rel * (i + Z.of_nat (length (@nil (Z * list Z)))) + k) / sizeof_Rel) i) as [|Hlt]; [done|]);
      (rewrite Z.mul_comm, Z.div_add_l, (Z.div_small k) in Hlt by (unfold sizeof_Rel in *; lia)); cbn [length] in Hlt; lia.
  - destruct fuel as [|fuel]; [cbn in Hf; lia|].
    rewrite seqZ_cons in Hcs by (cbn [length]; lia). apply Forall2_cons in Hcs as [Hc Hcs].
    assert (Es' : sh_size rel_sec (write_bytes a t rest) = Ret (sizeof_Rel * (i + Z.of_nat (length ((off, name) :: cs))) + k))
      by (eapply load32_mono; [by apply rest_in|exact Es]). cbn [reloc_loop]. rewrite Es'. cbn [mbind res_bind].
    rewrite Z.geb_leb. destruct (Z.leb_spec ((sizeof_Rel * (i + Z.of_nat (length ((off, name) :: cs))) + k) / sizeof_Rel) i) as [Hle|_].
    { rewrite Z.mul_comm, Z.div_add_l in Hle by (unfold sizeof_Rel; lia). rewrite (Z.div_small k) in Hle by done. cbn [length] in Hle. lia. }
    rewrite (reloc_one_ok i (off, name)) by done. cbn [fst snd relocate_calls]. rewrite Ht. rewrite !Z.gtb_ltb.
    destruct (Z.ltb_spec (n - 4) off) as [|Hle]; [done|]. destruct (exported name kt) as [target|]; cbn [mbind res_bind option_bind]; [|done].
    cbv zeta. destruct (reachable _); [|done]. destruct Hc as [_ _ Hr]. unfold in_u32 in Hr. cbn [fst] in Hr.
    apply (IH _ _ k).
    + replace (Z.of_nat (length cs)) with (Z.pred (Z.of_nat (length ((off, name) :: cs)))) by (cbn [length]; lia).
      by replace (i + 1) with (Z.succ i) by lia.
    + rewrite Es. cbn [length]. do 3 f_equal. lia.
    + done.
    + lia.
    + rewrite length_put_at by (rewrite ?le32_length; lia). done.
    + by apply relocated_bytes.
    + cbn in Hf. lia.
Qed.
End calls.

(** ** Loading *)

Definition allocated (flags : Z) : bool := negb (Z.land flags SHF_ALLOC =? 0).
Definition away (lo hi a n : Z) : Prop := a + n <= lo \/ hi <= a.

(** The headers from [i] on, with flags, address and contents of the sections;
    neither the headers nor the contents are in the range that is loaded. *)
Fixpoint sections (lo hi : Z) (m : mem) (h i : Z) (l : list (Z * Z * list Z)) : Prop :=
  match l with
  | [] => True
  | (flags, a, b) :: l =>
      sh_flags (shdr h i) m = Ret flags /\ away lo hi (shdr h i) sizeof_Shdr /\
      (allocated flags = true ->
         sh_addr (shdr h i) m = Ret a /\ sh_size (shdr h i) m = Ret (Z.of_nat (length b)) /\
         read_bytes (length b) a m = Some b /\ Z.of_nat (length b) < 2 ^ 31 /\ away lo hi a (Z.of_nat (length b))) /\
      sections lo hi m h (i + 1) l
  end.

(** What is loaded: the allocated sections one behind the other. *)
Definition image (l : list (Z * Z * list Z)) : list Z :=
  concat ((fun s => if allocated (fst (fst s)) then snd s else []) <$> l).

Lemma sections_mono lo hi m m' h i l : m ⊆ m' -> sections lo hi m h i l -> sections lo hi m' h i l.
Proof.
  intros Hs. revert i. induction l as [|[[fl a] b] l IH]; intros i; [done|]. cbn. intros (Ef & Hh & Ha & Hl).
  split; [by eapply load32_mono|]. split; [done|]. split; [|by apply IH]. intros Hfl.
  destruct (Ha Hfl) as (E1 & E2 & E3 & H4). split; [by eapply load32_mono|]. split; [by eapply load32_mono|].
  split; [by eapply read_bytes_mono|done].
Qed.

Lemma sections_write lo hi d x m h i l :
  lo <= d -> d + Z.of_nat (length x) <= hi -> sections lo hi m h i l -> sections lo hi (write_bytes d x m) h i l.
Proof.
  intros Hlo Hhi. revert i. induction l as [|[[fl a] b] l IH]; intros i; [done|]. cbn. intros (Ef & Hh & Ha & Hl).
  assert (Hld : forall k, 0 <= k <= 36 -> load32 (shdr h i + k) (write_bytes d x m) = load32 (shdr h i + k) m).
  { intros k Hk. apply load32_write. unfold away, sizeof_Shdr in Hh. lia. }
  unfold sh_flags, sh_addr, sh_size in *. rewrite !Hld by lia.
  split; [done|]. split; [done|]. split; [|by apply IH]. intros Hfl.
  destruct (Ha Hfl) as (E1 & E2 & E3 & E4 & H4). split; [done|]. split; [done|]. split; [|done].
  rewrite read_bytes_write; [done|]. unfold away in H4. lia.
Qed.

Lemma load_loop_ok lo hi h l : forall i prev m,
  sections lo hi m h i l -> bytes_ok m -> 0 < lo <= prev -> prev + Z.of_nat (length (image l)) <= hi -> hi <= 2 ^ 32 - 1 ->
  mapped prev (Z.of_nat (length (image l))) m ->
  load_loop (length l) i h prev m = Ret (0, write_bytes prev (image l) m).
Proof.
  induction l as [|[[fl a] b] l IH]; intros i prev m Hsec Hok Hlo Hhi H32 Hm; [done|].
  cbn [length load_loop]. destruct Hsec as (Ef & Hh & Ha & Hl). rewrite Ef. cbn [mbind res_bind]. fold (allocated fl).
  unfold image in *. cbn [fmap list_fmap concat fst snd] in *. destruct (allocated fl); [|by apply IH].
  destruct (Ha eq_refl) as (E1 & E2 & E3 & H31 & Haw). rewrite length_app in Hhi, Hm. unfold away in Haw.
  rewrite E1. cbn [mbind res_bind]. rewrite E2. cbn [mbind res_bind].
  rewrite (memcpy_spec _ _ _ b); [|done|done|intros x Hx; apply Hm; lia|done|lia].
  cbn [mbind res_bind]. destruct (Z.eqb_spec prev 0); [lia|].
  assert (Hsz : sh_size (shdr h i) (write_bytes prev b m) = Ret (Z.of_nat (length b))).
  { unfold sh_size. rewrite load32_write; [exact E2|]. unfold away, sizeof_Shdr in Hh. lia. }
  rewrite Hsz. cbn [mbind res_bind]. rewrite u32_id by (unfold in_u32; lia).
  pose proof (read_bytes_ok _ _ _ _ Hok E3). rewrite IH; [by rewrite write_bytes_app|..].
  - apply sections_write; [lia|lia|done].
  - by apply bytes_ok_write.
  - lia.
  - lia.
  - done.
  - apply mapped_write. intros x Hx. apply Hm. lia.
Qed.

(** Sections are loaded as they are in the file, in the order of their headers
    and without gaps. *)
Theorem load_places_sections (file_map h hi : Z) (l : list (Z * Z * list Z)) (m : mem)
    (Hnum : e_shnum file_map m = Ret (Z.of_nat (length l) + 1))
    (Hsec : sections BASE_LOAD_ADDRESS hi m h 1 l) (Hok : bytes_ok m)
    (Hhi : BASE_LOAD_ADDRESS + Z.of_nat (length (image l)) <= hi < 2 ^ 32)
    (Hm : mapped BASE_LOAD_ADDRESS (Z.of_nat (length (image l))) m) :
  load_into_memory file_map h m = Ret (0, write_bytes BASE_LOAD_ADDRESS (image l) m).
Proof.
  unfold load_into_memory. rewrite Hnum. cbn [mbind res_bind].
  replace (Z.to_nat (Z.of_nat (length l) + 1 - 1)) with (length l) by lia.
  apply (load_loop_ok BASE_LOAD_ADDRESS hi); try done; lia.
Qed.

(** ** The relocated branches reach the kernel *)

(** Relocations are at least a word apart. *)
Fixpoint spaced (cs : list (Z * list Z)) : Prop :=
  match cs with
  | [] => True
  | c :: cs => Forall (fun c' : Z * list Z => fst c + 4 <= fst c' \/ fst c' + 4 <= fst c) cs /\ spaced cs
  end.

(** The call [c] of the section [t] can be made: its function is exported and
    near enough. *)
Definition callable (kt : list (Z * list Z)) (t : list Z) (c : Z * list Z) : Prop :=
  0 <= fst c <= Z.of_nat (length t) - 4 /\
  exists target, exported (snd c) kt = Some target /\
    reachable (distance (word_at (fst c) t) (u32 (BASE_LOAD_ADDRESS + fst c)) target) = true.

(** The instruction at the place of [c] in [t'], loaded, branches to the
    function as far from its start as the assembler said in [t]; condition and
    opcode are those of [t]. *)
Definition reaches (kt : list (Z * list Z)) (t t' : list Z) (c : Z * list Z) : Prop :=
  exists target, exported (snd c) kt = Some target /\
    branch_target (u32 (BASE_LOAD_ADDRESS + fst c)) (word_at (fst c) t') = u32 (target + 8 + branch_addend (word_at (fst c) t)) /\
    Z.shiftr (word_at (fst c) t') 24 = Z.shiftr (word_at (fst c) t) 24.

Lemma relocate_calls_reach kt cs : forall t,
  Forall is_byte t -> spaced cs -> Forall (callable kt t) cs ->
  exists t', relocate_calls kt cs t = (0, t') /\ length t' = length t /\ Forall is_byte t' /\
    (forall off, 0 <= off -> off + 4 <= Z.of_nat (length t) -> Forall (fun c => fst c + 4 <= off \/ off + 4 <= fst c) cs ->
       word_at off t' = word_at off t) /\
    Forall (reaches kt t t') cs.
Proof.
  induction cs as [|[off name] cs IH]; intros t Hb Hsp Hc; [by exists t|].
  destruct Hsp as [Hap Hsp]. apply Forall_cons in Hc as [(Ho & target & Et & Hr) Hc]. cbn [fst snd] in *.
  cbn [relocate_calls]. rewrite Z.gtb_ltb. destruct (Z.ltb_spec (Z.of_nat (length t) - 4) off); [lia|]. rewrite Et. cbv zeta. rewrite Hr.
  set (w' := patched _ _). set (t1 := put_at off (le32 w') t).
  assert (Hw' : in_u32 w') by (by apply patched_u32, word_at_u32).
  assert (L1 : length t1 = length t) by (apply length_put_at; rewrite ?le32_length; lia).
  assert (Hsame : forall o, 0 <= o -> o + 4 <= Z.of_nat (length t) -> off + 4 <= o \/ o + 4 <= off -> word_at o t1 = word_at o t).
  { intros o H1 H2 H3. apply word_at_put; rewrite ?le32_length; lia. }
  destruct (IH t1) as (t' & E & L' & Hb' & Hfar & Hre).
  - by apply relocated_bytes.
  - done.
  - rewrite Forall_forall in Hc, Hap |- *. intros c Hin. destruct (Hc c Hin) as (H1 & tg & H2 & H3).
    pose proof (Hap c Hin). split; [by rewrite L1|]. exists tg. by rewrite Hsame by lia.
  - exists t'. split; [done|]. split; [by rewrite L'|]. split; [done|]. split.
    + intros o H1 H2 [H3 H4]%Forall_cons. cbn [fst] in H3. rewrite Hfar by (try rewrite L1; done). apply Hsame; lia.
    + apply Forall_cons. split.
      * exists target. cbn [fst snd]. split; [done|].
        rewrite Hfar; [|lia|lia|by apply (Forall_impl _ _ _ Hap); intros c Hin; lia].
        unfold t1. rewrite word_at_put_same by (done || lia). split; [by apply distance_target|].
        by apply patched_opcode, word_at_u32.
      * rewrite Forall_forall in Hre, Hap, Hc |- *. intros c Hin. destruct (Hre c Hin) as (tg & H1 & H2 & H3).
        exists tg. destruct (Hc c Hin) as [Hoc _]. pose proof (Hap c Hin). by rewrite Hsame in H2, H3 by lia.
Qed.

(** ** Theorems *)

(** C30: the loop of [apply_relocations] over a section whose relocations are
    branches to functions of the kernel is [relocate_calls] on the bytes of the
    section, whatever the order and the distances: it applies the relocations
    one after the other until one lies outside of the section, names no
    exported function or is too far away, and changes nothing else in memory. *)
Theorem relocations_refine (ksymtab ksymtab_end : Z) (kt : list (Z * list Z)) (rest : mem)
    (sec_header sym_sec rel_sec dst_sec rel sym str_tab a loc k : Z) (cs : list (Z * list Z)) (t : list Z) (fuel : nat)
    (Hobj : object_ok ksymtab ksymtab_end kt rest dst_sec a (Z.of_nat (length t))) (Hb : Forall is_byte t)
    (Hcs : Forall2 (call_reloc rest rel sym_sec sym str_tab) (seqZ 0 (Z.of_nat (length cs))) cs)
    (Hsize : sh_size rel_sec rest = Ret (sizeof_Rel * Z.of_nat (length cs) + k)) (Hk : 0 <= k < sizeof_Rel)
    (Hf : (length cs <= fuel)%nat) :
  reloc_loop ksymtab ksymtab_end fuel 0 sec_header sym_sec rel_sec rel sym dst_sec str_tab loc (write_bytes a t rest) =
    Ret (let '(r, t') := relocate_calls kt cs t in (r, write_bytes a t' rest)).
Proof. by apply (reloc_loop_ok _ _ kt rest sec_header sym_sec rel_sec dst_sec rel sym str_tab a _ Hobj cs fuel 0 k). Qed.

(** C13: a file whose first section is relocated against the kernel runs as it
    was meant to: when every call of the section is to an exported function less
    than 32 MB away and the places do not overlap, the relocations succeed, the
    sections are loaded one behind the other, and every loaded call instruction
    branches to its function, with condition and opcode unchanged. *)
Theorem loaded_calls_reach_kernel (ksymtab ksymtab_end : Z) (kt : list (Z * list Z)) (rest : mem)
    (file_map h sym_sec rel_sec rel sym str_tab a loc k flags hi : Z) (cs : list (Z * list Z)) (t : list Z)
    (l : list (Z * Z * list Z)) (fuel : nat)
    (Hobj : object_ok ksymtab ksymtab_end kt rest (shdr h 1) a (Z.of_nat (length t))) (Hb : Forall is_byte t)
    (Hcs : Forall2 (call_reloc rest rel sym_sec sym str_tab) (seqZ 0 (Z.of_nat (length cs))) cs)
    (Hsize : sh_size rel_sec rest = Ret (sizeof_Rel * Z.of_nat (length cs) + k)) (Hk : 0 <= k < sizeof_Rel)
    (Hf : (length cs <= fuel)%nat) (Hsp : spaced cs) (Hcall : Forall (callable kt t) cs)
    (Hnum : e_shnum file_map rest = Ret (Z.of_nat (length l) + 2))
    (Hfl : sh_flags (shdr h 1) rest = Ret flags) (Hal : allocated flags = true)
    (Hh : away BASE_LOAD_ADDRESS hi (shdr h 1) sizeof_Shdr) (Ht : away BASE_LOAD_ADDRESS hi a (Z.of_nat (length t)))
    (H31 : Z.of_nat (length t) < 2 ^ 31) (Hsec : sections BASE_LOAD_ADDRESS hi rest h 2 l)
    (Hhi : BASE_LOAD_ADDRESS + Z.of_nat (length t + length (image l)) <= hi < 2 ^ 32)
    (Hm : mapped BASE_LOAD_ADDRESS (Z.of_nat (length t + length (image l))) rest) :
  exists t' m1 m2,
    reloc_loop ksymtab ksymtab_end fuel 0 h sym_sec rel_sec rel sym (shdr h 1) str_tab loc (write_bytes a t rest) = Ret (0, m1) /\
    load_into_memory file_map h m1 = Ret (0, m2) /\
    read_bytes (length (t' ++ image l)) BASE_LOAD_ADDRESS m2 = Some (t' ++ image l) /\ length t' = length t /\
    Forall (fun c => load32 (BASE_LOAD_ADDRESS + fst c) m2 = Ret (word_at (fst c) t') /\ reaches kt t t' c) cs.
Proof.
  destruct (relocate_calls_reach kt cs t Hb Hsp Hcall) as (t' & E & Lt & Hb' & _ & Hre).
  exists t', (write_bytes a t' rest), (write_bytes BASE_LOAD_ADDRESS (t' ++ image l) (write_bytes a t' rest)).
  rewrite (reloc_loop_ok _ _ kt rest h sym_sec rel_sec (shdr h 1) rel sym str_tab a _ Hobj cs fuel 0 k) by done.
  rewrite E. split; [done|]. pose proof (rest_in _ _ kt rest (shdr h 1) a _ Hobj t' ltac:(lia)) as Hs.
  split; [|split; [apply read_bytes_write_same|split; [done|]]].
  - assert (Ei : image ((flags, a, t') :: l) = t' ++ image l).
    { unfold image. cbn [fmap list_fmap concat fst snd]. by rewrite Hal. }
    rewrite <-Ei. apply (load_places_sections file_map h hi).
    + cbn [length]. eapply load16_mono; [done|]. fold (e_shnum file_map rest). rewrite Hnum. f_equal. lia.
    + destruct Hobj. cbn [sections]. split; [by eapply load32_mono|]. split; [done|]. rewrite Lt.
      split; [|by eapply sections_mono]. intros _. split; [by eapply load32_mono|]. split; [by eapply load32_mono|].
      split; [rewrite <-Lt; apply read_bytes_write_same|done].
    + apply bytes_ok_write; [by destruct Hobj|done].
    + rewrite Ei, length_app, Lt. lia.
    + rewrite Ei, length_app, Lt. apply mapped_write. exact Hm.
  - rewrite Forall_forall in Hre, Hcall |- *. intros c Hc. destruct (Hcall c Hc) as [Hr _]. split; [|by apply Hre].
    rewrite write_bytes_app, load32_write by lia. apply load32_word; lia.
Qed.


(** ** An example: two calls of one exported function

    The sections are the code, its relocations, the symbols and four bytes of
    data; the table of the kernel has one function, [f] at 0x90200000. *)
Definition demo_kt : list (Z * list Z) := [(0x90200000, [102])].
Definition demo_text : list Z := le32 0xebfffffe ++ le32 0xeafffffe.
Definition demo_calls : list (Z * list Z) := [(0, [102]); (4, [102])].
Definition demo_header (ty flags addr size info : Z) : list Z :=
  le32 0 ++ le32 ty ++ le32 flags ++ le32 addr ++ le32 0 ++ le32 size ++ le32 0 ++ le32 info ++ le32 0 ++ le32 0.
Definition demo_rest : mem :=
  write_bytes BASE_LOAD_ADDRESS (replicate 12 0) $
  write_bytes 0x100 (le32 0x90200000 ++ le32 0x200) $ write_bytes 0x200 [102; 0] $
  write_bytes 0x1000 (replicate 48 0 ++ [5; 0]) $
  write_bytes 0x2000 (demo_header 0 0 0 0 0 ++ demo_header 1 6 0x3000 8 0 ++ demo_header 9 0 0x4000 16 1 ++
    demo_header 2 0 0x5000 32 0 ++ demo_header 1 2 0x7000 4 0) $
  write_bytes 0x4000 (le32 0 ++ le32 0x11c ++ le32 4 ++ le32 0x11d) $
  write_bytes 0x5000 (replicate 16 0 ++ le32 1 ++ replicate 12 0) $
  write_bytes 0x6000 [0; 102; 0] $ write_bytes 0x7000 [1; 2; 3; 4] ∅.

Lemma demo_bytes : Forall is_byte demo_text.
Proof. apply Forall_app. split; apply le32_bytes. Qed.

Lemma demo_object : object_ok 0x100 0x108 demo_kt demo_rest (shdr 0x2000 1) 0x3000 8.
Proof.
  constructor.
  - unfold demo_rest. repeat (apply bytes_ok_write; [|vm_compute; repeat constructor; congruence]). by intros ? ? ?.
  - split; [by vm_compute|]. split; [|done]. exists 0x200. split; [by vm_compute|].
    split; [by vm_compute|]. by apply Forall_singleton.
  - done.
  - intros name. unfold exported, demo_kt. cbn [find_fst snd]. case_bool_decide; by vm_compute.
  - intros x Hx. unfold demo_rest. rewrite !write_bytes_lookup. rewrite !decide_False; [done|..];
      match goal with |- ~ (_ <= x < _ + Z.of_nat ?n) => let k := eval vm_compute in n in change n with k; unfold BASE_LOAD_ADDRESS, SECURE_WORLD_RAM_START; lia end.
  - done.
  - by vm_compute.
  - by vm_compute.
Qed.

Lemma demo_types ty : ty ∈ [R_ARM_CALL; R_ARM_JUMP24; R_ARM_PC24] ->
  ELF32_R_SYM (0x100 + ty) = 1 /\ in_u32 (0x100 + ty) /\ ELF32_R_TYPE (0x100 + ty) = ty.
Proof.
  intros H. apply elem_of_cons in H as [->|H]; [done|]. apply elem_of_cons in H as [->|H]; [done|].
  apply list_elem_of_singleton in H as ->. done.
Qed.

Lemma demo_relocs : Forall2 (call_reloc demo_rest 0x4000 (shdr 0x2000 3) 0x5000 0x6000) (seqZ 0 2) demo_calls.
Proof.
  change (seqZ 0 2) with [0; 1].
  assert (Hi : forall i off ty, ty ∈ [R_ARM_CALL; R_ARM_JUMP24; R_ARM_PC24] ->
    r_info (rel_at 0x4000 i) demo_rest = Ret (0x100 + ty) -> r_offset (rel_at 0x4000 i) demo_rest = Ret off -> in_u32 off ->
    call_reloc demo_rest 0x4000 (shdr 0x2000 3) 0x5000 0x6000 i (off, [102])).
  { intros i off ty Hty E1 E2 Hr. constructor; [|done|done]. exists (0x100 + ty), 1, 32. split; [done|].
    pose proof (demo_types ty Hty) as Hs.
    destruct Hs as (-> & Hu & ->). split; [done|]. split; [done|]. split; [by vm_compute|]. split; [done|].
    split; [by vm_compute|]. split; [by vm_compute|]. split; [by vm_compute|]. by apply Forall_singleton. }
  constructor; [|constructor; [|constructor]].
  - apply (Hi 0 0 R_ARM_CALL); [set_solver|by vm_compute|by vm_compute|done].
  - apply (Hi 1 4 R_ARM_JUMP24); [set_solver|by vm_compute|by vm_compute|done].
Qed.

Lemma relocations_refine_witness :
  reloc_loop 0x100 0x108 2 0 0x2000 (shdr 0x2000 3) (shdr 0x2000 2) 0x4000 0x5000 (shdr 0x2000 1) 0x6000 0
    (write_bytes 0x3000 demo_text demo_rest) =
  Ret (0, write_bytes 0x3000 (le32 0xeb37fffe ++ le32 0xea37fffd) demo_rest).
Proof.
  exact (relocations_refine 0x100 0x108 demo_kt demo_rest 0x2000 (shdr 0x2000 3) (shdr 0x2000 2) (shdr 0x2000 1)
    0x4000 0x5000 0x6000 0x3000 0 0 demo_calls demo_text 2 demo_object demo_bytes demo_relocs
    ltac:(by vm_compute) ltac:(done) ltac:(done)).
Defined.

Lemma loaded_calls_reach_kernel_witness : exists t' m1 m2,
  reloc_loop 0x100 0x108 2 0 0x2000 (shdr 0x2000 3) (shdr 0x2000 2) 0x4000 0x5000 (shdr 0x2000 1) 0x6000 0
    (write_bytes 0x3000 demo_text demo_rest) = Ret (0, m1) /\
  load_into_memory 0x1000 0x2000 m1 = Ret (0, m2) /\
  read_bytes (length (t' ++ [1; 2; 3; 4])) BASE_LOAD_ADDRESS m2 = Some (t' ++ [1; 2; 3; 4]) /\ length t' = 8%nat /\
  Forall (fun c => load32 (BASE_LOAD_ADDRESS + fst c) m2 = Ret (word_at (fst c) t') /\ reaches demo_kt demo_text t' c) demo_calls.
Proof.
  apply (loaded_calls_reach_kernel 0x100 0x108 demo_kt demo_rest 0x1000 0x2000 (shdr 0x2000 3) (shdr 0x2000 2) 0x4000 0x5000
    0x6000 0x3000 0 0 6 (BASE_LOAD_ADDRESS + 0x1000) demo_calls demo_text [(0, 0x4000, []); (0, 0x5000, []); (2, 0x7000, [1; 2; 3; 4])] 2
    demo_object demo_bytes demo_relocs).
  - by vm_compute.
  - done.
  - done.
  - split; [|split; [constructor|done]]. apply Forall_singleton. by left.
  - apply Forall_cons. split; [|apply Forall_singleton]; (split; [done|]); exists 0x90200000; (split; [done|by vm_compute]).
  - by vm_compute.
  - by vm_compute.
  - done.
  - by left.
  - by left.
  - done.
  - cbn [sections]. split; [by vm_compute|]. split; [by left|]. split; [done|]. split; [by vm_compute|]. split; [by left|].
    split; [done|]. split; [by vm_compute|]. split; [by left|]. split; [|done]. intros _.
    split; [by vm_compute|]. split; [by vm_compute|]. split; [by vm_compute|]. split; [done|by left].
  - done.
  - intros x Hx. unfold demo_rest. rewrite write_bytes_lookup. change (length demo_text + length _)%nat with 12%nat in Hx.
    change (length (replicate 12 0)) with 12%nat. rewrite decide_True by done. apply lookup_lt_is_Some. cbn [length replicate]. lia.
Defined.

(** The symbol is 16 bytes behind the call, in the same section. *)
Definition demo_forward : mem :=
  write_bytes 0x3000 demo_text (write_bytes 0x5010 (replicate 4 0 ++ le32 16 ++ replicate 6 0 ++ [1; 0]) demo_rest).


(** ** The pages of the file

    What is left to read is what is given back: once the file has been read,
    nothing. *)
Lemma map_file_left {H} k fp tmp len (s s' : est H) l : map_file k fp tmp len s = Ret (true, l, s') -> l = 0.
Proof.
  revert tmp len s. induction k as [|k IH]; intros tmp len s E; cbn [map_file] in E; [done|].
  apply res_bind_Ret in E as ([n f] & _ & E). cbv zeta in E. destruct (u32 n =? 0); [done|].
  rewrite Z.gtb_ltb in E. destruct (Z.ltb_spec 0 (u32 (len - u32 n))) as [|Hle]; [by eapply IH|].
  injection E as <- _. pose proof (u32_range (len - u32 n)) as Hr. unfold in_u32 in Hr. lia.
Qed.

Lemma free_nothing va p st : exists r, sw_vir_addr_free va p 0 st = Ret (r, st).
Proof.
  unfold sw_vir_addr_free. destruct (_ || _); [by exists (-1)|]. cbv zeta. change (Z.shiftr 0 PAGE_SHIFT) with 0.
  assert (Hs : forall x, let f := Z.shiftr (u32 x) PAGE_SHIFT in Z.to_nat (u32 (f + 0) - f) = 0%nat).
  { intros x. cbv zeta. pose proof (u32_range x) as Hx. unfold in_u32 in Hx. rewrite Z.add_0_r, u32_id; [lia|].
    rewrite Z.shiftr_div_pow2 by (by vm_compute). unfold in_u32, PAGE_SHIFT.
    split; [apply Z.div_pos; lia|apply Z.div_lt_upper_bound; lia]. }
  rewrite Hs. destruct st as [a0 a1 a2 a3 a4 a5 a6 a7 a8 a9]. unfold clear_run. cbn [flip_run mbind res_bind mret res_ret set_vir fst snd].
  unfold sw_phy_addr_free. cbn [phy_addr_start phy_memregion_size num_phy_pag_free bmap phy_mem_bmap_len].
  destruct (_ || _); [by exists 0|]. cbv zeta. change (Z.shiftr 0 PAGE_SHIFT) with 0. rewrite Hs. by exists 0.
Qed.

(** After the file was read, [relocate_elf_loader] gives none of its pages
    back. *)
Lemma file_pages_stay {H} k fp tmp len (s s' : est H) l va p st :
  map_file k fp tmp len s = Ret (true, l, s') -> exists r, sw_vir_addr_free va p l st = Ret (r, st).
Proof. intros ->%map_file_left. apply free_nothing. Qed.

(** ** A whole file

    The code is a call of [f] and the function [main] behind it; [main] is the
    entry function and the service function. *)
Definition demo_file : list Z :=
  replicate 32 0 ++ le32 124 ++ replicate 12 0 ++ [5; 0; 0; 0] ++
  le32 0xebfffffe ++ le32 0xe12fff1e ++ le32 0 ++ le32 0x11c ++
  replicate 16 0 ++ (le32 1 ++ replicate 12 0) ++ (le32 3 ++ le32 4 ++ replicate 6 0 ++ [1; 0]) ++
  [0; 102; 0; 109; 97; 105; 110; 0] ++
  demo_header 0 0 0 0 0 ++
  (le32 0 ++ le32 1 ++ le32 6 ++ le32 0 ++ le32 52 ++ le32 8 ++ replicate 16 0) ++
  (le32 0 ++ le32 SHT_REL ++ le32 0 ++ le32 0 ++ le32 60 ++ le32 8 ++ le32 0 ++ le32 1 ++ replicate 8 0) ++
  (le32 0 ++ le32 SHT_SYMTAB ++ le32 0 ++ le32 0 ++ le32 68 ++ le32 48 ++ replicate 16 0) ++
  (le32 0 ++ le32 SHT_STRTAB ++ le32 0 ++ le32 0 ++ le32 116 ++ le32 8 ++ replicate 16 0).

Definition demo_memory : mem :=
  write_bytes BASE_LOAD_ADDRESS (replicate 16 0) $ write_bytes 0x100 (le32 0x90200000 ++ le32 0x200) $
  write_bytes 0x200 [102; 0] $ write_bytes 0x300 [109; 97; 105; 110; 0] $ write_bytes 0x400 (replicate 52 0) $
  write_bytes 0x1000 demo_file ∅.

(** The loaded code, the entry point and the service function. *)
Example demo_file_loaded :
  match relocate_file 0x100 0x108 10 0 0 0 0x400 0x1000 (ElfConf [] 0x300 0x300 0 0 0) demo_memory with
  | Ret (r, c, m) => r = 0 /\ ec_entry_point c = BASE_LOAD_ADDRESS + 4 /\ ec_process c = BASE_LOAD_ADDRESS + 4 /\
      read_bytes 8 BASE_LOAD_ADDRESS m = Some (le32 0xeb37fffe ++ le32 0xe12fff1e)
  | _ => False
  end.
Proof. by vm_compute. Qed.
