(* ===== verification/Sleep.v ===== *)
(** [lib/sw_timer_functions.c]: a task sleeps on a timer event, whose handler
    makes it ready again. *)
From stdpp Require Import prelude gmap.
From S2P Require Import Prelude DList HeapIface Task Sched Timer.
#[local] Open Scope Z_scope.

Section sleep.
Context {H : Type} `{PrivateHeap H}.

(** The kernel state, and the integers on the stacks of sleeping tasks: the
    event of a task points to [current_context] in the frame of its call. *)
Record slp : Type := Slp { kern : kst H; cells : gmap Z Z }.
Definition set_kern (k : kst H) (x : slp) : slp := Slp k (cells x).

(** The timer's events are blocks of the kernel's heap: the timer runs on top
    of the kernel state. *)
#[export] Instance slp_PrivateHeap : PrivateHeap slp := {
  heap_malloc hid size x := '(p, k) ← k_malloc hid size (kern x); mret (p, set_kern k x);
  heap_free hid p x := k ← k_free hid p (kern x); mret (set_kern k x);
  heap_alloc_private hid x :=
    let '(r, h) := heap_alloc_private hid (kheap (kern x)) in (r, set_kern (set_kheap h (kern x)) x);
  heap_free_private hid x :=
    let '(r, h) := heap_free_private hid (kheap (kern x)) in (r, set_kern (set_kheap h (kern x)) x);
}.

Definition on_kern (f : kst H -> res (kst H)) (s : tst slp) : res (tst slp) :=
  k ← f (kern (theap s)); mret (set_theap (set_kern k (theap s)) s).

(** The counter, the address of [wake_up_from_sleep], and the other
    handlers. *)
Context (cntr : nat -> Z) (wake_id : Z) (other : Z -> Z -> tst slp -> res (tst slp)).

Definition wake_up_from_sleep (tevent : Z) (s : tst slp) : res (tst slp) :=
  e ← of_opt (events s !! tevent);
  task_id ← of_opt (cells (theap s) !! ev_data e);
  s ← on_kern (schedule_task_id task_id) s;
  s ← upd_event tevent (fun e => set_ev_state (Z.land (ev_state e) (Z.lnot TIMER_STATE_EXECUTING)) e) s;
  '(_, s) ← timer_event_destroy tevent s;
  mret s.

Definition run_handler (h tevent : Z) (s : tst slp) : res (tst slp) :=
  if h =? wake_id then wake_up_from_sleep tevent s else other h tevent s.

(** [loc] is the address of [current_context].  The model ends where
    [schedule] has given the processor to another task: the call returns when
    the task is scheduled again. *)
Definition sw_sleep (loc secs : Z) (s : tst slp) : res (tst slp) :=
  let current_context := get_current_task_id (kern (theap s)) in
  let s := set_theap (Slp (kern (theap s)) (<[loc := current_context]> (cells (theap s)))) s in
  '(tevent, s) ← timer_event_create wake_id loc s;
  if tevent =? 0 then mret s else
  '(_, s) ← timer_event_start cntr tevent (tv (s32 (u32 secs)) 0) s;
  s ← on_kern (suspend_task current_context TASK_STATE_WAIT) s;
  on_kern scheduler s.

Definition sw_usleep (loc usecs : Z) (s : tst slp) : res (tst slp) :=
  let current_context := get_current_task_id (kern (theap s)) in
  let s := set_theap (Slp (kern (theap s)) (<[loc := current_context]> (cells (theap s)))) s in
  '(tevent, s) ← timer_event_create wake_id loc s;
  if tevent =? 0 then mret s else
  s ← on_kern (suspend_task current_context TASK_STATE_WAIT) s;
  '(_, s) ← timer_event_start cntr tevent (tv 0 (s32 (u32 (usecs * 1000)))) s;
  on_kern scheduler s.
End sleep.
Arguments slp : clear implicits.
