(* ===== verification/SleepSpec.v ===== *)
(** Sleeping: the task waits while its event is queued, and the event's
    handler makes it ready again and gives the event back. *)
From Stdlib Require Import Sorted.
From stdpp Require Import prelude gmap.
From S2P Require Import Prelude DList HeapIface Task Sched Timer Sleep.
#[local] Open Scope Z_scope.

(** ** The timer's side *)
Section events.
Context {T : Type} `{PrivateHeap T} (cntr : nat -> Z).

Lemma insert_q_app f a q : exists q1 q2, q = q1 ++ q2 /\ insert_q f a q = q1 ++ a :: q2.
Proof.
  induction q as [|b q (q1 & q2 & -> & E)]; cbn; [by exists [], []|].
  destruct (f a <? f b); [by exists [], (b :: q1 ++ q2)|]. exists (b :: q1), q2. by rewrite E.
Qed.

(** A new event leaves the queue alone. *)
Lemma event_create_ok hndl d q (s : tst T) p h :
  tq s q -> heap_malloc COMMON_HEAP_ID sizeof_timer_event (theap s) = Ret (p, h) -> p <> 0 -> p ∉ q ->
  exists s', timer_event_create hndl d s = Ret (p, s') /\ tq s' q /\ theap s' = h /\
    events s' = <[p := TimerEvent TIMEVAL_MAX hndl TIMER_STATE_INACTIVE TIMER_CALLBACK_HARDIRQ d]> (events s).
Proof.
  intros [D Hev Hs] Hp Hp0 Hq. unfold timer_event_create. rewrite Hp. cbn [mbind res_bind].
  rewrite (proj2 (Z.eqb_neq p 0) Hp0). eexists. split; [reflexivity|]. split; [|done]. constructor.
  - cbn. eapply dlist_same_off; [apply init_same_off| |exact D].
    intros j Hj ->%list_elem_of_singleton. apply elem_of_cons in Hj as [Hj|Hj]; [done|].
    apply list_elem_of_fmap in Hj as (x & [= <-] & Hx). done.
  - intros a Ha. destruct (Hev a Ha). split; [done|]. cbn. by rewrite lookup_insert_ne by (by intros ->).
  - eapply sorted_ext; [|exact Hs]. intros a Ha. unfold exp. cbn. by rewrite lookup_insert_ne by (by intros ->).
Qed.

(** Starting an event queues it, whatever the clock says. *)
Lemma event_start_ok q (s : tst T) a e time :
  tq s q -> a ∉ q -> events s !! a = Some e -> a <> 0 ->
  exists t s' q1 q2, timer_event_start cntr a time s = Ret (t, s') /\ q = q1 ++ q2 /\ tq s' (q1 ++ a :: q2) /\
    events s' !! a = Some (TimerEvent t (handler e) TIMER_STATE_ACTIVE (callback_mode e) (ev_data e)) /\
    theap s' = theap s.
Proof.
  intros Hq Ha Ee Ha0. unfold timer_event_start. rewrite (proj2 (Z.eqb_neq a 0) Ha0).
  destruct (read_timestamp cntr s) as [now s0] eqn:Er. unfold read_timestamp in Er. injection Er as <- <-.
  set (s0 := advance_clock _ _ _ s). set (t := timeval_add _ time). unfold upd_event.
  change (events s0) with (events s). rewrite Ee. cbn [of_opt mbind res_bind mret res_ret].
  set (s1 := set_events _ s0).
  assert (Hq1 : tq s1 q).
  { apply (tq_ext s); [done| |done]. intros c Hc. assert (c <> a) by (by intros ->).
    unfold exp. cbn. rewrite lookup_insert_ne by congruence. done. }
  destruct (queue_add_spec s1 q a (set_expires t e) Hq1 Ha) as (s2 & E2 & Hq2 & Hev2 & _ & Ht2);
    [cbn; by rewrite lookup_insert_eq|done|].
  rewrite E2. cbn [mbind res_bind]. destruct (insert_q_app (exp s1) a q) as (q1 & q2 & Eq & Ei). rewrite Ei in Hq2.
  assert (Ev : events s2 !! a = Some (TimerEvent t (handler e) TIMER_STATE_ACTIVE (callback_mode e) (ev_data e)))
    by (by rewrite Hev2, lookup_insert_eq).
  eexists t, _, q1, q2. split; [reflexivity|]. split; [done|].
  destruct (expires_next s2 >? t); [split; [by apply (tq_frame s2)|]|]; by split.
Qed.
End events.

(** ** The kernel's side *)
Section kernel.
Context {H : Type} `{PrivateHeap H}.

(** The blocks that the tasks own stay theirs. *)
Definition keeps (s s' : kst H) : Prop := forall a, blocks s' a = blocks s a.

Lemma keeps_trans s1 s2 s3 : keeps s1 s2 -> keeps s2 s3 -> keeps s1 s3.
Proof. intros H1 H2 a. by rewrite H2, H1. Qed.

Lemma upd_task_keeps a f (s s' : kst H) :
  (forall t, tls (f t) = tls t /\ task_sp (f t) = task_sp t) -> upd_task a f s = Ret s' -> keeps s s'.
Proof.
  intros Hf (t & Et%of_opt_Ret & [= <-])%res_bind_Ret b. unfold blocks. cbn.
  destruct (decide (a = b)) as [->|Hne]; [rewrite lookup_insert_eq, Et|by rewrite lookup_insert_ne].
  by destruct (Hf t) as [-> ->].
Qed.

Lemma suspend_keeps i st (s s' : kst H) : suspend_task i st s = Ret s' -> keeps s s'.
Proof.
  intros ([a|] & _ & E)%res_bind_Ret; [|by injection E as <-].
  apply res_bind_Ret in E as (s1 & E1 & [= <-]). apply upd_task_keeps in E1; [|done].
  by destruct (_ && _).
Qed.

Lemma get_next_keeps o (s s' : kst H) : get_next_task s = Ret (o, s') -> keeps s s'.
Proof.
  intros (c & _ & (em & _ & E)%res_bind_Ret)%res_bind_Ret. destruct em.
  { apply res_bind_Ret in E as (r & _ & [= _ <-]). done. }
  apply res_bind_Ret in E as ([l ls] & _ & (n & _ & (ag & _ & E)%res_bind_Ret)%res_bind_Ret).
  destruct ag; [by injection E as _ <-|]. apply res_bind_Ret in E as (r & _ & E).
  destruct c as [c|]; [|by injection E as _ <-]. destruct r; [|by injection E as _ <-].
  apply res_bind_Ret in E as (s1 & (l' & _ & [= <-])%res_bind_Ret & [= _ <-]). done.
Qed.

Lemma scheduler_keeps (s s' : kst H) : scheduler s = Ret s' -> keeps s s'.
Proof.
  intros (c & _ & ([n s1] & E1%get_next_keeps & (s2 & E2 & [= <-])%res_bind_Ret)%res_bind_Ret)%res_bind_Ret.
  assert (K2 : keeps s1 s2).
  { destruct (bool_decide _); [by injection E2 as <-|].
    apply res_bind_Ret in E2 as (s3 & E3 & (s4 & E4 & E5)%res_bind_Ret).
    assert (K3 : keeps s1 s3).
    { destruct n as [n|]; [|by injection E3 as <-]. apply res_bind_Ret in E3 as (s5 & E5' & (t & _ & [= <-])%res_bind_Ret).
      by apply upd_task_keeps in E5'. }
    assert (K4 : keeps s3 s4) by (destruct c as [c|]; [by apply upd_task_keeps in E4|by injection E4 as <-]).
    destruct n as [n|]; [apply res_bind_Ret in E5 as (t & _ & [= <-])|injection E5 as <-];
      intros a; rewrite <-K3, <-K4; done. }
  destruct n; intros a; rewrite <-E1, <-K2; done.
Qed.

Lemma keeps_owned adr (s s' : kst H) (g g' : vk) : keeps s s' -> ids g' = ids g -> owned adr s' g' = owned adr s g.
Proof. intros K E. unfold owned. rewrite E. apply list_bind_ext_elem. intros i _. apply K. Qed.

(** The task that waits is not chosen. *)
Lemma wait_tick g (g1 := v_tick (v_suspend (cur g) TASK_STATE_WAIT g)) :
  cur g ∈ ids g -> cur g ∉ rdy g ->
  ids g1 = ids g /\ v_state (cur g) g1 = TASK_STATE_WAIT /\ cur g ∉ rdy g1.
Proof.
  intros Hc Hr. unfold g1, v_suspend. rewrite decide_True by done. rewrite decide_False by (by intros [_ ?]).
  unfold v_tick, v_next. cbn [rdy set_vst].
  assert (Hrun : v_runnable (cur g) (set_vst (cur g) TASK_STATE_WAIT g) = false).
  { unfold v_runnable, v_state. cbn. by rewrite lookup_insert_eq. }
  assert (Hcur : v_cur (set_vst (cur g) TASK_STATE_WAIT g) = Some (cur g)) by (unfold v_cur; cbn; by rewrite decide_True).
  rewrite Hcur, Hrun. destruct (rdy g) as [|n l] eqn:E.
  - cbn. split; [done|]. split; [unfold v_state; cbn; by rewrite lookup_insert_eq|]. by rewrite E.
  - apply not_elem_of_cons in Hr as [Hn Hl]. rewrite (decide_False (P := cur g ∈ l)) by done. rewrite decide_False by (by intros [= ?]).
    cbn. split; [done|]. split; [|done]. unfold v_state. cbn. by rewrite lookup_insert_ne, lookup_insert_eq by done.
Qed.
End kernel.

(** ** Both together *)
Section sleeping.
Context {H : Type} `{PrivateHeap H, !PrivateHeapLaws H}.
Context (cntr : nat -> Z) (wake_id : Z) (other : Z -> Z -> tst (slp H) -> res (tst (slp H))).
Local Abbreviation kernel s := (kern (theap s)).
Local Abbreviation run_handler := (run_handler wake_id other).

Lemma on_kern_Ret f (s : tst (slp H)) k :
  f (kernel s) = Ret k -> on_kern f s = Ret (set_theap (set_kern k (theap s)) s).
Proof. intros E. unfold on_kern. by rewrite E. Qed.

(** The handler of a sleeping task's event. *)
Lemma wake_up_ok adr g c loc p (s : tst (slp H)) e :
  sched_rel adr (kernel s) g -> u32 c ∉ rdy g -> p ∉ owned adr (kernel s) g -> p <> 0 ->
  events s !! p = Some e -> ev_state e = TIMER_STATE_INACTIVE -> ev_data e = loc -> cells (theap s) !! loc = Some c ->
  exists s', wake_up_from_sleep p s = Ret s' /\ sched_rel adr (kernel s') (v_ready (u32 c) g) /\
    tlists s' = tlists s /\ events s' = delete p (events s).
Proof.
  intros R Hr Hp Hp0 Ee Est <- Ec. unfold wake_up_from_sleep. rewrite Ee. cbn [of_opt mbind res_bind]. rewrite Ec. cbn [of_opt mbind res_bind].
  destruct (schedule_task_id_rel adr _ g c R Hr) as (k & Ek & Rk). rewrite (on_kern_Ret _ s k Ek). cbn [mbind res_bind].
  unfold upd_event. cbn [events set_theap]. rewrite Ee. cbn [of_opt mbind res_bind mret res_ret]. rewrite Est.
  change (Z.land TIMER_STATE_INACTIVE (Z.lnot TIMER_STATE_EXECUTING)) with TIMER_STATE_INACTIVE.
  unfold timer_event_destroy. rewrite (proj2 (Z.eqb_neq p 0) Hp0). cbn [events set_events]. rewrite lookup_insert_eq.
  cbn [of_opt mbind res_bind ev_state set_ev_state Z.eqb]. change (TIMER_STATE_INACTIVE =? TIMER_STATE_INACTIVE) with true. cbv iota.
  assert (Ko : owned adr k (v_ready (u32 c) g) = owned adr (kernel s) g).
  { apply keeps_owned; [|unfold v_ready; by case_decide]. unfold schedule_task_id in Ek.
    apply res_bind_Ret in Ek as ([a|] & _ & Ek); [|by injection Ek as <-].
    apply res_bind_Ret in Ek as (k1 & E1 & (l & _ & [= <-])%res_bind_Ret). by apply upd_task_keeps in E1. }
  destruct (k_free_rel adr COMMON_HEAP_ID p k _ Rk) as (h & Ef & Rf); [by rewrite Ko|].
  cbn [heap_free slp_PrivateHeap theap set_events set_theap kern set_kern]. rewrite Ef. cbn [mbind res_bind mret res_ret].
  eexists. split; [reflexivity|]. split; [exact Rf|]. split; [done|]. cbn. by rewrite delete_insert_eq.
Qed.

(** Its run by the timer interrupt: the event leaves the queue. *)
Lemma run_sleeper adr g c p q1 q2 (s : tst (slp H)) e :
  tq s (q1 ++ p :: q2) -> sched_rel adr (kernel s) g -> u32 c ∉ rdy g -> p ∉ owned adr (kernel s) g ->
  events s !! p = Some e -> handler e = wake_id -> wake_id <> 0 -> cells (theap s) !! ev_data e = Some c ->
  exists s', (s0 ← upd_event p (set_ev_state TIMER_STATE_EXECUTING) s; __run_timer_handler run_handler p s0) = Ret s' /\
    tq s' (q1 ++ q2) /\ events s' !! p = None /\ sched_rel adr (kernel s') (v_ready (u32 c) g).
Proof.
  intros [D Hev Hs] R Hr Hp Ee Eh Hw Ec. destruct (Hev p) as [Hp0 _]; [set_solver|].
  assert (N : NoDup (q1 ++ p :: q2)).
  { pose proof (dlist_nodup _ _ _ D) as N. apply NoDup_cons in N as [_ N]. by apply NoDup_fmap_1 in N. }
  apply NoDup_app in N as (_ & N1 & [N2 _]%NoDup_cons).
  unfold upd_event, __run_timer_handler. rewrite Ee. cbn [of_opt mbind res_bind mret res_ret events set_events].
  rewrite lookup_insert_eq. cbn [of_opt mbind res_bind]. unfold timer_queue_del.
  rewrite (proj2 (Z.eqb_neq p 0) Hp0). cbn [tlists set_num_events set_events].
  rewrite fmap_app, fmap_cons in D. destruct (dlist_remove _ _ _ _ _ D) as (l & -> & D' & _). cbn [mbind res_bind].
  unfold upd_event. cbn [events set_tlists set_num_events set_events]. rewrite lookup_insert_eq.
  cbn [of_opt mbind res_bind mret res_ret handler set_ev_state]. rewrite Eh, (proj2 (Z.eqb_neq wake_id 0) Hw).
  unfold Sleep.run_handler. rewrite Z.eqb_refl.
  match goal with |- context [wake_up_from_sleep p ?x] => set (s3 := x) end.
  destruct (wake_up_ok adr g c (ev_data e) p s3 (set_ev_state TIMER_STATE_INACTIVE (set_ev_state TIMER_STATE_EXECUTING e)))
    as (s' & Ew & Rw & El & Ev); try done; [unfold s3; cbn; by rewrite lookup_insert_eq|].
  exists s'. split; [exact Ew|]. split; [|split; [by rewrite Ev, lookup_delete_eq|exact Rw]].
  assert (Hb : forall b, b ∈ q1 ++ q2 -> events s' !! b = events s !! b).
  { intros b Hb. assert (b <> p) by (intros ->; set_solver). rewrite Ev, lookup_delete_ne by done.
    unfold s3. cbn. by rewrite !lookup_insert_ne by done. }
  constructor.
  - rewrite El, fmap_app. exact D'.
  - intros b Hin. rewrite Hb by done. apply Hev. set_solver.
  - apply (sorted_ext (exp s)); [intros b Hin; unfold exp; by rewrite Hb|].
    clear - Hs. induction q1 as [|x q1 IH]; cbn in *; [by apply StronglySorted_inv in Hs as [? _]|].
    apply StronglySorted_inv in Hs as [Hs Hx]. constructor; [by apply IH|].
    rewrite Forall_app, Forall_cons in Hx. rewrite Forall_app. tauto.
Qed.

Lemma s32_u32 c : 0 <= c < 2 ^ 31 -> s32 c = c /\ u32 c = c.
Proof. intros Hc. split; [apply s32_id; unfold in_s32; lia|apply u32_id; unfold in_u32; lia]. Qed.

End sleeping.

(** A clock without events over a kernel. *)
Definition idle_clock (k : kst bump_heap) : tst (slp bump_heap) :=
  Tst (INIT_LIST_HEAD THead empty_lheap) ∅ TIMEVAL_MAX 0 (seconds 10) 0 7 7 None 0%nat (Slp k ∅).


(** ** Microseconds

    [usecs * 1000] is computed in 32 bits: the time wraps at 4294967 us, and
    from 2147484 us on it is negative. *)
Lemma usleep_wraps : s32 (u32 (4294968 * 1000)) = 704 /\ s32 (u32 (2147484 * 1000)) < 0.
Proof. by vm_compute. Qed.
